(* ===== verification/_CoqProject ===== *)
-Q . S2P
Prelude.v
Bits.v
Wire.v
Libevent.v
Session.v
Iecsock.v
Seqnum.v
Trace.v
Transmit.v
Receive.v
Stream.v
Link.v
Ieclink.v
Client.v
Samples.v
Server.v
Station.v
Duplex.v
Opening.v
Asdu.v
Heap.v
Posix.v
Process.v
Logging.v
Utils.v
Xalloc.v
QueControl.v
MsgStore.v
Quemngr.v
QueProps.v
QueSend.v
QueMain.v
QueClaims.v
Spool.v
Init.v
Flush.v
StartQue.v
QueRun.v
Restart.v
Syslog.v
StartSyslog.v
Iecproxy.v
ProxyProps.v
StartProxy.v
Sockwrite.v
Relay.v
Delivery.v
Wakeup.v
Lifecycle.v
