(* ===== verification/Prelude.v ===== *)
(** * A verification development for iec-utils

    iec-utils passes messages between a spool of files and a control station
    that speaks IEC 60870-5-104 over TCP.  Its programs are

    - ieclink (ieclink/ieclink.c), a client of the link layer
      (ieclink/iecsock.c): it prints each ASDU it receives as a line of
      hexadecimal digits and sends those it reads on standard input; server
      (ieclink/server.c) is a test program on the same link layer;
    - iecproxy (iecproxy/iecproxy.c), which runs ieclink as a child between
      two pipes, answers general interrogations, and takes messages from
      clients on a local socket;
    - sockwrite (sockwrite/sockwrite.c), such a client: it copies its
      standard input to the socket and exits with the outcome;
    - quemngr (quemngr/quemngr.c), the queue manager: messages are files named
      by their inode; it moves them from [drop] through the queue [in] and
      queues of growing delay, hands their numbers to a sender (a script that
      calls sockwrite), and acts on its responses;
    - syslogclient (quemngr/syslogclient/syslogclient.c), which forwards log
      lines and keeps them in a ring buffer while the server is away.

    ** How the code is modelled

    Each C function is one definition, with the function's name, its guards
    and early returns in the order of the code.  Code that mutates memory is
    written in a state monad over [outcome]: a normal return, a call of [exit],
    or a fault, the point at which the C code has undefined behaviour or fails
    an assertion.  Link layer, client and small components use [ST]; programs
    whose effects outlive them (files, descriptors) use [PR] (file Posix),
    which keeps the state when the process stops.  [wp] and [pwp] are the
    corresponding weakest preconditions; [wp] demands that the code returns,
    [pwp] takes a postcondition for a return, one for an exit, and the set of
    faults that may happen.  Integers are Z, with the C conversions written
    out ([u8], [u16], [i16], [i32], [u64]) where a value can leave its type.
    What the environment decides (results of system calls, bytes arriving, the
    order of directory entries, what [poll] reports) is part of the state or
    an argument, and theorems quantify over it.

    Not under src/ and therefore parameters: libevent (class [Libevent], its
    documented behaviour as [LibeventLaws], a reference instance [evview]),
    the directory order (class [Readdir]) and [qsort] (class [Qsort]: a sorted
    permutation).  libevent asks that [event_set] is called on an event before
    it is scheduled: a session keeps the set of events that have been prepared
    ([s_set]) and [ev_add] faults on any other.  The order in which [qsort]
    leaves the queues [act] and [in], which compare equal, is a hypothesis
    ([act_first]) of the theorems that depend on it.

    ** Files

    Shared: Prelude (this file: record update, outcomes, the monad [ST], [wp],
    integers, lists), Posix (the monad [PR], the file system and its failing
    calls), Process (descriptors, pipes, fork, getopt).

    Link layer, ieclink/iecsock.c, iecsock.h, iecsock_internal.h:
    - Bits, Wire: bit fields; [struct iechdr], frame types, frame headers;
    - Libevent, Session: the event library; [struct iecsock] and the world a
      callback runs in, with [w_live] false once the session is freed;
    - Iecsock: every function of iecsock.c;
    - Seqnum, Trace, Transmit, Receive, Stream: sequence numbers, traces of
      what a session writes and counts, the session invariant [sess_inv],
      sending, receiving against a protocol machine for any program whose
      hooks keep to the class [HookSpec] (which names the events a hook needs
      prepared), reassembly;
    - Link: the theorems about one session and one direction;
    - Station, Duplex: a session with the history of its connection; two of
      them with the bytes on their way, as a step relation.
    Programs on it:
    - Ieclink, Client: ieclink.c, with its waiting list as linked nodes in
      memory; the theorems; an instance of [HookSpec];
    - Server: server.c, another instance; Opening: client against server;
    - Samples: concrete sessions; Asdu: the structures of iec104_types.h and
      iec104.h as lists of members with their offsets and sizes.

    Queue manager, quemngr/:
    - Heap (heapfunc.c), Utils (utils.c), QueControl (quecontrol.c, on values),
      Logging (logging.c, of which iecproxy and sockwrite have copies);
    - Xalloc (quemngr/xalloc.c and ieclink/xalloc.c) on a memory of blocks,
      MsgStore: quecontrol.c's lists of messages on pointers to such blocks;
    - Quemngr: every function of quemngr.c and its loop, the locals of [main]
      in the record [qm]; [main_step] is one pass of the loop;
    - QueProps, QueSend, QueMain: the invariant [qinv] (queues in memory, their
      counters, files on disk and timers agree), [minv] for the loop, and what
      each operation does to them;
    - QueClaims, Init, Flush, StartQue: responses; start-up and recovery;
      termination of the flush; the set-up of [main] with the sender as child;
    - QueRun: runs, as a step relation on [qm] with passes of the loop, SIGHUP
      and SIGUSR1, and files put into [drop] or renamed there; Restart: lives of the process, one after the other on the
      files each leaves;
    - Spool: sample states.

    Others: Syslog, StartSyslog (syslogclient.c); Iecproxy, ProxyProps,
    StartProxy (iecproxy.c, its invariant [px_inv]); Sockwrite; Relay
    (sockwrite, iecproxy and ieclink's answers together); Delivery (these with
    ieclink's input and a session at the other end); Wakeup, Lifecycle (ieclink
    from one connection to the next: activation, messages, acknowledgements,
    the loss of the connection, the session that follows it).

    ** What the theorems show

    - Link layer (C1, C4-C7, C25): two sessions that agree when they start
      stay in agreement whatever their programs and timers do, as long as T3
      does not expire during a test: neither refuses
      a frame of the other, and each application gets exactly what the other
      session has written (for one write queue and its peer also
      [link_delivers]); reception implements a protocol machine for every
      frame; the send window holds at most k frames and is filled; exactly the
      acknowledged buffers are freed, unless the number is 32767; every outcome
      of connecting.
    - A message from sockwrite's input to the application at the other end of
      the connection, through the proxy, ieclink and two sessions (C2).
    - ieclink's connection (C3, C24): the handshake leads to a session to which
      C1 and C2 apply, and the message waiting on standard input is delivered,
      as far as the send window lets it, if no ASDU had to wait before;
      losing the connection releases everything the session owned, tells the
      program, and registers the next session.
    - Queue manager (C8-C14, C16, C17, C30; [queue_sort_orders],
      [response_line_read]): start-up from any
      consistent spool reaches the invariant with every message queued again,
      if [qsort] puts [act] first;
      each pass of the loop keeps it for every result of [poll] and whatever the
      sender writes; over any run, and over any number of restarts, no message
      file disappears before the message has been handed to the sender, and a
      response loses none that it does not report as delivered, whichever call
      fails; messages are taken from [drop], deferred and failed as they should
      be; flushing terminates when the sender answers.  In these theorems a
      file in [drop] may have any name, but one that reads as its number is that
      number ([disk_ok]).  The invariant says nothing of the counter [conf],
      and of a timer only that it names an existing queue.
    - Its data structures (C22, C23, C27): the heap is a priority queue, and
      draining it sorts; the message lists neither leak nor use freed memory.
    - Proxy (C15, C18, C19): safety of start-up and of each pass;
      interrogations are answered as they should be ([message_relayed] for
      messages).
    - Client (C20, C21, C26), syslog client (C28, C29), log lines (C31); the
      server in [server_sends_once]; object layouts in [object_sizes] and
      [objects_disjoint].
    - Defects (C32-C40): an event scheduled before it has been prepared, use of
      a session after it has been freed, the roles
      with which client and server refuse each other, a message confirmed while
      part of it is unacknowledged, a lost message confirmed on the next
      connection, a dangling list pointer, a ring buffer overrun, standard input
      that is never read again, a message that can no longer be sent after a
      crash.  Lemmas for others stand beside them
      ([large_inode_timer_dropped], [bad_header_use_after_free], [split_header_assertion],
      [end_mark_drops_rest], [sig_term_reads_past_end],
      [second_client_displaces], [no_answer_reports_success],
      [init_depends_on_qsort], [spawn_needs_stdin], [unit_id_misreads],
      [second_test_faults], [flush_spins_without_answer]).

    ** Fuel

    Loops over data that shrinks are given its size: the write queue
    ([write_loop]), the input buffer ([read_loop]), the bytes a response loop
    can still read ([feed_size]), the stored lines ([send_store]), the chunks a
    client sends ([reads_size]); the theorems show that [OutOfFuel] does not
    happen.  [flush_queue] has no such bound in the code either: its fuel is an
    argument, [flush_queue_terminates] says how many rounds are enough and
    [flush_spins_without_answer] that without an answer none are.

    ** Not modelled

    libevent, the C library's formatting and the kernel beyond what is above;
    log output other than [logmsg] itself; the debug macros,
    [uframe_func_to_string] and [frame_to_string]; [iecasdu_parse], which is
    declared and not defined; the shell scripts.  Memory runs out where ieclink
    allocates and in MsgStore; Heap and Quemngr take [xmalloc] to succeed, whose
    failure is an exit like those of other calls.  The heap's sizes are [nat],
    not [int]: they would have to reach 2^30 timers to matter.  Signals are
    delivered, and processes killed, between
    two steps of a loop; files are put into [drop] and renamed there, by
    [putqueue] of scripts/utils/db_utils, between two passes too; writes to pipes are not short, and ids of processes
    are positive.  Standard input of ieclink is a list of reads: [read] blocks in
    the program, so that an empty list is its end.  Which callback libevent runs
    next is left open; theorems about several give their order or hold for every
    one.  In Duplex a connection neither loses bytes nor ends, and
    headers arrive whole (a header cut in two fails an assertion,
    [split_header_assertion]). *)

From stdpp Require Export base tactics list numbers strings gmap.
From Stdlib Require Export ZArith Lia.

(** ** Record update *)

Declare Scope iec_scope.
Delimit Scope iec_scope with iec.

(** [rebuild] applies a record's constructor to its own projections;
    [upd proj f r] is [r] with the field [proj] mapped through [f]. *)
Class Rebuild (R : Type) := rebuild : R -> R.
Class Updater {R F : Type} (proj : R -> F) := upd_field : (F -> F) -> R -> R.
Definition upd {R F : Type} (proj : R -> F) {U : Updater proj} (f : F -> F) (r : R) : R :=
  U f r.
Arguments upd {_ _} _ {_} _ _ /.

Notation "r '<|' p ':=' v '|>'" := (upd p (fun _ => v) r)
  (at level 1, left associativity, p at level 9, v at level 200,
   format "r  '<|'  p  ':='  v  '|>'") : iec_scope.
Open Scope iec_scope.

Ltac solve_updater :=
  match goal with
  | |- @Updater ?R ?F ?p =>
      let f := fresh "f" in let r := fresh "r" in
      refine (fun (f : F -> F) (r : R) => _);
      let e := eval cbv beta delta [rebuild] in (rebuild r) in
      let e := match e with
               | ?i r => let i' := eval red in i in eval cbv beta in (i' r)
               | _ => e
               end in
      match eval pattern (p r) in e with
      | ?g _ => let t := eval cbv beta in (g (f (p r))) in exact t
      end
  end.

(** ** Machine integers *)

Open Scope Z_scope.

Definition u8 (z : Z) : Z := z mod 256.
Definition u16 (z : Z) : Z := z mod 65536.
Definition u64 (z : Z) : Z := z mod 18446744073709551616.
Definition i16 (z : Z) : Z := (z + 32768) mod 65536 - 32768.
Definition i32 (z : Z) : Z := (z + 2147483648) mod 4294967296 - 2147483648.

Definition is_u8 (z : Z) : Prop := 0 <= z < 256.
Definition is_u16 (z : Z) : Prop := 0 <= z < 65536.
Abbreviation bytes := (list Z).
Definition all_u8 (l : bytes) : Prop := Forall is_u8 l.

#[export] Instance is_u8_dec z : Decision (is_u8 z).
Proof. unfold is_u8. apply _. Defined.
#[export] Instance all_u8_dec l : Decision (all_u8 l).
Proof. unfold all_u8. apply _. Defined.

Lemma u8_small z : 0 <= z < 256 -> u8 z = z.
Proof. apply Z.mod_small. Qed.
Lemma u8_range z : is_u8 (u8 z).
Proof. apply Z.mod_pos_bound. lia. Qed.
Lemma u16_small z : 0 <= z < 65536 -> u16 z = z.
Proof. apply Z.mod_small. Qed.
Lemma i32_small z : -2147483648 <= z < 2147483648 -> i32 z = z.
Proof. intros H. unfold i32. rewrite Z.mod_small; lia. Qed.
Lemma i16_small z : -32768 <= z < 32768 -> i16 z = z.
Proof. intros H. unfold i16. rewrite Z.mod_small; lia. Qed.

(** ** Strings *)

(** The characters of a literal. *)
Definition codes (s : string) : bytes :=
  map (fun c => Z.of_N (Ascii.N_of_ascii c)) (String.list_ascii_of_string s).

(** A string in a buffer: the bytes before the first zero. *)
Fixpoint cstr (l : bytes) : bytes :=
  match l with c :: l' => if c =? 0 then [] else c :: cstr l' | [] => [] end.

(** ** Outcomes of C code

    [Done] is a normal return, [Faulted] the point at which the C code
    runs into undefined behaviour or a failed [assert], or waits for input
    that does not come ([Blocked]), and [Exited] a call of [exit].
    [OutOfFuel] is not a behaviour of the code: it marks a bound on a loop
    that was too small. *)

Inductive fault :=
  | UseAfterFree
  | OutOfBounds
  | NullDeref
  | Uninitialised
  | AssertFailed
  | Blocked
  | OutOfFuel.

#[export] Instance fault_eq_dec : EqDecision fault.
Proof. solve_decision. Defined.

Inductive outcome (A : Type) :=
  | Done (a : A)
  | Faulted (f : fault)
  | Exited (code : Z).
Arguments Done {_} _.
Arguments Faulted {_} _.
Arguments Exited {_} _.

(** The state monad over outcomes in which the handlers are written. *)
Definition ST (W A : Type) : Type := W -> outcome (A * W).

#[export] Instance st_ret W : MRet (ST W) := fun A a w => Done (a, w).
#[export] Instance st_bind W : MBind (ST W) := fun A B k m w =>
  match m w with
  | Done (a, w') => k a w'
  | Faulted f => Faulted f
  | Exited c => Exited c
  end.

Definition get {W} : ST W W := fun w => Done (w, w).
Definition gets {W A} (f : W -> A) : ST W A := fun w => Done (f w, w).
Definition modify {W} (f : W -> W) : ST W unit := fun w => Done (tt, f w).
Definition stop {W A} (f : fault) : ST W A := fun _ => Faulted f.
Definition exit_with {W A} (code : Z) : ST W A := fun _ => Exited code.
Definition skip {W} : ST W unit := mret tt.
Definition when {W} (b : bool) (m : ST W unit) : ST W unit := if b then m else skip.

(** ** Total correctness

    [wp m Q w]: run from [w], [m] returns normally, and its result and final
    state satisfy [Q].  Faults and exits do not satisfy any [wp]. *)
Definition wp {W A} (m : ST W A) (Q : A -> W -> Prop) (w : W) : Prop :=
  match m w with
  | Done (a, w') => Q a w'
  | _ => False
  end.

Section wp_rules.
Context {W A B : Type}.
Implicit Types (m : ST W A) (k : A -> ST W B) (w : W).

Lemma wp_ret (a : A) (Q : A -> W -> Prop) w : Q a w -> wp (mret a) Q w.
Proof. done. Qed.

Lemma wp_bind m k Q w : wp m (fun a w' => wp (k a) Q w') w -> wp (m ≫= k) Q w.
Proof. unfold wp, mbind, st_bind. by destruct (m w) as [[a w']| |]. Qed.

Lemma wp_bind_inv m k Q w : wp (m ≫= k) Q w -> wp m (fun a w' => wp (k a) Q w') w.
Proof. unfold wp, mbind, st_bind. by destruct (m w) as [[a w']| |]. Qed.

(** Running a bind, when the outcome itself is of interest. *)
Lemma bind_eq m k R w : wp m (fun a w' => k a w' = R) w -> (m ≫= k) w = R.
Proof. unfold wp, mbind, st_bind. by destruct (m w) as [[a w']| |]. Qed.

Lemma bind_faults_l m k x w : m w = Faulted x -> (m ≫= k) w = Faulted x.
Proof. unfold mbind, st_bind. by intros ->. Qed.

Lemma wp_mono m (Q Q' : A -> W -> Prop) w :
  wp m Q w -> (forall a w', Q a w' -> Q' a w') -> wp m Q' w.
Proof. unfold wp. destruct (m w) as [[a w']| |]; eauto. Qed.

Lemma wp_and m (Q Q' : A -> W -> Prop) w :
  wp m Q w -> wp m Q' w -> wp m (fun a w' => Q a w' /\ Q' a w') w.
Proof. unfold wp. destruct (m w) as [[a w']| |]; eauto. Qed.

Lemma wp_done m (Q : A -> W -> Prop) w :
  wp m Q w <-> exists a w', m w = Done (a, w') /\ Q a w'.
Proof.
  unfold wp. split.
  - destruct (m w) as [[a w']| |]; naive_solver.
  - intros (a & w' & -> & H). done.
Qed.

Lemma wp_run m a w' (Q : A -> W -> Prop) w : m w = Done (a, w') -> wp m Q w -> Q a w'.
Proof. unfold wp. by intros ->. Qed.

Lemma wp_eq m a w' (Q : A -> W -> Prop) w : m w = Done (a, w') -> Q a w' -> wp m Q w.
Proof. unfold wp. by intros ->. Qed.

Lemma wp_gets (f : W -> A) (Q : A -> W -> Prop) w : Q (f w) w -> wp (gets f) Q w.
Proof. done. Qed.

Lemma wp_if (b : bool) m m' Q w :
  (b = true -> wp m Q w) -> (b = false -> wp m' Q w) -> wp (if b then m else m') Q w.
Proof. destruct b; auto. Qed.
End wp_rules.

Lemma wp_modify {W} (f : W -> W) (Q : unit -> W -> Prop) w : Q tt (f w) -> wp (modify f) Q w.
Proof. done. Qed.

Lemma wp_get {W} (Q : W -> W -> Prop) w : Q w w -> wp get Q w.
Proof. done. Qed.

Lemma wp_when {W} (b : bool) (m : ST W unit) Q w :
  (b = true -> wp m Q w) -> (b = false -> Q tt w) -> wp (when b m) Q w.
Proof. destruct b; intros H1 H2; [by apply H1 | by apply wp_ret, H2]. Qed.

Create HintDb wp discriminated.
#[export] Hint Resolve wp_ret wp_bind wp_gets wp_modify wp_get : wp.

(** One step of symbolic execution, and all the steps that need no choice. *)
Ltac wp_step :=
  lazymatch goal with
  | |- wp (mret _) _ _ => apply wp_ret
  | |- wp skip _ _ => apply wp_ret
  | |- wp (_ ≫= _) _ _ => apply wp_bind
  | |- wp (gets _) _ _ => apply wp_gets
  | |- wp get _ _ => apply wp_get
  | |- wp (modify _) _ _ => apply wp_modify
  end; cbv beta.
Ltac wp_steps := repeat wp_step.

Ltac split_if :=
  match goal with
  | |- context [if ?b then _ else _] =>
      lazymatch b with
      | context [if _ then _ else _] => fail
      | _ => destruct b eqn:?
      end
  end.

(** Turn boolean comparisons in the context into propositions. *)
Ltac bool_hyps :=
  repeat match goal with
  | H : (_ && _)%bool = true |- _ => apply andb_true_iff in H as [? ?]
  | H : (_ || _)%bool = false |- _ => apply orb_false_iff in H as [? ?]
  | H : negb _ = true |- _ => apply negb_true_iff in H
  | H : negb _ = false |- _ => apply negb_false_iff in H
  | H : Z.eqb _ _ = true |- _ => apply Z.eqb_eq in H
  | H : Z.eqb _ _ = false |- _ => apply Z.eqb_neq in H
  | H : Z.ltb _ _ = true |- _ => apply Z.ltb_lt in H
  | H : Z.ltb _ _ = false |- _ => apply Z.ltb_ge in H
  | H : Z.leb _ _ = true |- _ => apply Z.leb_le in H
  | H : Z.leb _ _ = false |- _ => apply Z.leb_gt in H
  | H : bool_decide _ = true |- _ => apply bool_decide_eq_true in H
  | H : bool_decide _ = false |- _ => apply bool_decide_eq_false in H
  end.
