(* ===== verification/Bits.v ===== *)
(** * Bit-fields

    The C sources lay out the protocol headers as packed bit-fields.  A
    bit-field is a slice of a little-endian storage unit: [bf_get w o n] reads
    the [n] bits of [w] that start at bit [o], [bf_set w o n v] stores the [n]
    low bits of [v] there and leaves every other bit of [w] alone, which is
    what assigning to a bit-field member does. *)

From S2P Require Import Prelude.

Definition bf_get (w o n : Z) : Z := Z.land (Z.shiftr w o) (Z.ones n).
Definition bf_set (w o n v : Z) : Z :=
  Z.lor (Z.ldiff w (Z.shiftl (Z.ones n) o)) (Z.shiftl (Z.land v (Z.ones n)) o).

(** A 16-bit storage unit as its two bytes, low byte first (x86). *)
Definition le16 (lo hi : Z) : Z := Z.lor lo (Z.shiftl hi 8).
Definition lo8 (w : Z) : Z := Z.land w 255.
Definition hi8 (w : Z) : Z := Z.land (Z.shiftr w 8) 255.

Lemma bf_get_spec w o n i :
  0 <= o -> 0 <= n -> 0 <= i ->
  Z.testbit (bf_get w o n) i = (i <? n) && Z.testbit w (i + o).
Proof.
  intros. unfold bf_get. rewrite Z.land_spec, Z.shiftr_spec by lia.
  rewrite Z.testbit_ones_nonneg by lia. apply andb_comm.
Qed.

Lemma bf_set_spec w o n v i :
  0 <= o -> 0 <= n -> 0 <= i ->
  Z.testbit (bf_set w o n v) i =
    if (o <=? i) && (i <? o + n) then Z.testbit v (i - o) else Z.testbit w i.
Proof.
  intros. unfold bf_set.
  rewrite Z.lor_spec, Z.ldiff_spec, !Z.shiftl_spec by lia.
  destruct (Z.leb_spec o i); simpl.
  - rewrite Z.land_spec, !Z.testbit_ones_nonneg by lia.
    replace (i - o <? n) with (i <? o + n) by lia.
    destruct (i <? o + n); simpl;
      rewrite ?andb_false_r, ?andb_true_r, ?orb_false_r, ?orb_false_l; done.
  - rewrite !(Z.testbit_neg_r _ (i - o)) by lia.
    by rewrite andb_true_r, orb_false_r.
Qed.

Lemma bf_get_range w o n : 0 <= n -> 0 <= bf_get w o n < 2 ^ n.
Proof. intros. unfold bf_get. rewrite Z.land_ones by lia. apply Z.mod_pos_bound. lia. Qed.

Lemma bf_get_mod w n : 0 <= n -> bf_get w 0 n = w mod 2 ^ n.
Proof. intros. unfold bf_get. rewrite Z.shiftr_0_r. by apply Z.land_ones. Qed.

Lemma bf_get_set w o n v :
  0 <= o -> 0 <= n -> bf_get (bf_set w o n v) o n = v mod 2 ^ n.
Proof.
  intros. apply Z.bits_inj'. intros i ?.
  rewrite bf_get_spec, bf_set_spec by lia.
  rewrite <- Z.land_ones, Z.land_spec, Z.testbit_ones_nonneg by lia.
  destruct (Z.ltb_spec i n); simpl; [|by rewrite andb_false_r].
  replace ((o <=? i + o) && (i + o <? o + n)) with true by lia.
  by rewrite Z.add_simpl_r, andb_true_r.
Qed.

Lemma bf_get_set_other w o n v o' n' :
  0 <= o -> 0 <= n -> 0 <= o' -> 0 <= n' -> o' + n' <= o \/ o + n <= o' ->
  bf_get (bf_set w o n v) o' n' = bf_get w o' n'.
Proof.
  intros. apply Z.bits_inj'. intros i ?.
  rewrite !bf_get_spec, bf_set_spec by lia.
  destruct (Z.ltb_spec i n'); simpl; [|done].
  by replace ((o <=? i + o') && (i + o' <? o + n)) with false by lia.
Qed.

(** A nonnegative number is below [2 ^ n] when its bits from [n] on are clear. *)
Lemma bits_below w n :
  0 <= n -> 0 <= w -> (forall i, n <= i -> Z.testbit w i = false) -> w < 2 ^ n.
Proof.
  intros Hn Hw Hb. destruct (Z.eq_dec w 0) as [->|]; [lia|].
  apply Z.log2_lt_pow2; [lia|]. apply Z.nle_gt. intros Hle.
  specialize (Hb (Z.log2 w) Hle). rewrite Z.bit_log2 in Hb by lia. done.
Qed.

Lemma bits_above w n i : 0 <= w < 2 ^ n -> 0 <= n <= i -> Z.testbit w i = false.
Proof.
  intros Hw Hi. rewrite <- (Z.mod_small w (2 ^ n)) by lia.
  apply Z.mod_pow2_bits_high. lia.
Qed.

Lemma bf_set_range w o n v N :
  0 <= o -> 0 <= n -> o + n <= N -> 0 <= w < 2 ^ N -> 0 <= bf_set w o n v < 2 ^ N.
Proof.
  intros ??? Hw.
  assert (0 <= bf_set w o n v).
  { unfold bf_set. apply Z.lor_nonneg. split; [apply Z.ldiff_nonneg; lia|].
    apply Z.shiftl_nonneg. rewrite Z.land_ones by lia. apply Z.mod_pos_bound. lia. }
  split; [done|]. apply bits_below; [lia|done|]. intros i ?.
  rewrite bf_set_spec by lia.
  replace ((o <=? i) && (i <? o + n)) with false by lia.
  apply (bits_above w N); lia.
Qed.

Lemma le16_spec lo hi i :
  is_u8 lo -> 0 <= i ->
  Z.testbit (le16 lo hi) i = if i <? 8 then Z.testbit lo i else Z.testbit hi (i - 8).
Proof.
  intros Hlo ?. unfold le16. rewrite Z.lor_spec, Z.shiftl_spec by lia.
  destruct (Z.ltb_spec i 8).
  - by rewrite (Z.testbit_neg_r hi), orb_false_r by lia.
  - by rewrite (bits_above lo 8) by (unfold is_u8 in Hlo; lia).
Qed.

Lemma le16_range lo hi : is_u8 lo -> is_u8 hi -> 0 <= le16 lo hi < 2 ^ 16.
Proof.
  intros Hlo Hhi. unfold is_u8 in *.
  assert (0 <= le16 lo hi).
  { unfold le16. apply Z.lor_nonneg. split; [lia|]. apply Z.shiftl_nonneg. lia. }
  split; [done|]. apply bits_below; [lia|done|]. intros i ?.
  rewrite le16_spec by (unfold is_u8; lia).
  replace (i <? 8) with false by lia. apply (bits_above hi 8); lia.
Qed.

Lemma lo8_range w : is_u8 (lo8 w).
Proof. unfold lo8. change 255 with (Z.ones 8). rewrite Z.land_ones by lia. apply Z.mod_pos_bound. lia. Qed.
Lemma hi8_range w : is_u8 (hi8 w).
Proof. unfold hi8. change 255 with (Z.ones 8). rewrite Z.land_ones by lia. apply Z.mod_pos_bound. lia. Qed.

Lemma lo8_spec w i : 0 <= i -> Z.testbit (lo8 w) i = (i <? 8) && Z.testbit w i.
Proof.
  intros. unfold lo8. change 255 with (Z.ones 8).
  rewrite Z.land_spec, Z.testbit_ones_nonneg by lia. apply andb_comm.
Qed.
Lemma hi8_spec w i : 0 <= i -> Z.testbit (hi8 w) i = (i <? 8) && Z.testbit w (i + 8).
Proof.
  intros. unfold hi8. change 255 with (Z.ones 8).
  rewrite Z.land_spec, Z.shiftr_spec, Z.testbit_ones_nonneg by lia. apply andb_comm.
Qed.

Lemma le16_lo_hi w : 0 <= w < 2 ^ 16 -> le16 (lo8 w) (hi8 w) = w.
Proof.
  intros Hw. apply Z.bits_inj'. intros i ?.
  rewrite le16_spec by (apply lo8_range || lia).
  destruct (Z.ltb_spec i 8).
  - rewrite lo8_spec by lia. by replace (i <? 8) with true by lia.
  - rewrite hi8_spec, Z.sub_add by lia.
    destruct (Z.ltb_spec (i - 8) 8); simpl; [done|].
    symmetry. apply (bits_above w 16); lia.
Qed.

Lemma lo8_le16 lo hi : is_u8 lo -> lo8 (le16 lo hi) = lo.
Proof.
  intros Hlo. apply Z.bits_inj'. intros i ?.
  rewrite lo8_spec, le16_spec by (done || lia).
  destruct (Z.ltb_spec i 8); simpl; [done|].
  symmetry. apply (bits_above lo 8); unfold is_u8 in *; lia.
Qed.

Lemma hi8_le16 lo hi : is_u8 lo -> is_u8 hi -> hi8 (le16 lo hi) = hi.
Proof.
  intros Hlo Hhi. apply Z.bits_inj'. intros i ?.
  rewrite hi8_spec, le16_spec by (done || lia).
  destruct (Z.ltb_spec i 8); simpl.
  - by replace (i + 8 <? 8) with false by lia; rewrite Z.add_simpl_r.
  - symmetry. apply (bits_above hi 8); unfold is_u8 in *; lia.
Qed.

(** Reading a whole unit back field by field: two adjacent slices. *)
Lemma bf_get_lo8 w o n : 0 <= o -> 0 <= n -> o + n <= 8 -> bf_get (lo8 w) o n = bf_get w o n.
Proof.
  intros. apply Z.bits_inj'. intros i ?.
  rewrite !bf_get_spec, lo8_spec by lia.
  destruct (Z.ltb_spec i n); simpl; [|done].
  by replace (i + o <? 8) with true by lia.
Qed.

Create HintDb bits discriminated.
#[export] Hint Resolve u8_range lo8_range hi8_range le16_range : bits.
Create Rewrite HintDb bits.
#[export] Hint Rewrite bf_get_set le16_lo_hi using lia : bits.
