(* ===== verification/Wire.v ===== *)
(** * The APDU header and its frame formats

    [struct iec_buf], [struct iechdr] and the bit-field union inside it
    (ieclink/iecsock.h), the frame classification helpers
    (ieclink/iecsock_internal.h) and the three header builders of
    ieclink/iecsock.c.  The union is kept as the four control bytes it
    overlays; each bit-field member is a slice of them, laid out as on x86
    (little endian, first member in the low bits). *)

From S2P Require Import Prelude Bits.

(** ** Constants *)
Definition IEC104_BUF_LEN : Z := 255.
Definition IEC_PORT_DEFAULT : Z := 2404.
Definition IEC104_CTRL_LEN : Z := 4.
Definition IEC104_ASDU_MAX : Z := 249.
Definition IEC_APDU_MAX : Z := 253.
Definition IEC_APDU_MIN : Z := 4.
Definition sizeof_iechdr : Z := 6.
Definition sizeof_iec_ctl : Z := 4.

Inductive frame_kind := FRAME_TYPE_I | FRAME_TYPE_S | FRAME_TYPE_U.
Inductive uframe_fn := STARTACT | STARTCON | STOPACT | STOPCON | TESTACT | TESTCON.

#[export] Instance frame_kind_eq_dec : EqDecision frame_kind.
Proof. solve_decision. Defined.
#[export] Instance uframe_fn_eq_dec : EqDecision uframe_fn.
Proof. solve_decision. Defined.

(** ** Headers and buffers *)
Record iechdr := {
  start : Z;
  hlength : Z;
  raw0 : Z;
  raw1 : Z;
  raw2 : Z;
  raw3 : Z;
}.

#[export] Instance iechdr_rebuild : Rebuild iechdr := fun h =>
  Build_iechdr (start h) (hlength h) (raw0 h) (raw1 h) (raw2 h) (raw3 h).
#[export] Instance upd_start : Updater start. Proof. solve_updater. Defined.
#[export] Instance upd_hlength : Updater hlength. Proof. solve_updater. Defined.
#[export] Instance upd_raw0 : Updater raw0. Proof. solve_updater. Defined.
#[export] Instance upd_raw1 : Updater raw1. Proof. solve_updater. Defined.
#[export] Instance upd_raw2 : Updater raw2. Proof. solve_updater. Defined.
#[export] Instance upd_raw3 : Updater raw3. Proof. solve_updater. Defined.

#[export] Instance iechdr_eq_dec : EqDecision iechdr.
Proof. solve_decision. Defined.

(** The data bytes follow the header in the same allocation. *)
Record iec_buf := {
  data_len : Z;
  bh : iechdr;
  bdata : bytes;
}.

#[export] Instance iec_buf_rebuild : Rebuild iec_buf := fun b =>
  Build_iec_buf (data_len b) (bh b) (bdata b).
#[export] Instance upd_data_len : Updater data_len. Proof. solve_updater. Defined.
#[export] Instance upd_bh : Updater bh. Proof. solve_updater. Defined.
#[export] Instance upd_bdata : Updater bdata. Proof. solve_updater. Defined.

#[export] Instance iec_buf_eq_dec : EqDecision iec_buf.
Proof. solve_decision. Defined.

Definition zero_hdr : iechdr := Build_iechdr 0 0 0 0 0 0.

(** The header's memory image, and a header read from memory. *)
Definition hdr_bytes (h : iechdr) : bytes :=
  [start h; hlength h; raw0 h; raw1 h; raw2 h; raw3 h].

Definition hdr_of_bytes (l : bytes) : iechdr :=
  Build_iechdr (nth 0 l 0) (nth 1 l 0) (nth 2 l 0) (nth 3 l 0) (nth 4 l 0) (nth 5 l 0).

Definition hdr_ok (h : iechdr) : Prop := all_u8 (hdr_bytes h).

(** ** The union's members *)
Definition ic_ft (h : iechdr) : Z := bf_get (raw0 h) 0 1.
Definition ic_ns (h : iechdr) : Z := bf_get (le16 (raw0 h) (raw1 h)) 1 15.
Definition ic_nr (h : iechdr) : Z := bf_get (le16 (raw2 h) (raw3 h)) 1 15.
Definition sc_nr (h : iechdr) : Z := bf_get (le16 (raw2 h) (raw3 h)) 1 15.

Definition set_raw0_bits (o n v : Z) (h : iechdr) : iechdr :=
  h <| raw0 := bf_set (raw0 h) o n v |>.
Definition set_ic_ft (v : Z) : iechdr -> iechdr := set_raw0_bits 0 1 v.
Definition set_sc_ft (v : Z) : iechdr -> iechdr := set_raw0_bits 0 1 v.
Definition set_uc_ft (v : Z) : iechdr -> iechdr := set_raw0_bits 0 2 v.
Definition set_ic_ns (v : Z) (h : iechdr) : iechdr :=
  let w := bf_set (le16 (raw0 h) (raw1 h)) 1 15 v in
  h <| raw0 := lo8 w |> <| raw1 := hi8 w |>.
Definition set_ic_nr (v : Z) (h : iechdr) : iechdr :=
  let w := bf_set (le16 (raw2 h) (raw3 h)) 1 15 v in
  h <| raw2 := lo8 w |> <| raw3 := hi8 w |>.
Definition set_sc_nr : Z -> iechdr -> iechdr := set_ic_nr.

(** ** Classification *)
Definition frame_type (h : iechdr) : frame_kind :=
  if Z.land (raw0 h) 1 =? 0 then FRAME_TYPE_I
  else if Z.land (raw0 h) 2 =? 0 then FRAME_TYPE_S
  else FRAME_TYPE_U.

Definition uframe_func (h : iechdr) : uframe_fn :=
  if negb (Z.land (raw0 h) 4 =? 0) then STARTACT
  else if negb (Z.land (raw0 h) 8 =? 0) then STARTCON
  else if negb (Z.land (raw0 h) 16 =? 0) then STOPACT
  else if negb (Z.land (raw0 h) 32 =? 0) then STOPCON
  else if negb (Z.land (raw0 h) 64 =? 0) then TESTACT
  else TESTCON.

(** ** Header builders *)

(** The header [iecsock_uframe_send] writes: one of the six function bits, in
    the order of the [if] chain, on top of [ft = 3]. *)
Definition uframe_bit (func : uframe_fn) : Z :=
  match func with
  | STARTACT => 2 | STARTCON => 3
  | STOPACT => 4 | STOPCON => 5
  | TESTACT => 6 | TESTCON => 7
  end.

Definition uframe_hdr (func : uframe_fn) : iechdr :=
  set_raw0_bits (uframe_bit func) 1 1
    (set_uc_ft 3 (zero_hdr <| start := 104 |> <| hlength := sizeof_iec_ctl |>)).

Definition sframe_hdr (vr : Z) : iechdr :=
  set_sc_nr vr (set_sc_ft 1 (zero_hdr <| start := 104 |> <| hlength := sizeof_iec_ctl |>)).

Definition iecsock_prepare_iframe (b : iec_buf) : iec_buf :=
  b <| bh := set_ic_ft 0 ((bh b) <| start := 104 |>
                            <| hlength := u8 (data_len b + sizeof_iec_ctl) |>) |>.

(** The bytes [bufferevent_write(s->io, h, h->length + 2)] sends. *)
Definition apdu_bytes (b : iec_buf) : bytes :=
  take (Z.to_nat (hlength (bh b) + 2)) (hdr_bytes (bh b) ++ bdata b).

(** ** Lemmas on members *)

Lemma hdr_of_hdr_bytes h l : hdr_of_bytes (hdr_bytes h ++ l) = h.
Proof. by destruct h. Qed.

Lemma hdr_bytes_of_bytes a b c d e f l :
  hdr_bytes (hdr_of_bytes (a :: b :: c :: d :: e :: f :: l)) = [a; b; c; d; e; f].
Proof. done. Qed.

Lemma hdr_ok_inv h :
  hdr_ok h <-> is_u8 (start h) /\ is_u8 (hlength h) /\ is_u8 (raw0 h) /\ is_u8 (raw1 h)
               /\ is_u8 (raw2 h) /\ is_u8 (raw3 h).
Proof. unfold hdr_ok, all_u8, hdr_bytes. rewrite !Forall_cons, Forall_nil. tauto. Qed.

Ltac hdr_ok_tac :=
  repeat match goal with H : hdr_ok _ |- _ => apply hdr_ok_inv in H as (?&?&?&?&?&?) end;
  try (apply hdr_ok_inv); simpl; split_and!; auto with bits.

Lemma hdr_ok_set_ns v h : hdr_ok h -> hdr_ok (set_ic_ns v h).
Proof. intros. hdr_ok_tac. Qed.
Lemma hdr_ok_set_nr v h : hdr_ok h -> hdr_ok (set_ic_nr v h).
Proof. intros. hdr_ok_tac. Qed.
Lemma hdr_ok_set_bits o n v h :
  0 <= o -> 0 <= n -> o + n <= 8 -> hdr_ok h -> hdr_ok (set_raw0_bits o n v h).
Proof.
  intros ??? H. apply hdr_ok_inv in H as (?&?&?&?&?&?). apply hdr_ok_inv.
  simpl. split_and!; auto; apply (bf_set_range _ _ _ _ 8); unfold is_u8 in *; lia.
Qed.

Lemma ic_ns_set_ns v h : hdr_ok h -> ic_ns (set_ic_ns v h) = v mod 2 ^ 15.
Proof.
  intros (_&_&?&?&_)%hdr_ok_inv. unfold ic_ns, set_ic_ns; simpl.
  rewrite le16_lo_hi by (apply bf_set_range; [lia..|by apply le16_range]).
  by apply bf_get_set.
Qed.
Lemma ic_nr_set_nr v h : hdr_ok h -> ic_nr (set_ic_nr v h) = v mod 2 ^ 15.
Proof.
  intros (_&_&_&_&?&?)%hdr_ok_inv. unfold ic_nr, set_ic_nr; simpl.
  rewrite le16_lo_hi by (apply bf_set_range; [lia..|by apply le16_range]).
  by apply bf_get_set.
Qed.
Lemma ic_nr_set_ns v h : ic_nr (set_ic_ns v h) = ic_nr h.
Proof. done. Qed.
Lemma ic_ns_set_nr v h : ic_ns (set_ic_nr v h) = ic_ns h.
Proof. done. Qed.

Lemma ic_ft_set_ns v h : hdr_ok h -> ic_ft (set_ic_ns v h) = ic_ft h.
Proof.
  intros (_&_&?&?&_)%hdr_ok_inv. unfold ic_ft, set_ic_ns; simpl.
  rewrite bf_get_lo8, bf_get_set_other by lia.
  rewrite <- (bf_get_lo8 (le16 _ _)) by lia. by rewrite lo8_le16.
Qed.

Lemma ic_nr_range h : 0 <= ic_nr h < 32768.
Proof. apply (bf_get_range _ 1 15). lia. Qed.
Lemma ic_ns_range h : 0 <= ic_ns h < 32768.
Proof. apply (bf_get_range _ 1 15). lia. Qed.

Lemma frame_type_I h : frame_type h = FRAME_TYPE_I <-> ic_ft h = 0.
Proof.
  unfold frame_type, ic_ft, bf_get. rewrite Z.shiftr_0_r. change (Z.ones 1) with 1.
  repeat split_if; bool_hyps; split; congruence.
Qed.

(** What a peer reads back from each header the code builds. *)
Lemma uframe_hdr_read func :
  hdr_ok (uframe_hdr func) /\ frame_type (uframe_hdr func) = FRAME_TYPE_U /\
  uframe_func (uframe_hdr func) = func /\ hlength (uframe_hdr func) = 4 /\
  start (uframe_hdr func) = 104.
Proof.
  destruct func; (split; [apply (bool_decide_unpack _); vm_compute; exact I|done]).
Qed.

Lemma sframe_hdr_read vr :
  hdr_ok (sframe_hdr vr) /\ frame_type (sframe_hdr vr) = FRAME_TYPE_S /\
  sc_nr (sframe_hdr vr) = vr mod 32768 /\ hlength (sframe_hdr vr) = 4 /\
  start (sframe_hdr vr) = 104.
Proof.
  assert (hdr_ok (set_sc_ft 1 (zero_hdr <| start := 104 |> <| hlength := sizeof_iec_ctl |>)))
    as Hok by (apply (bool_decide_unpack _); vm_compute; exact I).
  split_and!; try done; [by apply hdr_ok_set_nr | by apply ic_nr_set_nr].
Qed.

Lemma prepare_iframe_ft b : ic_ft (bh (iecsock_prepare_iframe b)) = 0.
Proof. apply (bf_get_set _ 0 1 0); lia. Qed.

Lemma prepare_iframe_ok b : hdr_ok (bh b) -> hdr_ok (bh (iecsock_prepare_iframe b)).
Proof.
  intros Hok. simpl. apply (hdr_ok_set_bits 0 1 0); [lia..|].
  apply hdr_ok_inv in Hok as (?&?&?&?&?&?). apply hdr_ok_inv. simpl.
  split_and!; auto; try (unfold is_u8; lia); apply u8_range.
Qed.

#[export] Hint Resolve hdr_ok_set_ns hdr_ok_set_nr prepare_iframe_ok ic_nr_range ic_ns_range : bits.
