(* ===== verification/Libevent.v ===== *)
(** * The interface to libevent

    The buffered events and timers of libevent are not part of the
    repository's own code: the sessions of ieclink use them through the
    functions declared in libevent's [event.h].  They enter the development
    as a class of operations over an abstract library state [E], one per
    session, with the behaviour the header documents as laws over an
    observation [ev_view] of that state.  [evview] itself, with the laws as
    definitions, is the reference implementation. *)

From S2P Require Import Prelude.

(** The [struct event] members of a session. *)
Inductive evid := EvT0 | EvT1 | EvT2 | EvT3 | EvUser.

#[export] Instance evid_eq_dec : EqDecision evid.
Proof. solve_decision. Defined.

Definition evid_code (i : evid) : nat :=
  match i with EvT0 => 0 | EvT1 => 1 | EvT2 => 2 | EvT3 => 3 | EvUser => 4 end%nat.
Definition evid_decode (n : nat) : evid :=
  match n with 0 => EvT0 | 1 => EvT1 | 2 => EvT2 | 3 => EvT3 | _ => EvUser end%nat.

#[export] Instance evid_countable : Countable evid.
Proof. apply (inj_countable' evid_code evid_decode). by intros []. Defined.

Record evview := {
  ev_in : bytes;                      (* input buffer of the bufferevent *)
  ev_out : bytes;                     (* everything ever written to it *)
  ev_armed : gmap evid (option Z);    (* scheduled events, with timeout *)
  ev_wm : Z;                          (* low read watermark *)
  ev_reading : bool;                  (* EV_READ enabled *)
  ev_open : bool;                     (* the bufferevent exists *)
}.

#[export] Instance evview_rebuild : Rebuild evview := fun v =>
  Build_evview (ev_in v) (ev_out v) (ev_armed v) (ev_wm v) (ev_reading v) (ev_open v).
#[export] Instance upd_ev_in : Updater ev_in. Proof. solve_updater. Defined.
#[export] Instance upd_ev_out : Updater ev_out. Proof. solve_updater. Defined.
#[export] Instance upd_ev_armed : Updater ev_armed. Proof. solve_updater. Defined.
#[export] Instance upd_ev_wm : Updater ev_wm. Proof. solve_updater. Defined.
#[export] Instance upd_ev_reading : Updater ev_reading. Proof. solve_updater. Defined.
#[export] Instance upd_ev_open : Updater ev_open. Proof. solve_updater. Defined.

(** [struct event]s just allocated with [calloc]. *)
Definition ev_fresh : evview := Build_evview [] [] ∅ 0 false false.

Class Libevent (E : Type) := {
  ev_view : E -> evview;
  ev_calloc : E;
  bufferevent_new : E -> E;
  bufferevent_free : E -> E;
  bufferevent_enable : E -> E;
  bufferevent_disable : E -> E;
  bufferevent_setwatermark : Z -> E -> E;
  bufferevent_write : bytes -> E -> E;
  bufferevent_read : nat -> E -> bytes * E;
  evbuffer_length : E -> nat;
  event_set : evid -> E -> E;
  event_add : evid -> option Z -> E -> E;
  event_del : evid -> E -> E;
  event_pending : evid -> E -> bool;
}.

(** The documented behaviour.  Reading removes the bytes it returns from the
    front of the input buffer and returns as many as there are, up to the
    size asked for; [event_add] on a scheduled event replaces its timeout;
    [event_set] prepares an event, and what becomes of the same event if it
    was scheduled is not documented.  The header forbids [event_add] on an
    event that [event_set] has not prepared.  Which members of a session have
    been prepared is part of the session ([s_set] in [Session]), and every
    [event_add] of the model, but for the one in [iecsock_connect] that follows
    [event_set] at once, goes through a check of it ([ev_add] there), which
    faults on an unprepared event; the law [view_add] is used behind that check
    only. *)
Class LibeventLaws (E : Type) {L : Libevent E} := {
  view_calloc : ev_view ev_calloc = ev_fresh;
  view_new e : ev_view (bufferevent_new e) =
    (ev_view e) <| ev_open := true |> <| ev_in := [] |> <| ev_out := [] |> <| ev_wm := 0 |>
              <| ev_reading := false |>;
  view_free e : ev_view (bufferevent_free e) = (ev_view e) <| ev_open := false |>;
  view_enable e : ev_view (bufferevent_enable e) = (ev_view e) <| ev_reading := true |>;
  view_disable e : ev_view (bufferevent_disable e) = (ev_view e) <| ev_reading := false |>;
  view_setwatermark z e :
    ev_view (bufferevent_setwatermark z e) = (ev_view e) <| ev_wm := z |>;
  view_write l e :
    ev_view (bufferevent_write l e) = (ev_view e) <| ev_out := ev_out (ev_view e) ++ l |>;
  read_data n e : (bufferevent_read n e).1 = take n (ev_in (ev_view e));
  view_read n e :
    ev_view (bufferevent_read n e).2 = (ev_view e) <| ev_in := drop n (ev_in (ev_view e)) |>;
  length_view e : evbuffer_length e = length (ev_in (ev_view e));
  view_add i t e :
    ev_view (event_add i t e) = (ev_view e) <| ev_armed := <[i := t]> (ev_armed (ev_view e)) |>;
  view_del i e :
    ev_view (event_del i e) = (ev_view e) <| ev_armed := delete i (ev_armed (ev_view e)) |>;
  pending_view i e : event_pending i e = bool_decide (is_Some (ev_armed (ev_view e) !! i));
  view_set i e : exists a,
    ev_view (event_set i e) =
      (ev_view e) <| ev_armed := a |>
    /\ forall j, j <> i -> a !! j = ev_armed (ev_view e) !! j;
}.

(** ** The reference implementation *)
#[export] Instance evview_libevent : Libevent evview := {|
  ev_view := id;
  ev_calloc := ev_fresh;
  bufferevent_new e :=
    e <| ev_open := true |> <| ev_in := [] |> <| ev_out := [] |> <| ev_wm := 0 |>
      <| ev_reading := false |>;
  bufferevent_free e := e <| ev_open := false |>;
  bufferevent_enable e := e <| ev_reading := true |>;
  bufferevent_disable e := e <| ev_reading := false |>;
  bufferevent_setwatermark z e := e <| ev_wm := z |>;
  bufferevent_write l e := e <| ev_out := ev_out e ++ l |>;
  bufferevent_read n e := (take n (ev_in e), e <| ev_in := drop n (ev_in e) |>);
  evbuffer_length e := length (ev_in e);
  event_set i e := e;
  event_add i t e := e <| ev_armed := <[i := t]> (ev_armed e) |>;
  event_del i e := e <| ev_armed := delete i (ev_armed e) |>;
  event_pending i e := bool_decide (is_Some (ev_armed e !! i));
|}.

#[export] Instance evview_laws : LibeventLaws evview.
Proof.
  split; try done. intros i e. exists (ev_armed e). split; [|done]. by destruct e.
Qed.

Create Rewrite HintDb libevent.
#[export] Hint Rewrite @view_calloc @view_new @view_free @view_enable @view_disable
  @view_setwatermark @view_write @read_data @view_read @length_view @view_add @view_del
  @pending_view using apply _ : libevent.

(** Observe a chain of library calls. *)
Ltac ev_simpl := repeat (autorewrite with libevent; cbn).
