(* ===== verification/Session.v ===== *)
(** * Sessions: data

    [struct iecsock] and [struct iechooks] (ieclink/iecsock.h), the defaults
    of ieclink/iecsock_internal.h, and the world a callback of
    ieclink/iecsock.c runs in: the session, whether it has been freed, its
    libevent state, the application state its hooks work on, and the results
    the operating system will give. *)

From S2P Require Import Prelude Wire Libevent.

Definition DEFAULT_W : Z := 8.
Definition DEFAULT_K : Z := 12.
Definition DEFAULT_T0 : Z := 30.
Definition DEFAULT_T1 : Z := 15.
Definition DEFAULT_T2 : Z := 10.
Definition DEFAULT_T3 : Z := 13.

Inductive iec_role := IEC_SLAVE | IEC_MASTER.
#[export] Instance iec_role_eq_dec : EqDecision iec_role.
Proof. solve_decision. Defined.

Record sockaddr_in := { sin_family : Z; sin_port : Z; sin_addr : Z }.
#[export] Instance sockaddr_in_eq_dec : EqDecision sockaddr_in.
Proof. solve_decision. Defined.

(** Host to network order of a 16-bit number. *)
Definition htons (z : Z) : Z := (z mod 256) * 256 + (z / 256) mod 256.
Definition AF_INET : Z := 2.
(** "127.0.0.1" as [inet_pton] stores it on a little-endian machine. *)
Definition addr_loopback : Z := 16777343.
Definition addr_any : Z := 0.

(** ** Hooks

    [F] is the type of function pointers; [None] is a null pointer. *)
Record iechooks (F : Type) := {
  connect_indication : option F;
  activation_indication : option F;
  deactivation_indication : option F;
  disconnect_indication : option F;
  data_indication : option F;
  transmit_wakeup : option F;
}.
Arguments connect_indication {_} _.
Arguments activation_indication {_} _.
Arguments deactivation_indication {_} _.
Arguments disconnect_indication {_} _.
Arguments data_indication {_} _.
Arguments transmit_wakeup {_} _.

Definition no_hooks {F} : iechooks F := Build_iechooks F None None None None None None.

(** ** The session *)
Record iecsock (F : Type) := {
  s_sock : Z;
  s_buf : bytes;
  s_len : Z;
  s_left : Z;
  s_type : iec_role;
  s_stopdt : bool;
  s_testfr : bool;
  s_w : Z;
  s_k : Z;
  s_va : Z;
  s_vr : Z;
  s_vs : Z;
  s_va_peer : Z;
  s_t0 : Z;
  s_t1 : Z;
  s_t2 : Z;
  s_t3 : Z;
  s_addr : sockaddr_in;
  s_write_q : list iec_buf;
  s_ackw_q : list iec_buf;
  s_hooks : iechooks F;
  s_usercb : option F;
  s_recv_cnt : Z;
  s_xmit_cnt : Z;
  s_set : gset evid;   (* the event members [event_set] has been called on *)
}.
Arguments s_sock {_} _.
Arguments s_buf {_} _.
Arguments s_len {_} _.
Arguments s_left {_} _.
Arguments s_type {_} _.
Arguments s_stopdt {_} _.
Arguments s_testfr {_} _.
Arguments s_w {_} _.
Arguments s_k {_} _.
Arguments s_va {_} _.
Arguments s_vr {_} _.
Arguments s_vs {_} _.
Arguments s_va_peer {_} _.
Arguments s_t0 {_} _.
Arguments s_t1 {_} _.
Arguments s_t2 {_} _.
Arguments s_t3 {_} _.
Arguments s_addr {_} _.
Arguments s_write_q {_} _.
Arguments s_ackw_q {_} _.
Arguments s_hooks {_} _.
Arguments s_usercb {_} _.
Arguments s_recv_cnt {_} _.
Arguments s_xmit_cnt {_} _.
Arguments s_set {_} _.

#[export] Instance iecsock_rebuild F : Rebuild (iecsock F) := fun s =>
  Build_iecsock F (s_sock s) (s_buf s) (s_len s) (s_left s) (s_type s) (s_stopdt s) (s_testfr s)
    (s_w s) (s_k s) (s_va s) (s_vr s) (s_vs s) (s_va_peer s) (s_t0 s) (s_t1 s) (s_t2 s) (s_t3 s)
    (s_addr s) (s_write_q s) (s_ackw_q s) (s_hooks s) (s_usercb s) (s_recv_cnt s) (s_xmit_cnt s)
    (s_set s).

Section updaters.
Context {F : Type}.
#[export] Instance upd_s_sock : Updater (@s_sock F). Proof. solve_updater. Defined.
#[export] Instance upd_s_buf : Updater (@s_buf F). Proof. solve_updater. Defined.
#[export] Instance upd_s_len : Updater (@s_len F). Proof. solve_updater. Defined.
#[export] Instance upd_s_left : Updater (@s_left F). Proof. solve_updater. Defined.
#[export] Instance upd_s_type : Updater (@s_type F). Proof. solve_updater. Defined.
#[export] Instance upd_s_stopdt : Updater (@s_stopdt F). Proof. solve_updater. Defined.
#[export] Instance upd_s_testfr : Updater (@s_testfr F). Proof. solve_updater. Defined.
#[export] Instance upd_s_w : Updater (@s_w F). Proof. solve_updater. Defined.
#[export] Instance upd_s_k : Updater (@s_k F). Proof. solve_updater. Defined.
#[export] Instance upd_s_va : Updater (@s_va F). Proof. solve_updater. Defined.
#[export] Instance upd_s_vr : Updater (@s_vr F). Proof. solve_updater. Defined.
#[export] Instance upd_s_vs : Updater (@s_vs F). Proof. solve_updater. Defined.
#[export] Instance upd_s_va_peer : Updater (@s_va_peer F). Proof. solve_updater. Defined.
#[export] Instance upd_s_t0 : Updater (@s_t0 F). Proof. solve_updater. Defined.
#[export] Instance upd_s_t1 : Updater (@s_t1 F). Proof. solve_updater. Defined.
#[export] Instance upd_s_t2 : Updater (@s_t2 F). Proof. solve_updater. Defined.
#[export] Instance upd_s_t3 : Updater (@s_t3 F). Proof. solve_updater. Defined.
#[export] Instance upd_s_addr : Updater (@s_addr F). Proof. solve_updater. Defined.
#[export] Instance upd_s_write_q : Updater (@s_write_q F). Proof. solve_updater. Defined.
#[export] Instance upd_s_ackw_q : Updater (@s_ackw_q F). Proof. solve_updater. Defined.
#[export] Instance upd_s_hooks : Updater (@s_hooks F). Proof. solve_updater. Defined.
#[export] Instance upd_s_usercb : Updater (@s_usercb F). Proof. solve_updater. Defined.
#[export] Instance upd_s_xmit_cnt : Updater (@s_xmit_cnt F). Proof. solve_updater. Defined.
#[export] Instance upd_s_set : Updater (@s_set F). Proof. solve_updater. Defined.
End updaters.

(** [calloc(1, sizeof(struct iecsock))]. *)
Definition calloc_iecsock {F} : iecsock F :=
  Build_iecsock F 0 (replicate 255 0) 0 0 IEC_SLAVE false false 0 0 0 0 0 0 0 0 0 0
    (Build_sockaddr_in 0 0 0) [] [] no_hooks None 0 0 ∅.

Record iecsock_options := {
  opt_w : Z; opt_k : Z; opt_t0 : Z; opt_t1 : Z; opt_t2 : Z; opt_t3 : Z;
}.

(** ** The world of a callback *)

(** What the system calls of one [iecsock_connect] or [listen_readcb] return. *)
Record sysret := {
  r_calloc : bool;
  r_socket : Z;
  r_fcntl : Z;
  r_setsockopt : Z;
  r_connect : Z;
  r_bind : Z;
  r_listen : Z;
  r_errno : Z;
  r_peer : sockaddr_in;
}.
Definition EINPROGRESS : Z := 115.
(** A non-blocking connect that has been started. *)
Definition sys_default : sysret :=
  Build_sysret true 3 0 0 (-1) 0 0 EINPROGRESS (Build_sockaddr_in AF_INET 0 0).

Record world (E App F : Type) := {
  w_s : iecsock F;
  w_live : bool;                   (* the session has not been freed *)
  w_ev : E;
  w_app : App;
  w_mem : list bool;               (* results of the next allocations, then success *)
  w_bufs : Z;                      (* struct iec_buf allocations not yet freed *)
  w_sys : list sysret;             (* results of the next connection attempts *)
  w_spawned : list (iecsock F * E);  (* sessions waiting for connect to finish *)
  w_listening : bool;              (* the listener's event is scheduled *)
  w_closed : list Z;               (* descriptors closed so far *)
}.
Arguments w_s {_ _ _} _.
Arguments w_live {_ _ _} _.
Arguments w_ev {_ _ _} _.
Arguments w_app {_ _ _} _.
Arguments w_mem {_ _ _} _.
Arguments w_bufs {_ _ _} _.
Arguments w_sys {_ _ _} _.
Arguments w_spawned {_ _ _} _.
Arguments w_listening {_ _ _} _.
Arguments w_closed {_ _ _} _.

#[export] Instance world_rebuild E App F : Rebuild (world E App F) := fun w =>
  Build_world E App F (w_s w) (w_live w) (w_ev w) (w_app w) (w_mem w) (w_bufs w) (w_sys w)
    (w_spawned w) (w_listening w) (w_closed w).

Section world_updaters.
Context {E App F : Type}.
#[export] Instance upd_w_s : Updater (@w_s E App F). Proof. solve_updater. Defined.
#[export] Instance upd_w_live : Updater (@w_live E App F). Proof. solve_updater. Defined.
#[export] Instance upd_w_ev : Updater (@w_ev E App F). Proof. solve_updater. Defined.
#[export] Instance upd_w_app : Updater (@w_app E App F). Proof. solve_updater. Defined.
#[export] Instance upd_w_mem : Updater (@w_mem E App F). Proof. solve_updater. Defined.
#[export] Instance upd_w_bufs : Updater (@w_bufs E App F). Proof. solve_updater. Defined.
#[export] Instance upd_w_sys : Updater (@w_sys E App F). Proof. solve_updater. Defined.
#[export] Instance upd_w_spawned : Updater (@w_spawned E App F). Proof. solve_updater. Defined.
#[export] Instance upd_w_listening : Updater (@w_listening E App F). Proof. solve_updater. Defined.
#[export] Instance upd_w_closed : Updater (@w_closed E App F). Proof. solve_updater. Defined.
End world_updaters.

(** ** Access to the session

    Every [s->] in the C code goes through one of these, so that code that
    still holds the pointer after [iecsock_close] faults. *)
Section access.
Context {E App F : Type}.
Abbreviation M := (ST (world E App F)).

Definition rd {A} (f : iecsock F -> A) : M A := fun w =>
  if w_live w then Done (f (w_s w), w) else Faulted UseAfterFree.
Definition wr (f : iecsock F -> iecsock F) : M unit := fun w =>
  if w_live w then Done (tt, w <| w_s := f (w_s w) |>) else Faulted UseAfterFree.
(** A libevent call on [s->io] or on one of the session's events. *)
Definition ev (f : E -> E) : M unit := fun w =>
  if w_live w then Done (tt, w <| w_ev := f (w_ev w) |>) else Faulted UseAfterFree.
Definition evq {A} (f : E -> A) : M A := fun w =>
  if w_live w then Done (f (w_ev w), w) else Faulted UseAfterFree.
Definition evr {A} (f : E -> A * E) : M A := fun w =>
  if w_live w then Done ((f (w_ev w)).1, w <| w_ev := (f (w_ev w)).2 |>)
  else Faulted UseAfterFree.

(** [event_set] prepares an event member; [event_add] on one that has not been
    prepared works on a zeroed structure that libevent does not know. *)
Definition ev_set {L : Libevent E} (i : evid) : M unit :=
  wr (fun s => s <| s_set := {[ i ]} ∪ s_set s |>);; ev (event_set i).
Definition ev_add {L : Libevent E} (i : evid) (t : option Z) : M unit :=
  ok ← rd (fun s => bool_decide (i ∈ s_set s));
  if ok : bool then ev (event_add i t) else stop Uninitialised.
Definition ev_initialized (i : evid) : M bool := rd (fun s => bool_decide (i ∈ s_set s)).

(** One allocation, which succeeds unless the world says otherwise. *)
Definition try_alloc : M bool := fun w =>
  match w_mem w with
  | [] => Done (true, w)
  | b :: m => Done (b, w <| w_mem := m |>)
  end.
(** [calloc] and [free] of a [struct iec_buf]. *)
Definition calloc_buf : M bool :=
  ok ← try_alloc;
  (if ok : bool then modify (fun w => w <| w_bufs := w_bufs w + 1 |>) else skip);;
  mret ok.
Definition free_buf : M unit := modify (fun w => w <| w_bufs := w_bufs w - 1 |>).
Definition next_sys : M sysret := fun w =>
  match w_sys w with
  | [] => Done (sys_default, w)
  | r :: l => Done (r, w <| w_sys := l |>)
  end.
Definition close_fd (fd : Z) : M unit :=
  modify (fun w => w <| w_closed := w_closed w ++ [fd] |>).

Lemma wp_rd {A} (f : iecsock F -> A) (Q : A -> world E App F -> Prop) w :
  w_live w = true -> Q (f (w_s w)) w -> wp (rd f) Q w.
Proof. intros H HQ. unfold wp, rd. by rewrite H. Qed.
Lemma wp_wr (f : iecsock F -> iecsock F) (Q : unit -> world E App F -> Prop) w :
  w_live w = true -> Q tt (w <| w_s := f (w_s w) |>) -> wp (wr f) Q w.
Proof. intros H HQ. unfold wp, wr. by rewrite H. Qed.
Lemma wp_ev (f : E -> E) (Q : unit -> world E App F -> Prop) w :
  w_live w = true -> Q tt (w <| w_ev := f (w_ev w) |>) -> wp (ev f) Q w.
Proof. intros H HQ. unfold wp, ev. by rewrite H. Qed.
Lemma wp_ev_add {L : Libevent E} i t (Q : unit -> world E App F -> Prop) w :
  w_live w = true -> i ∈ s_set (w_s w) -> Q tt (w <| w_ev := event_add i t (w_ev w) |>) -> wp (ev_add i t) Q w.
Proof.
  intros H Hi HQ. unfold ev_add. apply wp_bind, wp_rd; [done|]. rewrite bool_decide_true by done. by apply wp_ev.
Qed.
Lemma wp_ev_set {L : Libevent E} i (Q : unit -> world E App F -> Prop) w :
  w_live w = true ->
  Q tt (w <| w_s := (w_s w) <| s_set := {[ i ]} ∪ s_set (w_s w) |> |> <| w_ev := event_set i (w_ev w) |>) ->
  wp (ev_set i) Q w.
Proof. intros H HQ. unfold ev_set. apply wp_bind, wp_wr; [done|]. by apply wp_ev. Qed.
Lemma wp_evq {A} (f : E -> A) (Q : A -> world E App F -> Prop) w :
  w_live w = true -> Q (f (w_ev w)) w -> wp (evq f) Q w.
Proof. intros H HQ. unfold wp, evq. by rewrite H. Qed.
Lemma wp_evr {A} (f : E -> A * E) (Q : A -> world E App F -> Prop) w :
  w_live w = true -> Q (f (w_ev w)).1 (w <| w_ev := (f (w_ev w)).2 |>) -> wp (evr f) Q w.
Proof. intros H HQ. unfold wp, evr. by rewrite H. Qed.
End access.
