(* ===== verification/Iecsock.v ===== *)
(** * The link layer: operations

    Every function of ieclink/iecsock.c, as a state transformer over
    [world].  Functions of [iecsock.c] that libevent calls back are run by the
    event loop one at a time; each definition here is one such run, or a
    helper of one.  Debug output is not modelled. *)

From S2P Require Import Prelude Bits Wire Libevent Session.

Section ops.
Context {E App F : Type} {L : Libevent E}.
Abbreviation M := (ST (world E App F)).

(** ** Sending *)
Definition bump_xmit : M unit := wr (fun s => s <| s_xmit_cnt := u64 (s_xmit_cnt s + 1) |>).

Definition iecsock_uframe_send (func : uframe_fn) : M unit :=
  ev (bufferevent_write (hdr_bytes (uframe_hdr func)));;
  bump_xmit.

Definition iecsock_sframe_send : M unit :=
  vr ← rd s_vr;
  ev (bufferevent_write (hdr_bytes (sframe_hdr vr)));;
  bump_xmit.

(** [bufferevent_write(s->io, h, h->length + 2)] with [h] inside [b]: the
    bytes read must lie in the buffer's allocation. *)
Definition write_apdu (b : iec_buf) : M unit :=
  if hlength (bh b) + 2 <=? sizeof_iechdr + Z.of_nat (length (bdata b))
  then ev (bufferevent_write (apdu_bytes b))
  else stop OutOfBounds.

(** ** Timers *)
Definition t1_timer_start : M unit := t ← rd s_t1; ev_add EvT1 (Some t).
Definition t2_timer_start : M unit := t ← rd s_t2; ev_add EvT2 (Some t).
Definition t3_timer_start : M unit := t ← rd s_t3; ev_add EvT3 (Some t).
Definition t0_timer_stop : M unit := ev (event_del EvT0).
Definition t1_timer_stop : M unit := ev (event_del EvT1).
Definition t2_timer_stop : M unit := ev (event_del EvT2).
Definition t3_timer_stop : M unit := ev (event_del EvT3).
Definition t1_timer_pending : M bool := evq (event_pending EvT1).
Definition t2_timer_pending : M bool := evq (event_pending EvT2).
(** The macro tests [t2_timer]. *)
Definition t3_timer_pending : M bool := evq (event_pending EvT2).

Definition t2_timer_run : M unit :=
  iecsock_sframe_send;;
  wr (fun s => s <| s_va_peer := s_vr s |>).

Definition t3_timer_run : M unit :=
  t1_timer_start;;
  wr (fun s => s <| s_testfr := true |>);;
  iecsock_uframe_send TESTACT.

(** ** Queues *)
Fixpoint free_bufs (q : list iec_buf) : M unit :=
  match q with
  | [] => skip
  | _ :: q' => free_buf;; free_bufs q'
  end.

Definition iecsock_flush_queues : M unit :=
  q ← rd s_write_q; wr (fun s => s <| s_write_q := [] |>);; free_bufs q;;
  q ← rd s_ackw_q; wr (fun s => s <| s_ackw_q := [] |>);; free_bufs q.

(** The frame as it leaves: stamped with the current N(r) and N(s). *)
Definition stamp (vr vs : Z) (b : iec_buf) : iec_buf :=
  b <| bh := set_ic_ns vs (set_ic_nr vr (bh b)) |>.

Definition window_full (s : iecsock F) : bool :=
  s_vs s =? Z.rem (s_va s + s_k s) 32767.

(** One pass of the loop body, with [b] taken off the write queue. *)
Definition send_one (b : iec_buf) (q : list iec_buf) : M unit :=
  wr (fun s => s <| s_write_q := q |>);;
  vr ← rd s_vr; vs ← rd s_vs;
  let b' := stamp vr vs b in
  p ← t1_timer_pending;
  when p t1_timer_stop;;
  t1_timer_start;;
  write_apdu b';;
  wr (fun s => s <| s_ackw_q := s_ackw_q s ++ [b'] |>);;
  wr (fun s => s <| s_vs := Z.rem (s_vs s + 1) 32767 |>);;
  bump_xmit.

(** The [while] loop; it takes one buffer off the queue in each round, so
    the queue's length bounds the number of rounds. *)
Fixpoint write_loop (fuel : nat) : M unit :=
  q ← rd s_write_q;
  full ← rd window_full;
  match q with
  | [] => skip
  | b :: q' =>
      if full : bool then skip
      else match fuel with
           | O => stop OutOfFuel
           | S fuel' => send_one b q';; write_loop fuel'
           end
  end.

Definition iecsock_run_write_queue : M unit :=
  ty ← rd s_type; stopdt ← rd s_stopdt;
  if bool_decide (ty = IEC_SLAVE) && stopdt then skip
  else q ← rd s_write_q; write_loop (length q).

(** Drop buffers until the one with N(s) = [nr]. *)
Fixpoint ackw_drop (nr : Z) (q : list iec_buf) : list iec_buf :=
  match q with
  | [] => []
  | b :: q' => if ic_ns (bh b) =? nr then b :: q' else ackw_drop nr q'
  end.

Definition iecsock_run_ackw_queue (nr : Z) : M unit :=
  q ← rd s_ackw_q;
  let q' := ackw_drop nr q in
  wr (fun s => s <| s_ackw_q := q' |>);;
  free_bufs (take (length q - length q') q).

Definition check_nr (s : iecsock F) (nr : Z) : bool :=
  Z.rem (nr - s_va s + 32767) 32767 <=? Z.rem (s_vs s - s_va s + 32767) 32767.

Definition check_ns (s : iecsock F) (ns : Z) : bool := ns =? s_vr s.

(** Number of ASDUs the send window still accepts, as a [size_t]. *)
Definition iecsock_can_queue (s : iecsock F) : Z :=
  u64 (s_k s - Z.rem (s_vs s - s_va s + 32767) 32767).

Definition iecsock_set_options (opt : iecsock_options) : M unit :=
  wr (fun s => s <| s_t0 := opt_t0 opt |> <| s_t1 := opt_t1 opt |> <| s_t2 := opt_t2 opt |>
                 <| s_t3 := opt_t3 opt |> <| s_w := opt_w opt |> <| s_k := opt_k opt |>).

Definition iecsock_set_hooks (hooks : iechooks F) : M unit :=
  wr (fun s => s <| s_hooks := hooks |>).

(** ** Opening and closing *)
Definition iecsock_set_defaults (s : iecsock F) : iecsock F :=
  s <| s_t0 := DEFAULT_T0 |> <| s_t1 := DEFAULT_T1 |> <| s_t2 := DEFAULT_T2 |>
    <| s_t3 := DEFAULT_T3 |> <| s_w := DEFAULT_W |> <| s_k := DEFAULT_K |>
    <| s_write_q := [] |> <| s_ackw_q := [] |>
    <| s_set := {[ EvT1; EvT2; EvT3 ]} ∪ s_set s |>.

(** The [evtimer_set] calls of [iecsock_set_defaults]. *)
Definition ev_set_defaults (e : E) : E := event_set EvT3 (event_set EvT2 (event_set EvT1 e)).

(** The new session waits in [w_spawned], with its write event scheduled,
    for [connect_writecb]. *)
Definition iecsock_connect (addr : option sockaddr_in) : M Z :=
  r ← next_sys;
  if negb (r_calloc r) then mret (-1)
  else if r_socket r =? -1 then mret (-1)
  else if r_fcntl r =? -1 then close_fd (r_socket r);; mret (-1)
  else
    let s := iecsock_set_defaults (calloc_iecsock <| s_sock := r_socket r |>) in
    let s := s <| s_type := IEC_MASTER |> <| s_stopdt := true |> in
    let s := match addr with
             | Some a => s <| s_addr := a |>
             | None => s <| s_addr := Build_sockaddr_in AF_INET (htons IEC_PORT_DEFAULT) addr_loopback |>
             end in
    if negb (r_connect r =? -1) && negb (r_errno r =? EINPROGRESS)
    then close_fd (r_socket r);; mret (-1)
    else
      let s := s <| s_set := {[ EvT0 ]} ∪ s_set s |> in
      let e := event_add EvT0 (Some (s_t0 s)) (event_set EvT0 (ev_set_defaults ev_calloc)) in
      modify (fun w => w <| w_spawned := w_spawned w ++ [(s, e)] |>);; mret 0.

Definition iecsock_close : M unit :=
  iecsock_flush_queues;;
  ev (event_del EvT0);; ev (event_del EvT1);; ev (event_del EvT2);; ev (event_del EvT3);;
  ev (event_del EvUser);;
  ev bufferevent_disable;; ev bufferevent_free;;
  fd ← rd s_sock; close_fd fd;;
  ty ← rd s_type;
  (if bool_decide (ty = IEC_MASTER)
   then a ← rd s_addr; _ ← iecsock_connect (Some a); skip
   else skip);;
  modify (fun w => w <| w_live := false |>).
End ops.

(** ** Hooks

    The functions a hook pointer can name and what they do.  The hooks of a
    program are defined over [world] with the operations above (they queue
    and send ASDUs), and the receive path below is defined over them. *)
Class HookCode (E App F : Type) := {
  default_hooks : iechooks F;
  run_hook : F -> ST (world E App F) unit;
  run_hook_reason : F -> Z -> ST (world E App F) unit;
  run_hook_data : F -> iec_buf -> ST (world E App F) unit;
}.

Section receive.
Context {E App F : Type} {L : Libevent E} {H : HookCode E App F}.
Abbreviation M := (ST (world E App F)).

(** [s->hooks.x], or [default_hooks.x] if that is null. *)
Definition hook (x : iechooks F -> option F) : M (option F) :=
  o ← rd (fun s => x (s_hooks s));
  mret (match o with Some f => Some f | None => x default_hooks end).

Definition call_hook (x : iechooks F -> option F) : M unit :=
  o ← hook x;
  match o with Some f => run_hook f | None => skip end.

Definition ack_advance (nr : Z) : M unit :=
  wr (fun s => s <| s_va := nr |>);;
  va ← rd s_va; vs ← rd s_vs;
  when (va =? vs) (t1_timer_stop;; call_hook transmit_wakeup).

(** Count the frame; acknowledge when [s->w] are unacknowledged. *)
Definition count_received : M unit :=
  wr (fun s => s <| s_vr := Z.rem (s_vr s + 1) 32767 |>);;
  due ← rd (fun s => Z.rem (s_vr s - s_va_peer s + 32767) 32767 =? s_w s);
  when due (iecsock_sframe_send;; wr (fun s => s <| s_va_peer := s_vr s |>)).

Definition deliver_data (b : iec_buf) : M unit :=
  o ← hook data_indication;
  match o with Some f => run_hook_data f b | None => free_buf end.

Definition iecsock_iframe_recv (b : iec_buf) : M Z :=
  let h := bh b in
  let b := b <| data_len := u8 (hlength h - 4) |> in
  ok ← rd (fun s => check_nr s (ic_nr h));
  if negb ok then mret (-1)
  else
    ack_advance (ic_nr h);;
    t2_timer_stop;; t2_timer_start;;
    ok ← rd (fun s => check_ns s (ic_ns h));
    if negb ok then mret (-1)
    else
      count_received;;
      deliver_data b;;
      mret 0.

(** The store to [buf->data_len] is dead: the caller frees the buffer. *)
Definition iecsock_sframe_recv (b : iec_buf) : M Z :=
  let h := bh b in
  ok ← rd (fun s => check_nr s (ic_nr h));
  if negb ok then mret (-1)
  else
    iecsock_run_ackw_queue (ic_nr h);;
    ack_advance (ic_nr h);;
    mret 0.

Definition iecsock_uframe_recv (b : iec_buf) : M Z :=
  ty ← rd s_type;
  match uframe_func (bh b) with
  | STARTACT =>
      if negb (bool_decide (ty = IEC_SLAVE)) then mret (-1)
      else
        wr (fun s => s <| s_stopdt := false |>);;
        iecsock_uframe_send STARTCON;;
        iecsock_run_write_queue;;
        call_hook activation_indication;; mret 0
  | STARTCON =>
      if negb (bool_decide (ty = IEC_MASTER)) then mret (-1)
      else
        t1_timer_stop;;
        wr (fun s => s <| s_stopdt := false |>);;
        call_hook activation_indication;; mret 0
  | STOPACT =>
      if negb (bool_decide (ty = IEC_SLAVE)) then mret (-1)
      else
        wr (fun s => s <| s_stopdt := true |>);;
        iecsock_uframe_send STOPCON;;
        call_hook deactivation_indication;; mret 0
  | STOPCON =>
      if negb (bool_decide (ty = IEC_MASTER)) then mret (-1)
      else
        wr (fun s => s <| s_stopdt := true |>);;
        call_hook deactivation_indication;; mret 0
  | TESTACT =>
      iecsock_uframe_send TESTCON;;
      testfr ← rd s_testfr;
      when (bool_decide (ty = IEC_SLAVE) && negb testfr) t3_timer_stop;;
      mret 0
  | TESTCON =>
      testfr ← rd s_testfr;
      if negb testfr then mret (-1)
      else
        t1_timer_stop;;
        wr (fun s => s <| s_testfr := false |>);; mret 0
  end.

(** The copy of the frame: [h->length + 2] bytes of [s->buf] into a zeroed
    allocation that has room for [s->len] of them. *)
Definition frame_copy (s : iecsock F) : option iec_buf :=
  let n := hlength (hdr_of_bytes (s_buf s)) + 2 in
  if (n <=? s_len s) && (n <=? IEC104_BUF_LEN) then
    let m := take (Z.to_nat n) (s_buf s) ++ replicate (Z.to_nat (s_len s - n)) 0 in
    Some (Build_iec_buf 0 (hdr_of_bytes m) (drop 6 m))
  else None.

Definition iecsock_frame_recv : M Z :=
  ok ← calloc_buf;
  if negb ok then mret (-1)
  else
    t3_timer_stop;; t3_timer_start;;
    c ← rd frame_copy;
    match c with
    | None => stop OutOfBounds
    | Some b =>
        h ← rd (fun s => hdr_of_bytes (s_buf s));
        match frame_type h with
        | FRAME_TYPE_I =>
            ty ← rd s_type; stopdt ← rd s_stopdt;
            if bool_decide (ty = IEC_SLAVE) && stopdt then free_buf;; mret 0
            else iecsock_iframe_recv b
        | FRAME_TYPE_S => ret ← iecsock_sframe_recv b; free_buf;; mret ret
        | FRAME_TYPE_U => ret ← iecsock_uframe_recv b; free_buf;; mret ret
        end
    end.

(** [bufferevent_read(s->io, &s->buf[off], n)]: the bytes read are stored
    in the session's buffer, which has 255 of them. *)
Definition read_into (off n : Z) : M Z :=
  d ← evr (bufferevent_read (Z.to_nat n));
  let m := Z.of_nat (length d) in
  if off + m <=? IEC104_BUF_LEN then
    wr (fun s => s <| s_buf := take (Z.to_nat off) (s_buf s) ++ d
                               ++ drop (Z.to_nat (off + m)) (s_buf s) |>);;
    mret m
  else stop OutOfBounds.

Definition bad_header (h : iechdr) : bool :=
  negb (start h =? 104) || (hlength h <? IEC_APDU_MIN) || (IEC_APDU_MAX <? hlength h).

Definition iecsock_buffer_read (frame_recv : M Z) : M unit :=
  left ← rd s_left;
  if left =? 0 then
    ret ← read_into 0 sizeof_iechdr;
    (if negb (ret =? sizeof_iechdr) then stop AssertFailed else skip);;
    h ← rd (fun s => hdr_of_bytes (s_buf s));
    when (bad_header h) iecsock_close;;
    wr (fun s => s <| s_left := u8 (hlength h - IEC104_CTRL_LEN) |>);;
    wr (fun s => s <| s_len := sizeof_iechdr |>);;
    wm_read ← rd s_left;
    if wm_read =? 0 then
      ret ← frame_recv;
      if ret =? 0 then
        wr (fun s => s <| s_left := 0 |> <| s_len := 0 |>);;
        ev (bufferevent_setwatermark sizeof_iechdr)
      else
        ev (bufferevent_setwatermark wm_read);; iecsock_close
    else ev (bufferevent_setwatermark wm_read)
  else
    len ← rd s_len;
    ret ← read_into len left;
    wr (fun s => s <| s_left := u8 (s_left s - ret) |> <| s_len := u8 (s_len s + ret) |>);;
    left ← rd s_left;
    if negb (left =? 0) then skip
    else
      ret ← frame_recv;
      when (negb (ret =? 0)) iecsock_close;;
      wr (fun s => s <| s_left := 0 |> <| s_len := 0 |>);;
      ev (bufferevent_setwatermark sizeof_iechdr).

(** [while (EVBUFFER_LENGTH(s->io->input)) ...].  Each round reads at least
    one byte, so the input's length bounds the number of rounds. *)
Fixpoint read_loop (fuel : nat) (frame_recv : M Z) : M unit :=
  n ← evq evbuffer_length;
  match n, fuel with
  | O, _ => skip
  | S _, O => stop OutOfFuel
  | S _, S fuel' => iecsock_buffer_read frame_recv;; read_loop fuel' frame_recv
  end.

Definition bufreadcb : M unit :=
  n ← evq evbuffer_length; read_loop n iecsock_frame_recv.

Definition bufwritecb : M unit := skip.

Definition buferrorcb (what : Z) : M unit :=
  o ← hook disconnect_indication;
  match o with Some f => run_hook_reason f what | None => skip end;;
  iecsock_close.

Definition t1_timer_run (what : Z) : M unit := buferrorcb what.

(** The retry after a failed connection attempt frees the old session. *)
Definition t0_timer_run : M unit :=
  a ← rd s_addr;
  _ ← iecsock_connect (Some a);
  modify (fun w => w <| w_live := false |>).

(** A fresh bufferevent, or a null pointer when it cannot be allocated. *)
Definition new_bufferevent : M bool :=
  ok ← try_alloc;
  when ok (ev bufferevent_new);; mret ok.

(** Both ways of opening a session end alike. *)
Definition session_start : M unit :=
  ev (bufferevent_setwatermark sizeof_iechdr);;
  ev bufferevent_enable;;
  iecsock_uframe_send STARTACT;;
  t1_timer_start;;
  match connect_indication default_hooks with Some f => run_hook f | None => skip end.

(** [timeout] is [what & EV_TIMEOUT], [so_error] what [getsockopt] stores. *)
Definition connect_writecb (timeout : bool) (so_error : Z) : M unit :=
  if timeout then t ← rd s_t0; ev_add EvT0 (Some t)
  else if negb (so_error =? 0) then
    fd ← rd s_sock; close_fd fd;;
    ev_set EvT0;; t ← rd s_t0; ev_add EvT0 (Some t)
  else
    t0_timer_stop;;
    ok ← new_bufferevent;
    (if negb ok then fd ← rd s_sock; close_fd fd;; modify (fun w => w <| w_live := false |>)
     else skip);;
    session_start.

(** A connection to accept: the session is allocated here. *)
Definition listen_readcb : M unit :=
  modify (fun w => w <| w_listening := true |>);;
  r ← next_sys;
  if negb (r_calloc r) then skip
  else
    let s := (iecsock_set_defaults calloc_iecsock) <| s_type := IEC_MASTER |> <| s_stopdt := true |>
               <| s_addr := r_peer r |> <| s_sock := r_socket r |> in
    if r_socket r =? -1 then skip
    else if r_setsockopt r =? -1 then close_fd (r_socket r)
    else
      modify (fun w => w <| w_s := s |> <| w_live := true |> <| w_ev := ev_set_defaults ev_calloc |>);;
      ok ← new_bufferevent;
      if negb ok then close_fd (r_socket r);; modify (fun w => w <| w_live := false |>)
      else session_start.

(** Registering a listener; [Some a] is the address it is bound to. *)
Definition iecsock_listen (addr : option sockaddr_in) : M (Z * option sockaddr_in) :=
  r ← next_sys;
  let a := match addr with
           | None => Build_sockaddr_in AF_INET (htons IEC_PORT_DEFAULT) addr_any
           | Some a => a
           end in
  if negb (r_calloc r) then mret (-1, None)
  else if r_socket r =? -1 then mret (-1, None)
  else if (r_fcntl r =? -1) || (r_setsockopt r =? -1) || (r_bind r =? -1) || (r_listen r =? -1)
  then close_fd (r_socket r);; mret (-1, None)
  else modify (fun w => w <| w_listening := true |>);; mret (0, Some a).

(** ** The user's timer *)
Definition iecsock_user_timer_run : M unit :=
  cb ← rd s_usercb;
  match cb with Some f => run_hook f | None => skip end.
Definition iecsock_user_timer_set (cb : option F) : M unit :=
  match cb with
  | None => skip
  | Some f => wr (fun s => s <| s_usercb := Some f |>);; ev_set EvUser
  end.
Definition iecsock_user_timer_start (tv : Z) : M unit :=
  i ← ev_initialized EvUser;
  when i (ev_add EvUser (Some tv)).
Definition iecsock_user_timer_stop : M unit := ev (event_del EvUser).
End receive.
