(* ===== verification/Seqnum.v ===== *)
(** * Sequence numbers

    The link layer counts frames modulo 32767 with C's [%] on promoted
    [u_short]s.  These lemmas turn its remainders into the distance between
    two sequence numbers. *)

From S2P Require Import Prelude Wire.

(** Number of steps from [a] to [b] around the cycle of length 32767. *)
Definition sdist (a b : Z) : Z := (b - a) mod 32767.

Lemma sdist_range a b : 0 <= sdist a b < 32767.
Proof. apply Z.mod_pos_bound. lia. Qed.

Lemma rem_sdist a b :
  0 <= a <= 32767 -> 0 <= b -> Z.rem (b - a + 32767) 32767 = sdist a b.
Proof.
  intros. unfold sdist. rewrite Z.rem_mod_nonneg by lia.
  by rewrite <- (Z.mod_add (b - a) 1), Z.mul_1_l by lia.
Qed.

Lemma rem_succ a : 0 <= a < 32767 -> Z.rem (a + 1) 32767 = (a + 1) mod 32767.
Proof. intros. apply Z.rem_mod_nonneg; lia. Qed.

Ltac sdist_tac :=
  unfold sdist in *;
  repeat match goal with
  | |- context [?a mod 32767] =>
      lazymatch goal with
      | _ : 0 <= a mod 32767 < 32767 |- _ => fail
      | _ => pose proof (Z.mod_pos_bound a 32767 ltac:(lia))
      end
  end;
  Z.div_mod_to_equations; lia.

Lemma sdist_refl a : sdist a a = 0.
Proof. unfold sdist. by rewrite Z.sub_diag. Qed.

Lemma sdist_0 a b : 0 <= a < 32767 -> 0 <= b < 32767 -> sdist a b = 0 -> a = b.
Proof. sdist_tac. Qed.

Lemma sdist_plus a b n :
  0 <= n -> sdist a b + n < 32767 -> sdist a ((b + n) mod 32767) = sdist a b + n.
Proof. sdist_tac. Qed.

Lemma sdist_succ a b : 0 <= b -> sdist a b < 32766 -> sdist a ((b + 1) mod 32767) = sdist a b + 1.
Proof. sdist_tac. Qed.

Lemma sdist_add a n : 0 <= a -> 0 <= n < 32767 -> sdist a ((a + n) mod 32767) = n.
Proof. sdist_tac. Qed.

(** The test that closes the send window. *)
Lemma window_test va vs k :
  0 <= va <= 32767 -> 0 <= vs < 32767 -> 0 < k < 32767 ->
  (vs =? Z.rem (va + k) 32767) = (sdist va vs =? k).
Proof.
  intros. rewrite Z.rem_mod_nonneg by lia.
  destruct (Z.eqb_spec vs ((va + k) mod 32767)) as [->|Hne]; symmetry.
  - apply Z.eqb_eq. apply sdist_add; lia.
  - apply Z.eqb_neq. intros Hd. apply Hne. unfold sdist in Hd.
    rewrite <- Hd. rewrite Zplus_mod_idemp_r.
    replace (va + (vs - va)) with vs by lia. by rewrite Z.mod_small by lia.
Qed.

(** Acknowledging up to [nr] leaves the frames from [nr] on outstanding. *)
Lemma sdist_split a nr b :
  sdist a nr <= sdist a b -> sdist nr b = sdist a b - sdist a nr.
Proof. sdist_tac. Qed.

(** ** Runs of consecutively numbered buffers *)

(** The buffers of [q] carry the numbers from [a] up to, not including, [e]. *)
Fixpoint numbered (a : Z) (q : list iec_buf) (e : Z) : Prop :=
  match q with
  | [] => a = e
  | b :: q' => ic_ns (bh b) = a /\ 0 <= a < 32767 /\ numbered ((a + 1) mod 32767) q' e
  end.

Lemma numbered_app a q e q' e' : numbered a q e -> numbered e q' e' -> numbered a (q ++ q') e'.
Proof.
  revert a. induction q as [|b q IH]; intros a; simpl; [by intros ->|].
  intros (? & ? & Hq) Hq'. eauto.
Qed.

Lemma numbered_suffix a q e q' : numbered a q e -> q' `suffix_of` q -> exists a', numbered a' q' e.
Proof.
  intros Hn [p ->]. revert a Hn. induction p as [|b p IH]; intros a; simpl; [eauto|].
  intros (_ & _ & ?). eauto.
Qed.

Lemma numbered_length a q e :
  numbered a q e -> 0 <= a < 32767 -> e = (a + Z.of_nat (length q)) mod 32767.
Proof.
  revert a. induction q as [|b q IH]; intros a; simpl.
  - intros <- ?. rewrite Z.add_0_r. by rewrite Z.mod_small.
  - intros (_ & _ & Hq) ?. rewrite (IH _ Hq) by (apply Z.mod_pos_bound; lia).
    rewrite Zplus_mod_idemp_l. f_equal. lia.
Qed.

Lemma numbered_lookup a q e i b :
  numbered a q e -> q !! i = Some b -> ic_ns (bh b) = (a + Z.of_nat i) mod 32767.
Proof.
  revert a i. induction q as [|b' q IH]; intros a i; simpl; [done|].
  intros (<- & ? & Hq) Hi. destruct i as [|i]; simplify_eq/=.
  - rewrite Z.add_0_r. by rewrite Z.mod_small.
  - rewrite (IH _ _ Hq Hi), Zplus_mod_idemp_l. f_equal. lia.
Qed.
