(* ===== verification/Trace.v ===== *)
(** * What a session puts on the connection

    The frames a session writes, as a trace in which the received I-frames it
    counts are marked, since every frame it sends afterwards acknowledges them.
    Sequence numbers are kept as unbounded counts; a frame carries them modulo
    32767. *)

From S2P Require Import Prelude Bits Wire Libevent Session Iecsock Seqnum.

#[local] Arguments hdr_of_bytes : simpl never.

(** ** Frames *)

(** The bytes of one complete frame. *)
Record frame_ok (f : bytes) : Prop := {
  fo_hdr : bad_header (hdr_of_bytes f) = false;
  fo_len : Z.of_nat (length f) = hlength (hdr_of_bytes f) + 2;
  fo_u8 : all_u8 f;
}.

Lemma frame_ok_bounds f :
  frame_ok f -> (6 <= length f <= 255)%nat /\
    IEC_APDU_MIN <= hlength (hdr_of_bytes f) <= IEC_APDU_MAX.
Proof.
  intros [Hh Hl _]. unfold bad_header, IEC_APDU_MIN, IEC_APDU_MAX in *. bool_hyps. lia.
Qed.

(** A frame that is only a header. *)
Lemma short_frame_ok h : hdr_ok h -> start h = 104 -> hlength h = 4 ->
  frame_ok (hdr_bytes h) /\ hdr_of_bytes (hdr_bytes h) = h.
Proof.
  intros Hh Hs Hl. assert (hdr_of_bytes (hdr_bytes h) = h) as E.
  { rewrite <- (app_nil_r (hdr_bytes h)). apply hdr_of_hdr_bytes. }
  split; [|exact E]. split; rewrite ?E; [|by rewrite Hl|exact Hh].
  unfold bad_header, IEC_APDU_MIN, IEC_APDU_MAX. rewrite Hs, Hl. done.
Qed.

Definition type_of (f : bytes) : frame_kind := frame_type (hdr_of_bytes f).

(** 1 for an I-frame; how many of [fs] are I-frames; what their data is; the
    functions of the U-frames among them. *)
Definition isI (f : bytes) : Z := match type_of f with FRAME_TYPE_I => 1 | _ => 0 end.

Fixpoint nI (fs : list bytes) : Z := match fs with [] => 0 | f :: fs' => isI f + nI fs' end.

Definition payloads (fs : list bytes) : list bytes :=
  omap (fun f => match type_of f with FRAME_TYPE_I => Some (drop 6 f) | _ => None end) fs.

Definition us (fs : list bytes) : list uframe_fn :=
  omap (fun f => match type_of f with FRAME_TYPE_U => Some (uframe_func (hdr_of_bytes f)) | _ => None end) fs.

Lemma nI_nonneg fs : 0 <= nI fs.
Proof. induction fs as [|f fs IH]; cbn; [lia|]. unfold isI. destruct (type_of f); lia. Qed.

Lemma nI_app fs fs' : nI (fs ++ fs') = nI fs + nI fs'.
Proof. induction fs as [|f fs IH]; cbn; [done|lia]. Qed.

Lemma payloads_app fs fs' : payloads (fs ++ fs') = payloads fs ++ payloads fs'.
Proof. apply omap_app. Qed.

Lemma us_app fs fs' : us (fs ++ fs') = us fs ++ us fs'.
Proof. apply omap_app. Qed.

(** Whole frames are cut out of a stream in one way only. *)
Lemma frames_prefix fs gs rest :
  Forall frame_ok fs -> Forall frame_ok gs -> concat fs ++ rest = concat gs ->
  exists hs, gs = fs ++ hs /\ rest = concat hs.
Proof.
  intros Hfs. revert gs. induction Hfs as [|f fs Hf Hfs IH]; intros gs Hgs E; [by exists gs|].
  destruct Hgs as [|g gs Hg Hgs].
  { cbn in E. pose proof (frame_ok_bounds f Hf) as [Hb _]. destruct f; [cbn in Hb; lia|done]. }
  cbn [concat] in E. rewrite <- app_assoc in E.
  assert (f = g) as <-.
  { destruct (frame_ok_bounds f Hf) as [Hb _], (frame_ok_bounds g Hg) as [Hb' _].
    assert (hdr_of_bytes f = hdr_of_bytes g) as Eh.
    { do 6 (destruct f as [|? f]; [cbn in Hb; lia|]). do 6 (destruct g as [|? g]; [cbn in Hb'; lia|]).
      cbn in E. unfold hdr_of_bytes. cbn. by simplify_eq. }
    pose proof (fo_len f Hf). pose proof (fo_len g Hg). rewrite Eh in *.
    apply app_inj_1 in E as [? _]; [done|lia]. }
  apply app_inv_head in E. destruct (IH gs Hgs E) as (hs & -> & ->). by exists hs.
Qed.

(** ** Traces

    A frame that is sent, or a received I-frame that is counted. *)
Inductive tev := Tx (f : bytes) | RxI.

Fixpoint txs (tr : list tev) : list bytes :=
  match tr with [] => [] | Tx f :: tr' => f :: txs tr' | RxI :: tr' => txs tr' end.

Fixpoint rxi (tr : list tev) : Z :=
  match tr with [] => 0 | Tx _ :: tr' => rxi tr' | RxI :: tr' => 1 + rxi tr' end.

Lemma rxi_nonneg tr : 0 <= rxi tr.
Proof. induction tr as [|[f|] tr IH]; cbn; lia. Qed.

Lemma txs_app tr tr' : txs (tr ++ tr') = txs tr ++ txs tr'.
Proof. induction tr as [|[f|] tr IH]; cbn; by rewrite ?IH. Qed.

Lemma rxi_app tr tr' : rxi (tr ++ tr') = rxi tr + rxi tr'.
Proof. induction tr as [|[f|] tr IH]; cbn; rewrite ?IH; lia. Qed.

(** Each frame sent, with the two counts at that time. *)
Record mark := { mk_f : bytes; mk_ns : Z; mk_nr : Z }.

Fixpoint marks (vs vr : Z) (tr : list tev) : list mark :=
  match tr with
  | [] => []
  | Tx f :: tr' => Build_mark f vs vr :: marks (vs + isI f) vr tr'
  | RxI :: tr' => marks vs (vr + 1) tr'
  end.

(** The frame carries these counts. *)
Definition mark_ok (m : mark) : Prop :=
  frame_ok (mk_f m) /\
  let h := hdr_of_bytes (mk_f m) in
  match frame_type h with
  | FRAME_TYPE_I => ic_ns h = mk_ns m mod 32767 /\ ic_nr h = mk_nr m mod 32767
  | FRAME_TYPE_S => ic_nr h = mk_nr m mod 32767
  | FRAME_TYPE_U => True
  end.

Definition traced (vs vr : Z) (tr : list tev) : Prop := Forall mark_ok (marks vs vr tr).

Lemma marks_app vs vr tr tr' :
  marks vs vr (tr ++ tr') = marks vs vr tr ++ marks (vs + nI (txs tr)) (vr + rxi tr) tr'.
Proof.
  revert vs vr. induction tr as [|[f|] tr IH]; intros vs vr; cbn.
  - by rewrite !Z.add_0_r.
  - by rewrite IH, Z.add_assoc.
  - by rewrite IH, Z.add_assoc.
Qed.

Lemma marks_frames vs vr tr : map mk_f (marks vs vr tr) = txs tr.
Proof. revert vs vr. induction tr as [|[f|] tr IH]; intros vs vr; cbn; by rewrite ?IH. Qed.

Lemma traced_app vs vr tr tr' :
  traced vs vr (tr ++ tr') <-> traced vs vr tr /\ traced (vs + nI (txs tr)) (vr + rxi tr) tr'.
Proof. unfold traced. by rewrite marks_app, Forall_app. Qed.

Lemma traced_frames vs vr tr : traced vs vr tr -> Forall frame_ok (txs tr).
Proof.
  intros Ht. rewrite <- (marks_frames vs vr). apply Forall_map. eapply Forall_impl; [exact Ht|]. by intros m [? _].
Qed.

(** N(r) never falls below what had been counted, or exceeds what has been. *)
Lemma marks_nr vs vr tr : Forall (fun m => vr <= mk_nr m <= vr + rxi tr) (marks vs vr tr).
Proof.
  revert vs vr. induction tr as [|[f|] tr IH]; intros vs vr; cbn; [constructor| |].
  - constructor; [|apply IH]. cbn. pose proof (rxi_nonneg tr). lia.
  - eapply Forall_impl; [apply IH|]. intros m. cbn. lia.
Qed.

(** Later frames acknowledge at least as much. *)
Lemma marks_nr_mono vs vr tr ms m ms' :
  marks vs vr tr = ms ++ m :: ms' -> Forall (fun m' => mk_nr m <= mk_nr m') ms'.
Proof.
  revert vs vr ms. induction tr as [|[f|] tr IH]; intros vs vr ms E; cbn in E; [by destruct ms| |by eapply IH].
  destruct ms as [|m0 ms]; cbn in E; injection E as E1 E2; [|by eapply IH].
  rewrite <- E2. eapply Forall_impl; [apply marks_nr|]. intros m'. rewrite <- E1. cbn. lia.
Qed.

(** The number of an I-frame is the number of I-frames before it. *)
Lemma marks_ns vs vr tr ms m ms' :
  marks vs vr tr = ms ++ m :: ms' -> mk_ns m = vs + nI (map mk_f ms).
Proof.
  revert vs vr ms. induction tr as [|[f|] tr IH]; intros vs vr ms E; cbn in E; [by destruct ms| |by eapply IH].
  destruct ms as [|m0 ms]; cbn in E; injection E as E1 E2.
  - rewrite <- E1. cbn. lia.
  - rewrite (IH _ _ _ E2), <- E1. cbn. lia.
Qed.

(** ** Emission *)
Section emits.
Context {E App F : Type} {L : Libevent E}.
Implicit Types w : world E App F.

(** From [w] to [w'] the session has written the frames of [tr], with the
    sequence numbers of the time, and has stayed inside its window. *)
Record emits w w' (tr : list tev) : Prop := {
  em_out : ev_out (ev_view (w_ev w')) = ev_out (ev_view (w_ev w)) ++ concat (txs tr);
  em_counts : forall vs vr, s_vs (w_s w) = vs mod 32767 -> s_vr (w_s w) = vr mod 32767 ->
    traced vs vr tr /\ s_vs (w_s w') = (vs + nI (txs tr)) mod 32767 /\
    s_vr (w_s w') = (vr + rxi tr) mod 32767;
  em_window : sdist (s_va (w_s w')) (s_vs (w_s w')) = sdist (s_va (w_s w')) (s_vs (w_s w)) + nI (txs tr);
}.

Lemma emits_silent w w' :
  ev_out (ev_view (w_ev w')) = ev_out (ev_view (w_ev w)) -> s_vs (w_s w') = s_vs (w_s w) ->
  s_vr (w_s w') = s_vr (w_s w) -> emits w w' [].
Proof.
  intros Eo Es Er. split; cbn.
  - by rewrite app_nil_r.
  - intros vs vr Hs Hr. rewrite !Z.add_0_r. split_and!; [constructor|congruence..].
  - rewrite Es. lia.
Qed.

Lemma emits_trans w1 w2 w3 tr tr' :
  emits w1 w2 tr -> emits w2 w3 tr' -> s_va (w_s w3) = s_va (w_s w2) -> emits w1 w3 (tr ++ tr').
Proof.
  intros [O1 C1 W1] [O2 C2 W2] Ea. rewrite Ea in *. split.
  - rewrite O2, O1, txs_app, concat_app. by rewrite app_assoc.
  - intros vs vr Hs Hr. destruct (C1 vs vr Hs Hr) as (T1 & Hs1 & Hr1). destruct (C2 _ _ Hs1 Hr1) as (T2 & Hs2 & Hr2).
    rewrite traced_app, txs_app, nI_app, rxi_app, !Z.add_assoc. by split_and!.
  - rewrite Ea, W2, W1, txs_app, nI_app. lia.
Qed.

(** The same, as far as the U-frames sent and the I-frames counted go. *)
Definition emitted (fns : list uframe_fn) (n : Z) w w' : Prop :=
  exists tr, emits w w' tr /\ us (txs tr) = fns /\ rxi tr = n.

Lemma emitted_silent w w' :
  ev_out (ev_view (w_ev w')) = ev_out (ev_view (w_ev w)) -> s_vs (w_s w') = s_vs (w_s w) ->
  s_vr (w_s w') = s_vr (w_s w) -> emitted [] 0 w w'.
Proof. intros. exists []. by split; [apply emits_silent|]. Qed.

Lemma emitted_trans fns n fns' n' w1 w2 w3 :
  emitted fns n w1 w2 -> emitted fns' n' w2 w3 -> s_va (w_s w3) = s_va (w_s w2) ->
  emitted (fns ++ fns') (n + n') w1 w3.
Proof.
  intros (tr & He & Hu & Hn) (tr' & He' & Hu' & Hn') Ea. exists (tr ++ tr').
  split; [by eapply emits_trans|]. by rewrite txs_app, us_app, rxi_app, Hu, Hu', Hn, Hn'.
Qed.

Lemma emitted_l fns n w1 w2 w3 :
  emitted [] 0 w1 w2 -> emitted fns n w2 w3 -> s_va (w_s w3) = s_va (w_s w2) -> emitted fns n w1 w3.
Proof. intros H1 H2 Ha. exact (emitted_trans [] 0 fns n w1 w2 w3 H1 H2 Ha). Qed.

Lemma emitted_r fns n w1 w2 w3 :
  emitted fns n w1 w2 -> emitted [] 0 w2 w3 -> s_va (w_s w3) = s_va (w_s w2) -> emitted fns n w1 w3.
Proof.
  intros H1 H2 Ha. pose proof (emitted_trans fns n [] 0 w1 w2 w3 H1 H2 Ha) as H. by rewrite app_nil_r, Z.add_0_r in H.
Qed.

(** Nothing that counts has happened before. *)
Lemma emitted_before fns n w1 w2 w3 :
  ev_out (ev_view (w_ev w2)) = ev_out (ev_view (w_ev w1)) -> s_vs (w_s w2) = s_vs (w_s w1) ->
  s_vr (w_s w2) = s_vr (w_s w1) -> emitted fns n w2 w3 -> emitted fns n w1 w3.
Proof.
  intros Eo Es Er (tr & [O C W] & Hu & Hn). exists tr. split_and!; [|done..]. rewrite Eo, Es, Er in *. by split.
Qed.

(** A received I-frame is counted. *)
Lemma emitted_count w w' :
  ev_out (ev_view (w_ev w')) = ev_out (ev_view (w_ev w)) -> s_vs (w_s w') = s_vs (w_s w) ->
  s_vr (w_s w') = (s_vr (w_s w) + 1) mod 32767 -> emitted [] 1 w w'.
Proof.
  intros Eo Es Er. exists [RxI]. split_and!; [split; cbn [txs nI rxi concat]|done..].
  - by rewrite app_nil_r.
  - intros vs vr Hs Hv. split_and!; [constructor|by rewrite Z.add_0_r, Es|].
    rewrite Er, Hv, Zplus_mod_idemp_l. done.
  - rewrite Es. lia.
Qed.

(** One frame that is only a header, not an I-frame. *)
Lemma emitted_short h w w' :
  frame_ok (hdr_bytes h) -> hdr_of_bytes (hdr_bytes h) = h -> frame_type h <> FRAME_TYPE_I ->
  (frame_type h = FRAME_TYPE_S -> ic_nr h = s_vr (w_s w)) ->
  ev_out (ev_view (w_ev w')) = ev_out (ev_view (w_ev w)) ++ hdr_bytes h ->
  s_vs (w_s w') = s_vs (w_s w) -> s_vr (w_s w') = s_vr (w_s w) ->
  emitted (match frame_type h with FRAME_TYPE_U => [uframe_func h] | _ => [] end) 0 w w'.
Proof.
  intros Hf Hh HI HS Ho Es Er. exists [Tx (hdr_bytes h)].
  assert (nI (txs [Tx (hdr_bytes h)]) = 0) as En.
  { cbn. unfold isI, type_of. rewrite Hh. by destruct (frame_type h). }
  split_and!; [split| |done]; rewrite ?En.
  - cbn [txs concat]. by rewrite app_nil_r.
  - intros vs vr Hs Hv. rewrite !Z.add_0_r. split_and!; [|congruence..]. constructor; [|constructor]. split; [done|].
    cbn [mk_f mk_ns mk_nr]. rewrite Hh. destruct (frame_type h); [done|by rewrite HS|done].
  - rewrite Es. lia.
  - unfold us, type_of. cbn. rewrite Hh. by destruct (frame_type h).
Qed.
End emits.
