(* ===== verification/Transmit.v ===== *)
(** * The transmit side

    The session invariant of the link layer and what
    [iecsock_run_write_queue] does with the queued ASDUs. *)

From S2P Require Import Prelude Bits Wire Libevent Session Iecsock Seqnum Trace.

(** ** Well-formed buffers and sessions *)

(** A buffer that [iecsock_prepare_iframe] has been run on: an I-frame header
    whose length field covers exactly the data that follows. *)
Record buf_ok (b : iec_buf) : Prop := {
  buf_hdr_ok : hdr_ok (bh b);
  buf_start : start (bh b) = 104;
  buf_length : hlength (bh b) = data_len b + 4;
  buf_data : data_len b = Z.of_nat (length (bdata b));
  buf_bytes : all_u8 (bdata b);
  buf_asdu : data_len b <= IEC104_ASDU_MAX;
  buf_ft : ic_ft (bh b) = 0;
}.

(** [iecsock_prepare_iframe] establishes it, on a zeroed header. *)
Lemma prepare_buf_ok d :
  all_u8 d -> Z.of_nat (length d) <= IEC104_ASDU_MAX ->
  buf_ok (iecsock_prepare_iframe (Build_iec_buf (Z.of_nat (length d)) zero_hdr d)).
Proof.
  unfold IEC104_ASDU_MAX. intros Hd Hl. split; try done.
  - apply prepare_iframe_ok. apply (bool_decide_unpack _). by vm_compute.
  - simpl. unfold sizeof_iec_ctl. apply u8_small. lia.
Qed.

Section inv.
Context {F : Type}.
Implicit Types s : iecsock F.

(** Frames sent and not yet acknowledged by the peer. *)
Definition outstanding s : Z := sdist (s_va s) (s_vs s).

Record sess_inv s : Prop := {
  inv_vs : 0 <= s_vs s < 32767;
  inv_vr : 0 <= s_vr s < 32767;
  inv_va : 0 <= s_va s <= 32767;
  inv_va_peer : 0 <= s_va_peer s < 32767;
  inv_k : 0 < s_k s < 32767;
  inv_w : 0 < s_w s < 32767;
  inv_window : outstanding s <= s_k s;
  inv_unacked : sdist (s_va_peer s) (s_vr s) < s_w s;
  inv_write_q : Forall buf_ok (s_write_q s);
  inv_ackw_q : exists a, numbered a (s_ackw_q s) (s_vs s);
  inv_buf : length (s_buf s) = 255%nat /\ all_u8 (s_buf s);
  inv_set : EvT1 ∈ s_set s /\ EvT2 ∈ s_set s /\ EvT3 ∈ s_set s;
}.

(** The room left in the send window. *)
Definition room s : nat := Z.to_nat (s_k s - outstanding s).

Lemma outstanding_nonneg s : 0 <= outstanding s.
Proof. apply sdist_range. Qed.

Lemma can_queue_room s : sess_inv s -> iecsock_can_queue s = Z.of_nat (room s).
Proof.
  intros [Hvs _ Hva _ Hk _ Hwin]. unfold iecsock_can_queue, room.
  rewrite rem_sdist by lia. fold (outstanding s).
  pose proof (outstanding_nonneg s). unfold u64. rewrite Z.mod_small; lia.
Qed.

Lemma window_full_room s : sess_inv s -> window_full s = (room s =? 0)%nat.
Proof.
  intros [Hvs _ Hva _ Hk _ Hwin]. unfold window_full, room.
  rewrite window_test by lia. fold (outstanding s).
  destruct (Z.eqb_spec (outstanding s) (s_k s)) as [->|]; symmetry.
  - apply Nat.eqb_eq. lia.
  - apply Nat.eqb_neq. lia.
Qed.
End inv.

(** The buffers as they go out: N(r) of the session, consecutive N(s). *)
Fixpoint stamps (vr vs : Z) (q : list iec_buf) : list iec_buf :=
  match q with
  | [] => []
  | b :: q' => stamp vr vs b :: stamps vr (Z.rem (vs + 1) 32767) q'
  end.

Lemma stamp_ns vr vs b : buf_ok b -> 0 <= vs < 32767 -> ic_ns (bh (stamp vr vs b)) = vs.
Proof.
  intros Hb ?. unfold stamp; cbn. rewrite ic_ns_set_ns by eauto using buf_hdr_ok with bits.
  apply Z.mod_small. lia.
Qed.

Lemma stamp_nr vr vs b : buf_ok b -> 0 <= vr < 32767 -> ic_nr (bh (stamp vr vs b)) = vr.
Proof.
  intros Hb ?. unfold stamp; cbn. rewrite ic_nr_set_ns, ic_nr_set_nr by eauto using buf_hdr_ok.
  apply Z.mod_small. lia.
Qed.

Lemma stamp_ok vr vs b : buf_ok b -> buf_ok (stamp vr vs b).
Proof.
  intros [Hh]. split; try done; cbn.
  - by apply hdr_ok_set_ns, hdr_ok_set_nr.
  - rewrite ic_ft_set_ns by eauto with bits. done.
Qed.

Lemma stamp_data vr vs b : bdata (stamp vr vs b) = bdata b /\ data_len (stamp vr vs b) = data_len b.
Proof. done. Qed.

Lemma stamps_length vr vs q : length (stamps vr vs q) = length q.
Proof. revert vs. induction q as [|b q IH]; intros vs; simpl; auto. Qed.

Lemma stamps_numbered vr vs q :
  Forall buf_ok q -> 0 <= vs < 32767 ->
  numbered vs (stamps vr vs q) ((vs + Z.of_nat (length q)) mod 32767).
Proof.
  intros Hq. revert vs. induction Hq as [|b q Hb Hq IH]; intros vs Hvs; simpl.
  - rewrite Z.add_0_r. by rewrite Z.mod_small.
  - rewrite rem_succ by lia. split_and!; [by apply stamp_ns|lia|lia|].
    replace ((vs + Z.of_nat (S (length q))) mod 32767)
      with (((vs + 1) mod 32767 + Z.of_nat (length q)) mod 32767)
      by (rewrite Zplus_mod_idemp_l; f_equal; lia).
    apply IH, Z.mod_pos_bound. lia.
Qed.

(** The wire image of a well-formed buffer is its header and its data. *)
Lemma apdu_bytes_ok b : buf_ok b -> apdu_bytes b = hdr_bytes (bh b) ++ bdata b.
Proof.
  intros Hb. unfold apdu_bytes. apply take_ge. rewrite length_app. simpl.
  pose proof (buf_length b Hb). pose proof (buf_data b Hb). lia.
Qed.

(** A stamped buffer goes out as one complete I-frame. *)
Lemma apdu_frame b :
  buf_ok b ->
  frame_ok (apdu_bytes b) /\ hdr_of_bytes (apdu_bytes b) = bh b /\ drop 6 (apdu_bytes b) = bdata b /\
  frame_type (bh b) = FRAME_TYPE_I.
Proof.
  intros Hb. destruct (Hb) as [Hh Hst Hl Hd Hu8 Ha Hft]. rewrite apdu_bytes_ok by done.
  assert (hdr_of_bytes (hdr_bytes (bh b) ++ bdata b) = bh b) as Heq by apply hdr_of_hdr_bytes.
  split_and!; [|done|by apply drop_app_length'|by apply frame_type_I].
  unfold IEC104_ASDU_MAX in *. split.
  - rewrite Heq. unfold bad_header, IEC_APDU_MIN, IEC_APDU_MAX. lia.
  - rewrite Heq, Hl, Hd, length_app. cbn [hdr_bytes length]. lia.
  - apply Forall_app. split; [exact Hh|done].
Qed.

(** Buffers that go out together: I-frames with consecutive numbers, and
    nothing else. *)
Lemma stamps_traced q vs vr VS VR (tr := map (fun b => Tx (apdu_bytes b)) (stamps vr vs q)) :
  Forall buf_ok q -> vs = VS mod 32767 -> vr = VR mod 32767 ->
  traced VS VR tr /\ txs tr = map apdu_bytes (stamps vr vs q) /\ nI (txs tr) = Z.of_nat (length q) /\
  us (txs tr) = [] /\ rxi tr = 0.
Proof.
  intros Hq. subst tr. revert vs VS. induction Hq as [|b q Hb Hq IH]; intros vs VS Hs Hr.
  { cbn. split_and!; try done. constructor. }
  pose proof (Z.mod_pos_bound VS 32767 ltac:(lia)). pose proof (Z.mod_pos_bound VR 32767 ltac:(lia)).
  destruct (apdu_frame _ (stamp_ok vr vs b Hb)) as (Hf & Hh & _ & Hft).
  set (f := apdu_bytes (stamp vr vs b)) in *.
  assert (type_of f = FRAME_TYPE_I) as Hty by (unfold type_of; by rewrite Hh).
  assert (isI f = 1) as HI by (unfold isI; by rewrite Hty).
  destruct (IH (Z.rem (vs + 1) 32767) (VS + 1)) as (T & Et & En & Eu & Er); [|done|].
  { rewrite rem_succ by lia. rewrite Hs, Zplus_mod_idemp_l. done. }
  cbn [stamps map txs rxi nI length]. fold f. rewrite HI. split_and!; [|by rewrite Et|rewrite En; lia| |done].
  - unfold traced. cbn [marks]. rewrite HI. constructor; [|exact T]. split; [done|].
    cbn [mk_f mk_ns mk_nr]. rewrite Hh, Hft, stamp_ns, stamp_nr by (done || lia). done.
  - unfold us in *. cbn. by rewrite Hty.
Qed.

(** Symbolic execution of session accesses; [Hlive] is [w_live w = true]. *)
Ltac live_tac := first [eassumption | cbn; eassumption].
(** An event is prepared: by the session invariant, or by a hypothesis. *)
Ltac set_tac :=
  cbn;
  first [ eassumption
        | by apply elem_of_union_l, elem_of_singleton
        | match goal with H : sess_inv _ |- _ => first [apply (inv_set _ H)|pose proof (inv_set _ H); set_solver] end
        | set_solver ].
Ltac sess_step :=
  lazymatch goal with
  | |- wp (rd _) _ _ => apply wp_rd; [live_tac|]
  | |- wp (wr _) _ _ => apply wp_wr; [live_tac|]
  | |- wp (ev _) _ _ => apply wp_ev; [live_tac|]
  | |- wp (ev_set _) _ _ => apply wp_ev_set; [live_tac|]
  | |- wp (ev_add _ _) _ _ => apply wp_ev_add; [live_tac|set_tac|]
  | |- wp (evq _) _ _ => apply wp_evq; [live_tac|]
  | |- wp (evr _) _ _ => apply wp_evr; [live_tac|]
  | |- _ => wp_step
  end; cbv beta.
Ltac sess_steps := repeat sess_step.

Lemma u64_add a n : u64 (u64 a + n) = u64 (a + n).
Proof. unfold u64. apply Zplus_mod_idemp_l. Qed.

Section transmit.
Context {E App F : Type} {L : Libevent E} {LL : LibeventLaws E}.
Implicit Types w : world E App F.

(** The session after the first [n] queued buffers have gone out. *)
Definition sent (n : nat) (s : iecsock F) : iecsock F :=
  match n with
  | O => s
  | S _ =>
      s <| s_write_q := drop n (s_write_q s) |>
        <| s_ackw_q := s_ackw_q s ++ stamps (s_vr s) (s_vs s) (take n (s_write_q s)) |>
        <| s_vs := (s_vs s + Z.of_nat n) mod 32767 |>
        <| s_xmit_cnt := u64 (s_xmit_cnt s + Z.of_nat n) |>
  end.

(** What the peer receives, and T1 running from the last frame on. *)
Definition sent_view (n : nat) (s : iecsock F) (v : evview) : evview :=
  match n with
  | O => v
  | S _ =>
      v <| ev_out := ev_out v ++ concat (map apdu_bytes
                        (stamps (s_vr s) (s_vs s) (take n (s_write_q s)))) |>
        <| ev_armed := <[EvT1 := Some (s_t1 s)]> (ev_armed v) |>
  end.

Lemma send_one_spec b q w Q :
  w_live w = true -> EvT1 ∈ s_set (w_s w) -> s_write_q (w_s w) = b :: q -> buf_ok b -> 0 <= s_vs (w_s w) < 32767 ->
  (forall e, ev_view e = sent_view 1 (w_s w) (ev_view (w_ev w)) ->
     Q tt (w <| w_s := sent 1 (w_s w) |> <| w_ev := e |>)) ->
  wp (send_one b q) Q w.
Proof.
  intros Hlive Hset Hq Hb Hvs HQ. unfold send_one. sess_steps. cbn.
  set (b' := stamp _ _ _). assert (buf_ok b') as Hb' by by apply stamp_ok.
  unfold t1_timer_pending, t1_timer_start, t1_timer_stop. sess_step. cbn.
  assert (Hrest : forall w1, w1 = w <| w_s := (w_s w) <| s_write_q := q |> |> <| w_ev := w_ev w1 |> ->
      (forall m, ev_view (w_ev w1) = (ev_view (w_ev w)) <| ev_armed := m |> ->
         <[EvT1 := Some (s_t1 (w_s w))]> m = <[EvT1 := Some (s_t1 (w_s w))]> (ev_armed (ev_view (w_ev w))) ->
      wp (t1_timer_start;; write_apdu b';;
          wr (fun s => s <| s_ackw_q := s_ackw_q s ++ [b'] |>);;
          wr (fun s => s <| s_vs := Z.rem (s_vs s + 1) 32767 |>);; bump_xmit) Q w1)).
  { intros w1 -> m Hm Hins. cbn in *. unfold t1_timer_start. sess_steps. unfold write_apdu.
    pose proof (buf_length b' Hb') as Hl. pose proof (buf_data b' Hb') as Hd.
    unfold sizeof_iechdr. replace (_ <=? _) with true by lia. sess_steps. unfold bump_xmit. sess_step.
    cbn. set (e := bufferevent_write _ _). specialize (HQ e).
    unfold sent in HQ; cbn in HQ. rewrite Hq in HQ; cbn in HQ.
    rewrite !take_0, drop_0 in HQ. cbn in HQ. rewrite rem_succ by done. apply HQ.
    unfold e. ev_simpl. rewrite Hm; cbn. rewrite Hins. by rewrite app_nil_r. }
  apply wp_bind. rewrite pending_view.
  destruct (bool_decide_reflect (is_Some (ev_armed (ev_view (w_ev w)) !! EvT1))) as [Hp|Hp]; simpl.
  - sess_step. apply (Hrest _ eq_refl (delete EvT1 (ev_armed (ev_view (w_ev w))))).
    + cbn. by rewrite view_del.
    + apply insert_delete_eq.
  - sess_step. apply (Hrest _ eq_refl (ev_armed (ev_view (w_ev w)))); [|done].
    cbn. by destruct (ev_view (w_ev w)).
Qed.

Lemma sent_sent n b q s :
  s_write_q s = b :: q -> 0 <= s_vs s < 32767 -> sent n (sent 1 s) = sent (S n) s.
Proof.
  intros Hq Hvs. destruct n as [|n]; [done|]. unfold sent; cbn -[take drop].
  rewrite Hq; cbn. rewrite take_0, drop_0. rewrite <- app_assoc. cbn. rewrite rem_succ by done. change (Z.of_nat 1) with 1.
  rewrite Zplus_mod_idemp_l, u64_add.
  replace (s_vs s + 1 + Z.of_nat (S n)) with (s_vs s + Z.of_nat (S (S n))) by lia.
  by replace (s_xmit_cnt s + 1 + Z.of_nat (S n)) with (s_xmit_cnt s + Z.of_nat (S (S n))) by lia.
Qed.

Lemma sent_view_sent n b q s v :
  s_write_q s = b :: q -> 0 <= s_vs s < 32767 ->
  sent_view n (sent 1 s) (sent_view 1 s v) = sent_view (S n) s v.
Proof.
  intros Hq Hvs. destruct n as [|n]; [done|]. unfold sent_view, sent; cbn -[take].
  rewrite Hq; cbn. rewrite take_0, rem_succ by done. cbn. rewrite app_nil_r, <- !app_assoc.
  by rewrite insert_insert_eq.
Qed.

Lemma outstanding_sent n s :
  sess_inv s -> (n <= room s)%nat -> outstanding (sent n s) = outstanding s + Z.of_nat n.
Proof.
  intros [Hvs _ Hva _ Hk _ Hwin] Hroom. destruct n as [|n]; [cbn; lia|].
  unfold outstanding, sent; cbn -[Z.of_nat]. unfold room in Hroom.
  apply sdist_plus; unfold outstanding in *; lia.
Qed.

Lemma sess_inv_sent1 s b q :
  sess_inv s -> s_write_q s = b :: q -> (0 < room s)%nat -> sess_inv (sent 1 s).
Proof.
  intros Hi Hq Hroom. pose proof (outstanding_sent 1 s Hi Hroom) as Hout. unfold room in Hroom.
  pose proof (Z.mod_pos_bound (s_vs s + Z.of_nat 1) 32767 ltac:(lia)).
  destruct Hi as [Hvs Hvr Hva Hvp Hk Hw Hwin Hun Hwq [a Ha] Hbuf].
  split; try done.
  - unfold room in *. rewrite Hout. cbn. lia.
  - cbn. rewrite Hq in *. cbn. rewrite drop_0. by inversion_clear Hwq.
  - cbn. exists a. eapply numbered_app; [exact Ha|]. rewrite Hq in *; cbn.
    rewrite take_0. inversion_clear Hwq. apply (stamps_numbered _ _ [b]); [by constructor|done].
Qed.

Lemma write_loop_spec fuel w Q :
  w_live w = true -> sess_inv (w_s w) -> (length (s_write_q (w_s w)) <= fuel)%nat ->
  (forall n e, n = Nat.min (length (s_write_q (w_s w))) (room (w_s w)) ->
     ev_view e = sent_view n (w_s w) (ev_view (w_ev w)) ->
     sess_inv (sent n (w_s w)) ->
     Q tt (w <| w_s := sent n (w_s w) |> <| w_ev := e |>)) ->
  wp (write_loop fuel) Q w.
Proof.
  revert w Q. induction fuel as [|fuel IH]; intros w Q Hlive Hinv Hfuel HQ;
    cbn [write_loop]; sess_steps; rewrite window_full_room by done;
    destruct (s_write_q (w_s w)) as [|b q] eqn:Hq; cbn in Hfuel; try lia.
  1,2: sess_step; specialize (HQ 0%nat (w_ev w) eq_refl eq_refl Hinv); cbn in HQ; by destruct w.
  destruct (Nat.eqb_spec (room (w_s w)) 0) as [Hr|Hr].
  - sess_step. rewrite Hr in HQ. specialize (HQ 0%nat (w_ev w) eq_refl eq_refl Hinv).
    cbn in HQ. by destruct w.
  - sess_step. pose proof (inv_vs _ Hinv) as Hvs. pose proof (inv_write_q _ Hinv) as Hwq.
    rewrite Hq in Hwq. apply Forall_cons_1 in Hwq as [Hb Hwq].
    pose proof (sess_inv_sent1 _ _ _ Hinv Hq ltac:(lia)) as Hinv1.
    pose proof (outstanding_sent 1 _ Hinv ltac:(lia)) as Hroom1.
    apply send_one_spec; [done|apply Hinv|done..|]. intros e He.
    apply IH; [done|done|cbn; rewrite Hq; cbn; rewrite drop_0; lia|].
    cbn -[sent sent_view]. intros n e' Hn He' Hinv'.
    erewrite sent_sent in * by done. rewrite He in He'. erewrite sent_view_sent in He' by done.
    refine (HQ (S n) e' _ He' Hinv'). rewrite Hn.
    unfold room in *. rewrite Hroom1. cbn -[Nat.min]. rewrite Hq; cbn -[Nat.min].
    rewrite drop_0. lia.
Qed.
End transmit.

(** ** What other code may rely on *)

(** Allocated buffers that are in neither queue. *)
Definition balance {E App F} (w : world E App F) : Z :=
  w_bufs w - Z.of_nat (length (s_write_q (w_s w))) - Z.of_nat (length (s_ackw_q (w_s w))).

(** The receive side's view of a session: how far each direction has been
    acknowledged, and the two mode flags. *)
Record link := {
  l_va : Z; l_vr : Z; l_va_peer : Z; l_stopdt : bool; l_testfr : bool;
}.
Definition link_of {F} (s : iecsock F) : link :=
  Build_link (s_va s) (s_vr s) (s_va_peer s) (s_stopdt s) (s_testfr s).

(** The ASDUs the application has been given so far. *)
Class AppLog (App : Type) := app_log : App -> list bytes.

(** [keeps_rx w w']: the session is alive, and the receive buffer, the input
    not yet read and the session's parameters are those of [w]. *)
Record keeps_rx {E App F} {L : Libevent E} (w w' : world E App F) : Prop := {
  keeps_live : w_live w = true -> w_live w' = true;
  keeps_buf : (s_buf (w_s w'), s_len (w_s w'), s_left (w_s w'))
             = (s_buf (w_s w), s_len (w_s w), s_left (w_s w));
  keeps_type : s_type (w_s w') = s_type (w_s w);
  keeps_w : s_w (w_s w') = s_w (w_s w);
  keeps_k : s_k (w_s w') = s_k (w_s w);
  keeps_hooks : s_hooks (w_s w') = s_hooks (w_s w);
  keeps_in : ev_in (ev_view (w_ev w')) = ev_in (ev_view (w_ev w));
  keeps_mem : w_mem w = [] -> w_mem w' = [];
  keeps_set : s_set (w_s w) ⊆ s_set (w_s w');
}.

(** [keeps w w']: moreover the application was given nothing. *)
Record keeps {E App F} {L : Libevent E} {AL : AppLog App} (w w' : world E App F) : Prop := {
  keeps_keeps_rx : keeps_rx w w';
  keeps_log : app_log (w_app w') = app_log (w_app w);
}.

(** [tx_only w w']: only sending has happened between [w] and [w']. *)
Record tx_only {E App F} {L : Libevent E} {AL : AppLog App} (w w' : world E App F) : Prop := {
  tx_keeps : keeps w w';
  tx_link : link_of (w_s w') = link_of (w_s w);
  tx_balance : balance w' = balance w;
  tx_emitted : emitted [] 0 w w';
}.

#[export] Instance keeps_rx_preorder E App F (L : Libevent E) : PreOrder (@keeps_rx E App F L).
Proof.
  split.
  - intros w. by split.
  - intros w1 w2 w3 [] []. split; auto; [congruence..|by etrans].
Qed.

#[export] Instance keeps_preorder E App F (L : Libevent E) (AL : AppLog App) :
  PreOrder (@keeps E App F L AL).
Proof.
  split.
  - intros w. by split.
  - intros w1 w2 w3 [] []. split; [by etrans|congruence].
Qed.

#[export] Instance tx_only_preorder E App F (L : Libevent E) (AL : AppLog App) :
  PreOrder (@tx_only E App F L AL).
Proof.
  split.
  - intros w. split; [reflexivity|done..|by apply emitted_silent].
  - intros w1 w2 w3 [? ? ? E1] [? El ? E2]. split; [by etrans|congruence..|].
    apply (emitted_trans [] 0 [] 0 w1 w2 w3); [done|done|]. unfold link_of in El. by simplify_eq.
Qed.

(** A step that writes nothing. *)
Lemma tx_silent {E App F} {L : Libevent E} {AL : AppLog App} (w w' : world E App F) :
  keeps w w' -> link_of (w_s w') = link_of (w_s w) -> balance w' = balance w ->
  s_vs (w_s w') = s_vs (w_s w) -> ev_out (ev_view (w_ev w')) = ev_out (ev_view (w_ev w)) -> tx_only w w'.
Proof.
  intros Hk Hl Hb Hs Ho. split; [done..|]. apply emitted_silent; [done|done|]. unfold link_of in Hl. by simplify_eq.
Qed.

(** [fifo w w']: the frames written carry the data of the buffers that have
    moved, in order, to the end of the acknowledge queue. *)
Definition fifo {E App F} {L : Libevent E} (w w' : world E App F) : Prop := exists fs,
  Forall frame_ok fs /\ ev_out (ev_view (w_ev w')) = ev_out (ev_view (w_ev w)) ++ concat fs /\
  map bdata (s_ackw_q (w_s w')) = map bdata (s_ackw_q (w_s w)) ++ payloads fs.

Lemma fifo_silent {E App F} {L : Libevent E} (w w' : world E App F) :
  ev_out (ev_view (w_ev w')) = ev_out (ev_view (w_ev w)) -> s_ackw_q (w_s w') = s_ackw_q (w_s w) -> fifo w w'.
Proof. intros Eo Ea. exists []. rewrite Eo, Ea. cbn. by rewrite !app_nil_r. Qed.

#[export] Instance fifo_preorder E App F (L : Libevent E) : PreOrder (@fifo E App F L).
Proof.
  split.
  - intros w. by apply fifo_silent.
  - intros w1 w2 w3 (fs & Hf & Eo & Ea) (fs' & Hf' & Eo' & Ea'). exists (fs ++ fs').
    rewrite Eo', Eo, Ea', Ea, concat_app, payloads_app, <- !app_assoc. split_and!; [by apply Forall_app|done|done].
Qed.

Section run_write_queue.
Context {E App F : Type} {L : Libevent E} {LL : LibeventLaws E} {AL : AppLog App}.
Implicit Types w : world E App F.

(** A slave does not send while the monitor direction is inactive. *)
Definition sends (s : iecsock F) : nat :=
  if bool_decide (s_type s = IEC_SLAVE) && s_stopdt s then O
  else Nat.min (length (s_write_q s)) (room s).

Lemma run_write_queue_wp w Q :
  w_live w = true -> sess_inv (w_s w) ->
  (forall n e, n = sends (w_s w) ->
     ev_view e = sent_view n (w_s w) (ev_view (w_ev w)) ->
     sess_inv (sent n (w_s w)) ->
     Q tt (w <| w_s := sent n (w_s w) |> <| w_ev := e |>)) ->
  wp iecsock_run_write_queue Q w.
Proof.
  intros Hlive Hinv HQ. unfold iecsock_run_write_queue, sends in *. sess_steps.
  destruct (bool_decide _ && s_stopdt (w_s w)).
  - sess_step. specialize (HQ 0%nat (w_ev w) eq_refl eq_refl Hinv). cbn in HQ. by destruct w.
  - sess_steps. by apply write_loop_spec.
Qed.

Lemma sent_balance n w e :
  (n <= length (s_write_q (w_s w)))%nat ->
  balance (w <| w_s := sent n (w_s w) |> <| w_ev := e |>) = balance w.
Proof.
  intros Hn. unfold balance. destruct n; [done|]. cbn -[take drop].
  rewrite length_app, stamps_length, length_drop, length_take. lia.
Qed.

(** What goes on the connection when [n] buffers are sent. *)
Lemma sent_emitted n w e :
  sess_inv (w_s w) -> (n <= length (s_write_q (w_s w)))%nat -> (n <= room (w_s w))%nat ->
  ev_view e = sent_view n (w_s w) (ev_view (w_ev w)) ->
  emitted [] 0 w (w <| w_s := sent n (w_s w) |> <| w_ev := e |>).
Proof.
  intros Hi Hn Hr He. destruct n as [|n]; [by apply emitted_silent; cbn; [rewrite He|..]|].
  set (q := take (S n) (s_write_q (w_s w))).
  assert (length q = S n) as Hq by (by apply length_take_le).
  assert (Forall buf_ok q) as Hb by (apply Forall_take, Hi).
  pose proof (fun VS VR => stamps_traced q (s_vs (w_s w)) (s_vr (w_s w)) VS VR Hb) as Ht.
  destruct (Ht (s_vs (w_s w)) (s_vr (w_s w))) as (_ & Et & En & Eu & Er);
    [symmetry; apply Z.mod_small, Hi..|]. eexists. split_and!; [|exact Eu|exact Er]. split.
  - cbn -[take sent_view]. rewrite He, Et. done.
  - intros vs vr Hs Hv. destruct (Ht vs vr Hs Hv) as (T & _). split; [exact T|]. rewrite En, Er, Z.add_0_r, Hq. cbn -[take Z.of_nat].
    split; [|done]. by rewrite Hs, Zplus_mod_idemp_l.
  - rewrite En, Hq. pose proof (outstanding_sent (S n) (w_s w) Hi Hr) as Ho. exact Ho.
Qed.

Lemma sent_tx_only n w e :
  sess_inv (w_s w) -> (n <= length (s_write_q (w_s w)))%nat -> (n <= room (w_s w))%nat ->
  ev_view e = sent_view n (w_s w) (ev_view (w_ev w)) ->
  tx_only w (w <| w_s := sent n (w_s w) |> <| w_ev := e |>).
Proof.
  intros Hi Hn Hr He. split; [|by destruct n|by apply sent_balance|by apply sent_emitted].
  split; [|done]. split; try (by destruct n); cbn; try done. rewrite He. by destruct n.
Qed.

Lemma stamps_data vr vs q : map bdata (stamps vr vs q) = map bdata q.
Proof. revert vs. induction q as [|b q IH]; intros vs; cbn; [done|]. by rewrite IH. Qed.

Lemma stamps_payloads vr vs q :
  Forall buf_ok q -> Forall frame_ok (map apdu_bytes (stamps vr vs q)) /\
  payloads (map apdu_bytes (stamps vr vs q)) = map bdata q.
Proof.
  intros Hq. revert vs. induction Hq as [|b q Hb Hq IH]; intros vs; cbn [stamps map]; [done|].
  destruct (apdu_frame _ (stamp_ok vr vs b Hb)) as (Hf & Hh & Hd & Hft).
  destruct (IH (Z.rem (vs + 1) 32767)) as [H1 H2]. split; [by constructor|].
  unfold payloads, type_of. cbn. rewrite Hh, Hft. cbn. rewrite Hd. f_equal. exact H2.
Qed.

Lemma sent_fifo n w e :
  sess_inv (w_s w) -> ev_view e = sent_view n (w_s w) (ev_view (w_ev w)) ->
  fifo w (w <| w_s := sent n (w_s w) |> <| w_ev := e |>).
Proof.
  intros Hi He. destruct n as [|n]; [by apply fifo_silent; cbn; [rewrite He|]|].
  destruct (stamps_payloads (s_vr (w_s w)) (s_vs (w_s w)) (take (S n) (s_write_q (w_s w)))) as [Hf Hp];
    [apply Forall_take, Hi|].
  eexists. split_and!; [exact Hf|cbn -[take sent_view]; rewrite He; done|].
  cbn -[take]. rewrite map_app, stamps_data, Hp. done.
Qed.

Lemma sends_le s : (sends s <= length (s_write_q s))%nat.
Proof. unfold sends. destruct (_ && _); lia. Qed.

Lemma sends_room s : (sends s <= room s)%nat.
Proof. unfold sends. destruct (_ && _); lia. Qed.

(** A session that may send leaves a buffer queued only if the window is full. *)
Definition flushed (s : iecsock F) : Prop :=
  bool_decide (s_type s = IEC_SLAVE) && s_stopdt s = false -> s_write_q s = [] \/ room s = 0%nat.

Lemma sent_flushed s : sess_inv s -> flushed (sent (sends s) s).
Proof.
  intros Hi Hact. pose proof (inv_window _ Hi) as Hw.
  assert ((bool_decide (s_type s = IEC_SLAVE) && s_stopdt s) = false) as Ha by by destruct (sends s).
  assert (s_k (sent (sends s) s) = s_k s) as Ek by by destruct (sends s).
  pose proof (outstanding_sent (sends s) s Hi (sends_room s)) as Ho. unfold room. rewrite Ek, Ho. unfold sends in *. rewrite Ha in *.
  destruct (Nat.le_gt_cases (length (s_write_q s)) (room s)) as [Hle|Hgt]; [left|right; unfold room in *; lia].
  rewrite Nat.min_l in * by done. destruct (s_write_q s) as [|b q] eqn:Hq; cbn; [done|]. rewrite Hq. by apply drop_ge.
Qed.

Lemma run_write_queue_tx w Q :
  w_live w = true -> sess_inv (w_s w) ->
  (forall w', sess_inv (w_s w') -> w_app w' = w_app w -> tx_only w w' -> Q tt w') ->
  wp iecsock_run_write_queue Q w.
Proof.
  intros Hlive Hinv HQ. apply run_write_queue_wp; [done..|]. intros n e -> He Hi.
  apply HQ; [done|done|]. by apply sent_tx_only; [|apply sends_le|apply sends_room|].
Qed.

(** The ASDUs in the link layer's hands, oldest first. *)
Definition txq (s : iecsock F) : list bytes := map bdata (s_ackw_q s ++ s_write_q s).

Lemma txq_sent n (s : iecsock F) : txq (sent n s) = txq s.
Proof.
  destruct n as [|n]; [done|]. unfold txq, sent. cbn -[take drop].
  rewrite !map_app, stamps_data, <- app_assoc, <- map_app, take_drop. done.
Qed.

Lemma sess_inv_push (s : iecsock F) b :
  sess_inv s -> buf_ok b -> sess_inv (s <| s_write_q := s_write_q s ++ [b] |>).
Proof.
  intros [] Hb. split; try done. cbn. apply Forall_app. split; [done|by constructor].
Qed.

(** The way an application sends: a buffer is allocated, filled, queued, and
    the queue is run.  First the allocation, *)
Lemma calloc_buf_push w (Q : bool -> world E App F -> Prop) :
  w_live w = true -> sess_inv (w_s w) ->
  (forall m, (w_mem w = [] -> m = []) -> Q true (w <| w_mem := m |> <| w_bufs := w_bufs w + 1 |>)) ->
  (forall m, w_mem w = false :: m -> tx_only w (w <| w_mem := m |>) -> Q false (w <| w_mem := m |>)) ->
  wp calloc_buf Q w.
Proof.
  intros Hl Hs Ht Hf. unfold calloc_buf, try_alloc. apply wp_bind. unfold wp at 1.
  destruct (w_mem w) as [|[] m] eqn:Hm; sess_steps.
  - specialize (Ht [] ltac:(done)). replace (w <| w_mem := [] |>) with w in Ht; [exact Ht|].
    rewrite <- Hm. by destruct w.
  - by apply Ht.
  - apply Hf; [done|]. apply tx_silent; [|done..]. split; [|done]. split; try done. cbn. congruence.
Qed.

(** then the queue, with the buffer at its end. *)
Lemma push_run_wp d m w (Q : unit -> world E App F -> Prop) :
  w_live w = true -> sess_inv (w_s w) -> (w_mem w = [] -> m = []) ->
  all_u8 d -> Z.of_nat (length d) <= IEC104_ASDU_MAX ->
  (forall w', sess_inv (w_s w') -> w_app w' = w_app w -> tx_only w w' ->
     txq (w_s w') = txq (w_s w) ++ [d] -> fifo w w' -> flushed (w_s w') ->
     (forall i, i <> EvT1 -> ev_armed (ev_view (w_ev w')) !! i = ev_armed (ev_view (w_ev w)) !! i) -> Q tt w') ->
  wp (wr (fun s => s <| s_write_q := s_write_q s ++
            [iecsock_prepare_iframe (Build_iec_buf (Z.of_nat (length d)) zero_hdr d)] |>);;
      iecsock_run_write_queue) Q (w <| w_mem := m |> <| w_bufs := w_bufs w + 1 |>).
Proof.
  intros Hl Hs Hm Hd Hlen HQ. set (b := iecsock_prepare_iframe _).
  assert (buf_ok b) as Hb by by apply prepare_buf_ok.
  sess_steps. match goal with |- wp _ _ ?x => set (w1 := x) end.
  assert (tx_only w w1) as Htx.
  { apply tx_silent; [by split|done| |done|done]. unfold balance. cbn. rewrite length_app. cbn. lia. }
  apply run_write_queue_wp; [done|by apply sess_inv_push|]. intros n e Hn He Hi.
  apply HQ; [done|done| | | | |].
  - etrans; [exact Htx|]. apply sent_tx_only; [by apply sess_inv_push|rewrite Hn..|done].
    + apply sends_le.
    + apply sends_room.
  - cbn -[sent txq]. rewrite txq_sent. unfold txq. cbn. by rewrite app_assoc, map_app.
  - transitivity w1; [by apply fifo_silent|]. apply sent_fifo; [by apply sess_inv_push|done].
  - rewrite Hn. by apply sent_flushed, sess_inv_push.
  - intros i Hi1. cbn -[sent sent_view]. rewrite He. destruct n; [done|]. cbn.
    by rewrite lookup_insert_ne.
Qed.
End run_write_queue.
