(* ===== verification/Receive.v ===== *)
(** * The receive side

    What [iecsock_frame_recv] does with each frame, against a protocol
    machine over the receive state, for any program whose hooks keep to the
    interface [HookSpec]. *)

From S2P Require Import Prelude Bits Wire Libevent Session Iecsock Seqnum Trace Transmit.

(** ** What the link layer relies on its hooks for

    A hook may queue and send ASDUs and change its own state; it does not
    close the session or touch the receive side.  The data hook owns the
    buffer it is given and frees it.  [hook_needs] names the events a hook
    schedules without having prepared them itself. *)
Class HookSpec (E App F : Type) {L : Libevent E} {AL : AppLog App} {H : HookCode E App F} := {
  app_inv : App -> Prop;
  hook_needs : F -> gset evid;
  hook_spec f (w : world E App F) :
    w_live w = true -> sess_inv (w_s w) -> app_inv (w_app w) -> hook_needs f ⊆ s_set (w_s w) ->
    wp (run_hook f) (fun _ w' => sess_inv (w_s w') /\ app_inv (w_app w') /\ tx_only w w') w;
  hook_reason_spec f z (w : world E App F) :
    w_live w = true -> sess_inv (w_s w) -> app_inv (w_app w) ->
    wp (run_hook_reason f z)
       (fun _ w' => sess_inv (w_s w') /\ app_inv (w_app w') /\ tx_only w w') w;
  hook_data_spec f b (w : world E App F) :
    w_live w = true -> sess_inv (w_s w) -> app_inv (w_app w) ->
    wp (run_hook_data f b)
       (fun _ w' => sess_inv (w_s w') /\ app_inv (w_app w') /\ keeps_rx w w' /\
                    app_log (w_app w') = app_log (w_app w) ++ [take (Z.to_nat (data_len b)) (bdata b)] /\
                    link_of (w_s w') = link_of (w_s w) /\ balance w' = balance w - 1 /\ emitted [] 0 w w') w;
  data_hook_set : is_Some (data_indication default_hooks);
}.

(** ** The protocol machine *)
Section machine.
Context {F : Type}.
Implicit Types s : iecsock F.

Definition u_acceptable s (f : uframe_fn) : bool :=
  match f with
  | STARTACT | STOPACT => bool_decide (s_type s = IEC_SLAVE)
  | STARTCON | STOPCON => bool_decide (s_type s = IEC_MASTER)
  | TESTACT => true
  | TESTCON => s_testfr s
  end.

Definition inactive s : bool := bool_decide (s_type s = IEC_SLAVE) && s_stopdt s.

(** N(r) acknowledges frames that have been sent and are not yet
    acknowledged; N(s) is the number that is expected next. *)
Definition acknowledges s (nr : Z) : bool := sdist (s_va s) nr <=? outstanding s.

Definition expected s (ns : Z) : bool := bool_decide (ns = s_vr s).

(** Whether a frame with header [h] is in order in state [s]. *)
Definition acceptable s (h : iechdr) : bool :=
  match frame_type h with
  | FRAME_TYPE_I => inactive s || (acknowledges s (ic_nr h) && expected s (ic_ns h))
  | FRAME_TYPE_S => acknowledges s (ic_nr h)
  | FRAME_TYPE_U => u_acceptable s (uframe_func h)
  end.

(** The receive state after the frame. *)
Definition link_after s (h : iechdr) : link :=
  let l := link_of s in
  match frame_type h with
  | FRAME_TYPE_I =>
      if inactive s || negb (acknowledges s (ic_nr h)) then l
      else if negb (expected s (ic_ns h))
           then Build_link (ic_nr h) (l_vr l) (l_va_peer l) (l_stopdt l) (l_testfr l)
           else
             let vr := (l_vr l + 1) mod 32767 in
             let due := sdist (l_va_peer l) vr =? s_w s in
             Build_link (ic_nr h) vr (if due then vr else l_va_peer l) (l_stopdt l) (l_testfr l)
  | FRAME_TYPE_S =>
      if acknowledges s (ic_nr h)
      then Build_link (ic_nr h) (l_vr l) (l_va_peer l) (l_stopdt l) (l_testfr l) else l
  | FRAME_TYPE_U =>
      if negb (u_acceptable s (uframe_func h)) then l
      else match uframe_func h with
           | STARTACT | STARTCON => Build_link (l_va l) (l_vr l) (l_va_peer l) false (l_testfr l)
           | STOPACT | STOPCON => Build_link (l_va l) (l_vr l) (l_va_peer l) true (l_testfr l)
           | TESTACT => l
           | TESTCON => Build_link (l_va l) (l_vr l) (l_va_peer l) (l_stopdt l) false
           end
  end.

(** The U-frames sent in reply, and the I-frames counted. *)
Definition replies s (h : iechdr) : list uframe_fn :=
  match frame_type h with
  | FRAME_TYPE_U =>
      if negb (u_acceptable s (uframe_func h)) then []
      else match uframe_func h with
           | STARTACT => [STARTCON] | STOPACT => [STOPCON] | TESTACT => [TESTCON] | _ => []
           end
  | _ => []
  end.

Definition counts s (h : iechdr) : Z :=
  match frame_type h with
  | FRAME_TYPE_I => if negb (inactive s) && acceptable s h then 1 else 0
  | _ => 0
  end.

(** An I-frame that is refused leaves its buffer allocated. *)
Definition leaked s (h : iechdr) : Z :=
  match frame_type h with
  | FRAME_TYPE_I => if acceptable s h then 0 else 1
  | _ => 0
  end.
End machine.

Lemma hdr_of_app l l' : (6 <= length l)%nat -> hdr_of_bytes (l ++ l') = hdr_of_bytes l.
Proof. intros Hl. do 6 (destruct l as [|? l]; [cbn in Hl; lia|]). done. Qed.

Lemma hdr_of_take n l l' : (6 <= n)%nat -> (6 <= length l)%nat ->
  hdr_of_bytes (take n l ++ l') = hdr_of_bytes l.
Proof.
  intros Hn Hl. do 6 (destruct l as [|? l]; [cbn in Hl; lia|]).
  do 6 (destruct n as [|n]; [lia|]). done.
Qed.

Section receive.
Context {E App F : Type} {L : Libevent E} {LL : LibeventLaws E}.
Context {AL : AppLog App} {HC : HookCode E App F} {HS : HookSpec E App F}.
Implicit Types w : world E App F.

Record sound w : Prop := {
  sound_live : w_live w = true;
  sound_sess : sess_inv (w_s w);
  sound_app : app_inv (w_app w);
}.

(** Moreover every event the program's hooks schedule has been prepared. *)
Record good w : Prop := {
  good_live : w_live w = true;
  good_sess : sess_inv (w_s w);
  good_app : app_inv (w_app w);
  good_set : forall f, hook_needs f ⊆ s_set (w_s w);
}.

Lemma good_sound w : good w -> sound w.
Proof. by intros [? ? ? _]. Qed.

Lemma sound_good w w' : good w -> sound w' -> s_set (w_s w) ⊆ s_set (w_s w') -> good w'.
Proof. intros [_ _ _ Hn] [? ? ?] Hs. split; try done. intros f. etrans; [apply Hn|done]. Qed.

(** Keeping what [good] says from one state to the next. *)
Lemma good_keeps w w' : good w -> keeps_rx w w' -> sess_inv (w_s w') -> app_inv (w_app w') -> good w'.
Proof.
  intros Hg Hk Hs Ha. apply (sound_good w); [done| |apply Hk]. split; [apply Hk, Hg|done..].
Qed.

(** ** Operations that only send *)
Definition sends_only (m : ST (world E App F) unit) : Prop := forall w Q,
  good w -> (forall w', good w' -> tx_only w w' -> Q tt w') -> wp m Q w.

(** Run one of them from a state reached from [w0] by sending only. *)
Lemma tx_then {A} w0 w (m : ST (world E App F) unit) (k : unit -> ST (world E App F) A) Q :
  sends_only m -> good w -> tx_only w0 w ->
  (forall w', good w' -> tx_only w0 w' -> wp (k tt) Q w') -> wp (m ≫= k) Q w.
Proof. intros Hm Hg Htx HQ. apply wp_bind, Hm; [done|]. intros w' Hg' Htx'. apply HQ; [done|by etrans]. Qed.

Lemma skip_tx : sends_only skip.
Proof. intros w Q Hg HQ. apply wp_ret, HQ; [done|reflexivity]. Qed.

Lemma when_tx b m : sends_only m -> sends_only (when b m).
Proof. intros Hm. destruct b; [done|apply skip_tx]. Qed.

Lemma ev_tx (f : E -> E) w Q :
  good w ->
  (forall e, ev_in (ev_view (f e)) = ev_in (ev_view e) /\ ev_out (ev_view (f e)) = ev_out (ev_view e)) ->
  (forall w', good w' -> tx_only w w' -> Q tt w') -> wp (ev f) Q w.
Proof.
  intros [Hl Hs Ha Hn] Hf HQ. apply wp_ev; [done|]. apply HQ; [by split|].
  apply tx_silent; [|done..|apply Hf]. split; [|done]. split; try done. apply Hf.
Qed.

(** A frame that is only a header. *)
Lemma write_short_spec h w Q (fns := match frame_type h with FRAME_TYPE_U => [uframe_func h] | _ => [] end) :
  good w -> hdr_ok h -> start h = 104 -> hlength h = 4 -> frame_type h <> FRAME_TYPE_I ->
  (frame_type h = FRAME_TYPE_S -> ic_nr h = s_vr (w_s w)) ->
  (forall w', good w' -> keeps w w' -> link_of (w_s w') = link_of (w_s w) -> balance w' = balance w ->
     s_vs (w_s w') = s_vs (w_s w) -> emitted fns 0 w w' -> Q tt w') ->
  wp (ev (bufferevent_write (hdr_bytes h));; bump_xmit) Q w.
Proof.
  intros [Hl Hs Ha Hn] Hh Hst Hlen HI Hnr HQ. destruct (short_frame_ok h Hh Hst Hlen) as [Hf Ehdr].
  unfold bump_xmit. sess_steps. apply HQ; [| |done|done|done|].
  - split; [done| |done|done]. destruct Hs. by split.
  - split; [|done]. split; try done. cbn. by rewrite view_write.
  - apply emitted_short; try done. cbn -[hdr_bytes]. by rewrite view_write.
Qed.

Lemma uframe_send_spec func w Q :
  good w ->
  (forall w', good w' -> keeps w w' -> link_of (w_s w') = link_of (w_s w) -> balance w' = balance w ->
     emitted [func] 0 w w' -> Q tt w') ->
  wp (iecsock_uframe_send func) Q w.
Proof.
  intros Hg HQ. destruct (uframe_hdr_read func) as (Hh & Hft & Hfn & Hlen & Hst).
  apply write_short_spec; [done..|by rewrite Hft|by rewrite Hft|]. rewrite Hft, Hfn. auto.
Qed.

Lemma sframe_send_tx : sends_only iecsock_sframe_send.
Proof.
  intros w Q Hg HQ. unfold iecsock_sframe_send. sess_step. apply wp_rd; [apply Hg|].
  destruct (sframe_hdr_read (s_vr (w_s w))) as (Hh & Hft & Hnr & Hlen & Hst).
  apply write_short_spec; [done..|by rewrite Hft| |].
  - intros _. change (sc_nr (sframe_hdr (s_vr (w_s w))) = s_vr (w_s w)). rewrite Hnr.
    pose proof (inv_vr _ (good_sess _ Hg)). apply Z.mod_small. lia.
  - rewrite Hft. intros w' ? ? ? ? ? ?. apply HQ; [done|]. by split.
Qed.

(** Scheduling an event that has been prepared. *)
Lemma ev_add_tx i t w Q :
  good w -> i ∈ s_set (w_s w) -> (forall w', good w' -> tx_only w w' -> Q tt w') -> wp (ev_add i t) Q w.
Proof.
  intros Hg Hi HQ. unfold ev_add. apply wp_bind, wp_rd; [apply Hg|]. rewrite bool_decide_true by done.
  apply ev_tx; [done| |done]. intros e. by rewrite !view_add.
Qed.

Lemma t2_start_tx : sends_only t2_timer_start.
Proof.
  intros w Q Hg HQ. unfold t2_timer_start. sess_step. apply wp_rd; [apply Hg|].
  apply ev_add_tx; [done|apply Hg|done].
Qed.

Lemma t3_start_tx : sends_only t3_timer_start.
Proof.
  intros w Q Hg HQ. unfold t3_timer_start. sess_step. apply wp_rd; [apply Hg|].
  apply ev_add_tx; [done|apply Hg|done].
Qed.

Lemma event_del_tx i : sends_only (ev (event_del i)).
Proof. intros w Q Hg HQ. apply ev_tx; [done| |done]. intros e. by rewrite !view_del. Qed.

Lemma call_hook_tx x : sends_only (call_hook x).
Proof.
  intros w Q Hg HQ. destruct (Hg) as [Hl Hs Ha Hn]. unfold call_hook, hook. sess_steps.
  destruct (match x (s_hooks (w_s w)) with Some f => Some f | None => _ end) as [f|].
  - eapply wp_mono; [by apply hook_spec|]. intros [] w' (?&?&Htx). apply HQ; [|done].
    apply (good_keeps w); [done|apply Htx|done..].
  - apply wp_ret. apply HQ; [done|reflexivity].
Qed.

Lemma write_queue_tx : sends_only iecsock_run_write_queue.
Proof.
  intros w Q Hg HQ. destruct (Hg) as [Hl Hs Ha _]. apply run_write_queue_tx; [done..|]. intros w' Hs' Happ Htx.
  apply HQ; [|done]. apply (good_keeps w); [done|apply Htx|done|by rewrite Happ].
Qed.

(** The steps of a handler that only send, one after the other. *)
Ltac tx_steps w0 :=
  repeat (eapply (tx_then w0);
          [solve [eauto using sframe_send_tx, t2_start_tx, t3_start_tx, event_del_tx, call_hook_tx,
                    write_queue_tx, skip_tx, when_tx]
          |eassumption
          |first [eassumption|reflexivity]
          |]; intros ? ? ?).

Lemma link_fields (s s' : iecsock F) :
  link_of s' = link_of s ->
  s_va s' = s_va s /\ s_vr s' = s_vr s /\ s_va_peer s' = s_va_peer s /\
  s_stopdt s' = s_stopdt s /\ s_testfr s' = s_testfr s.
Proof. unfold link_of. intros. by simplify_eq. Qed.

(** ** Acknowledgements *)
Lemma check_nr_spec s nr :
  sess_inv s -> 0 <= nr < 32768 -> check_nr s nr = (sdist (s_va s) nr <=? outstanding (F:=F) s).
Proof. intros [? _ ?] ?. unfold check_nr, outstanding. by rewrite !rem_sdist by lia. Qed.

(** The two checks of the code are the conditions of the machine. *)
Lemma check_nr_acknowledges s h :
  sess_inv s -> check_nr s (ic_nr h) = acknowledges (F:=F) s (ic_nr h).
Proof. intros Hi. apply check_nr_spec; [done|]. pose proof (ic_nr_range h). lia. Qed.

Lemma check_ns_expected s ns : check_ns s ns = expected (F:=F) s ns.
Proof. unfold check_ns, expected. case_bool_decide; lia. Qed.

Lemma sess_inv_ack s nr :
  sess_inv s -> 0 <= nr < 32768 -> check_nr (F:=F) s nr = true -> sess_inv (s <| s_va := nr |>).
Proof.
  intros Hi Hnr Hc. rewrite check_nr_spec in Hc by done. bool_hyps.
  pose proof (inv_window _ Hi) as Hw. pose proof (sdist_range (s_va s) nr) as Hr.
  destruct Hi. split; try done; cbn in *; try lia.
  unfold outstanding in *. cbn. rewrite (sdist_split (s_va s)) by done. lia.
Qed.

Lemma ack_advance_spec nr w Q :
  good w -> 0 <= nr < 32768 -> check_nr (w_s w) nr = true ->
  (forall w', good w' -> keeps w w' -> link_of (w_s w') = link_of ((w_s w) <| s_va := nr |>) ->
     balance w' = balance w -> emitted [] 0 w w' -> Q tt w') ->
  wp (ack_advance nr) Q w.
Proof.
  intros [Hl Hs Ha Hn] Hnr Hc HQ. unfold ack_advance. sess_steps. cbn.
  set (w1 := w <| w_s := (w_s w) <| s_va := nr |> |>).
  assert (good w1) as Hg1 by (split; [done|by apply sess_inv_ack|done|done]).
  assert (keeps w w1) as Hk1 by by split.
  assert (emitted [] 0 w w1) as He1 by by apply emitted_silent.
  apply wp_when; intros _.
  - unfold t1_timer_stop. sess_step. apply event_del_tx; [done|]. intros w2 Hg2 Htx2.
    apply call_hook_tx; [done|]. intros w3 Hg3 Htx3.
    destruct (transitivity Htx2 Htx3) as [Hk Hlk Hb He].
    apply HQ; [done|by etrans|by rewrite Hlk|by rewrite Hb|]. eapply emitted_l; [done..|]. by apply link_fields.
  - by apply HQ.
Qed.

(** ** I-frames *)

(** Counting a received frame, and acknowledging when [w] are due. *)
Definition counted (s : iecsock F) : iecsock F :=
  let vr := (s_vr s + 1) mod 32767 in
  let due := sdist (s_va_peer s) vr =? s_w s in
  if due then s <| s_vr := vr |> <| s_va_peer := vr |> <| s_xmit_cnt := u64 (s_xmit_cnt s + 1) |>
  else s <| s_vr := vr |>.

Lemma counted_link (s s' : iecsock F) :
  link_of s' = link_of s -> s_w s' = s_w s -> link_of (counted s') = link_of (counted s).
Proof.
  intros (Hva & Hvr & Hvp & Hsd & Ht)%link_fields Hw. unfold counted, link_of.
  rewrite Hvr, Hvp, Hw. destruct (_ =? _); cbn; congruence.
Qed.

Lemma sess_inv_counted s : sess_inv s -> sess_inv (counted s).
Proof.
  intros [Hvs Hvr Hva Hvp Hk Hw Hwin Hun Hwq Hq Hb Hst]. unfold counted.
  pose proof (Z.mod_pos_bound (s_vr s + 1) 32767 ltac:(lia)).
  destruct (Z.eqb_spec (sdist (s_va_peer s) ((s_vr s + 1) mod 32767)) (s_w s)) as [|Hne];
    split; try done; cbn.
  - rewrite sdist_refl. lia.
  - rewrite sdist_succ in * by lia. lia.
Qed.

Lemma count_spec w Q :
  good w ->
  (forall w', good w' -> keeps w w' -> link_of (w_s w') = link_of (counted (w_s w)) ->
     balance w' = balance w -> emitted [] 1 w w' -> Q tt w') ->
  wp count_received Q w.
Proof.
  intros [Hl Hs Ha Hn] HQ. unfold count_received. pose proof (sess_inv_counted _ Hs) as Hs'.
  pose proof (inv_vr _ Hs). pose proof (inv_va_peer _ Hs).
  pose proof (Z.mod_pos_bound (s_vr (w_s w) + 1) 32767 ltac:(lia)).
  sess_steps. cbn. rewrite rem_succ, rem_sdist by lia. unfold counted in *.
  set (vr := (s_vr (w_s w) + 1) mod 32767) in *.
  assert (emitted [] 1 w (w <| w_s := (w_s w) <| s_vr := vr |> |>)) as Hcnt by by apply emitted_count.
  destruct (_ =? s_w (w_s w)); cbn.
  - unfold iecsock_sframe_send, bump_xmit. sess_steps. apply HQ; cbn.
    + split; [done| |done|done]. destruct Hs'. by split.
    + split; [|done]. split; try done. cbn. by rewrite view_write.
    + done.
    + done.
    + eapply emitted_r; [exact Hcnt| |done]. destruct (sframe_hdr_read vr) as (Hh & Hft & Hnr & Hlen & Hst).
      destruct (short_frame_ok _ Hh Hst Hlen) as [Hf Ehdr].
      pose proof (emitted_short (sframe_hdr vr) (w <| w_s := (w_s w) <| s_vr := vr |> |>)) as He. rewrite Hft in He.
      apply He; try done; [|cbn -[hdr_bytes]; by rewrite view_write].
      intros _. change (sc_nr (sframe_hdr vr) = vr). rewrite Hnr. apply Z.mod_small. lia.
  - apply wp_ret. by apply HQ; [split..|done|done|].
Qed.

Lemma data_hook_spec b w Q :
  good w ->
  (forall w', good w' -> keeps_rx w w' ->
     app_log (w_app w') = app_log (w_app w) ++ [take (Z.to_nat (data_len b)) (bdata b)] ->
     link_of (w_s w') = link_of (w_s w) -> balance w' = balance w - 1 -> emitted [] 0 w w' -> Q tt w') ->
  wp (deliver_data b) Q w.
Proof.
  intros Hg HQ. destruct (Hg) as [Hl Hs Ha]. unfold deliver_data, hook. sess_steps.
  assert (exists f, match data_indication (s_hooks (w_s w)) with
                    | Some f => Some f | None => data_indication default_hooks end = Some f) as [f ->].
  { destruct (data_indication (s_hooks (w_s w))); [by eexists|apply data_hook_set]. }
  eapply wp_mono; [by apply hook_data_spec|]. intros [] w' (?&?&Hk&?&?&?&?).
  apply HQ; [by apply (good_keeps w)|done..].
Qed.

Lemma iframe_recv_spec b w :
  good w ->
  wp (iecsock_iframe_recv b) (fun r w' =>
    good w' /\ keeps_rx w w' /\
    let ok_nr := check_nr (w_s w) (ic_nr (bh b)) in
    let ok_ns := check_ns (w_s w) (ic_ns (bh b)) in
    r = (if ok_nr && ok_ns then 0 else -1) /\
    app_log (w_app w') = app_log (w_app w) ++
      (if ok_nr && ok_ns then [take (Z.to_nat (u8 (hlength (bh b) - 4))) (bdata b)] else []) /\
    link_of (w_s w') =
      link_of (if ok_nr then
                 if ok_ns then counted ((w_s w) <| s_va := ic_nr (bh b) |>)
                 else (w_s w) <| s_va := ic_nr (bh b) |>
               else w_s w) /\
    balance w' = balance w - (if ok_nr && ok_ns then 1 else 0) /\
    emitted [] (if ok_nr && ok_ns then 1 else 0) w w') w.
Proof.
  intros Hg. destruct (Hg) as [Hl Hs Ha]. unfold iecsock_iframe_recv. sess_steps.
  destruct (check_nr (w_s w) (ic_nr (bh b))) eqn:Hnr; cbn [negb andb];
    [|sess_step; split_and!; [done|reflexivity|done|by rewrite app_nil_r|done|lia|by apply emitted_silent]].
  sess_step. apply ack_advance_spec; [done|apply ic_nr_range|done|]. intros w1 Hg1 Hk1 Hl1 Hb1 He1.
  unfold t2_timer_stop. tx_steps w1.
  match goal with H : tx_only w1 ?x |- wp _ _ ?x => rename x into w3; destruct H as [Hk3 Hl3 Hb3 He3] end.
  assert (emitted [] 0 w w3) as He by (eapply emitted_l; [done..|]; by apply link_fields).
  pose proof (transitivity Hk1 Hk3) as [Hkrx Hlog].
  rewrite Hl1 in Hl3. sess_step. apply wp_rd; [by apply good_live|].
  assert (check_ns (w_s w3) (ic_ns (bh b)) = check_ns (w_s w) (ic_ns (bh b))) as ->.
  { unfold check_ns. by destruct (link_fields _ _ Hl3) as (_&->&_). }
  destruct (check_ns (w_s w) (ic_ns (bh b))); cbn [negb].
  2: { sess_step. split_and!; [done..|by rewrite app_nil_r|done|lia|done]. }
  sess_step. apply count_spec; [done|]. intros w4 Hg4 [Hk4 Hlog4] Hl4 Hb4 He4.
  sess_step. apply data_hook_spec; [done|]. intros w5 Hg5 Hk5 Hlog5 Hl5 Hb5 He5.
  sess_step. split_and!; [done| |done|by rewrite Hlog5, Hlog4, Hlog| |lia|].
  - by do 2 (etrans; [eassumption|]).
  - rewrite Hl5, Hl4. apply counted_link; [done|]. by rewrite (keeps_w _ _ Hkrx).
  - eapply emitted_r; [|exact He5|by apply link_fields]. eapply emitted_l; [exact He|exact He4|].
    rewrite (proj1 (link_fields _ _ Hl4)). unfold counted. by destruct (_ =? _).
Qed.

(** ** S-frames *)
Lemma ackw_drop_suffix nr q : ackw_drop nr q `suffix_of` q.
Proof.
  induction q as [|b q IH]; simpl; [done|]. destruct (_ =? nr); [done|].
  by apply suffix_cons_r.
Qed.

Lemma free_bufs_spec q w Q :
  Q tt (w <| w_bufs := w_bufs w - Z.of_nat (length q) |>) -> wp (free_bufs q) Q w.
Proof.
  revert w. induction q as [|b q IH]; intros w HQ; simpl.
  - apply wp_ret. simpl in HQ. rewrite Z.sub_0_r in HQ. by destruct w.
  - unfold free_buf. sess_steps. apply IH. cbn.
    by replace (w_bufs w - 1 - Z.of_nat (length q)) with (w_bufs w - Z.of_nat (S (length q))) by lia.
Qed.

Lemma run_ackw_queue_wp nr w Q :
  w_live w = true ->
  Q tt (w <| w_s := (w_s w) <| s_ackw_q := ackw_drop nr (s_ackw_q (w_s w)) |> |>
          <| w_bufs := w_bufs w - (Z.of_nat (length (s_ackw_q (w_s w)))
                                   - Z.of_nat (length (ackw_drop nr (s_ackw_q (w_s w))))) |>) ->
  wp (iecsock_run_ackw_queue nr) Q w.
Proof.
  intros Hl HQ. unfold iecsock_run_ackw_queue. sess_steps. apply free_bufs_spec. cbn.
  pose proof (suffix_length _ _ (ackw_drop_suffix nr (s_ackw_q (w_s w)))).
  rewrite length_take_le by lia. by rewrite Nat2Z.inj_sub.
Qed.

Lemma sess_inv_ackw s nr :
  sess_inv s -> sess_inv (s <| s_ackw_q := ackw_drop nr (s_ackw_q (F:=F) s) |>).
Proof.
  intros []. split; try done. cbn. destruct inv_ackw_q as [a Ha].
  eapply numbered_suffix; [exact Ha|apply ackw_drop_suffix].
Qed.

Lemma run_ackw_queue_tx nr w Q :
  good w ->
  (forall w', good w' -> tx_only w w' -> s_vs (w_s w') = s_vs (w_s w) ->
     ev_out (ev_view (w_ev w')) = ev_out (ev_view (w_ev w)) -> Q tt w') ->
  wp (iecsock_run_ackw_queue nr) Q w.
Proof.
  intros [Hl Hs Ha Hn] HQ. apply run_ackw_queue_wp; [done|]. apply HQ; [|split|done|done].
  - split; [done|by apply sess_inv_ackw|done|done].
  - by split.
  - done.
  - unfold balance. cbn. lia.
  - by apply emitted_silent.
Qed.

Lemma sframe_recv_spec b w :
  good w ->
  wp (iecsock_sframe_recv b) (fun r w' =>
    good w' /\ keeps w w' /\
    let ok := check_nr (w_s w) (ic_nr (bh b)) in
    r = (if ok then 0 else -1) /\
    link_of (w_s w') = link_of (if ok then (w_s w) <| s_va := ic_nr (bh b) |> else w_s w) /\
    balance w' = balance w /\ emitted [] 0 w w') w.
Proof.
  intros Hg. destruct (Hg) as [Hl Hs Ha]. unfold iecsock_sframe_recv. sess_steps.
  destruct (check_nr (w_s w) (ic_nr (bh b))) eqn:Hnr; cbn [negb];
    [|sess_step; by split_and!; [..|apply emitted_silent]].
  sess_step. apply run_ackw_queue_tx; [done|]. intros w1 Hg1 [Hk1 Hl1 Hb1 He1] Hvs1 Ho1.
  sess_step. apply ack_advance_spec; [done|apply ic_nr_range| |].
  - rewrite <- Hnr. unfold check_nr. by destruct (link_fields _ _ Hl1) as (->&_); rewrite Hvs1.
  - intros w2 Hg2 Hk2 Hl2 Hb2 He2. sess_step. split_and!; [done|by etrans|done| |congruence|].
    2: { eapply emitted_before; [done|done| |exact He2]. by destruct (link_fields _ _ Hl1) as (_&?&_). }
    rewrite Hl2. destruct (link_fields _ _ Hl1) as (?&?&?&?&?). unfold link_of. cbn. congruence.
Qed.

(** ** U-frames *)
Lemma wr_stopdt b w Q :
  good w ->
  (forall w', good w' -> keeps w w' ->
     link_of (w_s w') = link_of ((w_s w) <| s_stopdt := b |>) -> balance w' = balance w ->
     emitted [] 0 w w' -> Q tt w') ->
  wp (wr (fun s => s <| s_stopdt := b |>)) Q w.
Proof.
  intros [Hl Hs Ha Hn] HQ. sess_step. apply HQ; [|by split|done|done|by apply emitted_silent].
  split; [done| |done|done]. destruct Hs. by split.
Qed.

Lemma wr_testfr b w Q :
  good w ->
  (forall w', good w' -> keeps w w' ->
     link_of (w_s w') = link_of ((w_s w) <| s_testfr := b |>) -> balance w' = balance w ->
     emitted [] 0 w w' -> Q tt w') ->
  wp (wr (fun s => s <| s_testfr := b |>)) Q w.
Proof.
  intros [Hl Hs Ha Hn] HQ. sess_step. apply HQ; [|by split|done|done|by apply emitted_silent].
  split; [done| |done|done]. destruct Hs. by split.
Qed.

(** Collect the chain of [keeps], [link_of], [balance] and [emitted] facts. *)
Ltac va_tac :=
  repeat match goal with H : link_of _ = link_of _ |- _ => apply link_fields in H; cbn in H end; destruct_and!; congruence.

Ltac emit_tac :=
  first [ eassumption
        | eapply emitted_l; [eassumption|emit_tac|va_tac]
        | eapply emitted_r; [emit_tac|eassumption|va_tac] ].

Ltac tx_done :=
  repeat match goal with H : tx_only _ _ |- _ => destruct H end;
  split_and!;
  [done
  |first [eassumption|repeat (etrans; [eassumption|]); first [eassumption|reflexivity]]
  |done
  |repeat match goal with H : link_of _ = link_of _ |- _ => apply link_fields in H; cbn in H end;
   unfold link_of; cbn; destruct_and!; congruence
  |congruence
  |emit_tac].

Ltac refused := sess_step; by split_and!; [..|apply emitted_silent].

Lemma uframe_recv_spec b w :
  good w -> frame_type (bh b) = FRAME_TYPE_U ->
  wp (iecsock_uframe_recv b) (fun r w' =>
    good w' /\ keeps w w' /\
    r = (if u_acceptable (w_s w) (uframe_func (bh b)) then 0 else -1) /\
    link_of (w_s w') = link_after (w_s w) (bh b) /\
    balance w' = balance w /\ emitted (replies (w_s w) (bh b)) 0 w w') w.
Proof.
  intros Hg Hft. destruct (Hg) as [Hl Hs Ha]. unfold iecsock_uframe_recv, link_after, replies.
  rewrite Hft. sess_steps.
  destruct (uframe_func (bh b)); cbn [u_acceptable].
  - destruct (bool_decide (s_type (w_s w) = IEC_SLAVE)); cbn [negb]; [|refused].
    sess_step. apply wr_stopdt; [done|]. intros w1 Hg1 Hk1 Hl1 Hb1 He1.
    sess_step. apply uframe_send_spec; [done|]. intros w2 Hg2 Hk2 Hl2 Hb2 He2.
    tx_steps w2. sess_step. tx_done.
  - destruct (bool_decide (s_type (w_s w) = IEC_MASTER)); cbn [negb]; [|refused].
    unfold t1_timer_stop. tx_steps w.
    sess_step. apply wr_stopdt; [done|]. intros w2 Hg2 Hk2 Hl2 Hb2 He2.
    tx_steps w2. sess_step. tx_done.
  - destruct (bool_decide (s_type (w_s w) = IEC_SLAVE)); cbn [negb]; [|refused].
    sess_step. apply wr_stopdt; [done|]. intros w1 Hg1 Hk1 Hl1 Hb1 He1.
    sess_step. apply uframe_send_spec; [done|]. intros w2 Hg2 Hk2 Hl2 Hb2 He2.
    tx_steps w2. sess_step. tx_done.
  - destruct (bool_decide (s_type (w_s w) = IEC_MASTER)); cbn [negb]; [|refused].
    sess_step. apply wr_stopdt; [done|]. intros w1 Hg1 Hk1 Hl1 Hb1 He1.
    tx_steps w1. sess_step. tx_done.
  - sess_step. apply uframe_send_spec; [done|]. intros w2 Hg2 Hk2 Hl2 Hb2 He2.
    sess_step. apply wp_rd; [by apply good_live|]. unfold t3_timer_stop.
    tx_steps w2. sess_step. tx_done.
  - sess_steps. destruct (s_testfr (w_s w)); cbn [negb]; [|refused].
    unfold t1_timer_stop. tx_steps w.
    sess_step. apply wr_testfr; [done|]. intros w2 Hg2 Hk2 Hl2 Hb2 He2.
    sess_step. tx_done.
Qed.

(** ** All frames *)

(** A complete frame with header [h] is in the receive buffer. *)
Record has_frame (s : iecsock F) (h : iechdr) : Prop := {
  hf_hdr : hdr_of_bytes (s_buf s) = h;
  hf_min : IEC_APDU_MIN <= hlength h;
  hf_max : hlength h <= IEC_APDU_MAX;
  hf_len : s_len s = hlength h + 2;
}.

(** The bytes after the header. *)
Definition frame_data (s : iecsock F) : bytes :=
  take (Z.to_nat (hlength (hdr_of_bytes (s_buf s)) - 4)) (drop 6 (s_buf s)).

Lemma frame_copy_spec s h :
  sess_inv s -> has_frame s h ->
  frame_copy s = Some (Build_iec_buf 0 h (frame_data s)).
Proof.
  intros [_ _ _ _ _ _ _ _ _ _ [Hbl _]] [Hh Hmin Hmax Hlen].
  unfold frame_copy, frame_data, IEC_APDU_MIN, IEC_APDU_MAX, IEC104_BUF_LEN in *. rewrite Hh, Hlen.
  replace (_ && _) with true by lia. rewrite Z.sub_diag. cbn [replicate Z.to_nat].
  rewrite hdr_of_take by lia. rewrite Hh, app_nil_r, skipn_firstn_comm.
  by replace (Z.to_nat (hlength h + 2) - 6)%nat with (Z.to_nat (hlength h - 4)) by lia.
Qed.

Lemma calloc_buf_spec w Q :
  good w -> w_mem w = [] ->
  (forall w', good w' -> keeps w w' -> link_of (w_s w') = link_of (w_s w) -> w_s w' = w_s w ->
     w_ev w' = w_ev w -> balance w' = balance w + 1 -> Q true w') ->
  wp calloc_buf Q w.
Proof.
  intros [Hl Hs Ha Hn] Hm HQ. unfold calloc_buf, try_alloc. apply wp_bind. unfold wp at 1. rewrite Hm.
  cbn. sess_steps. apply HQ; [by split|by split|done|done|done|]. unfold balance; cbn. lia.
Qed.

Lemma free_buf_spec w Q :
  good w ->
  (forall w', good w' -> keeps w w' -> link_of (w_s w') = link_of (w_s w) ->
     balance w' = balance w - 1 -> emitted [] 0 w w' -> Q tt w') ->
  wp free_buf Q w.
Proof.
  intros [Hl Hs Ha Hn] HQ. unfold free_buf. sess_step. apply HQ; [by split|by split|done| |by apply emitted_silent].
  unfold balance; cbn. lia.
Qed.

Lemma frame_data_length s h :
  sess_inv s -> has_frame s h -> length (frame_data s) = Z.to_nat (hlength h - 4).
Proof.
  intros [_ _ _ _ _ _ _ _ _ _ [Hbl _]] [Hh Hmin Hmax _]. unfold IEC_APDU_MAX, IEC_APDU_MIN in *.
  unfold frame_data. rewrite Hh, length_take_le; [done|]. rewrite length_drop, Hbl. lia.
Qed.

(** What the frame in the buffer hands to the application. *)
Definition delivered (s : iecsock F) (h : iechdr) : list bytes :=
  match frame_type h with
  | FRAME_TYPE_I => if negb (inactive s) && acceptable s h then [frame_data s] else []
  | _ => []
  end.

(** The handler of each type of frame. *)
Definition frame_handler (h : iechdr) (b : iec_buf) : ST (world E App F) Z :=
  match frame_type h with
  | FRAME_TYPE_I =>
      ty ← rd s_type; stopdt ← rd s_stopdt;
      if bool_decide (ty = IEC_SLAVE) && stopdt then free_buf;; mret 0 else iecsock_iframe_recv b
  | FRAME_TYPE_S => ret ← iecsock_sframe_recv b; free_buf;; mret ret
  | FRAME_TYPE_U => ret ← iecsock_uframe_recv b; free_buf;; mret ret
  end.

(** Up to the choice of the handler: the frame has been copied, T3 restarted. *)
Record dispatched w w1 : Prop := {
  dp_sound : sound w1;
  dp_mem : w_mem w1 = [];
  dp_s : w_s w1 = w_s w;
  dp_app : w_app w1 = w_app w;
  dp_balance : balance w1 = balance w + 1;
  dp_ev : ev_view (w_ev w1) =
    (ev_view (w_ev w)) <| ev_armed := <[EvT3 := Some (s_t3 (w_s w))]> (ev_armed (ev_view (w_ev w))) |>;
}.

Lemma frame_recv_eq w h :
  sound w -> w_mem w = [] -> has_frame (w_s w) h ->
  exists w1, dispatched w w1 /\
    iecsock_frame_recv w = frame_handler h (Build_iec_buf 0 h (frame_data (w_s w))) w1.
Proof.
  intros [Hl Hs Ha] Hm Hf. exists (w <| w_bufs := w_bufs w + 1 |>
    <| w_ev := event_add EvT3 (Some (s_t3 (w_s w))) (event_del EvT3 (w_ev w)) |>). split.
  - split; cbn -[ev_view]; [by split|done|done|done|unfold balance; cbn; lia|].
    rewrite view_add, view_del. cbn. by rewrite insert_delete_eq.
  - unfold iecsock_frame_recv, calloc_buf, try_alloc, t3_timer_stop, t3_timer_start.
    apply bind_eq, wp_bind. unfold wp at 1. rewrite Hm. sess_steps. cbn [negb].
    apply bind_eq, wp_ev; [done|]. apply bind_eq. sess_steps. apply bind_eq, wp_rd; [done|]. cbn -[ev_view frame_copy].
    rewrite (frame_copy_spec _ h) by done. apply bind_eq, wp_rd; [done|]. cbn -[ev_view]. by rewrite (hf_hdr _ _ Hf).
Qed.

Lemma frame_recv_dispatch w h Q :
  sound w -> w_mem w = [] -> has_frame (w_s w) h ->
  (forall w1, dispatched w w1 -> wp (frame_handler h (Build_iec_buf 0 h (frame_data (w_s w)))) Q w1) ->
  wp iecsock_frame_recv Q w.
Proof.
  intros Hg Hm Hf HQ. destruct (frame_recv_eq w h Hg Hm Hf) as (w1 & Hd & Heq). unfold wp. rewrite Heq. by apply HQ.
Qed.

Lemma frame_recv_wp w h :
  good w -> w_mem w = [] -> has_frame (w_s w) h ->
  wp iecsock_frame_recv (fun r w' =>
    r = (if acceptable (w_s w) h then 0 else -1) /\
    link_of (w_s w') = link_after (w_s w) h /\
    app_log (w_app w') = app_log (w_app w) ++ delivered (w_s w) h /\
    balance w' = balance w + leaked (w_s w) h /\ good w' /\ keeps_rx w w' /\
    emitted (replies (w_s w) h) (counts (w_s w) h) w w') w.
Proof.
  intros Hg Hm Hf. apply (frame_recv_dispatch w h); [by apply good_sound|done..|].
  intros w2 [Hsn2 Hm2 Hs2 Ha2 Hb2 Ev2]. assert (good w2) as Hg2 by (apply (sound_good w); [done|done|by rewrite Hs2]).
  assert (app_log (w_app w2) = app_log (w_app w)) as Hlog2 by by rewrite Ha2.
  assert (keeps_rx w w2) as Hk2 by (split; rewrite ?Hs2, ?Ev2; try done; intros _; apply Hg2).
  assert (forall fns n w', emitted fns n w2 w' -> emitted fns n w w') as Hemit.
  { intros fns n w'. apply emitted_before; by rewrite ?Hs2, ?Ev2. }
  clear Ev2. unfold frame_handler.
  unfold leaked, delivered, counts, acceptable, link_after.
  destruct (frame_type h) eqn:Hft; rewrite ?app_nil_r.
  - sess_step. apply wp_rd; [apply Hg2|]. sess_step. apply wp_rd; [apply Hg2|]. rewrite Hs2.
    fold (inactive (w_s w)). destruct (inactive (w_s w)); cbn [orb andb negb]; rewrite ?app_nil_r.
    + sess_step. apply free_buf_spec; [done|]. intros w3 Hg3 [Hk3 Hlog3] Hl3 Hb3 He3.
      sess_step. unfold replies. rewrite Hft.
      split_and!; [done|by rewrite Hl3, Hs2|congruence|lia|done|by etrans|by apply Hemit].
    + eapply wp_mono; [by apply iframe_recv_spec|]. cbn [bh bdata].
      rewrite Hs2, Hlog2, check_nr_acknowledges, check_ns_expected by apply Hg.
      intros r w3 (Hg3 & Hk3 & -> & -> & Hl3 & Hb3 & He3). unfold replies. rewrite Hft.
      split_and!; [done| | |destruct (_ && _); lia|done|by etrans|by apply Hemit].
      * rewrite Hl3. destruct (acknowledges _ _), (expected _ _); cbn; try done.
        unfold counted; cbn. by destruct (_ =? _).
      * destruct (_ && _); [|done]. rewrite take_ge; [done|].
        rewrite (frame_data_length _ h) by (apply Hg || done). pose proof (hf_max _ _ Hf).
        pose proof (hf_min _ _ Hf). unfold IEC_APDU_MAX, IEC_APDU_MIN in *.
        rewrite u8_small by lia. lia.
  - sess_step. eapply wp_mono; [by apply sframe_recv_spec|]. cbn [bh].
    rewrite Hs2, check_nr_acknowledges by apply Hg.
    intros r w3 (Hg3 & [Hk3 Hlog3] & -> & Hl3 & Hb3 & He3).
    sess_step. apply free_buf_spec; [done|]. intros w4 Hg4 [Hk4 Hlog4] Hl4 Hb4 He4. sess_step. unfold replies. rewrite Hft.
    split_and!; [done| |congruence|lia|done|by repeat (etrans; [eassumption|])|].
    2: { apply Hemit. eapply emitted_r; [exact He3|exact He4|by apply link_fields]. }
    rewrite Hl4, Hl3. by destruct (acknowledges _ _).
  - sess_step. eapply wp_mono; [by apply uframe_recv_spec|]. cbn [bh]. rewrite Hs2.
    intros r w3 (Hg3 & [Hk3 Hlog3] & -> & Hl3 & Hb3 & He3).
    sess_step. apply free_buf_spec; [done|]. intros w4 Hg4 [Hk4 Hlog4] Hl4 Hb4 He4. sess_step.
    unfold link_after in Hl3. rewrite Hft in Hl3.
    split_and!; [done|by rewrite Hl4|congruence|lia|done|by repeat (etrans; [eassumption|])|].
    apply Hemit. eapply emitted_r; [exact He3|exact He4|by apply link_fields].
Qed.
End receive.
