(* ===== verification/Stream.v ===== *)
(** * Reassembly

    [iecsock_buffer_read] and the loop of [bufreadcb] cut the byte stream
    into frames.  A buffer that holds whole frames is consumed frame by
    frame; a bad header, a refused frame and a truncated header each end in
    one of the faults the C code has there. *)

From S2P Require Import Prelude Bits Wire Libevent Session Iecsock Seqnum Trace Transmit Receive.

#[local] Arguments take : simpl never.
#[local] Arguments drop : simpl never.
#[local] Arguments hdr_of_bytes : simpl never.

Section stream.
Context {E App F : Type} {L : Libevent E} {LL : LibeventLaws E}.
Implicit Types (w : world E App F) (fr : ST (world E App F) Z).

(** The session with the frame [f] in its buffer. *)
Definition load (f : bytes) (e : E) w : world E App F :=
  w <| w_s := (w_s w) <| s_buf := f ++ drop (length f) (s_buf (w_s w)) |>
                      <| s_len := Z.of_nat (length f) |> <| s_left := 0 |> |>
    <| w_ev := e |>.

(** Ready for the next header. *)
Definition rx_reset w : world E App F :=
  w <| w_s := (w_s w) <| s_left := 0 |> <| s_len := 0 |> |>
    <| w_ev := bufferevent_setwatermark sizeof_iechdr (w_ev w) |>.

Lemma read_into_wp off n w Q :
  w_live w = true -> 0 <= off ->
  let d := take (Z.to_nat n) (ev_in (ev_view (w_ev w))) in
  off + Z.of_nat (length d) <= 255 ->
  Q (Z.of_nat (length d))
    (w <| w_s := (w_s w) <| s_buf := take (Z.to_nat off) (s_buf (w_s w)) ++ d ++
                           drop (Z.to_nat (off + Z.of_nat (length d))) (s_buf (w_s w)) |> |>
       <| w_ev := (bufferevent_read (Z.to_nat n) (w_ev w)).2 |>) ->
  wp (read_into off n) Q w.
Proof.
  intros Hl Hoff d Hd HQ. unfold read_into. sess_steps. rewrite read_data. fold d.
  unfold IEC104_BUF_LEN. replace (_ <=? 255) with true by lia. sess_steps. exact HQ.
Qed.

(** The header round of a frame that has data: [f] is only begun. *)
Definition begun (f : bytes) (e : E) w : world E App F :=
  w <| w_s := (w_s w) <| s_buf := take 6 f ++ drop 6 (s_buf (w_s w)) |>
               <| s_left := hlength (hdr_of_bytes f) - 4 |> <| s_len := 6 |> |>
    <| w_ev := e |>.

Lemma buffer_read_header fr f rest w :
  w_live w = true -> s_left (w_s w) = 0 -> length (s_buf (w_s w)) = 255%nat ->
  ev_in (ev_view (w_ev w)) = f ++ rest -> frame_ok f -> 4 < hlength (hdr_of_bytes f) ->
  exists e, ev_view e = (ev_view (w_ev w)) <| ev_in := drop 6 f ++ rest |>
                           <| ev_wm := hlength (hdr_of_bytes f) - 4 |> /\
    iecsock_buffer_read fr w = Done (tt, begun f e w).
Proof.
  intros Hl Hleft Hbuf Hin Hf H4. destruct (frame_ok_bounds f Hf) as [Hb1 Hb2].
  unfold iecsock_buffer_read, sizeof_iechdr, IEC_APDU_MAX, IEC104_CTRL_LEN in *.
  assert (take (Z.to_nat 6) (ev_in (ev_view (w_ev w))) = take 6 f) as Ht.
  { rewrite Hin. apply take_app_le. lia. }
  exists (bufferevent_setwatermark (hlength (hdr_of_bytes f) - 4) (bufferevent_read (Z.to_nat 6) (w_ev w)).2).
  split. { rewrite view_setwatermark, view_read, Hin. cbn. by rewrite drop_app_le by lia. }
  apply bind_eq, wp_rd; [done|]. rewrite Hleft. cbn [Z.eqb]. apply bind_eq.
  apply read_into_wp; [done|lia|rewrite Ht, length_take; lia|]. rewrite Ht, length_take_le by lia.
  change (Z.of_nat 6) with 6. cbn [Z.eqb negb Pos.eqb].
  apply bind_eq, wp_ret. apply bind_eq, wp_rd; [done|]. cbn. rewrite take_0, app_nil_l.
  rewrite hdr_of_take by lia. rewrite (fo_hdr f Hf). rewrite u8_small by lia. cbn [when].
  do 4 (apply bind_eq; sess_step). cbn. replace (_ =? 0) with false by lia.
  unfold ev. cbn. by rewrite Hl.
Qed.

(** What is left to do once a frame is complete, in either round. *)
Definition finish_short (ret : Z) : ST (world E App F) unit :=
  if ret =? 0 then
    wr (fun s => s <| s_left := 0 |> <| s_len := 0 |>);; ev (bufferevent_setwatermark sizeof_iechdr)
  else ev (bufferevent_setwatermark 0);; iecsock_close.

Definition finish_data (ret : Z) : ST (world E App F) unit :=
  when (negb (ret =? 0)) iecsock_close;;
  wr (fun s => s <| s_left := 0 |> <| s_len := 0 |>);;
  ev (bufferevent_setwatermark sizeof_iechdr).

(** A frame without data is complete with its header. *)
Lemma buffer_read_short fr f rest w :
  w_live w = true -> s_left (w_s w) = 0 -> length (s_buf (w_s w)) = 255%nat ->
  ev_in (ev_view (w_ev w)) = f ++ rest -> frame_ok f -> hlength (hdr_of_bytes f) = 4 ->
  exists e, ev_view e = (ev_view (w_ev w)) <| ev_in := rest |> /\
    iecsock_buffer_read fr w = (fr ≫= finish_short) (load f e w).
Proof.
  intros Hl Hleft Hbuf Hin Hf H4. destruct (frame_ok_bounds f Hf) as [Hb1 Hb2].
  pose proof (fo_len f Hf) as Hlen. rewrite H4 in Hlen. change (4 + 2) with 6 in Hlen.
  unfold iecsock_buffer_read, sizeof_iechdr, IEC_APDU_MAX, IEC104_CTRL_LEN in *.
  assert (take (Z.to_nat 6) (ev_in (ev_view (w_ev w))) = f) as Ht.
  { rewrite Hin. apply take_app_length'. lia. }
  exists (bufferevent_read (Z.to_nat 6) (w_ev w)).2. split.
  { rewrite view_read, Hin. cbn. by rewrite drop_app_length' by lia. }
  apply bind_eq, wp_rd; [done|]. rewrite Hleft. cbn [Z.eqb]. apply bind_eq.
  apply read_into_wp; [done|lia|rewrite Ht; lia|]. rewrite Ht, Hlen. cbn [Z.eqb Pos.eqb negb].
  apply bind_eq, wp_ret. apply bind_eq, wp_rd; [done|]. cbn. rewrite take_0, app_nil_l.
  rewrite hdr_of_app by lia. rewrite (fo_hdr f Hf), H4. change (u8 (4 - 4)) with 0. cbn [when].
  do 4 (apply bind_eq; sess_step). cbn. unfold load. rewrite Hlen.
  by replace (length f) with 6%nat by lia.
Qed.

(** The data round: the rest of the frame is there. *)
Lemma buffer_read_data fr f rest w :
  w_live w = true -> frame_ok f -> 4 < hlength (hdr_of_bytes f) ->
  s_left (w_s w) = hlength (hdr_of_bytes f) - 4 -> s_len (w_s w) = 6 ->
  (exists buf, length buf = 255%nat /\ s_buf (w_s w) = take 6 f ++ drop 6 buf) ->
  ev_in (ev_view (w_ev w)) = drop 6 f ++ rest ->
  exists e, ev_view e = (ev_view (w_ev w)) <| ev_in := rest |> /\
    iecsock_buffer_read fr w = (fr ≫= finish_data) (load f e w).
Proof.
  intros Hl Hf H4 Hleft Hlen (buf & Hbl & Hbuf) Hin.
  destruct (frame_ok_bounds f Hf) as [Hb1 Hb2]. pose proof (fo_len f Hf) as Hfl.
  unfold iecsock_buffer_read, sizeof_iechdr, IEC_APDU_MAX in *.
  assert (Z.to_nat (s_left (w_s w)) = length (drop 6 f)) as Hn by (rewrite length_drop; lia).
  assert (take (Z.to_nat (s_left (w_s w))) (ev_in (ev_view (w_ev w))) = drop 6 f) as Ht
    by (rewrite Hin; by apply take_app_length').
  exists (bufferevent_read (Z.to_nat (s_left (w_s w))) (w_ev w)).2. split.
  { rewrite view_read, Hin. cbn. by rewrite drop_app_length' by done. }
  apply bind_eq, wp_rd; [done|]. replace (s_left (w_s w) =? 0) with false by lia.
  apply bind_eq, wp_rd; [done|]. apply bind_eq.
  apply read_into_wp; [done|lia|rewrite Ht, length_drop; lia|]. rewrite Ht, Hlen.
  do 2 (apply bind_eq; sess_step). cbn. rewrite Hleft, Hlen, length_drop, !u8_small by lia.
  replace (hlength _ - 4 - _) with 0 by lia. cbn. unfold load. rewrite Hbuf.
  replace (6 + Z.of_nat (length f - 6)) with (Z.of_nat (length f)) by lia.
  rewrite Nat2Z.id, take_app_length' by (rewrite length_take; lia).
  by rewrite app_assoc, take_drop.
Qed.

Lemma finish_accepted finish w Q :
  finish = finish_short \/ finish = finish_data -> w_live w = true ->
  Q tt (rx_reset w) -> wp (finish 0) Q w.
Proof. intros [-> | ->] Hl HQ; unfold finish_short, finish_data; cbn; sess_steps; exact HQ. Qed.

Lemma read_loop_round fr fuel w :
  w_live w = true -> (0 < length (ev_in (ev_view (w_ev w))))%nat ->
  read_loop (S fuel) fr w = (iecsock_buffer_read fr;; read_loop fuel fr) w.
Proof.
  intros Hl Hn. cbn [read_loop]. apply bind_eq, wp_evq; [done|]. rewrite length_view.
  by destruct (length _); [lia|].
Qed.

(** Loading over a begun frame gives what loading at once gives. *)
Lemma load_begun f e w e' : (6 <= length f)%nat -> load f e (begun f e' w) = load f e w.
Proof.
  intros Hf. unfold load, begun. cbn. rewrite drop_app_ge by (rewrite length_take; lia).
  rewrite length_take_le, drop_drop by lia.
  by replace (6 + (length f - 6))%nat with (length f) by lia.
Qed.

(** One frame takes one or two rounds. *)
Lemma read_loop_frame fr f rest fuel w :
  w_live w = true -> s_left (w_s w) = 0 -> length (s_buf (w_s w)) = 255%nat ->
  ev_in (ev_view (w_ev w)) = f ++ rest -> frame_ok f -> (length (f ++ rest) <= fuel)%nat ->
  exists e z fuel' finish,
    ev_view e = (ev_view (w_ev w)) <| ev_in := rest |> <| ev_wm := z |> /\
    (length rest <= fuel')%nat /\ (finish = finish_short \/ finish = finish_data) /\
    read_loop fuel fr w = (fr ≫= fun ret => finish ret;; read_loop fuel' fr) (load f e w).
Proof.
  intros Hl Hleft Hbuf Hin Hf Hfuel. destruct (frame_ok_bounds f Hf) as [Hb1 Hb2].
  unfold IEC_APDU_MIN in *. rewrite length_app in Hfuel.
  destruct fuel as [|fuel]; [lia|].
  destruct (Z.eq_dec (hlength (hdr_of_bytes f)) 4) as [H4|H4].
  - destruct (buffer_read_short fr f rest w) as (e & He & Heq); [done..|].
    exists e, (ev_wm (ev_view (w_ev w))), fuel, finish_short. split_and!; [|lia|by left|].
    { rewrite He. by destruct (ev_view (w_ev w)). }
    rewrite (read_loop_round _ _ w) by (rewrite ?Hin, ?length_app; done || lia).
    unfold mbind at 1, st_bind at 1. rewrite Heq. unfold mbind, st_bind.
    by destruct (fr (load f e w)) as [[? ?]| |].
  - destruct (buffer_read_header fr f rest w) as (e & He & Heq); [done..|lia|].
    destruct fuel as [|fuel]; [lia|].
    destruct (buffer_read_data fr f rest (begun f e w)) as (e' & He' & Heq');
      [done|done|lia|done|done|by eexists|cbn; by rewrite He|].
    exists e', (hlength (hdr_of_bytes f) - 4), fuel, finish_data. split_and!; [|lia|by right|].
    { rewrite He'. cbn. by rewrite He. }
    rewrite (read_loop_round _ _ w) by (rewrite ?Hin, ?length_app; done || lia).
    unfold mbind at 1, st_bind at 1. rewrite Heq.
    rewrite (read_loop_round _ _ (begun f e w)).
    2: done. 2: { cbn. rewrite He. cbn. rewrite length_app, length_drop. pose proof (fo_len f Hf). lia. }
    unfold mbind at 1, st_bind at 1. rewrite Heq', load_begun by lia.
    unfold mbind, st_bind. by destruct (fr (load f e' w)) as [[? ?]| |].
Qed.

(** ** A buffer of whole frames

    [I fs] holds between frames, when the frames [fs] are still to come. *)
Lemma read_loop_stream fr (I : list bytes -> world E App F -> Prop) :
  (forall fs w, I fs w ->
     w_live w = true /\ s_left (w_s w) = 0 /\ length (s_buf (w_s w)) = 255%nat) ->
  (forall f fs w e z, I (f :: fs) w -> frame_ok f ->
     ev_view e = (ev_view (w_ev w)) <| ev_in := concat fs |> <| ev_wm := z |> ->
     wp fr (fun r w' => r = 0 /\ w_live w' = true /\ I fs (rx_reset w') /\
                        ev_in (ev_view (w_ev w')) = concat fs) (load f e w)) ->
  forall fs w fuel,
    I fs w -> Forall frame_ok fs -> ev_in (ev_view (w_ev w)) = concat fs ->
    (length (concat fs) <= fuel)%nat ->
    wp (read_loop fuel fr) (fun _ w' => I [] w' /\ ev_in (ev_view (w_ev w')) = []) w.
Proof.
  intros HI Hstep fs. induction fs as [|f fs IH]; intros w fuel Hi Hfs Hin Hfuel.
  - destruct (HI _ _ Hi) as (Hl & _). destruct fuel; cbn [read_loop]; sess_steps;
      rewrite length_view, Hin; cbn [concat length]; sess_step; auto.
  - apply Forall_cons_1 in Hfs as [Hf Hfs]. destruct (HI _ _ Hi) as (Hl & Hleft & Hbuf).
    destruct (read_loop_frame fr f (concat fs) fuel w)
      as (e & z & fuel' & finish & He & Hfuel' & Hfin & Heq); [done..|].
    unfold wp. rewrite Heq. change (wp (fr ≫= fun ret => finish ret;; read_loop fuel' fr)
      (fun _ w' => I [] w' /\ ev_in (ev_view (w_ev w')) = []) (load f e w)).
    sess_step. eapply wp_mono; [by apply (Hstep f fs w e z)|].
    intros r w' (-> & Hl' & Hi' & Hin'). sess_step.
    apply (finish_accepted finish); [done|done|].
    apply IH; [done|done| |done]. cbn. by rewrite view_setwatermark.
Qed.
End stream.
