(* ===== verification/Link.v ===== *)
(** * The link layer: properties

    The theorems on sessions: sending, acknowledging, receiving, end-to-end
    delivery, closing, and the faults of the receive loop. *)

From S2P Require Import Prelude Bits Wire Libevent Session Iecsock Seqnum Trace Transmit Receive Stream.

#[local] Arguments take : simpl never.
#[local] Arguments drop : simpl never.
#[local] Arguments hdr_of_bytes : simpl never.

(** ** Frames on the wire *)

(** Consecutive I-frames from N(s) = [vr] on, all acknowledging [nr]. *)
Fixpoint iframes (vr nr : Z) (fs : list bytes) : Prop :=
  match fs with
  | [] => True
  | f :: fs' =>
      let h := hdr_of_bytes f in
      frame_type h = FRAME_TYPE_I /\ ic_ns h = vr /\ ic_nr h = nr /\ iframes ((vr + 1) mod 32767) nr fs'
  end.

Lemma stamps_frames vr vs q :
  Forall buf_ok q -> 0 <= vs < 32767 -> 0 <= vr < 32767 ->
  Forall frame_ok (map apdu_bytes (stamps vr vs q)) /\
  iframes vs vr (map apdu_bytes (stamps vr vs q)) /\
  map (drop 6) (map apdu_bytes (stamps vr vs q)) = map bdata q.
Proof.
  intros Hq Hvs Hvr. revert vs Hvs. induction Hq as [|b q Hb Hq IH]; intros vs Hvs; cbn [stamps map]; [done|].
  destruct (apdu_frame _ (stamp_ok vr vs b Hb)) as (Hf & Hh & Hd & Hft).
  destruct (IH ((vs + 1) mod 32767)) as (IH1 & IH2 & IH3); [apply Z.mod_pos_bound; lia|].
  rewrite rem_succ by done. split_and!.
  - by constructor.
  - cbn [iframes]. rewrite Hh. split_and!; [done|by apply stamp_ns|by apply stamp_nr|done].
  - rewrite Hd, IH3. done.
Qed.

Section link.
Context {E App F : Type} {L : Libevent E} {LL : LibeventLaws E}.
Context {AL : AppLog App} {HC : HookCode E App F} {HS : HookSpec E App F}.
Implicit Types w : world E App F.

(** ** Receiving a stream *)

Lemma load_has_frame f e w :
  sess_inv (w_s w) -> frame_ok f ->
  has_frame (w_s (load f e w)) (hdr_of_bytes f) /\ frame_data (w_s (load f e w)) = drop 6 f.
Proof.
  intros Hi Hf. destruct (frame_ok_bounds f Hf) as [Hb1 Hb2]. pose proof (fo_len f Hf) as Hl.
  assert (hdr_of_bytes (f ++ drop (length f) (s_buf (w_s w))) = hdr_of_bytes f) as Heq
    by (apply hdr_of_app; lia).
  split; [by split; cbn; rewrite ?Heq; try apply Hb2|].
  unfold frame_data. cbn. rewrite Heq, drop_app_le by lia.
  apply take_app_length'. rewrite length_drop. lia.
Qed.

Lemma load_sound f e w : sound w -> frame_ok f -> sound (load f e w).
Proof.
  intros [Hl Hs Ha] Hf. destruct (frame_ok_bounds f Hf) as [Hb1 _].
  split; [done| |done]. destruct Hs as [? ? ? ? ? ? ? ? ? ? [Hbl Hbu]]. split; try done.
  cbn. split; [rewrite length_app, length_drop; lia|].
  apply Forall_app. split; [apply Hf|by apply Forall_drop].
Qed.

Lemma load_good f e w : good w -> frame_ok f -> good (load f e w).
Proof. intros Hg Hf. apply (sound_good w); [done|by apply load_sound; [apply good_sound|]|done]. Qed.

Lemma rx_reset_good w : good w -> good (rx_reset w).
Proof. intros [Hl Hs Ha Hn]. split; [done| |done|done]. destruct Hs. by split. Qed.

(** The state between two frames of an I-frame stream. *)
Record receiving (nr : Z) (log : list bytes) (vr bal : Z) (fs : list bytes) w : Prop := {
  rc_good : good w;
  rc_mem : w_mem w = [];
  rc_left : s_left (w_s w) = 0;
  rc_active : inactive (w_s w) = false;
  rc_nr : acknowledges (w_s w) nr = true;
  rc_frames : iframes (s_vr (w_s w)) nr fs;
  rc_log : app_log (w_app w) ++ map (drop 6) fs = log;
  rc_vr : (s_vr (w_s w) + Z.of_nat (length fs)) mod 32767 = vr;
  rc_balance : balance w = bal;
}.

Lemma receiving_step nr log vr bal f fs w e z :
  receiving nr log vr bal (f :: fs) w -> frame_ok f ->
  ev_view e = (ev_view (w_ev w)) <| ev_in := concat fs |> <| ev_wm := z |> ->
  wp iecsock_frame_recv
    (fun r w' => r = 0 /\ w_live w' = true /\ receiving nr log vr bal fs (rx_reset w') /\
                 ev_in (ev_view (w_ev w')) = concat fs) (load f e w).
Proof.
  intros [Hg Hm Hleft Hact Hnr (Hft & Hns & Hnr' & Hfs) Hlog Hvr Hbal] Hf He.
  destruct (load_has_frame f e w ltac:(apply Hg) Hf) as [Hhf Hdata].
  pose proof (load_good f e w Hg Hf) as Hg1.
  assert (acceptable (w_s (load f e w)) (hdr_of_bytes f) = true) as Hacc.
  { unfold acceptable, expected. rewrite Hft, Hnr', Hns, bool_decide_true, andb_true_r by done.
    apply orb_true_iff. by right. }
  eapply wp_mono; [by apply frame_recv_wp|]. rewrite Hacc.
  intros r w' (-> & Hl' & Hlog' & Hb' & Hg' & Hk' & _). split_and!; [done|by apply good_live| |].
  2: { rewrite (keeps_in _ _ Hk'). cbn. by rewrite He. }
  change (link_after (w_s (load f e w)) (hdr_of_bytes f)) with (link_after (w_s w) (hdr_of_bytes f)) in Hl'.
  change (balance (load f e w)) with (balance w) in Hb'.
  change (w_app (load f e w)) with (w_app w) in Hlog'.
  unfold link_after in Hl'. rewrite Hft, Hact, Hnr', Hnr in Hl'. unfold expected in Hl'.
  rewrite Hns, bool_decide_true in Hl' by done. cbn in Hl'.
  unfold delivered in Hlog'. rewrite Hft, Hacc, Hdata in Hlog'.
  change (inactive (w_s (load f e w))) with (inactive (w_s w)) in Hlog'. rewrite Hact in Hlog'. cbn in Hlog'.
  unfold leaked in Hb'. rewrite Hft, Hacc, Z.add_0_r in Hb'.
  assert (s_va (w_s w') = nr /\ s_vr (w_s w') = (s_vr (w_s w) + 1) mod 32767 /\
          s_stopdt (w_s w') = s_stopdt (w_s w)) as (Hva' & Hvr' & Hsd').
  { unfold link_of in Hl'. by simplify_eq. }
  split.
  - by apply rx_reset_good.
  - cbn. by apply (keeps_mem _ _ Hk').
  - done.
  - rewrite <- Hact. unfold inactive. cbn. by rewrite Hsd', (keeps_type _ _ Hk').
  - change (acknowledges (w_s w') nr = true). unfold acknowledges. rewrite Hva', sdist_refl. apply Z.leb_le, outstanding_nonneg.
  - cbn. by rewrite Hvr'.
  - cbn. by rewrite Hlog', <- app_assoc.
  - cbn. rewrite Hvr', Zplus_mod_idemp_l, <- Hvr. f_equal. cbn. lia.
  - change (balance w' = bal). congruence.
Qed.

Lemma bufreadcb_receiving nr log vr bal fs w :
  receiving nr log vr bal fs w -> Forall frame_ok fs -> ev_in (ev_view (w_ev w)) = concat fs ->
  wp bufreadcb (fun _ w' => receiving nr log vr bal [] w' /\ ev_in (ev_view (w_ev w')) = []) w.
Proof.
  intros Hr Hfs Hin. unfold bufreadcb. apply wp_bind, wp_evq; [apply Hr|].
  apply (read_loop_stream _ (receiving nr log vr bal)) with (fs := fs); [|by intros; eapply receiving_step|done..|].
  - intros fs' w' [Hg _ Hl]. split_and!; [apply Hg|done|apply Hg].
  - by rewrite length_view, Hin.
Qed.

Lemma bufreadcb_burst fs nr w :
  good w -> w_mem w = [] -> s_left (w_s w) = 0 -> inactive (w_s w) = false ->
  acknowledges (w_s w) nr = true -> Forall frame_ok fs -> iframes (s_vr (w_s w)) nr fs ->
  ev_in (ev_view (w_ev w)) = concat fs ->
  wp bufreadcb (fun _ w' =>
    app_log (w_app w') = app_log (w_app w) ++ map (drop 6) fs /\
    s_vr (w_s w') = (s_vr (w_s w) + Z.of_nat (length fs)) mod 32767 /\
    ev_in (ev_view (w_ev w')) = [] /\ balance w' = balance w /\ good w') w.
Proof.
  intros Hg Hm Hleft Hact Hnr Hfs Hif Hin.
  eapply wp_mono; [eapply bufreadcb_receiving; [by split|done..]|].
  intros [] w' [[Hg' _ _ _ _ _ Hlog Hvr Hbal] Hin']. cbn in Hlog, Hvr. rewrite app_nil_r in Hlog.
  rewrite Z.add_0_r, Z.mod_small in Hvr by apply Hg'. by split_and!.
Qed.
End link.

(** ** Sending *)
Section sending.
Context {E App F : Type} {L : Libevent E} {LL : LibeventLaws E}.
Implicit Types w : world E App F.

(** C6: A run of the write queue sends as many queued ASDUs as the window
    has room for, oldest first and with consecutive sequence numbers, and
    moves them to the acknowledge queue; a slave whose monitor direction is
    inactive sends nothing.  Nothing else of the world changes, what
    appears on the connection is exactly those frames, the acknowledgement
    timer runs if anything was sent, and the session invariant is kept. *)
Theorem run_write_queue_sends w :
  w_live w = true -> sess_inv (w_s w) ->
  wp iecsock_run_write_queue (fun _ w' =>
    let n := sends (w_s w) in
    w' = w <| w_s := sent n (w_s w) |> <| w_ev := w_ev w' |> /\
    ev_view (w_ev w') = sent_view n (w_s w) (ev_view (w_ev w)) /\
    sess_inv (w_s w')) w.
Proof.
  intros Hl Hi. apply run_write_queue_wp; [done..|]. intros n e -> He Hi'. by split_and!.
Qed.

(** C5: The send window: after a run of the write queue at most [k] frames
    are unacknowledged, and a session that may send leaves a frame queued
    only when exactly [k] are, so no ASDU waits while there is room. *)
Theorem write_queue_window w :
  w_live w = true -> sess_inv (w_s w) ->
  wp iecsock_run_write_queue (fun _ w' =>
    0 <= outstanding (w_s w') <= s_k (w_s w) /\
    (bool_decide (s_type (w_s w) = IEC_SLAVE) && s_stopdt (w_s w) = false ->
     s_write_q (w_s w') = [] \/ outstanding (w_s w') = s_k (w_s w))) w.
Proof.
  intros Hl Hi. apply run_write_queue_wp; [done..|]. intros n e -> He Hi'. cbn [w_s upd upd_w_ev upd_w_s].
  assert (s_k (sent (sends (w_s w)) (w_s w)) = s_k (w_s w)) as Hk by by destruct (sends (w_s w)).
  pose proof (inv_window _ Hi') as Hw. rewrite Hk in Hw. split; [split; [apply outstanding_nonneg|done]|].
  intros Hact. destruct (sent_flushed (w_s w) Hi) as [?|Hr]; [by destruct (sends (w_s w))|by left|right].
  unfold room in Hr. lia.
Qed.
End sending.

(** ** Acknowledging *)

Lemma ackw_drop_exact nr a q e :
  numbered a q e -> 0 <= nr < 32767 -> 0 <= e < 32767 -> Z.of_nat (length q) < 32767 ->
  sdist nr e <= Z.of_nat (length q) ->
  numbered nr (ackw_drop nr q) e /\ Z.of_nat (length (ackw_drop nr q)) = sdist nr e.
Proof.
  revert a. induction q as [|b q IH]; intros a Hn Hnr He Hlen Hd.
  - simpl in *. pose proof (sdist_range nr e).
    split; [apply sdist_0; lia|lia].
  - pose proof (numbered_length _ _ _ Hn) as He'. destruct Hn as (Hns & Ha & Hq). cbn [ackw_drop].
    specialize (He' Ha). destruct (Z.eqb_spec (ic_ns (bh b)) nr) as [Heq|Hne].
    + subst a. rewrite Heq in *. split; [done|]. rewrite He'. symmetry. apply sdist_add; cbn in *; lia.
    + apply (IH _ Hq); [done|done|cbn in Hlen; lia|].
      destruct (Z.eq_dec (sdist nr e) (Z.of_nat (length (b :: q)))) as [Heq|]; [|cbn in *; lia].
      destruct Hne. rewrite Hns. symmetry. apply sdist_0; [done|done|].
      rewrite He' in Heq. revert Heq. cbn [length] in *. sdist_tac.
Qed.

(** 32767 is no frame's number: the search for it runs to the end. *)
Lemma ackw_drop_all a q e : numbered a q e -> ackw_drop 32767 q = [].
Proof.
  revert a. induction q as [|b q IH]; intros a; cbn [numbered ackw_drop]; [done|]. intros (Hns & Ha & Hq).
  replace (_ =? _) with false by lia. by eapply IH.
Qed.

Section acknowledging.
Context {E App F : Type} {L : Libevent E} {LL : LibeventLaws E}.
Implicit Types w : world E App F.

(** C7: An acknowledgement up to [nr] that the window check lets through, with
    the queue holding at least the frames that are outstanding and fewer than
    32767.  A number below 32767 frees exactly the acknowledged buffers: what
    stays in the queue are the frames numbered from [nr] up to, not including,
    V(s).  The number 32767, which no frame carries and the check lets through
    as if it were 0, frees the whole queue, unacknowledged frames included. *)
Theorem ackw_queue_exact nr w :
  w_live w = true -> sess_inv (w_s w) -> 0 <= nr <= 32767 -> check_nr (w_s w) nr = true ->
  outstanding (w_s w) <= Z.of_nat (length (s_ackw_q (w_s w))) < 32767 ->
  wp (iecsock_run_ackw_queue nr) (fun _ w' =>
    let q := s_ackw_q (w_s w') in
    (nr < 32767 -> numbered nr q (s_vs (w_s w)) /\ Z.of_nat (length q) = sdist nr (s_vs (w_s w))) /\
    (nr = 32767 -> q = []) /\
    w_bufs w' = w_bufs w - (Z.of_nat (length (s_ackw_q (w_s w))) - Z.of_nat (length q)) /\
    sess_inv (w_s w')) w.
Proof.
  intros Hl Hi Hnr Hc Hlen. rewrite check_nr_spec in Hc by (done || lia). bool_hyps.
  apply run_ackw_queue_wp; [done|]. cbn. destruct (inv_ackw_q _ Hi) as [a Ha].
  pose proof (sdist_split _ _ _ Hc) as Hs. fold (outstanding (w_s w)) in Hs.
  pose proof (sdist_range (s_va (w_s w)) nr).
  split_and!; [|intros ->; by eapply ackw_drop_all|done|by apply sess_inv_ackw].
  intros Hlt. apply (ackw_drop_exact nr a); [done|lia|apply Hi|lia|lia].
Qed.
End acknowledging.

(** ** Delivery *)
Section delivery.
Context {E App F : Type} {L : Libevent E} {LL : LibeventLaws E}.
Context {AL : AppLog App} {HC : HookCode E App F} {HS : HookSpec E App F}.
Implicit Types w : world E App F.

(** C4: One received frame refines the protocol machine: it is accepted
    exactly when the machine accepts it, acknowledgement counters and mode
    flags become what the machine says, accepted data is handed to the
    application, every buffer is freed unless an I-frame was refused, and
    the session invariant is kept, whatever the frame says.  The session is one
    that has prepared the events its hooks schedule ([good]).  What it writes
    is the machine's reply and I-frames and acknowledgements with the
    sequence numbers of the time, inside the send window. *)
Theorem frame_recv_refines w h :
  good w -> w_mem w = [] -> has_frame (w_s w) h ->
  wp iecsock_frame_recv (fun r w' =>
    r = (if acceptable (w_s w) h then 0 else -1) /\
    link_of (w_s w') = link_after (w_s w) h /\
    app_log (w_app w') = app_log (w_app w) ++ delivered (w_s w) h /\
    balance w' = balance w + leaked (w_s w) h /\ good w' /\ keeps_rx w w' /\
    emitted (replies (w_s w) h) (counts (w_s w) h) w w') w.
Proof. apply frame_recv_wp. Qed.

(** End to end: what one session's write queue puts on the connection,
    a peer that expects that sequence number takes off it, and its
    application receives the queued ASDUs, in order and unchanged; the two
    ends then agree on the next sequence number. *)
Theorem link_delivers {E1 App1 F1} {L1 : Libevent E1} {LL1 : LibeventLaws E1}
    (wa : world E1 App1 F1) :
  w_live wa = true -> sess_inv (w_s wa) ->
  wp iecsock_run_write_queue (fun _ wa' =>
    exists out, ev_out (ev_view (w_ev wa')) = ev_out (ev_view (w_ev wa)) ++ out /\
    forall wb : world E App F,
      good wb -> w_mem wb = [] -> s_left (w_s wb) = 0 -> inactive (w_s wb) = false ->
      s_vr (w_s wb) = s_vs (w_s wa) -> acknowledges (w_s wb) (s_vr (w_s wa)) = true ->
      ev_in (ev_view (w_ev wb)) = out ->
      wp bufreadcb (fun _ wb' =>
        app_log (w_app wb') =
          app_log (w_app wb) ++ map bdata (take (sends (w_s wa)) (s_write_q (w_s wa))) /\
        s_vr (w_s wb') = s_vs (w_s wa')) wb) wa.
Proof.
  intros Hl Hi. apply run_write_queue_wp; [done..|]. intros n e -> He Hi'.
  set (n := sends (w_s wa)) in *. set (q := take n (s_write_q (w_s wa))).
  assert (length q = n) as Hq by (apply length_take_le, sends_le).
  destruct (stamps_frames (s_vr (w_s wa)) (s_vs (w_s wa)) q) as (Hf & Hif & Hd);
    [apply Forall_take, Hi|apply Hi|apply Hi|].
  exists (concat (map apdu_bytes (stamps (s_vr (w_s wa)) (s_vs (w_s wa)) q))). split.
  - cbn. rewrite He. unfold q in *. clearbody n. destruct n; cbn; [|done].
    by rewrite take_0, app_nil_r.
  - intros wb Hgb Hmb Hleft Hact Hvr Hnr Hin. rewrite <- Hvr in *.
    eapply wp_mono; [by eapply bufreadcb_burst|].
    intros [] wb' (Hlog & Hvr' & _). split; [by rewrite Hlog, Hd|]. rewrite Hvr'.
    rewrite length_map, stamps_length, Hq. clearbody n.
    destruct n; cbn -[Z.of_nat]; [|by rewrite Hvr].
    rewrite Z.add_0_r, Z.mod_small; [done|apply Hgb].
Qed.
End delivery.

(** ** Opening and closing *)
Section opening.
Context {E App F : Type} {L : Libevent E} {LL : LibeventLaws E}.
Implicit Types w : world E App F.

(** The session [iecsock_connect] creates for address [a]. *)
Definition fresh_session (fd : Z) (a : sockaddr_in) : iecsock F :=
  (iecsock_set_defaults (calloc_iecsock <| s_sock := fd |>))
    <| s_type := IEC_MASTER |> <| s_stopdt := true |> <| s_addr := a |>
    <| s_set := {[ EvT0; EvT1; EvT2; EvT3 ]} |>.

Definition fresh_events : E :=
  event_add EvT0 (Some DEFAULT_T0) (event_set EvT0 (ev_set_defaults ev_calloc)).

Lemma fresh_session_inv fd a : sess_inv (fresh_session fd a).
Proof.
  split; try done.
  - by exists 0.
  - split; [done|]. apply (bool_decide_unpack _). by vm_compute.
Qed.

Definition connect_fails (r : sysret) : bool :=
  negb (r_calloc r) || (r_socket r =? -1) || (r_fcntl r =? -1)
  || (negb (r_connect r =? -1) && negb (r_errno r =? EINPROGRESS)).

Definition opened (r : sysret) : bool := r_calloc r && negb (r_socket r =? -1).

Lemma next_sys_wp w Q :
  let r := hd sys_default (w_sys w) in
  Q r (w <| w_sys := tl (w_sys w) |>) -> wp next_sys Q w.
Proof. intros r HQ. unfold wp, next_sys, r in *. destruct w as [? ? ? ? ? ? [|] ? ?]; done. Qed.

Lemma connect_wp a w Q :
  let r := hd sys_default (w_sys w) in
  let addr := default (Build_sockaddr_in AF_INET (htons IEC_PORT_DEFAULT) addr_loopback) a in
  (connect_fails r = true ->
     Q (-1) (w <| w_sys := tl (w_sys w) |>
               <| w_closed := w_closed w ++ (if opened r then [r_socket r] else []) |>)) ->
  (connect_fails r = false ->
     Q 0 (w <| w_sys := tl (w_sys w) |>
            <| w_spawned := w_spawned w ++ [(fresh_session (r_socket r) addr, fresh_events)] |>)) ->
  wp (iecsock_connect a) Q w.
Proof.
  intros r addr Hfail Hok. unfold iecsock_connect. sess_step. apply next_sys_wp. fold r.
  unfold connect_fails, opened in *.
  destruct (r_calloc r), (r_socket r =? -1), (r_fcntl r =? -1); cbn [negb orb andb] in *;
    try (specialize (Hfail eq_refl); unfold close_fd; sess_steps; cbn in Hfail |- *;
         rewrite ?app_nil_r in Hfail; by destruct w).
  destruct (negb (r_connect r =? -1) && negb (r_errno r =? EINPROGRESS)); unfold close_fd; sess_steps.
  - by apply Hfail.
  - specialize (Hok eq_refl). unfold fresh_session, fresh_events, addr in Hok. destruct a; exact Hok.
Qed.

(** C25: Every outcome of [iecsock_connect]: it returns 0 exactly when it has
    registered one new session for the address (the default one if none is
    given), and that session satisfies the session invariant; when it
    returns -1 it has registered nothing and closed the socket if it had
    opened one.  The test on the result of [connect] makes it give up when
    the connection is established at once. *)
Theorem connect_outcomes a w :
  let r := hd sys_default (w_sys w) in
  wp (iecsock_connect a) (fun ret w' =>
    (ret = 0 /\ connect_fails r = false /\
     w_closed w' = w_closed w /\
     exists s e, w_spawned w' = w_spawned w ++ [(s, e)] /\ sess_inv s /\ s_sock s = r_socket r /\
       s_addr s = default (Build_sockaddr_in AF_INET (htons IEC_PORT_DEFAULT) addr_loopback) a /\
       s_type s = IEC_MASTER /\ ev_armed (ev_view e) !! EvT0 = Some (Some DEFAULT_T0))
    \/ (ret = -1 /\ connect_fails r = true /\ w_spawned w' = w_spawned w /\
        w_closed w' = w_closed w ++ (if opened r then [r_socket r] else []))) w.
Proof.
  intros r. apply connect_wp; fold r; intros Hf; [by right|left].
  split_and!; [done..|]. do 2 eexists. split_and!; [done|apply fresh_session_inv|by destruct a..| |].
  - done.
  - unfold fresh_events. rewrite view_add. cbn. apply lookup_insert_eq.
Qed.

Lemma flush_queues_wp w Q :
  w_live w = true ->
  Q tt (w <| w_s := (w_s w) <| s_write_q := [] |> <| s_ackw_q := [] |> |> <| w_bufs := balance w |>) ->
  wp iecsock_flush_queues Q w.
Proof.
  intros Hl HQ. unfold iecsock_flush_queues. sess_steps. apply free_bufs_spec.
  sess_steps. apply free_bufs_spec. cbn. unfold balance in HQ. exact HQ.
Qed.
End opening.

Section closing.
Context {E App F : Type} {L : Libevent E} {LL : LibeventLaws E}.
Implicit Types w : world E App F.

(** The library calls of [iecsock_close]. *)
Definition ev_closed (e : E) : E :=
  bufferevent_free (bufferevent_disable
    (event_del EvUser (event_del EvT3 (event_del EvT2 (event_del EvT1 (event_del EvT0 e)))))).

Lemma ev_closed_view e :
  let v := ev_view (ev_closed e) in
  ev_open v = false /\ ev_reading v = false /\ ev_armed v = ∅ /\ ev_in v = ev_in (ev_view e).
Proof.
  cbn zeta. unfold ev_closed. rewrite view_free, view_disable, !view_del. cbn. split_and!; [done..| |done].
  apply map_eq. intros i. rewrite lookup_empty.
  destruct i; by rewrite ?lookup_delete_eq, ?lookup_delete_ne, ?lookup_delete_eq,
    ?lookup_delete_ne, ?lookup_delete_eq, ?lookup_delete_ne, ?lookup_delete_eq by done.
Qed.

(** The world when [iecsock_close] reaches the test on the role. *)
Definition closed_base w : world E App F :=
  w <| w_s := (w_s w) <| s_write_q := [] |> <| s_ackw_q := [] |> |> <| w_bufs := balance w |>
    <| w_ev := ev_closed (w_ev w) |> <| w_closed := w_closed w ++ [s_sock (w_s w)] |>.

Definition free_session w : world E App F := w <| w_live := false |>.

Lemma close_wp w Q :
  w_live w = true ->
  wp (if bool_decide (s_type (w_s w) = IEC_MASTER) then iecsock_connect (Some (s_addr (w_s w))) else mret 0)
     (fun _ w' => Q tt (free_session w')) (closed_base w) ->
  wp iecsock_close Q w.
Proof.
  intros Hl HQ. unfold iecsock_close. sess_step. apply flush_queues_wp; [done|].
  unfold close_fd. sess_steps. cbn [w_s upd upd_w_s upd_w_ev upd_w_bufs upd_w_closed s_type s_addr
    upd_s_ackw_q upd_s_write_q].
  destruct (bool_decide _).
  - sess_steps. eapply wp_mono; [exact HQ|]. intros a w' Hw'. sess_steps. exact Hw'.
  - sess_steps. exact HQ.
Qed.

(** Closing a session frees every queued buffer, cancels all its timers,
    releases the bufferevent and the socket, and frees the session; a
    master then starts one new connection attempt to the same address,
    provided the system lets it, and a slave does not.  The program's own
    state is not touched. *)
Lemma close_releases w :
  w_live w = true ->
  wp iecsock_close (fun _ w' =>
    w_live w' = false /\ w_app w' = w_app w /\ w_mem w' = w_mem w /\ w_bufs w' = balance w /\
    s_write_q (w_s w') = [] /\ s_ackw_q (w_s w') = [] /\
    ev_armed (ev_view (w_ev w')) = ∅ /\ ev_open (ev_view (w_ev w')) = false /\
    s_sock (w_s w) ∈ w_closed w' /\
    let r := hd sys_default (w_sys w) in
    let again := bool_decide (s_type (w_s w) = IEC_MASTER) && negb (connect_fails r) in
    w_spawned w' = w_spawned w ++
      (if again then [(fresh_session (r_socket r) (s_addr (w_s w)), fresh_events)] else [])) w.
Proof.
  intros Hl. apply close_wp; [done|]. destruct (ev_closed_view (w_ev w)) as (Ho & _ & Ha & _).
  destruct (bool_decide _); cbn [andb].
  - apply connect_wp; change (w_sys (closed_base w)) with (w_sys w); intros Hf;
      rewrite Hf; cbn; rewrite ?app_nil_r;
      split_and!; try done; set_solver.
  - apply wp_ret. cbn. rewrite app_nil_r. split_and!; try done. set_solver.
Qed.

Lemma close_frees w Q :
  w_live w = true -> (forall w', w_live w' = false -> Q tt w') -> wp iecsock_close Q w.
Proof.
  intros Hl HQ. apply close_wp; [done|]. destruct (bool_decide _).
  - apply connect_wp; intros _; by apply HQ.
  - apply wp_ret. by apply HQ.
Qed.

(** ** Faults *)
Lemma wr_dead f w : w_live w = false -> wr f w = Faulted UseAfterFree.
Proof. unfold wr. by intros ->. Qed.
Lemma evq_dead {A} (f : E -> A) w : w_live w = false -> evq f w = Faulted UseAfterFree.
Proof. unfold evq. by intros ->. Qed.
End closing.

Section faults.
Context {E App F : Type} {L : Libevent E} {LL : LibeventLaws E}.
Context {AL : AppLog App} {HC : HookCode E App F} {HS : HookSpec E App F}.
Implicit Types w : world E App F.

Lemma read_loop_dead fuel fr w : w_live w = false -> read_loop fuel fr w = Faulted UseAfterFree.
Proof. intros Hd. destruct fuel; by apply bind_faults_l, evq_dead. Qed.

Lemma finish_refused finish r fuel fr w :
  finish = finish_short \/ finish = finish_data -> w_live w = true -> r <> 0 ->
  (finish r;; read_loop fuel fr) w = Faulted UseAfterFree.
Proof.
  intros Hfin Hl Hr. unfold finish_short, finish_data in Hfin.
  destruct Hfin as [-> | ->]; replace (r =? 0) with false by lia; cbn [negb when].
  - apply bind_eq. sess_steps. apply close_frees; [done|]. intros w' Hd. by apply read_loop_dead.
  - apply bind_faults_l, bind_eq. apply close_frees; [done|]. intros w' Hd.
    by apply bind_faults_l, wr_dead.
Qed.

(** A frame [iecsock_frame_recv] reports an error for. *)
Lemma error_faults f rest w :
  sound w -> s_left (w_s w) = 0 -> ev_in (ev_view (w_ev w)) = f ++ rest -> frame_ok f ->
  (forall e, wp iecsock_frame_recv (fun r w' => r <> 0 /\ w_live w' = true) (load f e w)) ->
  bufreadcb w = Faulted UseAfterFree.
Proof.
  intros Hg Hleft Hin Hf Hfr. unfold bufreadcb. apply bind_eq, wp_evq; [apply Hg|].
  destruct (read_loop_frame iecsock_frame_recv f rest (evbuffer_length (w_ev w)) w)
    as (e & z & fuel' & finish & He & _ & Hfin & ->);
    [apply Hg|done|apply Hg|done|done|by rewrite length_view, Hin|].
  apply bind_eq. eapply wp_mono; [apply Hfr|]. intros r w' [Hr Hl]. by apply finish_refused.
Qed.

(** A U-frame that is refused, before any hook is called. *)
Lemma refused_uframe_faults f rest w :
  sound w -> w_mem w = [] -> s_left (w_s w) = 0 ->
  ev_in (ev_view (w_ev w)) = f ++ rest -> frame_ok f -> frame_type (hdr_of_bytes f) = FRAME_TYPE_U ->
  s_type (w_s w) = IEC_MASTER -> uframe_func (hdr_of_bytes f) = STARTACT ->
  bufreadcb w = Faulted UseAfterFree.
Proof.
  intros Hg Hm Hleft Hin Hf Hft Hty Hfn. apply (error_faults f rest); [done..|]. intros e.
  destruct (load_has_frame f e w ltac:(apply Hg) Hf) as [Hhf _].
  eapply frame_recv_dispatch; [by apply load_sound|done|done|].
  intros w1 [Hg1 _ Hs1 _ _ _]. unfold frame_handler. rewrite Hft. cbn zeta iota.
  sess_step. unfold iecsock_uframe_recv. sess_step. apply wp_rd; [apply Hg1|]. cbn [bh].
  rewrite Hfn, Hs1. cbn. rewrite Hty. cbn. unfold free_buf. sess_steps. split; [lia|apply Hg1].
Qed.

(** A frame the session does not accept. *)
Lemma refused_frame_faults f rest w :
  good w -> w_mem w = [] -> s_left (w_s w) = 0 ->
  ev_in (ev_view (w_ev w)) = f ++ rest -> frame_ok f ->
  acceptable (w_s w) (hdr_of_bytes f) = false ->
  bufreadcb w = Faulted UseAfterFree.
Proof.
  intros Hg Hm Hleft Hin Hf Hacc. apply (error_faults f rest); [by apply good_sound|done..|]. intros e.
  destruct (load_has_frame f e w ltac:(apply Hg) Hf) as [Hhf _].
  eapply wp_mono; [apply frame_recv_wp; [by apply load_good|done|done]|].
  intros r w' (Hr & _ & _ & _ & Hg' & _). split; [|apply Hg'].
  change (acceptable (w_s (load f e w)) _) with (acceptable (w_s w) (hdr_of_bytes f)) in Hr.
  rewrite Hacc in Hr. lia.
Qed.

(** C33: On a session that has prepared the events its hooks schedule, a
    refused frame ends in a use of the freed session: [frame_recv]
    reports the error, the session is closed and freed, and the code goes
    on to use it. *)
Theorem refused_frame_use_after_free f rest w :
  good w -> w_mem w = [] -> s_left (w_s w) = 0 ->
  ev_in (ev_view (w_ev w)) = f ++ rest -> frame_ok f ->
  acceptable (w_s w) (hdr_of_bytes f) = false ->
  bufreadcb w = Faulted UseAfterFree.
Proof. apply refused_frame_faults. Qed.

(** A header that is not an APDU header (wrong start byte, or a length
    outside 4..253) ends the same way: the session is closed and freed and
    the read goes on with it. *)
Theorem bad_header_use_after_free w :
  w_live w = true -> s_left (w_s w) = 0 -> length (s_buf (w_s w)) = 255%nat ->
  (6 <= length (ev_in (ev_view (w_ev w))))%nat ->
  bad_header (hdr_of_bytes (ev_in (ev_view (w_ev w)))) = true ->
  bufreadcb w = Faulted UseAfterFree.
Proof.
  intros Hl Hleft Hbuf Hn Hbad. unfold bufreadcb. apply bind_eq, wp_evq; [done|].
  cbv beta. rewrite length_view.
  destruct (length (ev_in (ev_view (w_ev w)))) as [|m] eqn:Hm; [lia|].
  rewrite read_loop_round by (done || lia). apply bind_faults_l.
  apply bind_eq, wp_rd; [done|]. rewrite Hleft. cbn [Z.eqb]. apply bind_eq. unfold sizeof_iechdr.
  apply read_into_wp; [done|lia|rewrite length_take; lia|]. rewrite length_take_le by lia.
  change (Z.of_nat (Z.to_nat 6)) with 6. cbn [Z.eqb Pos.eqb negb]. apply bind_eq, wp_ret.
  apply bind_eq, wp_rd; [done|]. apply bind_eq. cbn [w_s upd upd_w_s upd_w_ev upd_s_buf s_buf].
  rewrite take_0, app_nil_l, hdr_of_take, Hbad by lia. cbn [when].
  apply close_frees; [done|]. intros w' Hd. by apply bind_faults_l, wr_dead.
Qed.

(** Bytes of the next header that arrive with the end of a frame, but
    not all six of them, fail the assertion on the number of bytes read:
    the loop does not wait for the low watermark it has just set. *)
Theorem split_header_assertion f rest w :
  good w -> w_mem w = [] -> s_left (w_s w) = 0 ->
  ev_in (ev_view (w_ev w)) = f ++ rest -> frame_ok f ->
  acceptable (w_s w) (hdr_of_bytes f) = true -> (0 < length rest < 6)%nat ->
  bufreadcb w = Faulted AssertFailed.
Proof.
  intros Hg Hm Hleft Hin Hf Hacc Hrest. unfold bufreadcb. apply bind_eq, wp_evq; [apply Hg|].
  destruct (read_loop_frame iecsock_frame_recv f rest (evbuffer_length (w_ev w)) w)
    as (e & z & fuel' & finish & He & Hfuel & Hfin & ->);
    [apply Hg|done|apply Hg|done|done|by rewrite length_view, Hin|].
  apply bind_eq. destruct (load_has_frame f e w ltac:(apply Hg) Hf) as [Hhf _].
  eapply wp_mono; [apply frame_recv_wp; [by apply load_good|done|done]|].
  intros r w' (Hr & _ & _ & _ & Hg' & Hk' & _).
  change (acceptable (w_s (load f e w)) _) with (acceptable (w_s w) (hdr_of_bytes f)) in Hr.
  rewrite Hacc in Hr. subst r. apply bind_eq, finish_accepted; [done|apply Hg'|].
  assert (ev_in (ev_view (w_ev (rx_reset w'))) = rest) as Hin'.
  { cbn. rewrite view_setwatermark. cbn. rewrite (keeps_in _ _ Hk'). cbn. by rewrite He. }
  destruct fuel' as [|fuel']; [lia|].
  rewrite read_loop_round by (rewrite ?Hin'; apply Hg' || lia). apply bind_faults_l.
  apply bind_eq, wp_rd; [apply Hg'|]. cbn [s_left rx_reset w_s upd upd_w_s upd_w_ev upd_s_len upd_s_left Z.eqb].
  unfold sizeof_iechdr. apply bind_eq, read_into_wp; rewrite ?Hin'; [apply Hg'|lia|rewrite length_take; lia|].
  rewrite take_ge by lia. replace (_ =? 6) with false by lia. done.
Qed.
End faults.
