(* ===== verification/Ieclink.v ===== *)
(** * ieclink: the client program

    ieclink/ieclink.c: the hooks, the reader of ASDUs in hexadecimal from
    standard input and the list of ASDUs waiting for the send window.  The
    list is kept as the C code has it, nodes in memory linked by pointers
    with a pointer to the last [next] field, so that a pointer into a freed
    node is visible. *)

From S2P Require Import Prelude Bits Wire Libevent Session Iecsock.

(** ** Data *)

(** [struct asduhead] with the ASDU stored behind it. *)
Record asdunode := { n_next : option nat; n_len : Z; n_data : bytes }.

(** [struct asduhead **asdulistlast]: the head pointer or a node's [next]. *)
Inductive lastptr := LastHead | LastNext (node : nat).

(** Standard output, line by line: an ASDU in hexadecimal or a single mark. *)
Inductive outline := OutData (d : bytes) | OutMark (c : Z).

Record client := {
  a_asdubuf : bytes;               (* asdubuf[0 .. asdulen) *)
  a_rbuf : bytes;                  (* rbuf[0 .. rbuflen) *)
  a_nodes : gmap nat asdunode;     (* allocated list nodes *)
  a_fresh : nat;                   (* a node never used before *)
  a_list : option nat;             (* asdulist *)
  a_last : lastptr;                (* asdulistlast *)
  a_curlistsize : Z;
  a_endmsg : bool;
  a_stdin : list bytes;            (* what the next reads will find *)
  a_stdout : list outline;
}.

#[export] Instance client_rebuild : Rebuild client := fun a =>
  Build_client (a_asdubuf a) (a_rbuf a) (a_nodes a) (a_fresh a) (a_list a) (a_last a) (a_curlistsize a)
    (a_endmsg a) (a_stdin a) (a_stdout a).
#[export] Instance upd_a_asdubuf : Updater a_asdubuf. Proof. solve_updater. Defined.
#[export] Instance upd_a_rbuf : Updater a_rbuf. Proof. solve_updater. Defined.
#[export] Instance upd_a_nodes : Updater a_nodes. Proof. solve_updater. Defined.
#[export] Instance upd_a_fresh : Updater a_fresh. Proof. solve_updater. Defined.
#[export] Instance upd_a_list : Updater a_list. Proof. solve_updater. Defined.
#[export] Instance upd_a_last : Updater a_last. Proof. solve_updater. Defined.
#[export] Instance upd_a_curlistsize : Updater a_curlistsize. Proof. solve_updater. Defined.
#[export] Instance upd_a_endmsg : Updater a_endmsg. Proof. solve_updater. Defined.
#[export] Instance upd_a_stdin : Updater a_stdin. Proof. solve_updater. Defined.
#[export] Instance upd_a_stdout : Updater a_stdout. Proof. solve_updater. Defined.

Definition client_init : client := Build_client [] [] ∅ 0 None LastHead 0 false [] [].

Definition limlistsize : Z := 12.
Definition sizeof_rbuf : nat := 1024.
Definition sizeof_asdubuf : nat := 249.

Inductive fptr :=
  | connect_hook | disconnect_hook | data_received_hook | activation_hook | iec_kick_callback.

(** ** Text *)
Definition ch_nl : Z := 10.
Definition ch_gt : Z := 62.
Definition ch_lt : Z := 60.
Definition ch_plus : Z := 43.
Definition ch_minus : Z := 45.

Definition tolower (c : Z) : Z := if (65 <=? c) && (c <=? 90) then c + 32 else c.

(** The value of a hexadecimal digit, after [tolower]. *)
Definition hex_value (c : Z) : option Z :=
  let c := tolower c in
  if (48 <=? c) && (c <=? 57) then Some (c - 48)
  else if (97 <=? c) && (c <=? 102) then Some (10 + c - 97)
  else None.

(** The [while (cp + 1 < end)] loop over one line: the ASDU collected on top
    of [acc], and whether [cp == end] when it stops. *)
Fixpoint parse_pairs (l acc : bytes) : bytes * bool :=
  match l with
  | c1 :: c2 :: l' =>
      match hex_value c1, hex_value c2 with
      | Some a, Some b =>
          parse_pairs l' (if (length acc <? sizeof_asdubuf)%nat then acc ++ [a * 16 + b] else acc)
      | _, _ => (acc, false)
      end
  | [] => (acc, true)
  | [_] => (acc, false)
  end.

(** [memchr(pbuf, '\n', left)]: the line before the newline and what follows. *)
Fixpoint split_nl (l : bytes) : option (bytes * bytes) :=
  match l with
  | [] => None
  | c :: l' =>
      if c =? ch_nl then Some ([], l')
      else match split_nl l' with
           | Some (line, rest) => Some (c :: line, rest)
           | None => None
           end
  end.

(** [fprintf(stdout, "%02X", ...)] for each byte. *)
Definition hex_char (n : Z) : Z := if n <? 10 then 48 + n else 55 + n.
Fixpoint hex_text (d : bytes) : bytes :=
  match d with
  | [] => []
  | b :: d' => hex_char (b / 16) :: hex_char (b mod 16) :: hex_text d'
  end.
Definition out_text (o : outline) : bytes :=
  match o with OutData d => hex_text d ++ [ch_nl] | OutMark c => [c; ch_nl] end.

Section ieclink.
Context {E : Type} {L : Libevent E}.
Abbreviation M := (ST (world E client fptr)).

Definition geta {A} (f : client -> A) : M A := gets (fun w => f (w_app w)).
Definition seta (f : client -> client) : M unit := modify (fun w => w <| w_app := f (w_app w) |>).
Definition print (o : outline) : M unit := seta (fun a => a <| a_stdout := a_stdout a ++ [o] |>).

(** ** Sending *)
Definition iec_asdu_send (d : bytes) : M unit :=
  ok ← calloc_buf;
  if negb ok then skip
  else
    let b := Build_iec_buf (u8 (Z.of_nat (length d))) zero_hdr d in
    wr (fun s => s <| s_write_q := s_write_q s ++ [iecsock_prepare_iframe b] |>);;
    iecsock_run_write_queue.

Definition can_send : M bool := n ← rd iecsock_can_queue; mret (negb (n =? 0)).

(** ** The waiting list *)

(** [*asdulistlast = h]. *)
Definition store_last (h : nat) : M unit :=
  l ← geta a_last;
  match l with
  | LastHead => seta (fun a => a <| a_list := Some h |>)
  | LastNext n =>
      nodes ← geta a_nodes;
      match nodes !! n with
      | None => stop UseAfterFree
      | Some nd =>
          seta (fun a => a <| a_nodes := <[n := Build_asdunode (Some h) (n_len nd) (n_data nd)]> (a_nodes a) |>)
      end
  end.

(** Saving an ASDU; [xmalloc] exits when there is no memory. *)
Definition save_asdu (d : bytes) : M unit :=
  ok ← try_alloc;
  if negb ok then exit_with 1
  else
    h ← geta a_fresh;
    seta (fun a => a <| a_nodes := <[h := Build_asdunode None (i16 (Z.of_nat (length d))) d]> (a_nodes a) |>
                     <| a_fresh := S h |>);;
    store_last h;;
    seta (fun a => a <| a_last := LastNext h |> <| a_curlistsize := a_curlistsize a + 1 |>).

(** ** Standard input *)

(** One line of [stdin_read]'s inner loop; [true] is its [return]. *)
Definition do_line (line : bytes) : M bool :=
  acc ← geta a_asdubuf;
  let r := parse_pairs line acc in
  seta (fun a => a <| a_asdubuf := r.1 |>);;
  (if r.2 && negb (length r.1 =? 0)%nat then
     ok ← can_send;
     if ok : bool then iec_asdu_send r.1 else save_asdu r.1
   else skip);;
  if bool_decide (head line = Some ch_gt) then
    seta (fun a => a <| a_rbuf := [] |> <| a_endmsg := true |>);; mret true
  else seta (fun a => a <| a_asdubuf := [] |>);; mret false.

(** The inner loop over the bytes of [rbuf] from [pbuf] on.  Each line takes
    at least its newline, so their number bounds the rounds.  [None] is the
    [return], [Some rest] leaves the bytes after the last newline. *)
Fixpoint do_lines (fuel : nat) (pbuf : bytes) : M (option bytes) :=
  match split_nl pbuf with
  | None => mret (Some pbuf)
  | Some (line, rest) =>
      match fuel with
      | O => stop OutOfFuel
      | S fuel' =>
          ret ← do_line line;
          if ret : bool then mret None else do_lines fuel' rest
      end
  end.

(** [read(fd, rbuf + rbuflen, sizeof(rbuf) - rbuflen)], appended to [rbuf]. *)
Definition read_stdin : M nat :=
  inp ← geta a_stdin; buf ← geta a_rbuf;
  match inp with
  | [] => mret 0%nat
  | c :: cs =>
      let n := Nat.min (length c) (sizeof_rbuf - length buf) in
      let rest := drop n c in
      seta (fun a => a <| a_rbuf := buf ++ take n c |>
                       <| a_stdin := if (length rest =? 0)%nat then cs else rest :: cs |>);;
      mret n
  end.

Fixpoint stdin_loop (fuel : nat) : M unit :=
  n ← read_stdin;
  if (n =? 0)%nat then skip
  else match fuel with
       | O => stop OutOfFuel
       | S fuel' =>
           buf ← geta a_rbuf;
           r ← do_lines (length buf) buf;
           match r with
           | None => skip
           | Some rest =>
               seta (fun a => a <| a_rbuf := if (length rest =? sizeof_rbuf)%nat then [] else rest |>);;
               cur ← geta a_curlistsize;
               if cur =? limlistsize then ev (event_del EvUser) else stdin_loop fuel'
           end
       end.

(** Every read that returns bytes takes them off the input, so its length
    bounds the rounds. *)
Definition stdin_read : M unit :=
  inp ← geta a_stdin; stdin_loop (length (concat inp)).

(** ** Hooks *)

(** The [for] loop of the wake-up hook; the number of nodes bounds it. *)
Fixpoint kick_loop (fuel : nat) (p : option nat) : M (option nat) :=
  match p with
  | None => mret None
  | Some n =>
      ok ← can_send;
      if negb ok then mret p
      else match fuel with
           | O => stop OutOfFuel
           | S fuel' =>
               nodes ← geta a_nodes;
               match nodes !! n with
               | None => stop UseAfterFree
               | Some nd =>
                   iec_asdu_send (take (Z.to_nat (n_len nd)) (n_data nd));;
                   seta (fun a => a <| a_nodes := delete n (a_nodes a) |>);;
                   kick_loop fuel' (n_next nd)
               end
           end
  end.

Definition do_kick : M unit :=
  p ← geta a_list;
  nodes ← geta a_nodes;
  p ← kick_loop (size nodes) p;
  seta (fun a => a <| a_list := p |>);;
  endmsg ← geta a_endmsg;
  match p with
  | Some _ => skip
  | None =>
      if negb endmsg then
        seta (fun a => a <| a_last := LastHead |>);;
        ev_add EvUser None
      else
        print (OutMark ch_lt);;
        ev_add EvUser None;;
        seta (fun a => a <| a_endmsg := false |>)
  end.

Definition do_disconnect (reason : Z) : M unit := print (OutMark ch_minus).

Definition do_data_received (b : iec_buf) : M unit :=
  print (OutData (take (Z.to_nat (data_len b)) (bdata b)));;
  free_buf.

Definition do_activation : M unit :=
  ev_set EvUser;;
  ev_add EvUser None;;
  print (OutMark ch_plus).

Definition do_connect : M unit := skip.
End ieclink.

(** ** The program's hooks, as [main] installs them *)
#[export] Instance ieclink_hooks {E} {L : Libevent E} : HookCode E client fptr := {|
  default_hooks := {|
    connect_indication := Some connect_hook;
    activation_indication := Some activation_hook;
    deactivation_indication := None;
    disconnect_indication := Some disconnect_hook;
    data_indication := Some data_received_hook;
    transmit_wakeup := Some iec_kick_callback;
  |};
  run_hook f :=
    match f with
    | connect_hook => do_connect
    | activation_hook => do_activation
    | iec_kick_callback => do_kick
    | disconnect_hook | data_received_hook => skip
    end;
  run_hook_reason f reason := match f with disconnect_hook => do_disconnect reason | _ => skip end;
  (* [data_received_hook] is the only function of this type *)
  run_hook_data _ b := do_data_received b;
|}.

(** The address [main] connects to: [argv[1]] if [inet_pton] accepts it and
    [argv[2]] if [atoi] finds a positive number there, else the default. *)
Definition main_addr (argc : Z) (inet_pton1 : option Z) (atoi2 : Z) : option sockaddr_in :=
  match inet_pton1 with
  | Some a =>
      if (2 <? argc) && (0 <? atoi2)
      then Some (Build_sockaddr_in AF_INET (htons (u16 atoi2)) a) else None
  | None => None
  end.

(** [main] up to the event loop: the log file is named after [argv[3]], which
    is a null pointer or past the end when there are fewer arguments. *)
Definition main {E} {L : Libevent E} (argc : Z) (inet_pton1 : option Z) (atoi2 : Z) (freopen_ok : bool)
    : ST (world E client fptr) Z :=
  if argc <=? 3 then stop NullDeref
  else if negb freopen_ok then exit_with 2
  else iecsock_connect (main_addr argc inet_pton1 atoi2).
