(* ===== verification/Client.v ===== *)
(** * ieclink: properties

    The hexadecimal text format, the waiting list as a queue, the hooks'
    contract towards the link layer, and the order of ASDUs from standard
    input to the send queue. *)

From S2P Require Import Prelude Bits Wire Libevent Session Iecsock Seqnum Trace Transmit Receive Stream Link Ieclink.

(** ** The text format *)

Lemma hex_value_char n : 0 <= n < 16 -> hex_value (hex_char n) = Some n.
Proof.
  intros H. unfold hex_char, hex_value, tolower.
  destruct (Z.ltb_spec n 10).
  - replace ((65 <=? 48 + n) && (48 + n <=? 90)) with false by lia.
    replace ((48 <=? 48 + n) && (48 + n <=? 57)) with true by lia. f_equal. lia.
  - replace ((65 <=? 55 + n) && (55 + n <=? 90)) with true by lia.
    replace ((48 <=? 55 + n + 32) && (55 + n + 32 <=? 57)) with false by lia.
    replace ((97 <=? 55 + n + 32) && (55 + n + 32 <=? 102)) with true by lia. f_equal. lia.
Qed.

Lemma parse_hex_text d acc :
  all_u8 d -> (length acc + length d <= sizeof_asdubuf)%nat ->
  parse_pairs (hex_text d) acc = (acc ++ d, true).
Proof.
  intros Hd. revert acc. induction Hd as [|b d Hb Hd IH]; intros acc Hl; cbn [hex_text parse_pairs].
  - by rewrite app_nil_r.
  - unfold is_u8 in Hb. rewrite !hex_value_char by (Z.div_mod_to_equations; lia).
    cbn [length] in Hl. replace (length acc <? sizeof_asdubuf)%nat with true
      by (symmetry; apply Nat.ltb_lt; lia).
    rewrite IH by (rewrite length_app; cbn; lia). rewrite <- app_assoc. cbn.
    by replace (b / 16 * 16 + b mod 16) with b by (Z.div_mod_to_equations; lia).
Qed.

(** C26: What the data hook prints for an ASDU, the reader of standard input
    parses back: an ASDU of at most 249 bytes survives the round trip through
    its line of hexadecimal digits. *)
Theorem hex_round_trip d :
  all_u8 d -> (length d <= sizeof_asdubuf)%nat ->
  exists line rest, split_nl (out_text (OutData d)) = Some (line, rest) /\ rest = [] /\
    parse_pairs line [] = (d, true).
Proof.
  intros Hd Hl. exists (hex_text d), []. split_and!; [|done|by apply parse_hex_text].
  cbn. clear Hl. induction Hd as [|b d Hb Hd IH]; [done|]. cbn [hex_text app split_nl].
  unfold is_u8 in Hb.
  assert (forall n, 0 <= n < 16 -> (hex_char n =? ch_nl) = false) as Hc.
  { intros n ?. unfold hex_char, ch_nl. destruct (Z.ltb_spec n 10); lia. }
  rewrite !Hc by (Z.div_mod_to_equations; lia). by rewrite IH.
Qed.

(** ** The waiting list as a queue *)

Definition asdu_ok (d : bytes) : Prop :=
  all_u8 d /\ (0 < length d <= sizeof_asdubuf)%nat.

(** From pointer [p], the nodes hold the ASDUs of [l], in order. *)
Fixpoint chain (m : gmap nat asdunode) (p : option nat) (l : list (nat * bytes)) : Prop :=
  match l with
  | [] => p = None
  | (i, d) :: l' =>
      p = Some i /\ asdu_ok d /\
      exists nx, m !! i = Some (Build_asdunode nx (Z.of_nat (length d)) d) /\ chain m nx l'
  end.

Record list_rep (a : client) (l : list (nat * bytes)) : Prop := {
  lr_chain : chain (a_nodes a) (a_list a) l;
  lr_nodup : NoDup (l.*1);
  lr_fresh : forall i, is_Some (a_nodes a !! i) -> (i < a_fresh a)%nat;
}.

(** Where the pointer to the last [next] field ought to point. *)
Definition last_of (l : list (nat * bytes)) : lastptr :=
  match last l with None => LastHead | Some (i, _) => LastNext i end.

Lemma chain_dom m p l i : chain m p l -> i ∈ l.*1 -> is_Some (m !! i).
Proof.
  revert p. induction l as [|[j d] l IH]; intros p; cbn; [set_solver|].
  intros (-> & _ & nx & Hj & Hl) [->|Hi]%elem_of_cons; [by eexists|by eapply IH].
Qed.

Lemma chain_insert m p l i nd : i ∉ l.*1 -> chain m p l -> chain (<[i := nd]> m) p l.
Proof.
  revert p. induction l as [|[j d] l IH]; intros p; cbn; [done|].
  intros Hi (-> & Hd & nx & Hj & Hl). apply not_elem_of_cons in Hi as [Hne Hi].
  split_and!; [done..|]. exists nx. split; [by rewrite lookup_insert_ne|by apply IH].
Qed.

Lemma chain_delete m p l i : i ∉ l.*1 -> chain m p l -> chain (delete i m) p l.
Proof.
  revert p. induction l as [|[j d] l IH]; intros p; cbn; [done|].
  intros Hi (-> & Hd & nx & Hj & Hl). apply not_elem_of_cons in Hi as [Hne Hi].
  split_and!; [done..|]. exists nx. split; [by rewrite lookup_delete_ne|by apply IH].
Qed.

Lemma chain_size m p l : chain m p l -> NoDup (l.*1) -> (length l <= size m)%nat.
Proof.
  intros Hc Hn. rewrite <- (length_fmap fst l), <- size_dom.
  rewrite <- (size_list_to_set (C:=gset nat)) by done. apply subseteq_size.
  intros i Hi. apply elem_of_list_to_set in Hi. apply elem_of_dom. by eapply chain_dom.
Qed.

(** Linking a new last node through the [next] field of the old one. *)
Lemma chain_snoc m p l i d h dh :
  chain m p (l ++ [(i, d)]) -> NoDup ((l ++ [(i, d)]).*1) -> h ∉ (l ++ [(i, d)]).*1 -> asdu_ok dh ->
  chain (<[i := Build_asdunode (Some h) (Z.of_nat (length d)) d]>
           (<[h := Build_asdunode None (Z.of_nat (length dh)) dh]> m)) p (l ++ [(i, d); (h, dh)]).
Proof.
  intros Hc Hn Hh Hdh. revert p Hc. induction l as [|[j dj] l IH]; intros p; cbn in *.
  - intros (-> & Hd & nx & Hi & _). apply not_elem_of_cons in Hh as [Hne _].
    split_and!; [done..|]. exists (Some h). split; [by rewrite lookup_insert_eq|].
    split_and!; [done..|]. exists None. split; [|done].
    by rewrite lookup_insert_ne, lookup_insert_eq.
  - intros (-> & Hd & nx & Hj & Hl). apply NoDup_cons in Hn as [Hj' Hn].
    apply not_elem_of_cons in Hh as [Hne Hh]. split_and!; [done..|].
    exists nx. split; [|by apply IH].
    rewrite lookup_insert_ne, lookup_insert_ne; [done|done|]. intros ->. apply Hj'.
    rewrite fmap_app. set_solver.
Qed.

#[export] Instance client_log : AppLog client := fun a =>
  omap (fun o => match o with OutData d => Some d | OutMark _ => None end) (a_stdout a).

Section client.
Context {E : Type} {L : Libevent E} {LL : LibeventLaws E}.
Implicit Types w : world E client fptr.

Lemma asdu_send_wp d w Q :
  w_live w = true -> sess_inv (w_s w) -> asdu_ok d ->
  (forall w', sess_inv (w_s w') -> w_app w' = w_app w -> tx_only w w' ->
     fifo w w' -> (w_mem w = [] -> txq (w_s w') = txq (w_s w) ++ [d] /\ flushed (w_s w')) -> Q tt w') ->
  wp (iec_asdu_send d) Q w.
Proof.
  intros Hl Hs [Hd Hlen] HQ. unfold iec_asdu_send. apply wp_bind. unfold sizeof_asdubuf in Hlen.
  apply calloc_buf_push; [done|done| |].
  - intros m Hm. cbn [negb]. rewrite u8_small by lia.
    apply push_run_wp; [done|done|done|done|unfold IEC104_ASDU_MAX; lia|]. intros w' Hs' Ha Htx Hq Hf Hfl _. apply HQ; auto.
  - intros m Hm Htx. cbn [negb]. sess_step. apply HQ; [done|done|done|by apply fifo_silent|]. intros Em. by rewrite Em in Hm.
Qed.

Lemma can_send_wp w Q :
  w_live w = true -> sess_inv (w_s w) -> Q (negb (room (w_s w) =? 0)%nat) w -> wp can_send Q w.
Proof.
  intros Hl Hs HQ. unfold can_send. sess_steps. rewrite can_queue_room by done.
  replace (Z.of_nat (room (w_s w)) =? 0) with (room (w_s w) =? 0)%nat; [done|].
  destruct (Nat.eqb_spec (room (w_s w)) 0); lia.
Qed.

(** What the wake-up loop has done when it stops at [p']: the first ASDUs
    [l1] of the list are sent, [l2] still waits, for want of room. *)
Record kicked (l : list (nat * bytes)) w (p' : option nat) w' (l1 l2 : list (nat * bytes)) : Prop := {
  kd_split : l = l1 ++ l2;
  kd_sess : sess_inv (w_s w');
  kd_tx : tx_only w w';
  kd_app : w_app w' = (w_app w) <| a_nodes := a_nodes (w_app w') |>;
  kd_nodes : forall i, is_Some (a_nodes (w_app w') !! i) -> is_Some (a_nodes (w_app w) !! i);
  kd_chain : chain (a_nodes (w_app w')) p' l2;
  kd_room : l2 = [] \/ room (w_s w') = 0%nat;
  kd_txq : w_mem w = [] -> txq (w_s w') = txq (w_s w) ++ l1.*2;
  kd_freed : forall i, i ∈ l1.*1 -> a_nodes (w_app w') !! i = None;
}.

Lemma kick_loop_wp fuel l p w :
  w_live w = true -> sess_inv (w_s w) -> chain (a_nodes (w_app w)) p l -> NoDup (l.*1) ->
  (length l <= fuel)%nat ->
  wp (kick_loop fuel p) (fun p' w' => exists l1 l2, kicked l w p' w' l1 l2) w.
Proof.
  assert (forall l p w, chain (a_nodes (w_app w)) p l -> sess_inv (w_s w) ->
    l = [] \/ room (w_s w) = 0%nat -> kicked l w p w [] l) as Hstop.
  { intros l' p' w' Hc Hs Hr. split; try done; [by destruct (w_app w')|intros _; by rewrite app_nil_r|set_solver]. }
  revert l p w. induction fuel as [|fuel IH]; intros l p w Hl Hs Hc Hn Hlen;
    destruct l as [|[i d] l]; cbn [chain] in Hc.
  1,3: subst p; apply wp_ret; exists [], []; apply Hstop; [done|done|by left].
  1: cbn in Hlen; lia.
  destruct Hc as (-> & Hd & nx & Hi & Hc). cbn [kick_loop].
  apply wp_bind, can_send_wp; [done..|]. destruct (Nat.eqb_spec (room (w_s w)) 0) as [Hr|Hr]; cbn [negb].
  { apply wp_ret. exists [], ((i, d) :: l). apply Hstop; [cbn; eauto 6|done|by right]. }
  unfold geta, seta. sess_steps. rewrite Hi. cbn [n_len n_data n_next]. rewrite Nat2Z.id, take_ge by lia.
  sess_step. apply asdu_send_wp; [done..|]. intros w1 Hs1 Happ1 Htx1 _ Hq1. sess_steps.
  match goal with |- wp _ _ ?x => set (w2 := x) end.
  apply NoDup_cons in Hn as [Hin Hn].
  assert (tx_only w w2) as Htx2.
  { etrans; [exact Htx1|]. by apply tx_silent; [split|..]. }
  eapply wp_mono; [apply (IH l nx w2)|]; [by apply Htx1|done| |done|cbn in Hlen; lia|].
  { cbn. rewrite Happ1. by apply chain_delete. }
  intros p' w' (l1 & l2 & [-> Hs' Htx' Happ' Hnodes' Hc' Hroom' Hq' Hfr']). exists ((i, d) :: l1), l2.
  split; [done|done|by etrans| | |done|done| |].
  - rewrite Happ'. cbn. by rewrite Happ1.
  - intros j Hj. apply Hnodes' in Hj. cbn in Hj. rewrite Happ1 in Hj.
    by apply lookup_delete_is_Some in Hj as [_ ?].
  - intros Hm. rewrite Hq' by by apply Htx2. cbn -[txq]. destruct (Hq1 Hm) as [-> _]. by rewrite <- app_assoc.
  - intros j [->|Hj]%elem_of_cons; [|by apply Hfr']. apply eq_None_not_Some. intros Hj%Hnodes'.
    cbn in Hj. rewrite lookup_delete_eq in Hj. by destruct Hj.
Qed.

Lemma kick_wp l w :
  w_live w = true -> sess_inv (w_s w) -> list_rep (w_app w) l -> EvUser ∈ s_set (w_s w) ->
  wp do_kick (fun _ w' => exists l1 l2, l = l1 ++ l2 /\
    sess_inv (w_s w') /\ list_rep (w_app w') l2 /\ tx_only w w' /\
    (l2 = [] \/ room (w_s w') = 0%nat) /\
    (w_mem w = [] -> txq (w_s w') = txq (w_s w) ++ l1.*2) /\
    a_last (w_app w') = (if bool_decide (l2 = []) && negb (a_endmsg (w_app w))
                         then LastHead else a_last (w_app w)) /\
    a_stdout (w_app w') = a_stdout (w_app w) ++
      (if bool_decide (l2 = []) && a_endmsg (w_app w) then [OutMark ch_lt] else []) /\
    a_fresh (w_app w') = a_fresh (w_app w) /\
    (forall i, i ∈ l1.*1 -> a_nodes (w_app w') !! i = None)) w.
Proof.
  intros Hl Hs [Hc Hn Hf] Hu. unfold do_kick, print, geta, seta. sess_steps.
  eapply wp_mono; [apply (kick_loop_wp _ l); [done..|by eapply chain_size]|].
  intros p' w1 (l1 & l2 & [-> Hs1 Htx1 Happ1 Hnodes1 Hc1 Hroom1 Hq1 Hfr1]).
  rewrite fmap_app in Hn. apply NoDup_app in Hn as (_ & _ & Hn).
  assert (w_live w1 = true) as Hl1 by by apply Htx1.
  assert (EvUser ∈ s_set (w_s w1)) as Hu1 by by apply (keeps_set _ _ (keeps_keeps_rx _ _ (tx_keeps _ _ Htx1))).
  assert (forall i, is_Some (a_nodes (w_app w1) !! i) -> (i < a_fresh (w_app w))%nat) as Hf1.
  { intros i Hi. by apply Hf, Hnodes1. }
  assert (forall a e, app_log a = app_log (w_app w1) -> ev_in (ev_view e) = ev_in (ev_view (w_ev w1)) ->
            ev_out (ev_view e) = ev_out (ev_view (w_ev w1)) ->
            tx_only w (w1 <| w_app := a |> <| w_ev := e |>)) as Htx.
  { intros a e Ha He Ho. etrans; [exact Htx1|]. by apply tx_silent; [split; [split|]|..]. }
  assert (a_last (w_app w1) = a_last (w_app w) /\ a_stdout (w_app w1) = a_stdout (w_app w) /\
          a_endmsg (w_app w1) = a_endmsg (w_app w) /\ a_fresh (w_app w1) = a_fresh (w_app w))
    as (Hla & Hout & Hend & Hfr) by (rewrite Happ1; done).
  sess_steps. cbn [w_app upd upd_w_app a_endmsg upd_a_list].
  destruct l2 as [|[i d] l2]; cbn [chain] in Hc1.
  - subst p'. rewrite Hend. destruct (a_endmsg (w_app w)); cbn [negb]; sess_steps; exists l1, [];
      (split_and!; [done|done|split; cbn; [done|done|by rewrite Hfr]| |by left|done|done| |done|done]).
    + match goal with |- tx_only w ?x => apply (Htx (w_app x) (w_ev x)) end; [|cbn; by rewrite view_add..].
      unfold app_log, client_log. cbn. rewrite omap_app. cbn. by rewrite app_nil_r.
    + cbn. by rewrite Hout.
    + match goal with |- tx_only w ?x => apply (Htx (w_app x) (w_ev x)) end; [done|cbn; by rewrite view_add..].
    + cbn. by rewrite Hout, app_nil_r.
  - destruct Hc1 as (-> & Hd & nx & Hi & Hc1). apply wp_ret. exists l1, ((i, d) :: l2).
    split_and!; [done|done|split; cbn; [by eauto 8|done|by rewrite Hfr]| |done|done|done| |done|done].
    + match goal with |- tx_only w ?x => by apply (Htx (w_app x) (w_ev x)) end.
    + cbn. by rewrite Hout, app_nil_r.
Qed.

Lemma log_mark a c : app_log (a <| a_stdout := a_stdout a ++ [OutMark c] |>) = app_log a.
Proof. unfold app_log, client_log. cbn. rewrite omap_app. cbn. by rewrite app_nil_r. Qed.

Lemma view_set_io i e :
  ev_in (ev_view (event_set i e)) = ev_in (ev_view e) /\ ev_out (ev_view (event_set i e)) = ev_out (ev_view e).
Proof. destruct (view_set i e) as (a & -> & _). done. Qed.

(** A step that leaves the session alone and prints at most a mark. *)
Lemma side_step_tx a e w :
  app_log a = app_log (w_app w) -> ev_in (ev_view e) = ev_in (ev_view (w_ev w)) ->
  ev_out (ev_view e) = ev_out (ev_view (w_ev w)) ->
  tx_only w (w <| w_app := a |> <| w_ev := e |>).
Proof. intros Ha He Ho. by apply tx_silent; [split; [split|]|..]. Qed.

Lemma sess_inv_set (s : iecsock fptr) i : sess_inv s -> sess_inv (s <| s_set := {[ i ]} ∪ s_set s |>).
Proof.
  intros [? ? ? ? ? ? ? ? ? ? ? (H1 & H2 & H3)]. split; try done. cbn.
  by split_and!; apply elem_of_union_r.
Qed.

(** ieclink's hooks keep the contract the link layer relies on. *)
#[export] Instance client_hook_spec : HookSpec E client fptr.
Proof.
  refine {| app_inv := fun a => exists l, list_rep a l;
            hook_needs := fun f => match f with iec_kick_callback => {[ EvUser ]} | _ => ∅ end |}.
  - intros f w Hl Hs [l Ha] Hn.
    destruct f; cbn [run_hook ieclink_hooks]; try (apply wp_ret; split_and!; [done|by exists l|reflexivity]).
    + unfold do_activation, print, seta. sess_steps. split_and!; [by apply sess_inv_set|exists l; by destruct Ha|].
      apply tx_silent; [split; [split|]|..]; try done; cbn -[ev_view]; try apply log_mark; try set_solver;
        rewrite view_add; cbn; apply view_set_io.
    + eapply wp_mono; [eapply kick_wp; [done..|set_solver]|]. intros [] w' (l1 & l2 & _ & Hs' & Hr & Htx & _).
      split_and!; [done|by exists l2|done].
  - intros f z w Hl Hs [l Ha].
    destruct f; cbn [run_hook_reason ieclink_hooks];
      try (apply wp_ret; split_and!; [done|by exists l|reflexivity]).
    unfold do_disconnect, print, seta. sess_steps. split_and!; [done|exists l; by destruct Ha|].
    match goal with |- tx_only w ?x => apply (side_step_tx (w_app x) (w_ev x)) end; [apply log_mark|done..].
  - intros f b w Hl Hs [l Ha]. cbn [run_hook_data ieclink_hooks].
    unfold do_data_received, print, seta, free_buf. sess_steps.
    split_and!; [done|exists l; by destruct Ha|by split| |done|unfold balance; cbn; lia|by apply emitted_silent].
    unfold app_log, client_log. cbn. by rewrite omap_app.
  - by eexists.
Defined.

(** Before the activation hook has prepared the event of standard input the
    wake-up hook schedules a structure that has never been set up. *)
Lemma kick_unprepared w :
  w_live w = true -> a_list (w_app w) = None -> EvUser ∉ s_set (w_s w) -> do_kick w = Faulted Uninitialised.
Proof.
  intros Hl Ha Hu. unfold do_kick, print, geta, seta.
  do 2 (apply bind_eq; sess_step). rewrite Ha. apply bind_eq.
  assert (forall a, ev_add EvUser None (w <| w_app := a |>) = Faulted Uninitialised) as Hadd.
  { intros a. unfold ev_add. apply bind_eq, wp_rd; [done|]. by rewrite bool_decide_false. }
  destruct (size (a_nodes (w_app w))); apply wp_ret; (do 2 (apply bind_eq; sess_step)); cbn;
    (destruct (a_endmsg (w_app w)); cbn; apply bind_eq; sess_step; [apply bind_faults_l|]; apply Hadd).
Qed.

(** C21: Once the session has been activated, which prepares the event of
    standard input, and while memory lasts,
    the wake-up hook empties the waiting list into the link layer, oldest
    ASDU first, until the list is empty or the send window is full; the
    ASDUs that stay waiting keep their order, and the confirmation mark is
    printed exactly when the list is empty and the whole message has been
    read from standard input. *)
Theorem kick_drains_in_order l w :
  w_live w = true -> sess_inv (w_s w) -> list_rep (w_app w) l -> w_mem w = [] -> EvUser ∈ s_set (w_s w) ->
  wp do_kick (fun _ w' => exists l1 l2, l = l1 ++ l2 /\
    txq (w_s w') = txq (w_s w) ++ l1.*2 /\ list_rep (w_app w') l2 /\
    (l2 = [] \/ room (w_s w') = 0%nat) /\ sess_inv (w_s w') /\
    a_stdout (w_app w') = a_stdout (w_app w) ++
      (if bool_decide (l2 = []) && a_endmsg (w_app w) then [OutMark ch_lt] else [])) w.
Proof.
  intros Hl Hs Hr Hm Hu. eapply wp_mono; [by eapply kick_wp|].
  intros [] w' (l1 & l2 & ? & ? & ? & ? & ? & Hq & ? & ? & _). exists l1, l2. by split_and!; auto.
Qed.

(** ** Saving *)
Lemma try_alloc_wp w Q : w_mem w = [] -> Q true w -> wp (try_alloc (F:=fptr)) Q w.
Proof. intros Hm HQ. unfold wp, try_alloc. by rewrite Hm. Qed.

(** The application state after [d] has been put at the end of the list. *)
Definition saved (d : bytes) (a a' : client) : Prop :=
  a' = a <| a_nodes := a_nodes a' |> <| a_list := a_list a' |> <| a_last := LastNext (a_fresh a) |>
         <| a_fresh := S (a_fresh a) |> <| a_curlistsize := a_curlistsize a + 1 |>.

Lemma last_of_snoc l i d : last_of (l ++ [(i, d)]) = LastNext i.
Proof. unfold last_of. by rewrite last_snoc. Qed.

Lemma save_wp l d w :
  w_mem w = [] -> list_rep (w_app w) l -> a_last (w_app w) = last_of l -> asdu_ok d ->
  wp (save_asdu d) (fun _ w' =>
    w' = w <| w_app := w_app w' |> /\ saved d (w_app w) (w_app w') /\
    list_rep (w_app w') (l ++ [(a_fresh (w_app w), d)])) w.
Proof.
  intros Hm [Hc Hn Hf] Hlast Hd. unfold save_asdu, store_last, geta, seta.
  sess_step. apply try_alloc_wp; [done|]. cbn [negb]. sess_steps. cbn [w_app upd upd_w_app a_last a_fresh
    upd_a_nodes upd_a_fresh a_nodes].
  rewrite i16_small by (destruct Hd as [_ Hd]; unfold sizeof_asdubuf in Hd; lia).
  assert (a_fresh (w_app w) ∉ l.*1) as Hfresh.
  { intros Hin. eapply chain_dom in Hin; [|exact Hc]. apply Hf in Hin. lia. }
  rewrite Hlast. destruct l as [|[i di] l _] using rev_ind.
  - cbn. sess_steps. split_and!; [done|done|]. split; cbn.
    + split_and!; [done|done|]. exists None. by rewrite lookup_insert_eq.
    + apply NoDup_singleton.
    + intros i [->|Hi]%lookup_insert_is_Some'; [lia|]. apply Hf in Hi. lia.
  - rewrite last_of_snoc. sess_step. cbn.
    assert (i <> a_fresh (w_app w)) as Hne by (rewrite fmap_app in Hfresh; set_solver).
    assert (is_Some (a_nodes (w_app w) !! i)) as Hi.
    { eapply chain_dom; [exact Hc|]. rewrite fmap_app. set_solver. }
    assert (exists nx, a_nodes (w_app w) !! i = Some (Build_asdunode nx (Z.of_nat (length di)) di)) as [nx Hnx].
    { clear -Hc. revert Hc. generalize (a_list (w_app w)). induction l as [|[j dj] l IH]; intros p; cbn.
      - intros (_ & _ & nx & ? & _). eauto.
      - intros (_ & _ & nx & _ & ?). eauto. }
    rewrite lookup_insert_ne, Hnx by done. sess_steps. split_and!; [done|done|]. split; cbn.
    + rewrite <- app_assoc. by apply chain_snoc.
    + rewrite fmap_app. apply NoDup_app. split_and!; [done|cbn|apply NoDup_singleton].
      intros j Hj ->%list_elem_of_singleton. done.
    + intros j [->|[->|Hj]%lookup_insert_is_Some']%lookup_insert_is_Some'; [apply Hf in Hi; lia|lia|].
      apply Hf in Hj. lia.
Qed.

(** C37: In an activated session, when the whole message has been read and the hook empties a waiting
    list, the pointer to the last [next] field is left pointing into a node
    that has been freed: the next ASDU that has to wait is linked through
    freed memory. *)
Theorem save_after_confirmation_use_after_free l d w :
  w_live w = true -> sess_inv (w_s w) -> list_rep (w_app w) l -> a_last (w_app w) = last_of l ->
  l <> [] -> a_endmsg (w_app w) = true -> w_mem w = [] -> EvUser ∈ s_set (w_s w) ->
  wp do_kick (fun _ w' => a_list (w_app w') = None -> save_asdu d w' = Faulted UseAfterFree) w.
Proof.
  intros Hl Hs Hr Hlast Hne Hend Hm Hu. eapply wp_mono; [by eapply kick_wp|].
  intros [] w' (l1 & l2 & -> & _ & Hr2 & Htx & _ & _ & Hlast' & _ & Hfresh' & Hfreed) Hnil.
  assert (l2 = []) as ->.
  { destruct l2 as [|[i2 d2] l2]; [done|]. destruct Hr2 as [Hc2 _ _]. cbn in Hc2.
    destruct Hc2 as (Hc2 & _). congruence. }
  rewrite app_nil_r in *. rewrite Hend, andb_false_r in Hlast'.
  destruct l1 as [|[i di] l1 _] using rev_ind; [done|]. rewrite Hlast, last_of_snoc in Hlast'.
  unfold save_asdu, store_last, geta, seta. apply bind_eq, try_alloc_wp; [by apply Htx|]. cbn [negb].
  do 2 (apply bind_eq; sess_step). apply bind_faults_l, bind_eq. sess_step. cbn.
  rewrite Hlast'. apply bind_eq. sess_step. cbn.
  assert (a_fresh (w_app w') <> i) as Hfi.
  { rewrite Hfresh'. intros Hi. destruct Hr as [Hc _ Hf].
    assert (is_Some (a_nodes (w_app w) !! i)) as Hsome%Hf; [|lia].
    eapply chain_dom; [exact Hc|]. rewrite fmap_app. set_solver. }
  rewrite lookup_insert_ne, Hfreed by (done || rewrite fmap_app; set_solver). done.
Qed.
End client.

(** ** From standard input to the send queue *)

Definition enc (d : bytes) : bytes := hex_text d ++ [ch_nl].
Definition enc_all (ds : list bytes) : bytes := concat (map enc ds).
Definition no_nl (l : bytes) : Prop := ch_nl ∉ l.

Lemma hex_char_range n : 0 <= n < 16 -> 48 <= hex_char n <= 70 /\ hex_char n <> ch_nl /\ hex_char n <> ch_gt.
Proof. intros H. unfold hex_char, ch_nl, ch_gt. destruct (Z.ltb_spec n 10); lia. Qed.

Lemma hex_text_no_nl d : all_u8 d -> no_nl (hex_text d).
Proof.
  unfold no_nl. induction 1 as [|b d Hb Hd IH]; cbn; [set_solver|]. unfold is_u8 in Hb.
  destruct (hex_char_range (b / 16)) as (_ & ? & _); [Z.div_mod_to_equations; lia|].
  destruct (hex_char_range (b mod 16)) as (_ & ? & _); [Z.div_mod_to_equations; lia|]. set_solver.
Qed.

Lemma hex_text_length d : length (hex_text d) = (2 * length d)%nat.
Proof. induction d as [|b d IH]; cbn; lia. Qed.

Lemma hex_text_head d : asdu_ok d -> head (hex_text d) <> Some ch_gt.
Proof.
  intros [Hd Hl]. destruct Hd as [|b d Hb Hd]; [cbn in Hl; lia|]. cbn. unfold is_u8 in Hb.
  destruct (hex_char_range (b / 16)) as (_ & _ & ?); [Z.div_mod_to_equations; lia|]. congruence.
Qed.

Lemma split_nl_none l : no_nl l -> split_nl l = None.
Proof.
  unfold no_nl. induction l as [|c l IH]; cbn; [done|]. intros Hn. apply not_elem_of_cons in Hn as [Hc Hn].
  replace (c =? ch_nl) with false by lia. by rewrite IH.
Qed.

Lemma split_nl_line l rest : no_nl l -> split_nl (l ++ ch_nl :: rest) = Some (l, rest).
Proof.
  unfold no_nl. induction l as [|c l IH]; cbn; [done|]. intros Hn. apply not_elem_of_cons in Hn as [Hc Hn].
  replace (c =? ch_nl) with false by lia. by rewrite IH.
Qed.

(** A message may end with the line of its end mark. *)
Definition end_mark : bytes := [ch_gt; ch_nl].

(** However the text is cut, what has arrived is whole lines and the begin of
    one more, or everything. *)
Lemma enc_all_prefix ds tl x y :
  Forall asdu_ok ds -> tl = [] \/ tl = end_mark -> x ++ y = enc_all ds ++ tl ->
  (exists ds1 ds2 p, ds = ds1 ++ ds2 /\ x = enc_all ds1 ++ p /\ no_nl p /\ p ++ y = enc_all ds2 ++ tl /\
    (length p < sizeof_rbuf)%nat) \/
  (tl = end_mark /\ x = enc_all ds ++ end_mark /\ y = []).
Proof.
  intros Hds Htl. revert x. induction Hds as [|d ds Hd Hds IH]; intros x Hxy.
  - assert (x = [] \/ x = [ch_gt] \/ (x = end_mark /\ tl = end_mark /\ y = [])) as Hx.
    { destruct Htl as [-> | ->]; [apply app_nil in Hxy as [-> _]; by left|].
      destruct x as [|c x]; [by left|]. injection Hxy as -> Hxy. destruct x as [|c x]; [by right; left|].
      injection Hxy as -> Hxy. apply app_nil in Hxy as [-> ->]. by right; right. }
    destruct Hx as [-> |[-> |(-> & -> & ->)]]; [left|left|by right].
    + exists [], [], []. split_and!; [done|done|unfold no_nl; set_solver|done|cbn; unfold sizeof_rbuf; lia].
    + exists [], [], [ch_gt]. split_and!; [done|done|unfold no_nl, ch_nl, ch_gt; set_solver|done|cbn; unfold sizeof_rbuf; lia].
  - change (enc_all (d :: ds)) with (enc d ++ enc_all ds) in *. rewrite <- app_assoc in Hxy.
    destruct (app_eq_inv _ _ _ _ Hxy) as [(k & Hx & Hy)|(k & Hx & Hy)].
    + destruct (IH k (eq_sym Hy)) as [(ds1 & ds2 & p & -> & -> & Hp & Hpy & Hlen)|(-> & -> & ->)]; [left|right].
      * exists (d :: ds1), ds2, p. split_and!; try done. by rewrite Hx, app_assoc.
      * split_and!; [done|by rewrite Hx, app_assoc|done].
    + left. destruct k as [|c k _] using rev_ind.
      { rewrite app_nil_r in Hx. exists [d], ds, []. split_and!; [done| |unfold no_nl; set_solver|by rewrite Hy|cbn; unfold sizeof_rbuf; lia].
        unfold enc_all. cbn. by rewrite !app_nil_r. }
      unfold enc in Hx. rewrite app_assoc in Hx. apply app_inj_tail in Hx as [Hx <-].
      exists [], (d :: ds), x. split_and!; [done|done| | |].
      * pose proof (hex_text_no_nl d (proj1 Hd)) as Hn. rewrite Hx in Hn. unfold no_nl in *. set_solver.
      * change (enc_all (d :: ds)) with (enc d ++ enc_all ds). by rewrite <- app_assoc, Hxy.
      * destruct Hd as [_ Hd]. pose proof (hex_text_length d) as Hl. rewrite Hx, length_app in Hl.
        unfold sizeof_rbuf, sizeof_asdubuf in *. lia.
Qed.

Lemma enc_all_no_nl ds : no_nl (enc_all ds) -> ds = [].
Proof.
  destruct ds as [|d ds]; [done|]. unfold no_nl, enc_all, enc. cbn. set_solver.
Qed.

Section stdin.
Context {E : Type} {L : Libevent E} {LL : LibeventLaws E}.
Implicit Types w : world E client fptr.

(** [q]: every ASDU accepted so far, in the link layer or waiting.  ASDUs
    only wait when the send window is full.  The size of the list has been
    counted up for each that had to wait, the [past] ones that have been sent
    since included, and the pointer to the last [next] field is valid. *)
Record feeding (past : Z) (q : list bytes) w : Prop := {
  fd_live : w_live w = true;
  fd_sess : sess_inv (w_s w);
  fd_mem : w_mem w = [];
  fd_asdu : a_asdubuf (w_app w) = [];
  fd_list : exists l, list_rep (w_app w) l /\ a_last (w_app w) = last_of l /\
              (l = [] \/ room (w_s w) = 0%nat) /\ txq (w_s w) ++ l.*2 = q /\
              a_curlistsize (w_app w) = past + Z.of_nat (length l);
  fd_flushed : flushed (w_s w);
  fd_user : EvUser ∈ s_set (w_s w);
}.

(** Only sending happens, in order. *)
Definition outgoing w w' : Prop := tx_only w w' /\ fifo w w'.

#[export] Instance outgoing_preorder : PreOrder outgoing.
Proof.
  split; [by intros w|]. intros w1 w2 w3 [T1 F1] [T2 F2]. split; by etrans.
Qed.

Lemma outgoing_side a e w :
  app_log a = app_log (w_app w) -> ev_in (ev_view e) = ev_in (ev_view (w_ev w)) ->
  ev_out (ev_view e) = ev_out (ev_view (w_ev w)) -> outgoing w (w <| w_app := a |> <| w_ev := e |>).
Proof. intros Ha Hi Ho. split; [by apply tx_silent; [split; [split|]|..]|by apply fifo_silent]. Qed.

Lemma outgoing_app a w : app_log a = app_log (w_app w) -> outgoing w (w <| w_app := a |>).
Proof.
  intros Ha. replace (w <| w_app := a |>) with (w <| w_app := a |> <| w_ev := w_ev w |>) by by destruct w.
  by apply outgoing_side.
Qed.

(** Reading state that [do_line] leaves alone. *)
Definition same_input w w' : Prop :=
  a_rbuf (w_app w') = a_rbuf (w_app w) /\ a_stdin (w_app w') = a_stdin (w_app w).

Lemma feeding_app past q w (f : client -> client) :
  feeding past q w -> (forall a, a_asdubuf a = [] -> a_asdubuf (f a) = []) ->
  (forall a, a_nodes (f a) = a_nodes a /\ a_list (f a) = a_list a /\ a_last (f a) = a_last a /\
             a_fresh (f a) = a_fresh a /\ a_curlistsize (f a) = a_curlistsize a) ->
  feeding past q (w <| w_app := f (w_app w) |>).
Proof.
  intros [? ? ? ? (l & [Hc Hn Hf] & Hla & Hr & Hq & Hz) ? ?] Hb Hk. destruct (Hk (w_app w)) as (H1 & H2 & H3 & H4 & H5).
  split; try done; [by apply Hb|]. exists l. split_and!; [|by cbn; rewrite H3|done|done|by cbn; rewrite H5].
  split; cbn; rewrite ?H1, ?H2, ?H4; done.
Qed.

Lemma do_line_wp past q d w :
  feeding past q w -> asdu_ok d ->
  wp (do_line (hex_text d))
    (fun ret w' => ret = false /\ feeding past (q ++ [d]) w' /\ same_input w w' /\ outgoing w w') w.
Proof.
  intros [Hl Hs Hm Ha (l & Hr & Hlast & Hroom & Hq & Hz) Hfl Hu] Hd. unfold do_line, geta, seta. sess_steps.
  rewrite Ha, parse_hex_text by (destruct Hd; cbn; done || lia). cbn [fst snd app andb].
  replace (negb (length d =? 0)%nat) with true
    by (destruct Hd as [_ Hd]; symmetry; apply negb_true_iff, Nat.eqb_neq; lia).
  set (w1 := w <| w_app := _ |>). cbn [andb].
  assert (list_rep (w_app w1) l) as Hr1 by by destruct Hr.
  apply wp_bind, can_send_wp; [done..|].
  rewrite bool_decide_false by by apply hex_text_head.
  change (room (w_s w1)) with (room (w_s w)).
  destruct (Nat.eqb_spec (room (w_s w)) 0) as [H0|H0]; cbn [negb].
  - eapply wp_mono; [by apply (save_wp l d w1)|]. intros [] w2 (Hw2 & Hsv & Hr2). sess_steps.
    unfold saved in Hsv. split_and!; [done| | |].
    + rewrite Hw2. split; try done. exists (l ++ [(a_fresh (w_app w1), d)]). split_and!.
      * by destruct Hr2.
      * cbn. rewrite Hsv, last_of_snoc. done.
      * by right.
      * cbn -[txq]. rewrite fmap_app, app_assoc. by rewrite Hq.
      * cbn. rewrite Hsv, length_app. cbn. rewrite Hz. lia.
    + split; cbn; by rewrite Hsv.
    + transitivity w1; [by apply outgoing_app|]. rewrite Hw2.
      match goal with |- outgoing _ (_ <| w_app := ?a |> <| w_app := ?b |>) => apply (outgoing_app b w1) end.
      unfold app_log, client_log. cbn. by rewrite Hsv.
  - destruct Hroom as [->|]; [|done]. cbn in Hq. rewrite app_nil_r in Hq.
    apply asdu_send_wp; [done..|]. intros w2 Hs2 Happ2 Htx2 Hfi2 Hq2. sess_steps.
    destruct (Hq2 Hm) as [Eq2 Hfl2]. assert (w_live w2 = true) by by apply Htx2. split_and!; [done| | |].
    + split; try done; [by apply Htx2| |by apply (keeps_set _ _ (keeps_keeps_rx _ _ (tx_keeps _ _ Htx2)))].
      exists []. cbn -[txq]. rewrite app_nil_r. split_and!.
      * by rewrite Happ2; destruct Hr1.
      * by rewrite Happ2.
      * by left.
      * by rewrite Eq2, <- Hq.
      * by rewrite Happ2.
    + split; cbn; by rewrite Happ2.
    + transitivity w1; [by apply outgoing_app|]. transitivity w2; [by split|by apply outgoing_app].
Qed.

Lemma do_lines_wp fuel past q ds p w :
  feeding past q w -> Forall asdu_ok ds -> no_nl p -> (length ds <= fuel)%nat ->
  wp (do_lines fuel (enc_all ds ++ p))
     (fun r w' => r = Some p /\ feeding past (q ++ ds) w' /\ same_input w w' /\ outgoing w w') w.
Proof.
  intros Hf Hds Hp. revert fuel q w Hf. induction Hds as [|d ds Hd Hds IH]; intros fuel q w Hf Hfuel.
  - destruct fuel; cbn [do_lines enc_all concat map app]; rewrite split_nl_none by done;
      apply wp_ret; rewrite app_nil_r; by split_and!.
  - assert (enc_all (d :: ds) ++ p = hex_text d ++ ch_nl :: (enc_all ds ++ p)) as ->.
    { unfold enc_all, enc. cbn. by rewrite <- !app_assoc. }
    destruct fuel as [|fuel]; [cbn in Hfuel; lia|]. cbn [do_lines].
    rewrite split_nl_line by by apply hex_text_no_nl, Hd.
    apply wp_bind. eapply wp_mono; [by apply do_line_wp|]. intros ret w1 (-> & Hf1 & Hi1 & Ho1).
    eapply wp_mono; [apply (IH fuel _ w1 Hf1); cbn in Hfuel; lia|].
    intros r w' (-> & Hf' & Hi' & Ho'). rewrite <- app_assoc in Hf'. split_and!; [done|done| |by etrans].
    unfold same_input in *. destruct_and!. split; congruence.
Qed.

(** The end mark ends the reading. *)
Lemma do_mark_wp past q w :
  feeding past q w ->
  wp (do_line [ch_gt]) (fun ret w' => ret = true /\ feeding past q w' /\ a_rbuf (w_app w') = [] /\
    a_stdin (w_app w') = a_stdin (w_app w) /\ a_endmsg (w_app w') = true /\ outgoing w w') w.
Proof.
  intros Hf. unfold do_line, geta, seta. sess_steps. rewrite (fd_asdu _ _ _ Hf). cbn. sess_steps.
  split_and!; [done| |done|done|done|].
  - refine (feeding_app past q w (fun a => a <| a_asdubuf := [] |> <| a_rbuf := [] |> <| a_endmsg := true |>) Hf _ _); done.
  - refine (outgoing_app ((w_app w) <| a_asdubuf := [] |> <| a_rbuf := [] |> <| a_endmsg := true |>) w _). done.
Qed.

Lemma do_lines_mark_wp fuel past q ds w :
  feeding past q w -> Forall asdu_ok ds -> (length ds < fuel)%nat ->
  wp (do_lines fuel (enc_all ds ++ end_mark)) (fun r w' => r = None /\ feeding past (q ++ ds) w' /\
    a_rbuf (w_app w') = [] /\ a_stdin (w_app w') = a_stdin (w_app w) /\ a_endmsg (w_app w') = true /\ outgoing w w') w.
Proof.
  intros Hf Hds. revert fuel q w Hf. induction Hds as [|d ds Hd Hds IH]; intros fuel q w Hf Hfuel;
    (destruct fuel as [|fuel]; [cbn in Hfuel; lia|]); cbn [do_lines].
  - change (split_nl (enc_all [] ++ end_mark)) with (Some ([ch_gt], @nil Z)). cbn beta iota.
    apply wp_bind. eapply wp_mono; [by apply do_mark_wp|]. intros ret w' (-> & H). sess_steps. by rewrite app_nil_r.
  - assert (enc_all (d :: ds) ++ end_mark = hex_text d ++ ch_nl :: (enc_all ds ++ end_mark)) as ->.
    { unfold enc_all, enc. cbn. by rewrite <- !app_assoc. }
    rewrite split_nl_line by by apply hex_text_no_nl, Hd.
    apply wp_bind. eapply wp_mono; [by apply do_line_wp|]. intros ret w1 (-> & Hf1 & [_ Hi1] & Ho1).
    eapply wp_mono; [apply (IH fuel _ w1 Hf1); cbn in Hfuel; lia|].
    intros r w' (-> & Hf' & Hb & Hi' & He & Ho'). rewrite <- app_assoc in Hf'. split_and!; [done..|congruence|done|by etrans].
Qed.

(** The text still to be read. *)
Definition pending_text w : bytes := a_rbuf (w_app w) ++ concat (a_stdin (w_app w)).

Record reading w : Prop := {
  rd_no_nl : no_nl (a_rbuf (w_app w));
  rd_short : (length (a_rbuf (w_app w)) < sizeof_rbuf)%nat;
  rd_chunks : Forall (fun c => c <> []) (a_stdin (w_app w));
}.

(** What has been done with the message [ds], whose text ends with [tl]. *)
Definition fed (past : Z) (q ds : list bytes) (tl : bytes) w w' : Prop :=
  exists ds1 ds2, ds = ds1 ++ ds2 /\ feeding past (q ++ ds1) w' /\ outgoing w w' /\
    ((pending_text w' = enc_all ds2 ++ tl /\ (a_curlistsize (w_app w') = limlistsize \/ (ds2 = [] /\ tl = []))) \/
     (ds2 = [] /\ tl = end_mark /\ pending_text w' = [] /\ a_endmsg (w_app w') = true)).

Lemma read_stdin_wp past q w c cs Q :
  feeding past q w -> reading w -> a_stdin (w_app w) = c :: cs ->
  (forall n x cs', (0 < n)%nat -> feeding past q (w <| w_app := (w_app w) <| a_rbuf := x |> <| a_stdin := cs' |> |>) ->
     x ++ concat cs' = pending_text w -> Forall (fun c => c <> []) cs' ->
     (length (concat cs') + n = length (concat (a_stdin (w_app w))))%nat ->
     Q n (w <| w_app := (w_app w) <| a_rbuf := x |> <| a_stdin := cs' |> |>)) ->
  wp read_stdin Q w.
Proof.
  intros Hf [_ Hshort Hch] Hin HQ. unfold read_stdin, geta, seta. sess_steps. rewrite Hin in *.
  apply Forall_cons_1 in Hch as [Hc Hch]. sess_steps.
  set (n := Nat.min _ _). assert (0 < n <= length c)%nat as Hn.
  { unfold n. destruct c; [done|]. cbn [length]. lia. }
  assert (concat (if (length (drop n c) =? 0)%nat then cs else drop n c :: cs) = drop n c ++ concat cs) as Hcc.
  { destruct (Nat.eqb_spec (length (drop n c)) 0) as [H0|]; [|done].
    by apply length_zero_iff_nil in H0 as ->. }
  apply (HQ n); [lia| | | |].
  - match goal with
    | |- feeding _ _ (_ <| w_app := (_ <| a_rbuf := ?x |>) <| a_stdin := ?c |> |>) =>
        by apply (feeding_app _ _ _ (fun a => a <| a_rbuf := x |> <| a_stdin := c |>))
    end.
  - unfold pending_text. rewrite Hcc, Hin. cbn. by rewrite <- app_assoc, (app_assoc (take n c)), take_drop.
  - destruct (Nat.eqb_spec (length (drop n c)) 0); [done|]. constructor; [|done]. by destruct (drop n c).
  - rewrite Hcc. cbn. rewrite !length_app, length_drop. lia.
Qed.

Lemma stdin_eof past q ds tl w :
  feeding past q w -> reading w -> a_stdin (w_app w) = [] -> tl = [] \/ tl = end_mark ->
  pending_text w = enc_all ds ++ tl -> fed past q ds tl w w.
Proof.
  intros Hf Hr Hin Htl Ht. assert (no_nl (enc_all ds ++ tl)) as Hn.
  { rewrite <- Ht. unfold pending_text. rewrite Hin. cbn. rewrite app_nil_r. apply Hr. }
  assert (ds = [] /\ tl = []) as [-> ->].
  { split; [apply enc_all_no_nl; unfold no_nl in *; set_solver|].
    destruct Htl as [-> | ->]; [done|]. unfold no_nl, end_mark in Hn. set_solver. }
  exists [], []. split_and!; [done|by rewrite app_nil_r|done|]. left. split; [done|by right].
Qed.

Lemma enc_all_length ds x : (length ds <= length (enc_all ds ++ x))%nat.
Proof.
  rewrite length_app. unfold enc_all. induction ds as [|d ds IH]; cbn; [lia|].
  unfold enc in *. rewrite !length_app in *. cbn in *. lia.
Qed.

Lemma stdin_loop_wp fuel past q ds tl w :
  feeding past q w -> reading w -> Forall asdu_ok ds -> tl = [] \/ tl = end_mark -> pending_text w = enc_all ds ++ tl ->
  (length (concat (a_stdin (w_app w))) <= fuel)%nat ->
  wp (stdin_loop fuel) (fun _ w' => fed past q ds tl w w') w.
Proof.
  revert q ds w. induction fuel as [|fuel IH]; intros q ds w Hf Hr Hds Htl Htext Hfuel; cbn [stdin_loop];
    (destruct (a_stdin (w_app w)) as [|c cs] eqn:Hin;
     [unfold read_stdin, geta, seta; sess_steps; rewrite Hin; cbn; sess_steps; by apply stdin_eof|]).
  { pose proof (rd_chunks _ Hr) as Hch. rewrite Hin in Hch. apply Forall_cons_1 in Hch as [Hc _].
    destruct c; [done|]. cbn in Hfuel. lia. }
  apply wp_bind. eapply read_stdin_wp; [done..|]. intros n x cs' Hn Hf1 Htext1 Hch1 Hlen1. rewrite Hin in Hlen1.
  replace (n =? 0)%nat with false by (symmetry; apply Nat.eqb_neq; lia).
  unfold geta, seta. sess_steps. cbn [w_app upd upd_w_app a_rbuf upd_a_rbuf upd_a_stdin].
  rewrite Htext in Htext1. set (w1 := w <| w_app := _ |>) in *.
  assert (outgoing w w1) as Ho1 by by apply outgoing_app.
  destruct (enc_all_prefix ds tl x (concat cs') Hds Htl Htext1) as
    [(ds1 & ds2 & p & -> & -> & Hp & Hpy & Hplen)|(-> & -> & Hcs)].
  2: { eapply wp_mono; [apply do_lines_mark_wp; [done|done|]|].
    { rewrite length_app. pose proof (enc_all_length ds []) as H. rewrite app_nil_r in H. cbn. lia. }
    intros r w2 (-> & Hf2 & Hb2 & Hs2 & He2 & Ho2). sess_steps. exists ds, [].
    split_and!; [by rewrite app_nil_r|done|by etrans|right]. split_and!; [done|done| |done].
    unfold pending_text. rewrite Hb2, Hs2. exact Hcs. }
  apply Forall_app in Hds as [Hds1 Hds2].
  eapply wp_mono; [apply do_lines_wp; [done|done|done|apply enc_all_length]|].
  intros r w2 (-> & Hf2 & [Hi2a Hi2b] & Ho2). cbn in Hi2a, Hi2b. sess_steps.
  replace (length p =? sizeof_rbuf)%nat with false by (symmetry; apply Nat.eqb_neq; lia).
  set (w3 := w2 <| w_app := (w_app w2) <| a_rbuf := p |> |>).
  match goal with |- wp _ _ ?x => change x with w3 end.
  assert (outgoing w w3) as Ho3 by (do 2 (etrans; [eassumption|]); by apply outgoing_app).
  assert (feeding past (q ++ ds1) w3) as Hf3 by (apply (feeding_app _ _ _ (fun a => a <| a_rbuf := p |>)); [done|done|by intros]).
  assert (pending_text w3 = enc_all ds2 ++ tl) as Ht3 by (unfold pending_text; cbn; by rewrite Hi2b).
  destruct (Z.eqb_spec (a_curlistsize (w_app w3)) limlistsize) as [Hlim|Hlim].
  - apply wp_ev; [apply Hf3|]. exists ds1, ds2. split_and!; [done| | |left; split; [done|by left]].
    + destruct Hf3. by split.
    + etrans; [exact Ho3|].
      replace (w3 <| w_ev := event_del EvUser (w_ev w3) |>)
        with (w3 <| w_app := w_app w3 |> <| w_ev := event_del EvUser (w_ev w3) |>) by by destruct w3.
      apply outgoing_side; [done|by rewrite view_del..].
  - eapply wp_mono; [apply (IH (q ++ ds1) ds2 w3)|]; [done| |done|done|done|cbn; rewrite Hi2b; lia|].
    { split; cbn; [done|done|by rewrite Hi2b]. }
    intros [] w' (ds3 & ds4 & -> & Hf' & Ho' & Hend). exists (ds1 ++ ds3), ds4.
    split_and!; [by rewrite <- app_assoc|by rewrite app_assoc|by etrans|done].
Qed.

Lemma stdin_read_wp past q ds tl w :
  feeding past q w -> reading w -> Forall asdu_ok ds -> tl = [] \/ tl = end_mark -> pending_text w = enc_all ds ++ tl ->
  wp stdin_read (fun _ w' => fed past q ds tl w w') w.
Proof. intros Hf Hr Hds Htl Ht. unfold stdin_read, geta. sess_steps. by apply stdin_loop_wp. Qed.

(** C20: Standard input to the link layer, in a session whose waiting list is
    in order ([feeding]: empty unless the send window is full, its last pointer
    valid, no half-read ASDU, [past] ASDUs having waited and been sent before).
    For any stream of ASDU lines, cut into reads in any way, with or without the
    end mark after it, [stdin_read] returns in such a session, and every ASDU is
    either queued behind all earlier ones, sent or waiting, or still unread; it
    stops reading early only when the counted size of the list reaches its
    limit, so that [limlistsize - past] ASDUs wait, and with the end mark the
    message is complete.  Nothing is lost, duplicated or reordered, and the
    frames written meanwhile carry the ASDUs that have been sent, in order.  The
    condition does not hold after a connection has been lost with ASDUs waiting,
    nor after a confirmation, which leaves the last pointer dangling. *)
Theorem stdin_read_fifo past q ds tl w :
  feeding past q w -> reading w -> Forall asdu_ok ds -> tl = [] \/ tl = end_mark -> pending_text w = enc_all ds ++ tl ->
  wp stdin_read (fun _ w' => exists ds1 ds2, ds = ds1 ++ ds2 /\ feeding past (q ++ ds1) w' /\ outgoing w w' /\
    ((pending_text w' = enc_all ds2 ++ tl /\
      ((exists l, list_rep (w_app w') l /\ past + Z.of_nat (length l) = limlistsize /\
                  (l = [] \/ room (w_s w') = 0%nat)) \/ (ds2 = [] /\ tl = []))) \/
     (ds2 = [] /\ tl = end_mark /\ pending_text w' = [] /\ a_endmsg (w_app w') = true))) w.
Proof.
  intros Hf Hr Hds Htl Ht. eapply wp_mono; [by eapply stdin_read_wp|].
  intros [] w' (ds1 & ds2 & -> & Hf' & Ho & Hend). exists ds1, ds2. split_and!; [done..|].
  destruct Hend as [[Hp [Hlim|Hend]]|Hend]; [left|left; split; [done|by right]|by right].
  split; [done|left]. destruct (fd_list _ _ _ Hf') as (l & Hl & _ & Hroom & _ & Hz). exists l.
  split_and!; [done|congruence|done].
Qed.

(** The line that ends a message discards whatever was read after it:
    with the end mark in the buffer, text that arrived in the same read is
    dropped, ASDUs included. *)
Theorem end_mark_drops_rest fuel rest w :
  a_asdubuf (w_app w) = [] ->
  wp (do_lines (S fuel) (ch_gt :: ch_nl :: rest)) (fun r w' =>
    r = None /\ a_rbuf (w_app w') = [] /\ a_endmsg (w_app w') = true /\ w_s w' = w_s w /\
    a_nodes (w_app w') = a_nodes (w_app w)) w.
Proof.
  intros Ha. cbn [do_lines]. change (split_nl (ch_gt :: ch_nl :: rest)) with (Some ([ch_gt], rest)).
  cbn [do_lines]. unfold do_line, geta, seta. sess_steps. rewrite Ha. cbn. sess_steps. done.
Qed.
End stdin.
