(* ===== verification/Samples.v ===== *)
(** * Sample sessions

    Concrete worlds on which the theorems about the link layer and the client
    apply: the reference event library, the client's hooks, a master that has
    been activated, and a few ASDUs. *)

From S2P Require Import Prelude Bits Wire Libevent Session Iecsock Seqnum Trace Transmit Receive Stream.
From S2P Require Import Link Ieclink Client.

(** ** The samples *)
Definition asdu1 : bytes := [100; 1; 6; 0; 1; 0].
Definition asdu2 : bytes := [45; 1; 6; 0; 1; 0; 1].
Definition asdu3 : bytes := [46; 1].

(** A buffer as [iec_asdu_send] prepares it. *)
Definition prepared (d : bytes) : iec_buf :=
  iecsock_prepare_iframe (Build_iec_buf (Z.of_nat (length d)) zero_hdr d).

Definition sample_addr : sockaddr_in := Build_sockaddr_in AF_INET (htons 2404) addr_loopback.

(** An activated master with ASDUs queued. *)
Definition master (q : list iec_buf) : iecsock fptr :=
  (fresh_session 3 sample_addr) <| s_stopdt := false |> <| s_write_q := q |>
    <| s_set := {[ EvUser; EvT0; EvT1; EvT2; EvT3 ]} |>.

Definition sample_world (q : list iec_buf) (input : bytes) (a : client) : world evview client fptr :=
  Build_world _ _ _ (master q) true (ev_fresh <| ev_in := input |> <| ev_open := true |>) a [] (Z.of_nat (length q))
    [] [] false [].

Definition queue2 : list iec_buf := [prepared asdu1; prepared asdu2].

(** The frames a fresh sender puts on the connection for [queue2]. *)
Definition frames2 : list bytes := map apdu_bytes (stamps 0 0 queue2).

Lemma prepared_ok d :
  bool_decide (all_u8 d) = true -> (Z.of_nat (length d) <=? 249) = true -> buf_ok (prepared d).
Proof. intros ?%bool_decide_eq_true ?%Z.leb_le. by apply prepare_buf_ok. Qed.

Lemma queue2_ok : Forall buf_ok queue2.
Proof. apply Forall_cons; split; [by apply prepared_ok|]. apply Forall_singleton. by apply prepared_ok. Qed.

Lemma sess_inv_activate (s : iecsock fptr) b q :
  sess_inv s -> Forall buf_ok q ->
  sess_inv (s <| s_stopdt := b |> <| s_write_q := q |> <| s_set := {[ EvUser; EvT0; EvT1; EvT2; EvT3 ]} |>).
Proof. intros [] Hq. split; cbn; try assumption. split_and!; by apply (bool_decide_unpack _). Qed.

Lemma master_inv q : Forall buf_ok q -> sess_inv (master q).
Proof. apply sess_inv_activate, fresh_session_inv. Qed.

Lemma queue2_inv : sess_inv (master queue2).
Proof. apply master_inv, queue2_ok. Qed.

Lemma idle_inv : sess_inv (master []).
Proof. by apply master_inv. Qed.

Lemma empty_list_rep a : a_nodes a = ∅ -> a_list a = None -> list_rep a [].
Proof.
  intros Hn Hl. split; [done|constructor|]. intros i [x Hx]. rewrite Hn in Hx.
  by rewrite lookup_empty in Hx.
Qed.

Lemma idle_good input : good (sample_world [] input client_init).
Proof.
  split; [done|apply idle_inv| |by intros []; apply (bool_decide_unpack _)]. exists []. by apply empty_list_rep.
Qed.

Lemma frames2_ok : Forall frame_ok frames2 /\ iframes 0 0 frames2 /\ map (drop 6) frames2 = [asdu1; asdu2].
Proof. apply (stamps_frames 0 0 queue2); [apply queue2_ok|lia|lia]. Qed.

(** A frame is well formed as soon as a computation says so. *)
Definition frame_okb (f : bytes) : bool :=
  negb (bad_header (hdr_of_bytes f)) && (Z.of_nat (length f) =? hlength (hdr_of_bytes f) + 2)
  && bool_decide (all_u8 f).
Lemma frame_okb_ok f : frame_okb f = true -> frame_ok f.
Proof. unfold frame_okb. intros H. bool_hyps. by split. Qed.

(** ** Sending *)
Lemma run_write_queue_sends_witness :
  let w := sample_world queue2 [] client_init in
  wp iecsock_run_write_queue (fun _ w' =>
    let n := sends (w_s w) in
    w' = w <| w_s := sent n (w_s w) |> <| w_ev := w_ev w' |> /\
    ev_view (w_ev w') = sent_view n (w_s w) (ev_view (w_ev w)) /\
    sess_inv (w_s w')) w /\ sends (w_s w) = 2%nat.
Proof.
  intros w. split; [|reflexivity].
  exact (run_write_queue_sends w eq_refl queue2_inv).
Defined.

Lemma write_queue_window_witness :
  let w := sample_world queue2 [] client_init in
  wp iecsock_run_write_queue (fun _ w' =>
    0 <= outstanding (w_s w') <= s_k (w_s w) /\
    (bool_decide (s_type (w_s w) = IEC_SLAVE) && s_stopdt (w_s w) = false ->
     s_write_q (w_s w') = [] \/ outstanding (w_s w') = s_k (w_s w))) w.
Proof. intros w. exact (write_queue_window w eq_refl queue2_inv). Defined.

(** A session with two frames sent and the first of them acknowledged. *)
Definition sent2 : iecsock fptr := sent 2 (master queue2).
Definition sent2_world : world evview client fptr :=
  (sample_world queue2 [] client_init) <| w_s := sent2 |>.

Lemma sent2_inv : sess_inv sent2.
Proof.
  assert (sent2 = sent 1 (sent 1 (master queue2))) as -> by reflexivity.
  eapply sess_inv_sent1; [|reflexivity|by vm_compute; lia].
  eapply sess_inv_sent1; [apply queue2_inv|reflexivity|by vm_compute; lia].
Qed.

Lemma ackw_queue_exact_witness :
  let w := sent2_world in
  check_nr (w_s w) 1 = true /\
  wp (iecsock_run_ackw_queue 1) (fun _ w' =>
    let q := s_ackw_q (w_s w') in
    (1 < 32767 -> numbered 1 q (s_vs (w_s w)) /\ Z.of_nat (length q) = sdist 1 (s_vs (w_s w))) /\
    (1 = 32767 -> q = []) /\
    w_bufs w' = w_bufs w - (Z.of_nat (length (s_ackw_q (w_s w))) - Z.of_nat (length q)) /\
    sess_inv (w_s w')) w.
Proof.
  intros w. split; [reflexivity|].
  refine (ackw_queue_exact 1 w eq_refl sent2_inv _ _ _); [lia|reflexivity|vm_compute; by split].
Defined.

(** ** Receiving *)
Definition frame1 : bytes := apdu_bytes (stamp 0 0 (prepared asdu1)).
(** The same frame with another sequence number: refused. *)
Definition frame_late : bytes := apdu_bytes (stamp 0 5 (prepared asdu1)).

Lemma frame_recv_refines_witness :
  let w0 := sample_world [] [] client_init in
  let w := load frame1 (w_ev w0) w0 in
  let h := hdr_of_bytes frame1 in
  wp iecsock_frame_recv (fun r w' =>
    r = (if acceptable (w_s w) h then 0 else -1) /\
    link_of (w_s w') = link_after (w_s w) h /\
    app_log (w_app w') = app_log (w_app w) ++ delivered (w_s w) h /\
    balance w' = balance w + leaked (w_s w) h /\ good w' /\ keeps_rx w w' /\
    emitted (replies (w_s w) h) (counts (w_s w) h) w w') w /\
  acceptable (w_s w) h = true.
Proof.
  intros w0 w h. assert (frame_ok frame1) as Hf by (apply frame_okb_ok; reflexivity).
  split; [|vm_compute; reflexivity]. refine (frame_recv_refines w h _ _ _).
  - apply load_good; [apply idle_good|exact Hf].
  - reflexivity.
  - apply load_has_frame; [apply idle_inv|exact Hf].
Defined.

(** Both ends run: the second application ends up with the two ASDUs. *)
Lemma link_delivers_witness :
  let wa := sample_world queue2 [] client_init in
  wp iecsock_run_write_queue (fun _ wa' =>
    exists out, ev_out (ev_view (w_ev wa')) = out /\
    wp bufreadcb (fun _ wb' =>
      app_log (w_app wb') = [asdu1; asdu2] /\ s_vr (w_s wb') = s_vs (w_s wa'))
      (sample_world [] out client_init)) wa.
Proof.
  intros wa. eapply wp_mono; [exact (link_delivers (App:=client) (F:=fptr) wa eq_refl queue2_inv)|].
  intros [] wa' (out & Ho & Hb). exists out. split; [exact Ho|].
  refine (Hb (sample_world [] out client_init) (idle_good _) eq_refl eq_refl eq_refl eq_refl eq_refl eq_refl).
Defined.

(** ** Opening *)
Lemma connect_outcomes_witness :
  let w := sample_world [] [] client_init in
  let r := hd sys_default (w_sys w) in
  wp (iecsock_connect None) (fun ret w' =>
    (ret = 0 /\ connect_fails r = false /\
     w_closed w' = w_closed w /\
     exists s e, w_spawned w' = w_spawned w ++ [(s, e)] /\ sess_inv s /\ s_sock s = r_socket r /\
       s_addr s = sample_addr /\
       s_type s = IEC_MASTER /\ ev_armed (ev_view e) !! EvT0 = Some (Some DEFAULT_T0))
    \/ (ret = -1 /\ connect_fails r = true /\ w_spawned w' = w_spawned w /\
        w_closed w' = w_closed w ++ (if opened r then [r_socket r] else []))) w.
Proof. intros w. exact (connect_outcomes None w). Defined.

(** ** The faults of the receive loop *)
Lemma refused_frame_use_after_free_witness :
  bufreadcb (sample_world [] (frame_late ++ []) client_init) = Faulted UseAfterFree.
Proof.
  refine (refused_frame_use_after_free frame_late [] _ (idle_good _) eq_refl eq_refl eq_refl _ _).
  - apply frame_okb_ok. reflexivity.
  - vm_compute. reflexivity.
Defined.

Lemma bad_header_use_after_free_witness :
  bufreadcb (sample_world [] [104; 3; 0; 0; 0; 0; 7] client_init) = Faulted UseAfterFree.
Proof.
  refine (bad_header_use_after_free (sample_world [] [104; 3; 0; 0; 0; 0; 7] client_init) eq_refl eq_refl eq_refl _ _); [cbn; lia|reflexivity].
Defined.

Lemma split_header_assertion_witness :
  bufreadcb (sample_world [] (frame1 ++ [104; 14]) client_init) = Faulted AssertFailed.
Proof.
  refine (split_header_assertion frame1 [104; 14] _ (idle_good _) eq_refl eq_refl eq_refl _ _ _).
  - apply frame_okb_ok. reflexivity.
  - vm_compute. reflexivity.
  - cbn. lia.
Defined.

(** ** The client *)
Lemma hex_round_trip_witness :
  exists line rest, split_nl (out_text (OutData asdu2)) = Some (line, rest) /\ rest = [] /\
    parse_pairs line [] = (asdu2, true).
Proof.
  apply hex_round_trip; [apply (bool_decide_unpack _); vm_compute; exact I|vm_compute; lia].
Defined.

(** Two ASDUs waiting, the whole message read. *)
Definition waiting2 : list (nat * bytes) := [(0%nat, asdu1); (1%nat, asdu2)].
Definition waiting_client : client :=
  Build_client [] [] (<[0%nat := Build_asdunode (Some 1%nat) 6 asdu1]>
                      (<[1%nat := Build_asdunode None 7 asdu2]> ∅)) 2 (Some 0%nat) (LastNext 1) 2 true [] [].

Lemma asdu_okb d :
  bool_decide (all_u8 d) = true -> ((0 <? length d) && (length d <=? 249))%nat = true -> asdu_ok d.
Proof.
  intros ?%bool_decide_eq_true [?%Nat.ltb_lt ?%Nat.leb_le]%andb_true_iff.
  split; [done|unfold sizeof_asdubuf; lia].
Qed.

Lemma waiting_rep : list_rep waiting_client waiting2.
Proof.
  split.
  - cbn. split_and!; [done|by apply asdu_okb|]. eexists. split; [reflexivity|].
    split_and!; [done|by apply asdu_okb|]. eexists. split; reflexivity.
  - by apply (bool_decide_unpack _).
  - intros i Hi. cbn in *. rewrite !lookup_insert_is_Some', lookup_empty in Hi.
    destruct Hi as [<-|[<-|[x Hx]]]; [lia|lia|done].
Qed.

Lemma kick_drains_in_order_witness :
  let w := sample_world [] [] waiting_client in
  wp do_kick (fun _ w' => exists l1 l2, waiting2 = l1 ++ l2 /\
    txq (w_s w') = txq (w_s w) ++ l1.*2 /\ list_rep (w_app w') l2 /\
    (l2 = [] \/ room (w_s w') = 0%nat) /\ sess_inv (w_s w') /\
    a_stdout (w_app w') = a_stdout (w_app w) ++
      (if bool_decide (l2 = []) && a_endmsg (w_app w) then [OutMark ch_lt] else [])) w.
Proof. intros w. by apply (kick_drains_in_order waiting2 w eq_refl idle_inv waiting_rep eq_refl). Defined.

(** The waiting list of [waiting_client] is emptied, so the fault is reached. *)
Lemma save_after_confirmation_use_after_free_witness :
  let w := sample_world [] [] waiting_client in
  wp do_kick (fun _ w' => save_asdu asdu3 w' = Faulted UseAfterFree) w.
Proof.
  intros w. eapply wp_mono.
  - apply wp_and.
    + refine (save_after_confirmation_use_after_free waiting2 asdu3 w eq_refl idle_inv waiting_rep
               eq_refl _ eq_refl eq_refl _); [discriminate|done].
    + instantiate (1 := fun _ w' => a_list (w_app w') = None). vm_compute. reflexivity.
  - intros [] w' [H1 H2]. exact (H1 H2).
Defined.

(** A fresh client whose input holds three lines, cut in an awkward place. *)
Definition reading_client : client :=
  let t := enc_all [asdu1; asdu2; asdu3] ++ end_mark in
  client_init <| a_stdin := [take 5 t; drop 5 t] |>.

Lemma reading_client_fed :
  let w := sample_world [] [] reading_client in
  feeding 0 [] w /\ reading w /\ Forall asdu_ok [asdu1; asdu2; asdu3] /\
  pending_text w = enc_all [asdu1; asdu2; asdu3] ++ end_mark.
Proof.
  split_and!; [..|reflexivity].
  - split; [done|apply idle_inv|done|done| |by left|done]. exists [].
    split_and!; [by apply empty_list_rep|done|by left|done|done].
  - split; [by apply (bool_decide_unpack _)|cbn; unfold sizeof_rbuf; lia|].
    repeat (apply Forall_cons; split; [vm_compute; discriminate|]). constructor.
  - repeat (apply Forall_cons; split; [by apply asdu_okb|]). constructor.
Qed.

Lemma stdin_read_fifo_witness :
  let w := sample_world [] [] reading_client in
  wp stdin_read (fun _ w' => exists ds1 ds2,
    [asdu1; asdu2; asdu3] = ds1 ++ ds2 /\ feeding 0 ([] ++ ds1) w' /\ outgoing w w' /\
    ((pending_text w' = enc_all ds2 ++ end_mark /\
      ((exists l, list_rep (w_app w') l /\ 0 + Z.of_nat (length l) = limlistsize /\
                  (l = [] \/ room (w_s w') = 0%nat)) \/ (ds2 = [] /\ end_mark = []))) \/
     (ds2 = [] /\ end_mark = end_mark /\ pending_text w' = [] /\ a_endmsg (w_app w') = true))) w.
Proof.
  intros w. destruct reading_client_fed as (H1 & H2 & H3 & H4).
  exact (stdin_read_fifo 0 [] [asdu1; asdu2; asdu3] end_mark w H1 H2 H3 (or_intror eq_refl) H4).
Defined.

Lemma end_mark_drops_rest_witness :
  wp (do_lines 8 (ch_gt :: ch_nl :: enc asdu1)) (fun r w' =>
    r = None /\ a_rbuf (w_app w') = [] /\ a_endmsg (w_app w') = true /\ w_s w' = master [] /\
    a_nodes (w_app w') = ∅) (sample_world [] [] client_init).
Proof. exact (end_mark_drops_rest 7 (enc asdu1) (sample_world [] [] client_init) eq_refl). Defined.
