(* ===== verification/Server.v ===== *)
(** * The test server

    ieclink/server.c: a program over the link layer that accepts connections,
    takes every ASDU it receives and, one second after the data transfer has
    been activated, sends a three-byte ASDU of its own.  Its hooks implement
    the contract of the link layer, so that what is proved of a session under
    any hooks holds of the server's sessions.  Lines on standard error are not
    modelled. *)

From S2P Require Import Prelude Bits Wire Libevent Session Iecsock Seqnum Trace Transmit Receive Stream Link.

(** The functions a hook pointer of the server can name. *)
Inductive sfptr := timer_send_frame | disconnect_hook | data_received_hook | activation_hook | connect_hook.

(** The ASDUs handed to [data_received_hook]. *)
Record server := { v_received : list bytes }.

#[export] Instance server_log : AppLog server := v_received.

Definition request : bytes := codes "act".

Section server.
Context {E : Type} {L : Libevent E}.
Abbreviation M := (ST (world E server sfptr)).

(** The free window is asked for and the answer not looked at. *)
Definition do_timer_send_frame : M unit :=
  rd iecsock_can_queue;;
  ok ← calloc_buf;
  if negb ok then skip
  else
    let b := Build_iec_buf 3 zero_hdr request in
    wr (fun s => s <| s_write_q := s_write_q s ++ [iecsock_prepare_iframe b] |>);;
    iecsock_run_write_queue.

Definition do_data_received (b : iec_buf) : M unit :=
  modify (fun w => w <| w_app := Build_server (v_received (w_app w) ++ [take (Z.to_nat (data_len b)) (bdata b)]) |>);;
  free_buf.

Definition do_activation : M unit :=
  iecsock_user_timer_set (Some timer_send_frame);; iecsock_user_timer_start 1.

Definition do_disconnect (reason : Z) : M unit := skip.
Definition do_connect : M unit := skip.
End server.

#[export] Instance server_hooks {E} {L : Libevent E} : HookCode E server sfptr := {|
  default_hooks := {|
    connect_indication := Some connect_hook;
    activation_indication := Some activation_hook;
    deactivation_indication := None;
    disconnect_indication := Some disconnect_hook;
    data_indication := Some data_received_hook;
    transmit_wakeup := None;
  |};
  run_hook f :=
    match f with
    | connect_hook => do_connect
    | activation_hook => do_activation
    | timer_send_frame => do_timer_send_frame
    | disconnect_hook | data_received_hook => skip
    end;
  run_hook_reason f reason := match f with disconnect_hook => do_disconnect reason | _ => skip end;
  run_hook_data _ b := do_data_received b;
|}.

(** [main]: listen on the default address; the result is not looked at. *)
Definition main {E} {L : Libevent E} : ST (world E server sfptr) unit := iecsock_listen None;; skip.

(** ** Properties *)
Section claims.
Context {E : Type} {L : Libevent E} {LL : LibeventLaws E}.
Implicit Types w : world E server sfptr.

Lemma send_frame_wp w (Q : unit -> world E server sfptr -> Prop) :
  w_live w = true -> sess_inv (w_s w) ->
  (forall w', sess_inv (w_s w') -> w_app w' = w_app w -> tx_only w w' ->
     (w_mem w = [] -> txq (w_s w') = txq (w_s w) ++ [request]) ->
     (forall i, i <> EvT1 -> ev_armed (ev_view (w_ev w')) !! i = ev_armed (ev_view (w_ev w)) !! i) -> Q tt w') ->
  wp do_timer_send_frame Q w.
Proof.
  intros Hl Hs HQ. unfold do_timer_send_frame. sess_step. sess_step. apply wp_bind, calloc_buf_push; [done|done| |].
  - intros m Hm. cbn [negb]. change 3 with (Z.of_nat (length request)).
    apply push_run_wp; [done|done|done| |unfold IEC104_ASDU_MAX; cbn; lia|].
    + apply (bool_decide_unpack _). by vm_compute.
    + intros w' ? ? ? ? _ _ ?. by apply HQ.
  - intros m Hm Htx. cbn [negb]. sess_step. apply HQ; [done|done|done| |done]. intros Em. by rewrite Em in Hm.
Qed.

Lemma activation_wp w (Q : unit -> world E server sfptr -> Prop) :
  w_live w = true -> sess_inv (w_s w) ->
  (forall e, ev_in (ev_view e) = ev_in (ev_view (w_ev w)) /\ ev_out (ev_view e) = ev_out (ev_view (w_ev w)) ->
     ev_armed (ev_view e) !! EvUser = Some (Some 1) ->
     Q tt (w <| w_s := (w_s w) <| s_usercb := Some timer_send_frame |> <| s_set := {[ EvUser ]} ∪ s_set (w_s w) |> |>
             <| w_ev := e |>)) ->
  wp do_activation Q w.
Proof.
  intros Hl Hs HQ. unfold do_activation, iecsock_user_timer_set, iecsock_user_timer_start. sess_steps. cbn.
  destruct (view_set EvUser (w_ev w)) as (a & Ea & _). unfold ev_initialized. sess_steps. cbn.
  rewrite bool_decide_true by (by apply elem_of_union_l, elem_of_singleton). cbn. sess_steps. cbn. apply HQ; rewrite view_add; cbn.
  - by rewrite Ea.
  - apply lookup_insert_eq.
Qed.

Lemma sess_inv_usercb (s : iecsock sfptr) f :
  sess_inv s -> sess_inv (s <| s_usercb := Some f |> <| s_set := {[ EvUser ]} ∪ s_set s |>).
Proof.
  intros [? ? ? ? ? ? ? ? ? ? ? (H1 & H2 & H3)]. split; cbn; try assumption.
  by split_and!; apply elem_of_union_r.
Qed.

(** The server's hooks keep the contract the link layer relies on. *)
#[export] Instance server_hook_spec : HookSpec E server sfptr.
Proof.
  refine {| app_inv := fun _ => True; hook_needs := fun _ => ∅ |}.
  - intros f w Hl Hs _ _. destruct f; cbn [run_hook server_hooks]; try (apply wp_ret; split_and!; [done|done|reflexivity]).
    + apply send_frame_wp; [done|done|]. by intros w' ? _ ? _ _.
    + apply activation_wp; [done|done|]. intros e [Ein Eout] _. split_and!; [by apply sess_inv_usercb|done|].
      apply tx_silent; [split; [split|]|..]; try done. cbn. set_solver.
  - intros f z w Hl Hs _. destruct f; apply wp_ret; (split_and!; [done|done|reflexivity]).
  - intros f b w Hl Hs _. cbn [run_hook_data server_hooks]. unfold do_data_received, free_buf. sess_steps.
    split_and!; [done|done|by split|done|done|unfold balance; cbn; lia|by apply emitted_silent].
  - by eexists.
Defined.

(** The server sends one ASDU per activation: activation schedules the user's
    timer for one second; when it expires, its event being taken off the
    schedule, the request goes into the link layer's hands behind everything
    queued before, the session stays consistent, and the timer is not
    scheduled again. *)
Theorem server_sends_once w :
  w_live w = true -> sess_inv (w_s w) -> w_mem w = [] ->
  wp do_activation (fun _ w1 =>
    ev_armed (ev_view (w_ev w1)) !! EvUser = Some (Some 1) /\
    wp iecsock_user_timer_run (fun _ w2 =>
      txq (w_s w2) = txq (w_s w) ++ [request] /\ sess_inv (w_s w2) /\
      ev_armed (ev_view (w_ev w2)) !! EvUser = None)
      (w1 <| w_ev := event_del EvUser (w_ev w1) |>)) w.
Proof.
  intros Hl Hs Hm. apply activation_wp; [done|done|]. intros e _ Ha. split; [exact Ha|].
  unfold iecsock_user_timer_run. sess_steps. cbn [run_hook server_hooks].
  change (wp do_timer_send_frame (fun _ w2 => txq (w_s w2) = txq (w_s w) ++ [request] /\ sess_inv (w_s w2) /\
    ev_armed (ev_view (w_ev w2)) !! EvUser = None)
    (w <| w_s := (w_s w) <| s_usercb := Some timer_send_frame |> <| s_set := {[ EvUser ]} ∪ s_set (w_s w) |> |>
       <| w_ev := event_del EvUser e |>)).
  apply send_frame_wp; [done|by apply sess_inv_usercb|].
  intros w' Hs' _ _ Hq He. split_and!; [by apply Hq|done|]. rewrite He by done. cbn. rewrite view_del. cbn.
  apply lookup_delete_eq.
Qed.
End claims.

(** A session accepted by the server and activated. *)
Definition sample_server : world evview server sfptr :=
  Build_world _ _ _ ((fresh_session 5 (Build_sockaddr_in AF_INET 0 0)) <| s_stopdt := false |>)
    true (ev_fresh <| ev_open := true |>) (Build_server []) [] 0 [] [] true [].

Lemma sample_server_inv : sess_inv (w_s sample_server).
Proof.
  pose proof (fresh_session_inv (F:=sfptr) 5 (Build_sockaddr_in AF_INET 0 0)) as Hi. unfold sample_server. cbn [w_s].
  revert Hi. generalize (fresh_session (F:=sfptr) 5 (Build_sockaddr_in AF_INET 0 0)). intros s []. by split.
Qed.

Lemma server_sends_once_witness :
  wp do_activation (fun _ w1 =>
    ev_armed (ev_view (w_ev w1)) !! EvUser = Some (Some 1) /\
    wp iecsock_user_timer_run (fun _ w2 =>
      txq (w_s w2) = txq (w_s sample_server) ++ [request] /\ sess_inv (w_s w2) /\
      ev_armed (ev_view (w_ev w2)) !! EvUser = None)
      (w1 <| w_ev := event_del EvUser (w_ev w1) |>)) sample_server.
Proof. apply (server_sends_once sample_server); [reflexivity|exact sample_server_inv|reflexivity]. Defined.
