(* ===== verification/Station.v ===== *)
(** * One session of a connection

    A station is a session together with the history of the connection: what
    it has done, what the other end has done, and how much of it each has read.
    Every frame of the other end it has still to read is in order for it, and
    stays so whatever the two do: their programs send, their timers T2 and T3
    expire, frames that have arrived are read. *)

From S2P Require Import Prelude Bits Wire Libevent Session Iecsock Seqnum Trace Transmit Receive Stream Link.

#[local] Arguments take : simpl never.
#[local] Arguments drop : simpl never.
#[local] Arguments hdr_of_bytes : simpl never.

(** ** Counting *)
Definition cnt (u : uframe_fn) (l : list uframe_fn) : Z := Z.of_nat (length (filter (fun x => x = u) l)).
Definition b2z (b : bool) : Z := if b then 1 else 0.

Lemma cnt_app u l l' : cnt u (l ++ l') = cnt u l + cnt u l'.
Proof. unfold cnt. rewrite filter_app, length_app. lia. Qed.

Lemma cnt_cons u x l : cnt u (x :: l) = (if decide (x = u) then 1 else 0) + cnt u l.
Proof. unfold cnt. rewrite filter_cons. destruct (decide (x = u)); cbn; lia. Qed.

Lemma cnt_nil u : cnt u [] = 0.
Proof. done. Qed.

Ltac count := rewrite ?cnt_app, ?cnt_cons, ?cnt_nil in *; repeat case_decide; try done; cbn [b2z] in *; try lia.

Lemma cnt_nonneg u l : 0 <= cnt u l.
Proof. unfold cnt. lia. Qed.

Lemma sdist_mod a b : 0 <= b - a < 32767 -> sdist (a mod 32767) (b mod 32767) = b - a.
Proof. intros H. unfold sdist. rewrite <- Zminus_mod. by apply Z.mod_small. Qed.

Lemma nI_take_le n fs : nI (take n fs) <= nI fs.
Proof.
  pose proof (take_drop n fs) as E. apply (f_equal nI) in E. rewrite nI_app in E.
  pose proof (nI_nonneg (drop n fs)). lia.
Qed.

(** Only test frames, once data transfer has started. *)
Definition tests_only (fs : list bytes) : Prop := Forall (fun u => u = TESTACT \/ u = TESTCON) (us fs).

(** ** One station *)
Section station.
Context {E App F : Type} {L : Libevent E} {LL : LibeventLaws E}.
Context {AL : AppLog App} {HC : HookCode E App F} {HS : HookSpec E App F}.
Implicit Types (w : world E App F) (mine peer tr : list tev).

(** It counts from [vs0] and [vr0]; the log was [log0] and the output [out0].
    [mine] is what it has done since, [peer] what the other one has done, of
    whose frames it has read [p]; the other one has read [q] of its own. *)
Context (vs0 vr0 : Z) (log0 : list bytes) (out0 : bytes).

(** The peer has acknowledged the frames before number [a]; whatever it sends
    from now on acknowledges at least those. *)
Record acked_to (a : Z) (va : Z) peer (p : nat) : Prop := {
  ak_va : va = a mod 32767;
  ak_max : a <= vs0 + rxi peer;
  ak_rest : Forall (fun m => a <= mk_nr m) (drop p (marks vr0 vs0 peer));
}.

Record station w mine peer (p q : nat) : Prop := {
  st_good : good w;
  st_mem : w_mem w = [];
  st_left : s_left (w_s w) = 0;
  st_active : inactive (w_s w) = false;
  st_out : ev_out (ev_view (w_ev w)) = out0 ++ concat (txs mine);
  st_traced : traced vs0 vr0 mine;
  st_vs : s_vs (w_s w) = (vs0 + nI (txs mine)) mod 32767;
  st_vr : s_vr (w_s w) = (vr0 + rxi mine) mod 32767;
  st_us : tests_only (txs mine);
  st_p : (p <= length (txs peer))%nat;
  st_q : (q <= length (txs mine))%nat;
  st_rx : rxi mine = nI (take p (txs peer));
  st_log : app_log (w_app w) = log0 ++ payloads (take p (txs peer));
  st_acked : exists a, acked_to a (s_va (w_s w)) peer p /\ outstanding (w_s w) = vs0 + nI (txs mine) - a;
  st_tests : cnt TESTACT (us (drop q (txs mine))) + cnt TESTCON (us (drop p (txs peer))) = b2z (s_testfr (w_s w));
}.

(** What happens to a station in one step: it reads [fs], does [tr], and has
    been acknowledged up to [a]. *)
Lemma station_step w w' mine peer p q tr fs rest a :
  station w mine peer p q -> emits w w' tr ->
  good w' -> w_mem w' = [] -> s_left (w_s w') = 0 -> inactive (w_s w') = false ->
  drop p (txs peer) = fs ++ rest -> rxi tr = nI fs -> app_log (w_app w') = app_log (w_app w) ++ payloads fs ->
  tests_only (txs tr) ->
  acked_to a (s_va (w_s w')) peer (p + length fs) -> sdist (s_va (w_s w')) (s_vs (w_s w)) = vs0 + nI (txs mine) - a ->
  cnt TESTACT (us (drop q (txs mine)) ++ us (txs tr)) + cnt TESTCON (us rest) = b2z (s_testfr (w_s w')) ->
  station w' (mine ++ tr) peer (p + length fs) q.
Proof.
  intros [Hg Hm Hlf Hac Ho Ht Hs Hr Hu Hp Hq Hrx Hlog Hak Hte] [Eo Ec Ew] Hg' Hm' Hl' Ha' Hfs Hn Hlog' Hu' Hak' Hwin Hte'.
  destruct (Ec _ _ Hs Hr) as (Ht' & Hs' & Hr').
  assert (take (p + length fs) (txs peer) = take p (txs peer) ++ fs) as Etake.
  { rewrite <- (take_drop p (txs peer)) at 1. rewrite Hfs, app_assoc.
    apply take_app_length'. rewrite length_app, length_take. lia. }
  assert (drop (p + length fs) (txs peer) = rest) as Edrop.
  { rewrite <- drop_drop, Hfs. by apply drop_app_length'. }
  split; try done; rewrite ?txs_app, ?nI_app, ?rxi_app, ?Z.add_assoc.
  - rewrite Eo, Ho, concat_app. by rewrite app_assoc.
  - rewrite traced_app. done.
  - done.
  - done.
  - unfold tests_only. rewrite us_app. by apply Forall_app.
  - pose proof (f_equal length Hfs) as El. rewrite length_drop, length_app in El. lia.
  - rewrite length_app. lia.
  - rewrite Etake, nI_app, Hrx, Hn. done.
  - rewrite Etake, payloads_app, Hlog', Hlog. by rewrite app_assoc.
  - exists a. split; [done|]. unfold outstanding. rewrite Ew, Hwin. lia.
  - rewrite drop_app_le, us_app, Edrop by lia. done.
Qed.

(** The other station has done [tr'], and read more of what this one sent. *)
Lemma station_peer w mine peer p q q' tr' :
  station w mine peer p q -> (q' <= length (txs mine))%nat ->
  cnt TESTACT (us (drop q' (txs mine))) + cnt TESTCON (us (txs tr'))
    = cnt TESTACT (us (drop q (txs mine))) ->
  station w mine (peer ++ tr') p q'.
Proof.
  intros [Hg Hm Hlf Hac Ho Ht Hs Hr Hu Hp Hq Hrx Hlog (a & [A1 A2 A3] & Hw) Hte] Hq' Hte'.
  split; try done; rewrite ?txs_app, ?take_app_le, ?length_app by lia; try done.
  - lia.
  - exists a. split; [|done]. split; [done|rewrite rxi_app; pose proof (rxi_nonneg tr'); lia|].
    rewrite marks_app. assert (p <= length (marks vr0 vs0 peer))%nat as Hp2.
    { rewrite <- (length_map mk_f), marks_frames. done. }
    rewrite drop_app_le by done. apply Forall_app. split; [done|].
    eapply Forall_impl; [apply marks_nr|]. intros m Hm'. cbv beta in *. lia.
  - rewrite drop_app_le, us_app, cnt_app by lia. lia.
Qed.

(** It has written without reading. *)
Lemma station_writes w w' mine peer p q fns :
  station w mine peer p q -> good w' -> keeps w w' -> emitted fns 0 w w' ->
  s_va (w_s w') = s_va (w_s w) -> s_stopdt (w_s w') = s_stopdt (w_s w) ->
  Forall (fun u => u = TESTACT \/ u = TESTCON) fns ->
  b2z (s_testfr (w_s w)) + cnt TESTACT fns = b2z (s_testfr (w_s w')) ->
  exists tr, station w' (mine ++ tr) peer p q /\ us (txs tr) = fns.
Proof.
  intros Hst Hg' [Hk Hlog] (tr & He & Hus & Hn) Eva Esd Hfns Hc. exists tr. split; [|done].
  destruct (Hst) as [_ Hm Hlf Hac _ _ _ _ _ _ _ _ _ (a & Hak & Hw) Hte].
  replace p with (p + length (@nil bytes))%nat by (cbn; lia).
  eapply (station_step w w' mine peer p q tr [] (drop p (txs peer)) a); try done.
  - by apply (keeps_mem _ _ Hk).
  - pose proof (keeps_buf _ _ Hk) as Eb. by injection Eb as _ _ ->.
  - rewrite <- Hac. unfold inactive. by rewrite (keeps_type _ _ Hk), Esd.
  - by rewrite Hlog, app_nil_r.
  - unfold tests_only. by rewrite Hus.
  - cbn [length]. rewrite Nat.add_0_r, Eva. done.
  - rewrite Eva. exact Hw.
  - rewrite Hus, cnt_app. lia.
Qed.

(** A program that only sends. *)
Lemma station_sends w w' mine peer p q :
  station w mine peer p q -> good w' -> tx_only w w' ->
  exists tr, station w' (mine ++ tr) peer p q /\ us (txs tr) = [].
Proof.
  intros Hst Hg' [Hk Hl Hb He]. destruct (link_fields _ _ Hl) as (Hva & _ & _ & Hsd & Htf).
  eapply station_writes; [done..|]. rewrite Htf. count.
Qed.

(** ** Reading *)

(** What is known of the other station. *)
Record heard mine peer (q : nat) : Prop := {
  hd_traced : traced vr0 vs0 peer;
  hd_rx : rxi peer = nI (take q (txs mine));
  hd_us : tests_only (txs peer);
}.

Lemma heard_app mine peer q tr : (q <= length (txs mine))%nat -> heard mine peer q -> heard (mine ++ tr) peer q.
Proof. intros Hq [H1 H2 H3]. split; [done| |done]. by rewrite txs_app, take_app_le. Qed.

(** The next frame to read, with the counts it was sent with. *)
Lemma next_mark peer p f rest :
  traced vr0 vs0 peer -> drop p (txs peer) = f :: rest ->
  exists m ms, drop p (marks vr0 vs0 peer) = m :: ms /\ mk_f m = f /\ mark_ok m /\
    mk_ns m = vr0 + nI (take p (txs peer)) /\ mk_nr m <= vs0 + rxi peer /\
    Forall (fun m' => mk_nr m <= mk_nr m') ms.
Proof.
  intros Ht Hd. pose proof (marks_frames vr0 vs0 peer) as Em. rewrite <- Em in Hd |- *.
  rewrite skipn_map in Hd. destruct (drop p (marks vr0 vs0 peer)) as [|m ms] eqn:Edr; [done|].
  injection Hd as Hf Hd. exists m, ms.
  assert (marks vr0 vs0 peer = take p (marks vr0 vs0 peer) ++ m :: ms) as Esp by by rewrite <- Edr, take_drop.
  assert (m ∈ marks vr0 vs0 peer) as Hin by (rewrite Esp; set_solver).
  split_and!; [done|done| | | |by eapply marks_nr_mono].
  - by eapply (proj1 (Forall_forall _ _) Ht).
  - rewrite firstn_map. by eapply marks_ns.
  - by apply (proj1 (Forall_forall _ _) (marks_nr vr0 vs0 peer) m).
Qed.

(** A number the peer has counted acknowledges frames that are outstanding. *)
Lemma ack_in_window w mine peer p q a nr :
  station w mine peer p q -> heard mine peer q ->
  acked_to a (s_va (w_s w)) peer p -> outstanding (w_s w) = vs0 + nI (txs mine) - a ->
  a <= nr <= vs0 + rxi peer ->
  acknowledges (w_s w) (nr mod 32767) = true /\
  sdist (nr mod 32767) (s_vs (w_s w)) = vs0 + nI (txs mine) - nr.
Proof.
  intros Hst [_ Hrx _] [Hva _ _] Hw Hnr. pose proof (nI_take_le q (txs mine)).
  pose proof (st_good _ _ _ _ _ Hst) as [_ Hi _]. pose proof (inv_window _ Hi). pose proof (inv_k _ Hi).
  unfold acknowledges. rewrite Hva, (st_vs _ _ _ _ _ Hst), !sdist_mod by lia. split; [|lia].
  apply Z.leb_le. lia.
Qed.

(** A U-frame on its way is a test; a confirmation is waited for. *)
Lemma next_test w mine peer p q f rest :
  station w mine peer p q -> heard mine peer q -> drop p (txs peer) = f :: rest -> type_of f = FRAME_TYPE_U ->
  let u := uframe_func (hdr_of_bytes f) in u_acceptable (w_s w) u = true /\ (u = TESTACT \/ u = TESTCON).
Proof.
  intros Hst Hhd Hd Hty u.
  assert (us (drop p (txs peer)) = u :: us rest) as Eu by by (rewrite Hd; unfold us; cbn; rewrite Hty).
  assert (u = TESTACT \/ u = TESTCON) as Hu.
  { pose proof (hd_us _ _ _ Hhd) as Hall. unfold tests_only in Hall.
    rewrite <- (take_drop p (txs peer)), us_app, Eu in Hall. by apply Forall_app in Hall as [_ [? _]%Forall_cons_1]. }
  split; [|done]. destruct Hu as [-> | Hu]; [done|]. rewrite Hu.
  pose proof (st_tests _ _ _ _ _ Hst) as Ht. rewrite Eu, cnt_cons, Hu, decide_True in Ht by done.
  pose proof (cnt_nonneg TESTACT (us (drop q (txs mine)))). pose proof (cnt_nonneg TESTCON (us rest)).
  destruct (s_testfr (w_s w)) eqn:Etf; [done|]. unfold b2z in Ht. lia.
Qed.

(** The next frame is in order, whatever it is, and acknowledges what the peer
    had received when it was sent. *)
Lemma next_in_order w mine peer p q f rest :
  station w mine peer p q -> heard mine peer q -> drop p (txs peer) = f :: rest ->
  let h := hdr_of_bytes f in
  frame_ok f /\ acceptable (w_s w) h = true /\
  exists a, acked_to a (l_va (link_after (w_s w) h)) peer (p + 1) /\
    sdist (l_va (link_after (w_s w) h)) (s_vs (w_s w)) = vs0 + nI (txs mine) - a.
Proof.
  intros Hst Hhd Hd h. destruct (st_acked _ _ _ _ _ Hst) as (a & Hak & Hw).
  destruct (next_mark peer p f rest (hd_traced _ _ _ Hhd) Hd) as (m & ms & Edr & <- & [Hf Hm] & Hns & Hmax & Hmono).
  pose proof (ak_rest _ _ _ _ Hak) as Hrest. rewrite Edr in Hrest. apply Forall_cons_1 in Hrest as [Ham Hams].
  assert (drop (p + 1) (marks vr0 vs0 peer) = ms) as Edr1 by by rewrite <- drop_drop, Edr.
  destruct (ack_in_window w mine peer p q a (mk_nr m)) as [Hack Hdist]; [done..|lia|].
  assert (acked_to (mk_nr m) (mk_nr m mod 32767) peer (p + 1)) as Hak1 by by split; [|lia|rewrite Edr1].
  split; [done|]. fold h in Hm. cbv zeta in Hm. unfold acceptable, link_after. rewrite (st_active _ _ _ _ _ Hst).
  destruct (frame_type h) eqn:Hft.
  - destruct Hm as [Hms Hmr]. rewrite Hmr, Hack.
    assert (expected (w_s w) (ic_ns h) = true) as Hex.
    { apply bool_decide_true. rewrite Hms, Hns, (st_vr _ _ _ _ _ Hst). by rewrite (st_rx _ _ _ _ _ Hst). }
    rewrite Hex. split; [done|]. exists (mk_nr m). done.
  - rewrite Hm, Hack. split; [done|]. by exists (mk_nr m).
  - destruct (next_test w mine peer p q (mk_f m) rest) as [Hua Hu]; [done..|]. fold h in Hua, Hu.
    rewrite Hua. split; [done|]. exists a.
    assert (acked_to a (s_va (w_s w)) peer (p + 1)) by by split; [apply Hak|apply Hak|rewrite Edr1].
    by destruct Hu as [-> | ->].
Qed.

(** What the frame does: its data is delivered and counted, a test is
    answered, and a confirmation ends the test. *)
Lemma next_effects w mine peer p q f rest e :
  station w mine peer p q -> heard mine peer q -> drop p (txs peer) = f :: rest ->
  let h := hdr_of_bytes f in let s := w_s (load f e w) in
  delivered s h = payloads [f] /\ counts s h = nI [f] /\ Forall (fun u => u = TESTACT \/ u = TESTCON) (replies s h) /\
  l_stopdt (link_after (w_s w) h) = s_stopdt (w_s w) /\
  cnt TESTCON (replies s h) + cnt TESTACT (us rest) = cnt TESTACT (us (f :: rest)) /\
  cnt TESTACT (us (drop q (txs mine)) ++ replies s h) + cnt TESTCON (us rest)
    = b2z (l_testfr (link_after (w_s w) h)).
Proof.
  intros Hst Hhd Hd h s. destruct (next_in_order w mine peer p q f rest) as (Hf & Hacc & _); [done..|].
  pose proof (next_test w mine peer p q f rest Hst Hhd Hd) as Htest. fold h in Hacc, Htest.
  destruct (load_has_frame f e w ltac:(apply Hst) Hf) as [_ Hdata]. fold s in Hdata.
  pose proof (st_tests _ _ _ _ _ Hst) as Ht. rewrite Hd in Ht. pose proof (st_active _ _ _ _ _ Hst) as Hact.
  assert (acceptable s h = true) as Hacc' by exact Hacc. assert (inactive s = false) as Hact' by exact Hact.
  assert (u_acceptable s = u_acceptable (w_s w)) as Eua by done. clearbody s.
  unfold delivered, counts, replies. rewrite Hacc', Hact', Eua. cbn [negb andb]. rewrite Hdata.
  unfold type_of in Htest. fold h in Htest.
  assert (forall l, us (f :: l) = match frame_type h with FRAME_TYPE_U => uframe_func h :: us l | _ => us l end) as Eus.
  { intros l. unfold us, type_of. cbn. fold h. by destruct (frame_type h). }
  rewrite Eus in *. unfold payloads, nI, isI, type_of, link_after. cbn. fold h.
  unfold acceptable, link_after in *. rewrite Hact in *. cbn [orb] in *.
  destruct (frame_type h) eqn:Hft; cbn [negb]; rewrite ?app_nil_r.
  - apply andb_prop in Hacc as [-> ->]. by split_and!.
  - rewrite Hacc. by split_and!.
  - destruct (Htest eq_refl) as [Hua Hu]. rewrite Hua. cbn [negb].
    destruct Hu as [Hu | Hu]; rewrite Hu in *; cbn [u_acceptable link_of l_stopdt l_testfr] in *.
    + split_and!; [done|done|by repeat constructor|done|count..].
    + rewrite Hua in Ht. split_and!; [done|done|constructor|done|count..].
Qed.
(** One frame is read: it is accepted, its data is delivered, a test is
    answered. *)
Lemma reads_one w mine peer p q f rest e z inp :
  station w mine peer p q -> heard mine peer q -> drop p (txs peer) = f :: rest ->
  ev_view e = (ev_view (w_ev w)) <| ev_in := inp |> <| ev_wm := z |> ->
  wp iecsock_frame_recv (fun r w' => r = 0 /\ w_live w' = true /\ ev_in (ev_view (w_ev w')) = inp /\
    exists tr, station (rx_reset w') (mine ++ tr) peer (p + 1) q /\
      cnt TESTCON (us (txs tr)) + cnt TESTACT (us rest) = cnt TESTACT (us (f :: rest))) (load f e w).
Proof.
  intros Hst Hhd Hd He. pose proof (st_good _ _ _ _ _ Hst) as Hg.
  destruct (next_in_order w mine peer p q f rest) as (Hf & Hacc & a & Hak & Hwin); [done..|].
  destruct (load_has_frame f e w ltac:(apply Hg) Hf) as [Hhf Hdata].
  pose proof (load_good f e w Hg Hf) as Hg1.
  eapply wp_mono; [apply frame_recv_wp; [done|apply Hst|done]|].
  change (acceptable (w_s (load f e w))) with (acceptable (w_s w)). rewrite Hacc.
  change (link_after (w_s (load f e w))) with (link_after (w_s w)).
  intros r w' (-> & Hl' & Hlog' & _ & Hg' & Hk' & (tr & Hem & Hus & Hn)).
  split_and!; [done|apply Hg'|rewrite (keeps_in _ _ Hk'); cbn; by rewrite He|].
  destruct (next_effects w mine peer p q f rest e) as (Ed & Ec & Hr & Esd & Et1 & Et2); [done..|].
  rewrite <- Hus in *. rewrite Ed in Hlog'. rewrite Ec in Hn.
  pose proof (f_equal l_va Hl') as Eva. pose proof (f_equal l_stopdt Hl') as Esd'. pose proof (f_equal l_testfr Hl') as Etf.
  exists tr. split; [|done]. rewrite <- Eva in *. rewrite <- Etf in Et2. rewrite Esd in Esd'.
  eapply (station_step w (rx_reset w') mine peer p q tr [f] rest a); try done.
  - destruct Hem as [Eo Ecn Ew]. split; [|exact Ecn|exact Ew].
    cbn. rewrite view_setwatermark. cbn. rewrite Eo. cbn. by rewrite He.
  - by apply rx_reset_good.
  - apply (keeps_mem _ _ Hk'). apply Hst.
  - rewrite <- (st_active _ _ _ _ _ Hst). unfold inactive. cbn in *. by rewrite Esd', (keeps_type _ _ Hk').
Qed.

(** Between two frames of a batch: [fs] are still to be read. *)
Definition reading mine peer p q rest (fs : list bytes) w : Prop := exists tr n,
  station w (mine ++ tr) peer (p + n) q /\ drop (p + n) (txs peer) = fs ++ rest /\
  cnt TESTCON (us (txs tr)) + cnt TESTACT (us (fs ++ rest)) = cnt TESTACT (us (drop p (txs peer))).

Lemma reading_step mine peer p q rest f fs w e z :
  (q <= length (txs mine))%nat -> heard mine peer q -> reading mine peer p q rest (f :: fs) w ->
  ev_view e = (ev_view (w_ev w)) <| ev_in := concat fs |> <| ev_wm := z |> ->
  wp iecsock_frame_recv (fun r w' => r = 0 /\ w_live w' = true /\ reading mine peer p q rest fs (rx_reset w') /\
                                     ev_in (ev_view (w_ev w')) = concat fs) (load f e w).
Proof.
  intros Hq Hhd (tr & n & Hst & Hd & Ht) He. change ((f :: fs) ++ rest) with (f :: (fs ++ rest)) in Hd, Ht.
  eapply wp_mono; [eapply reads_one; [done|by apply heard_app|exact Hd|exact He]|].
  intros r w' (-> & Hl & Hin & tr' & Hst' & Ht'). split_and!; [done|done| |done].
  exists (tr ++ tr'), (n + 1)%nat. rewrite app_assoc, Nat.add_assoc. split_and!; [done| |].
  - by rewrite <- drop_drop, Hd.
  - rewrite txs_app, us_app, cnt_app. lia.
Qed.

(** Everything of a batch is read. *)
Lemma reads_batch w mine peer p q fs rest :
  station w mine peer p q -> heard mine peer q -> drop p (txs peer) = fs ++ rest ->
  ev_in (ev_view (w_ev w)) = concat fs ->
  wp bufreadcb (fun _ w' => ev_in (ev_view (w_ev w')) = [] /\
    exists tr, station w' (mine ++ tr) peer (p + length fs) q /\
      cnt TESTACT (us rest) + cnt TESTCON (us (txs tr)) = cnt TESTACT (us (drop p (txs peer)))) w.
Proof.
  intros Hst Hhd Hd Hin. pose proof (st_p _ _ _ _ _ Hst) as Hp. pose proof (st_q _ _ _ _ _ Hst) as Hq.
  unfold bufreadcb. apply wp_bind, wp_evq; [apply Hst|].
  eapply wp_mono; [apply (read_loop_stream _ (reading mine peer p q rest)) with (fs := fs)|].
  - intros gs w' (tr & n & [Hg _ Hl] & _). split_and!; [apply Hg|done|apply Hg].
  - intros. by eapply reading_step.
  - exists [], 0%nat. rewrite app_nil_r, Nat.add_0_r. split_and!; [done|done|cbn [txs]]. rewrite Hd. count.
  - pose proof (traced_frames _ _ _ (hd_traced _ _ _ Hhd)) as Hall.
    rewrite <- (take_drop p (txs peer)), Hd in Hall. by apply Forall_app in Hall as [_ [? _]%Forall_app].
  - done.
  - by rewrite length_view, Hin.
  - intros [] w' [(tr & n & Hst' & Hd' & Ht) Hin']. split; [done|]. exists tr. cbn [app] in *. split; [|lia].
    pose proof (st_p _ _ _ _ _ Hst') as Hp'. apply (f_equal length) in Hd, Hd'.
    rewrite ?length_app, ?length_drop in *. by replace (length fs) with n by lia.
Qed.

(** ** What a station does *)

(** The callbacks that run while the connection lasts, and the input each
    takes: the program runs and only sends, T2 expires, T3 expires with no test
    under way, or frames that have arrived are read. *)
Inductive act w : bytes -> world E App F -> Prop :=
  | act_send w' : good w' -> tx_only w w' -> act w [] w'
  | act_t2 w' : t2_timer_run w = Done (tt, w') -> act w [] w'
  | act_t3 w' : s_testfr (w_s w) = false -> t3_timer_run w = Done (tt, w') -> act w [] w'
  | act_read fs e w' : Forall frame_ok fs -> ev_view e = (ev_view (w_ev w)) <| ev_in := concat fs |> ->
      bufreadcb (w <| w_ev := e |>) = Done (tt, w') -> act w (concat fs) w'.

(** Such as an operation that never does anything else. *)
Lemma sends_only_act m w w' : sends_only m -> good w -> m w = Done (tt, w') -> act w [] w'.
Proof.
  intros Hm Hg Eq. destruct (wp_run m _ _ (fun _ w' => good w' /\ tx_only w w') w Eq) as [? ?]; [by apply Hm|].
  by apply act_send.
Qed.

(** A change of what a station does not look at. *)
Lemma station_quiet w w' mine peer p q :
  station w mine peer p q -> good w' -> w_mem w' = w_mem w -> w_app w' = w_app w ->
  ev_out (ev_view (w_ev w')) = ev_out (ev_view (w_ev w)) ->
  s_left (w_s w') = s_left (w_s w) -> inactive (w_s w') = inactive (w_s w) ->
  s_vs (w_s w') = s_vs (w_s w) -> s_vr (w_s w') = s_vr (w_s w) -> s_va (w_s w') = s_va (w_s w) ->
  s_testfr (w_s w') = s_testfr (w_s w) -> station w' mine peer p q.
Proof.
  intros [] Hg Em Ea Eo El Ei Es Er Eva Et. unfold outstanding in *.
  split; unfold outstanding; rewrite ?Em, ?Ea, ?Eo, ?El, ?Ei, ?Es, ?Er, ?Eva, ?Et; done.
Qed.

Lemma t2_good w : good w -> good (w <| w_s := (w_s w) <| s_va_peer := s_vr (w_s w) |> |>).
Proof.
  intros [Hl Hs Ha Hn]. split; [done| |done|done]. destruct Hs. split; try done. cbn. rewrite sdist_refl. lia.
Qed.

Lemma t2_station w mine peer p q :
  station w mine peer p q ->
  wp t2_timer_run (fun _ w' => exists tr, station w' (mine ++ tr) peer p q /\ us (txs tr) = [] /\
    ev_in (ev_view (w_ev w')) = ev_in (ev_view (w_ev w))) w.
Proof.
  intros Hst. unfold t2_timer_run. apply wp_bind, sframe_send_tx; [apply Hst|]. intros w1 Hg1 Htx.
  destruct (station_sends w w1 mine peer p q Hst Hg1 Htx) as (tr & Hst1 & Hu). destruct (tx_keeps _ _ Htx) as [Hk _].
  apply wp_wr; [apply Hg1|].
  exists tr. split_and!; [|done|apply (keeps_in _ _ Hk)].
  eapply station_quiet; [exact Hst1|by apply t2_good|done..].
Qed.

Lemma t3_station w mine peer p q :
  station w mine peer p q -> s_testfr (w_s w) = false ->
  wp t3_timer_run (fun _ w' => exists tr, station w' (mine ++ tr) peer p q /\ us (txs tr) = [TESTACT] /\
    ev_in (ev_view (w_ev w')) = ev_in (ev_view (w_ev w))) w.
Proof.
  intros Hst Htf. unfold t3_timer_run, t1_timer_start.
  pose proof (st_good _ _ _ _ _ Hst) as [Hl Hs Ha Hn]. sess_steps.
  match goal with |- wp _ _ ?x => set (w1 := x) end.
  assert (good w1) as Hg1 by by (split; [|destruct Hs; split|..]).
  assert (ev_view (w_ev w1) = (ev_view (w_ev w)) <| ev_armed := ev_armed (ev_view (w_ev w1)) |>) as Ev
    by (cbn; by rewrite view_add).
  apply uframe_send_spec; [done|]. intros w2 Hg2 [Hk2 Hlog2] Hl2 _ Hem.
  apply (emitted_before _ _ w) in Hem; [|by rewrite Ev|done|done].
  destruct (link_fields _ _ Hl2) as (Eva & _ & _ & Esd & Etf).
  destruct (station_writes w w2 mine peer p q [TESTACT]) as (tr & Hst' & Hus); [done|done| |done|done|done| | |].
  - split; [|done]. etrans; [|exact Hk2]. split; try done. by rewrite Ev.
  - by repeat constructor.
  - rewrite Etf, Htf. change (s_testfr (w_s w1)) with true. count.
  - exists tr. split_and!; [done|done|]. by rewrite (keeps_in _ _ Hk2), Ev.
Qed.

(** Whatever a station does, it reads whole frames, and stays a station. *)
Lemma act_station w w' c c' mine peer p q :
  station w mine peer p q -> heard mine peer q -> ev_in (ev_view (w_ev w)) = [] ->
  act w c w' -> concat (drop p (txs peer)) = c ++ c' ->
  ev_in (ev_view (w_ev w')) = [] /\ exists tr fs rest,
    drop p (txs peer) = fs ++ rest /\ c' = concat rest /\ station w' (mine ++ tr) peer (p + length fs) q /\
    cnt TESTACT (us rest) + cnt TESTCON (us (txs tr)) = cnt TESTACT (us (drop p (txs peer))).
Proof.
  intros Hst Hhd Hin Hact Hc.
  assert (forall tr, station w' (mine ++ tr) peer p q -> cnt TESTCON (us (txs tr)) = 0 -> c = [] ->
    exists tr fs rest, drop p (txs peer) = fs ++ rest /\ c' = concat rest /\
      station w' (mine ++ tr) peer (p + length fs) q /\
      cnt TESTACT (us rest) + cnt TESTCON (us (txs tr)) = cnt TESTACT (us (drop p (txs peer)))) as Hwrite.
  { intros tr Hst' Ht ->. exists tr, [], (drop p (txs peer)). cbn [length]. rewrite Nat.add_0_r. split_and!; [done..|lia]. }
  destruct Hact as [w' Hg' Htx|w' Eq|w' Htf Eq|fs e w' Hfs He Eq].
  - destruct (station_sends w w' mine peer p q) as (tr & Hst' & Hu); [done..|].
    destruct (tx_keeps _ _ Htx) as [Hk _]. split; [by rewrite (keeps_in _ _ Hk)|]. apply (Hwrite tr); [done|by rewrite Hu|done].
  - eapply wp_run in Eq; [|by apply t2_station]. destruct Eq as (tr & Hst' & Hu & Ein).
    split; [congruence|]. apply (Hwrite tr); [done|by rewrite Hu|done].
  - eapply wp_run in Eq; [|by apply t3_station]. destruct Eq as (tr & Hst' & Hu & Ein).
    split; [congruence|]. apply (Hwrite tr); [done|by rewrite Hu|done].
  - destruct (frames_prefix fs (drop p (txs peer)) c') as (rest & Hd & ->); [done| |done|].
    { apply Forall_drop, (traced_frames _ _ _ (hd_traced _ _ _ Hhd)). }
    eapply wp_run in Eq; [|eapply reads_batch; [|exact Hhd|exact Hd|]].
    + destruct Eq as (Hin' & tr & Hst' & Ht). split; [done|]. by exists tr, fs, rest.
    + eapply station_quiet; [exact Hst|destruct (st_good _ _ _ _ _ Hst); by split|done|done| |done..].
      cbn. by rewrite He.
    + cbn. by rewrite He.
Qed.
End station.
