(* ===== verification/Duplex.v ===== *)
(** * Two sessions at the ends of a connection

    Two stations exchange frames over two byte streams, each doing what it
    likes when it likes: its program sends, its timers T2 and T3 expire, frames
    that have arrived are read.  Started in agreement, neither ever refuses a
    frame of the other, and each application receives exactly what the other
    session has put on the connection, in order, less what is on its way. *)

From S2P Require Import Prelude Bits Wire Libevent Session Iecsock Seqnum Trace Transmit Receive Stream Link Station.
From S2P Require Import Ieclink Client Samples Server.

#[local] Arguments take : simpl never.
#[local] Arguments drop : simpl never.

(** ** One end acts *)
Section pair.
Context {E App F : Type} {L : Libevent E} {LL : LibeventLaws E}.
Context {AL : AppLog App} {HC : HookCode E App F} {HS : HookSpec E App F}.
Context {E' App' F' : Type} {L' : Libevent E'} {LL' : LibeventLaws E'}.
Context {AL' : AppLog App'} {HC' : HookCode E' App' F'} {HS' : HookSpec E' App' F'}.
Implicit Types (w : world E App F) (v : world E' App' F').

Lemma station_heard vs vr log out v mine peer p q :
  station vr vs log out v peer mine q p -> heard vs vr mine peer q.
Proof. intros []. by split. Qed.

(** Both stay what they are, and the streams hold what has not been read. *)
Lemma one_acts vs vr log out log' out' w v mine peer p q c c' w' o :
  station vs vr log out w mine peer p q -> station vr vs log' out' v peer mine q p ->
  ev_in (ev_view (w_ev w)) = [] -> act w c w' -> concat (drop p (txs peer)) = c ++ c' ->
  ev_out (ev_view (w_ev w')) = ev_out (ev_view (w_ev w)) ++ o ->
  exists tr p', station vs vr log out w' (mine ++ tr) peer p' q /\ station vr vs log' out' v peer (mine ++ tr) q p' /\
    ev_in (ev_view (w_ev w')) = [] /\ c' = concat (drop p' (txs peer)) /\
    concat (drop q (txs mine)) ++ o = concat (drop q (txs (mine ++ tr))).
Proof.
  intros Hw Hv Hin Ha Hc Ho.
  destruct (act_station vs vr log out w w' c c' mine peer p q) as (Hin' & tr & fs & rest & Hd & -> & Hw' & Ht);
    [done|by eapply station_heard|done..|].
  assert (drop (p + length fs) (txs peer) = rest) as Er by by rewrite <- drop_drop, Hd, drop_app_length.
  exists tr, (p + length fs)%nat. rewrite Er. split_and!; [done| |done|done|].
  - eapply station_peer; [done|apply (st_p _ _ _ _ _ _ _ _ _ Hw')|]. by rewrite Er.
  - pose proof (st_q _ _ _ _ _ _ _ _ _ Hw) as Hq. rewrite txs_app, drop_app_le, concat_app by done. f_equal.
    pose proof (st_out _ _ _ _ _ _ _ _ _ Hw') as Ho'. rewrite Ho, (st_out _ _ _ _ _ _ _ _ _ Hw), txs_app, concat_app in Ho'.
    rewrite <- app_assoc in Ho'. by do 2 apply app_inv_head in Ho'.
Qed.
End pair.

(** ** The connection *)
Section net.
Context {E1 App1 F1 : Type} {L1 : Libevent E1} {LL1 : LibeventLaws E1}.
Context {AL1 : AppLog App1} {HC1 : HookCode E1 App1 F1} {HS1 : HookSpec E1 App1 F1}.
Context {E2 App2 F2 : Type} {L2 : Libevent E2} {LL2 : LibeventLaws E2}.
Context {AL2 : AppLog App2} {HC2 : HookCode E2 App2 F2} {HS2 : HookSpec E2 App2 F2}.

(** The two ends, and the bytes on their way. *)
Record net := { na : world E1 App1 F1; nb : world E2 App2 F2; to_b : bytes; to_a : bytes }.

Inductive nstep (n : net) : net -> Prop :=
  | step_a c rest w o :
      act (na n) c w -> to_a n = c ++ rest -> ev_out (ev_view (w_ev w)) = ev_out (ev_view (w_ev (na n))) ++ o ->
      nstep n (Build_net w (nb n) (to_b n ++ o) rest)
  | step_b c rest w o :
      act (nb n) c w -> to_b n = c ++ rest -> ev_out (ev_view (w_ev w)) = ev_out (ev_view (w_ev (nb n))) ++ o ->
      nstep n (Build_net (na n) w rest (to_a n ++ o)).

(** Both ends agree with what has happened. *)
Definition linked (wa : world E1 App1 F1) (wb : world E2 App2 F2) (n : net) : Prop := exists ta tb p q,
  station (s_vs (w_s wa)) (s_vr (w_s wa)) (app_log (w_app wa)) (ev_out (ev_view (w_ev wa))) (na n) ta tb p q /\
  station (s_vr (w_s wa)) (s_vs (w_s wa)) (app_log (w_app wb)) (ev_out (ev_view (w_ev wb))) (nb n) tb ta q p /\
  ev_in (ev_view (w_ev (na n))) = [] /\ ev_in (ev_view (w_ev (nb n))) = [] /\
  to_b n = concat (drop q (txs ta)) /\ to_a n = concat (drop p (txs tb)).

Lemma linked_step wa wb n n' : linked wa wb n -> nstep n n' -> linked wa wb n'.
Proof.
  intros (ta & tb & p & q & Ha & Hb & Hia & Hib & Eb & Ea) [c rest w o Hact Ec Eo|c rest w o Hact Ec Eo].
  - rewrite Ea in Ec. destruct (one_acts _ _ _ _ _ _ _ _ _ _ _ _ _ _ _ _ Ha Hb Hia Hact Ec Eo)
      as (tr & p' & Ha' & Hb' & Hia' & -> & Eo').
    exists (ta ++ tr), tb, p', q. cbn [na nb to_a to_b]. by rewrite Eb.
  - rewrite Eb in Ec. destruct (one_acts _ _ _ _ _ _ _ _ _ _ _ _ _ _ _ _ Hb Ha Hib Hact Ec Eo)
      as (tr & q' & Hb' & Ha' & Hib' & -> & Eo').
    exists ta, (tb ++ tr), p, q'. cbn [na nb to_a to_b]. by rewrite Ea.
Qed.
End net.

(** ** Claims *)

(** A session between two callbacks, active, with no test under way. *)
Record ready {E App F} {L : Libevent E} {AL : AppLog App} {HC : HookCode E App F} {HS : HookSpec E App F}
    (w : world E App F) : Prop := {
  rd_good : good w;
  rd_mem : w_mem w = [];
  rd_left : s_left (w_s w) = 0;
  rd_active : inactive (w_s w) = false;
  rd_in : ev_in (ev_view (w_ev w)) = [];
  rd_test : s_testfr (w_s w) = false;
  rd_va : s_va (w_s w) < 32767;
}.

(** Each expects the number the other sends next. *)
Definition agree {F F'} (s : iecsock F) (s' : iecsock F') : Prop := s_vr s' = s_vs s /\ s_vr s = s_vs s'.

Section start.
Context {E App F : Type} {L : Libevent E} {LL : LibeventLaws E}.
Context {AL : AppLog App} {HC : HookCode E App F} {HS : HookSpec E App F}.
Implicit Types w : world E App F.

Lemma ready_station w vr :
  ready w -> s_vr (w_s w) = vr ->
  station (s_vs (w_s w)) vr (app_log (w_app w)) (ev_out (ev_view (w_ev w))) w [] [] 0 0.
Proof.
  intros [Hg Hm Hl Ha Hi Ht Hva] <-. destruct (Hg) as [_ Hs _ _].
  pose proof (inv_vs _ Hs). pose proof (inv_vr _ Hs). pose proof (inv_va _ Hs).
  split; cbn; try done; rewrite ?app_nil_r, ?Z.add_0_r; try done.
  - constructor.
  - symmetry. by apply Z.mod_small.
  - symmetry. by apply Z.mod_small.
  - constructor.
  - exists (s_vs (w_s w) - outstanding (w_s w)). split; [|lia]. split.
    + unfold outstanding, sdist. rewrite Zminus_mod_idemp_r. rewrite <- (Z.mod_small (s_va (w_s w)) 32767) at 1 by lia. f_equal. lia.
    + cbn. pose proof (outstanding_nonneg (w_s w)). lia.
    + constructor.
  - by rewrite Ht.
Qed.
End start.

(** What one end has sent since [w], as the other one sees it: the frames [read]
    have been taken, the others are on their way. *)
Definition carried {E App F E' App' F'} {L : Libevent E} {AL' : AppLog App'}
    (w w' : world E App F) (v v' : world E' App' F') (onway : bytes) : Prop :=
  exists read rest, Forall frame_ok (read ++ rest) /\ onway = concat rest /\
    ev_out (ev_view (w_ev w')) = ev_out (ev_view (w_ev w)) ++ concat (read ++ rest) /\
    s_vs (w_s w') = (s_vs (w_s w) + nI (read ++ rest)) mod 32767 /\
    app_log (w_app v') = app_log (w_app v) ++ payloads read /\
    s_vr (w_s v') = (s_vr (w_s v) + nI read) mod 32767.

(** Any frames that arrive are read to the end, and the session lives on. *)
Definition takes {E App F} {L : Libevent E} {AL : AppLog App} {HC : HookCode E App F} {HS : HookSpec E App F}
    (w : world E App F) (onway : bytes) : Prop :=
  forall fs rest e, onway = concat fs ++ rest -> Forall frame_ok fs ->
    ev_view e = (ev_view (w_ev w)) <| ev_in := concat fs |> ->
    wp bufreadcb (fun _ w' => ev_in (ev_view (w_ev w')) = [] /\ good w') (w <| w_ev := e |>).

Section direction.
Context {E App F : Type} {L : Libevent E} {LL : LibeventLaws E}.
Context {AL : AppLog App} {HC : HookCode E App F} {HS : HookSpec E App F}.
Context {E' App' F' : Type} {L' : Libevent E'} {LL' : LibeventLaws E'}.
Context {AL' : AppLog App'} {HC' : HookCode E' App' F'} {HS' : HookSpec E' App' F'}.
Implicit Types (w : world E App F) (v : world E' App' F').

Lemma station_takes vs vr log out log' out' w v mine peer p q :
  station vs vr log out w mine peer p q -> station vr vs log' out' v peer mine q p ->
  takes w (concat (drop p (txs peer))).
Proof.
  intros Hw Hv fs rest e Hd Hfs He. pose proof (station_heard _ _ _ _ _ _ _ _ _ Hv) as Hh.
  destruct (frames_prefix fs (drop p (txs peer)) rest) as (gs & Hgs & ->); [done| |done|].
  { apply Forall_drop, (traced_frames _ _ _ (hd_traced _ _ _ _ _ Hh)). }
  eapply wp_mono; [eapply reads_batch; [|exact Hh|exact Hgs|cbn; by rewrite He]|].
  - eapply station_quiet; [exact Hw|destruct (st_good _ _ _ _ _ _ _ _ _ Hw); by split|done|done| |done..].
    cbn. by rewrite He.
  - intros [] w' (Hin & tr & Hst & _). split; [done|apply Hst].
Qed.

Lemma station_carried w0 w v0 v mine peer p q :
  s_vr (w_s v0) = s_vs (w_s w0) ->
  station (s_vs (w_s w0)) (s_vr (w_s w0)) (app_log (w_app w0)) (ev_out (ev_view (w_ev w0))) w mine peer p q ->
  station (s_vr (w_s w0)) (s_vs (w_s w0)) (app_log (w_app v0)) (ev_out (ev_view (w_ev v0))) v peer mine q p ->
  carried w0 w v0 v (concat (drop q (txs mine))).
Proof.
  intros Er Hw Hv. exists (take q (txs mine)), (drop q (txs mine)). rewrite take_drop, Er.
  rewrite <- (st_rx _ _ _ _ _ _ _ _ _ Hv). split_and!; [|done|apply Hw|apply Hw|apply Hv|apply Hv].
  eapply traced_frames, Hw.
Qed.
End direction.

Section claims.
Context {E1 App1 F1 : Type} {L1 : Libevent E1} {LL1 : LibeventLaws E1}.
Context {AL1 : AppLog App1} {HC1 : HookCode E1 App1 F1} {HS1 : HookSpec E1 App1 F1}.
Context {E2 App2 F2 : Type} {L2 : Libevent E2} {LL2 : LibeventLaws E2}.
Context {AL2 : AppLog App2} {HC2 : HookCode E2 App2 F2} {HS2 : HookSpec E2 App2 F2}.

Lemma ready_linked (wa : world E1 App1 F1) (wb : world E2 App2 F2) :
  ready wa -> ready wb -> agree (w_s wa) (w_s wb) -> linked wa wb (Build_net wa wb [] []).
Proof.
  intros Ha Hb [Eab Eba]. exists [], [], 0%nat, 0%nat. cbn [na nb to_a to_b].
  pose proof (ready_station wb (s_vs (w_s wa)) Hb Eab) as Hst. rewrite <- Eba in Hst.
  split_and!; [by apply ready_station|exact Hst|apply Ha|apply Hb|done|done].
Qed.

Lemma linked_safe (wa : world E1 App1 F1) (wb : world E2 App2 F2) (n : net) :
  agree (w_s wa) (w_s wb) -> linked wa wb n ->
  takes (na n) (to_a n) /\ takes (nb n) (to_b n) /\
  carried wa (na n) wb (nb n) (to_b n) /\ carried wb (nb n) wa (na n) (to_a n).
Proof.
  intros [Eab Eba] (ta & tb & p & q & Hsa & Hsb & _ & _ & Eb & Ea). rewrite Ea, Eb. split_and!.
  - exact (station_takes _ _ _ _ _ _ _ _ _ _ _ _ Hsa Hsb).
  - exact (station_takes _ _ _ _ _ _ _ _ _ _ _ _ Hsb Hsa).
  - exact (station_carried _ _ _ _ _ _ _ _ Eab Hsa Hsb).
  - rewrite <- Eab, Eba in Hsb. rewrite Eba, <- Eab in Hsa.
    exact (station_carried _ _ _ _ _ _ _ _ Eba Hsb Hsa).
Qed.

(** Everything on its way is read. *)
Lemma linked_reads_all (wa : world E1 App1 F1) (wb : world E2 App2 F2) (n : net) fs e :
  agree (w_s wa) (w_s wb) -> linked wa wb n -> Forall frame_ok fs -> to_b n = concat fs ->
  ev_view e = (ev_view (w_ev (nb n))) <| ev_in := concat fs |> ->
  wp bufreadcb (fun _ v => exists o, linked wa wb (Build_net (na n) v [] (to_a n ++ o))) ((nb n) <| w_ev := e |>).
Proof.
  intros Hag Hl Hfs Eb He. destruct (linked_safe wa wb n Hag Hl) as (_ & Ht & _).
  pose proof (Ht fs [] e) as Hread. rewrite app_nil_r in Hread. specialize (Hread Eb Hfs He).
  apply wp_done in Hread as ([] & v & Ev & _). apply wp_done. exists tt, v. split; [done|].
  assert (act (nb n) (concat fs) v) as Hact by by apply (act_read _ fs e).
  destruct (Hl) as (ta & tb & p & q & Hsa & Hsb & _ & Hib & Eb' & _).
  destruct (act_station _ _ _ _ _ _ _ [] _ _ _ _ Hsb (station_heard _ _ _ _ _ _ _ _ _ Hsa) Hib Hact)
    as (_ & tr & gs & rest & _ & _ & Hsb' & _); [by rewrite app_nil_r, <- Eb'|].
  exists (concat (txs tr)). eapply linked_step; [exact Hl|]. apply (step_b n (concat fs)); [done|by rewrite app_nil_r|].
  rewrite (st_out _ _ _ _ _ _ _ _ _ Hsb'), (st_out _ _ _ _ _ _ _ _ _ Hsb), txs_app, concat_app. by rewrite app_assoc.
Qed.

(** C1: Full duplex: two sessions that agree on their sequence numbers when
    they start stay in agreement under any interleaving of what their programs
    send, of T2 expiring, of T3 expiring while no test of that end is under way
    (a second expiry before the confirmation gets the session refused, see
    [second_test_faults]), and of frames arriving, any number of whole frames at
    a time, in both directions at once.  Whatever is on its way to one of them is
    accepted when it arrives: no sequence number, acknowledgement or test is
    refused, and the session lives on.  Each application has received the data
    of exactly the frames the other session has written, in order and once,
    less those still on their way; each side expects the number of the first
    I-frame on its way to it. *)
Theorem duplex_safe (wa : world E1 App1 F1) (wb : world E2 App2 F2) (n : net) :
  ready wa -> ready wb -> agree (w_s wa) (w_s wb) ->
  rtc nstep (Build_net wa wb [] []) n ->
  takes (na n) (to_a n) /\ takes (nb n) (to_b n) /\
  carried wa (na n) wb (nb n) (to_b n) /\ carried wb (nb n) wa (na n) (to_a n).
Proof.
  intros Ha Hb Hag Hsteps. apply linked_safe; [done|]. revert n Hsteps.
  apply rtc_ind_r; [by apply ready_linked|]. intros n1 n2 _ Hstep IH. by eapply linked_step.
Qed.
End claims.

(** ** A sample connection

    The client, with two ASDUs queued, and an activated session of the server in
    the role of the controlled station. *)
Definition client_end : world evview client fptr := sample_world queue2 [] client_init.

Definition server_end : world evview server sfptr :=
  sample_server <| w_s := (w_s sample_server) <| s_type := IEC_SLAVE |> |>.

Definition after {W} (m : ST W unit) (w : W) : W := match m w with Done (_, w') => w' | _ => w end.

(** What arrives at a session. *)
Definition arrived {App F} (b : bytes) (w : world evview App F) : world evview App F :=
  w <| w_ev := (w_ev w) <| ev_in := b |> |>.

(** What has been written from [w] to [w']. *)
Definition written {App F} (w w' : world evview App F) : bytes :=
  drop (length (ev_out (w_ev w))) (ev_out (w_ev w')).

(** The client sends; the server tests the connection, and reads; the client
    reads what the server has sent, and the server its reply. *)
Definition c1 := after iecsock_run_write_queue client_end.
Definition s1 := after t3_timer_run server_end.
Definition s2 := after bufreadcb (arrived (written client_end c1) s1).
Definition s3 := after t2_timer_run s2.
Definition c2 := after bufreadcb (arrived (written server_end s3) c1).
Definition s4 := after bufreadcb (arrived (written c1 c2) s3).

(** The frames of a stream, as far as it holds whole ones. *)
Definition sample_b : list bytes := [hdr_bytes (uframe_hdr TESTACT); hdr_bytes (sframe_hdr 2)].
Definition sample_a : list bytes := [hdr_bytes (uframe_hdr TESTCON)].

Lemma sample_frames : Forall frame_ok frames2 /\ Forall frame_ok sample_b /\ Forall frame_ok sample_a.
Proof.
  split_and!; [apply frames2_ok|..];
    repeat (apply Forall_cons; split; [apply frame_okb_ok; reflexivity|]); apply Forall_nil; exact I.
Qed.

Lemma client_end_ready : ready client_end.
Proof.
  split; try done. split; [done|apply queue2_inv| |by intros []; apply (bool_decide_unpack _)].
  exists []. by apply empty_list_rep.
Qed.

Lemma server_end_ready : ready server_end.
Proof.
  split; try done. split; [done| |done|by intros f]. pose proof sample_server_inv as Hi. unfold server_end.
  revert Hi. generalize (w_s sample_server). intros s []. by split.
Qed.

Lemma arrived_act {App F} {AL : AppLog App} {HC : HookCode evview App F} {HS : HookSpec evview App F}
    fs (w w' : world evview App F) :
  Forall frame_ok fs -> bufreadcb (arrived (concat fs) w) = Done (tt, w') -> act w (concat fs) w'.
Proof. intros Hfs. by apply act_read. Qed.

Lemma sample_run : rtc nstep (Build_net client_end server_end [] []) (Build_net c2 s4 [] []).
Proof.
  destruct sample_frames as (Ff & Fb & Fa).
  eapply rtc_l.
  { apply (step_a _ [] [] c1 (concat frames2)); [|by vm_compute..].
    apply (sends_only_act iecsock_run_write_queue); [apply write_queue_tx|apply client_end_ready|by vm_compute]. }
  eapply rtc_l.
  { apply (step_b _ [] (concat frames2) s1 (hdr_bytes (uframe_hdr TESTACT))); [apply act_t3|..]; by vm_compute. }
  eapply rtc_l.
  { apply (step_b _ (concat frames2) [] s2 []); [apply (arrived_act frames2 _ _ Ff)|..]; by vm_compute. }
  eapply rtc_l.
  { apply (step_b _ [] [] s3 (hdr_bytes (sframe_hdr 2))); [apply act_t2|..]; by vm_compute. }
  eapply rtc_l.
  { apply (step_a _ (concat sample_b) [] c2 (concat sample_a));
      [apply (arrived_act sample_b _ _ Fb)|..]; by vm_compute. }
  eapply rtc_l.
  { apply (step_b _ (concat sample_a) [] s4 []); [apply (arrived_act sample_a _ _ Fa)|..]; by vm_compute. }
  cbn [na nb to_a to_b app]. apply rtc_refl.
Qed.

Lemma duplex_safe_witness :
  takes c2 [] /\ takes s4 [] /\ carried client_end c2 server_end s4 [] /\
  carried server_end s4 client_end c2 [] /\
  v_received (w_app s4) = [asdu1; asdu2] /\ agree (w_s c2) (w_s s4).
Proof.
  destruct (duplex_safe client_end server_end (Build_net c2 s4 [] [])) as (H1 & H2 & H3 & H4).
  - exact client_end_ready.
  - exact server_end_ready.
  - split; vm_compute; reflexivity.
  - exact sample_run.
  - split; [exact H1|split; [exact H2|split; [exact H3|split; [exact H4|]]]].
    split; [vm_compute; reflexivity|split; vm_compute; reflexivity].
Defined.

(** T3 does not look whether a test is under way.  When it expires a second time
    before the confirmation of the first test has come, the second confirmation
    finds no test: it is refused, and the session is closed and used. *)
Lemma second_test_faults :
  let a1 := after (t3_timer_run;; t3_timer_run) server_end in
  let b1 := after bufreadcb (arrived (written server_end a1) client_end) in
  bufreadcb (arrived (written client_end b1) a1) = Faulted UseAfterFree.
Proof. by vm_compute. Qed.
