(* ===== verification/Opening.v ===== *)
(** * Opening a session

    Both ways of opening a session, [connect_writecb] on the side that
    connects and [listen_readcb] on the side that accepts, end in
    [session_start].  What they leave behind, and what becomes of the client
    and the test server when they are connected to each other. *)

From S2P Require Import Prelude Bits Wire Libevent Session Iecsock Seqnum Trace Transmit Receive Stream.
From S2P Require Import Link Ieclink Client Samples.
From S2P Require Import Server.

(** The first frame of either side. *)
Definition startact : bytes := hdr_bytes (uframe_hdr STARTACT).

Lemma startact_ok : frame_ok startact.
Proof. by apply frame_okb_ok. Qed.

Section opening.
Context {E App F : Type} {L : Libevent E} {LL : LibeventLaws E} {AL : AppLog App} {HC : HookCode E App F}.
Implicit Types w : world E App F.

(** The connect hook of the program does nothing to the session. *)
Definition silent_connect : Prop :=
  match connect_indication default_hooks with Some f => run_hook f | None => skip end
  = (skip : ST (world E App F) unit).

(** A session that has just been opened: T1 runs and STARTDT act is out. *)
Record opened_session (w : world E App F) : Prop := {
  op_live : w_live w = true;
  op_fresh : exists fd a n set, w_s w = (fresh_session fd a) <| s_set := set |> <| s_xmit_cnt := n |>;
  op_user : EvUser ∉ s_set (w_s w);
  op_inv : sess_inv (w_s w);
  op_type : s_type (w_s w) = IEC_MASTER;
  op_stopdt : s_stopdt (w_s w) = true;
  op_left : s_left (w_s w) = 0;
  op_mem : w_mem w = [];
  op_out : ev_out (ev_view (w_ev w)) = startact;
  op_in : ev_in (ev_view (w_ev w)) = [];
  op_t1 : ev_armed (ev_view (w_ev w)) !! EvT1 = Some (Some DEFAULT_T1);
  op_wm : ev_wm (ev_view (w_ev w)) = sizeof_iechdr /\ ev_reading (ev_view (w_ev w)) = true;
}.

Lemma sess_inv_xmit (s : iecsock F) n : sess_inv s -> sess_inv (s <| s_xmit_cnt := n |>).
Proof. intros []. split; cbn; assumption. Qed.

Lemma session_start_opens fd a set w :
  silent_connect -> w_live w = true -> w_s w = (fresh_session fd a) <| s_set := set |> -> w_mem w = [] ->
  sess_inv (w_s w) -> EvUser ∉ set ->
  ev_out (ev_view (w_ev w)) = [] -> ev_in (ev_view (w_ev w)) = [] ->
  wp session_start (fun _ w' => opened_session w' /\ w_app w' = w_app w) w.
Proof.
  intros Hsil Hl Hs Hm Hinv Hus Ho Hi. unfold session_start, iecsock_uframe_send, bump_xmit, t1_timer_start. sess_steps.
  rewrite Hsil. sess_steps. split; [|done].
  assert (ev_view (event_add EvT1 (Some DEFAULT_T1) (bufferevent_write startact (bufferevent_enable
      (bufferevent_setwatermark sizeof_iechdr (w_ev w)))))
    = (ev_view (w_ev w)) <| ev_wm := sizeof_iechdr |> <| ev_reading := true |> <| ev_out := startact |>
        <| ev_armed := <[EvT1 := Some DEFAULT_T1]> (ev_armed (ev_view (w_ev w))) |>) as Ev.
  { ev_simpl. by rewrite Ho. }
  set (v := ev_view (event_add _ _ _)) in Ev.
  assert (s_t1 (w_s w) = DEFAULT_T1) as Et by by rewrite Hs.
  split; cbn -[ev_view sizeof_iechdr hdr_bytes]; rewrite ?Et; fold startact; try (change (ev_view _) with v; rewrite Ev).
  - done.
  - rewrite Hs. by exists fd, a, (u64 (s_xmit_cnt (w_s w) + 1)), set; rewrite Hs.
  - by rewrite Hs.
  - by apply sess_inv_xmit.
  - by rewrite Hs.
  - by rewrite Hs.
  - by rewrite Hs.
  - done.
  - done.
  - exact Hi.
  - apply lookup_insert_eq.
  - done.
Qed.

(** Whatever the order of the events, a session that has sent STARTDT act
    takes the same frame from its peer for an error. *)
Lemma opened_refuses {HS : HookSpec E App F} w e :
  opened_session w -> app_inv (w_app w) -> ev_in (ev_view e) = startact ->
  bufreadcb (w <| w_ev := e |>) = Faulted UseAfterFree.
Proof.
  intros [Hl _ _ Hi Ht Hd Hleft Hm _ _ _ _] Ha Hin.
  apply (refused_uframe_faults startact []); [by split|done|done|by rewrite app_nil_r|apply startact_ok|done|done|done].
Qed.

Lemma connect_opens fd a w :
  silent_connect -> w_live w = true -> w_s w = fresh_session fd a -> w_mem w = [] ->
  wp (connect_writecb false 0) (fun _ w' => opened_session w' /\ w_app w' = w_app w) w.
Proof.
  intros Hsil Hl Hs Hm. unfold connect_writecb, t0_timer_stop, new_bufferevent, try_alloc.
  change (negb (0 =? 0)) with false. cbn beta iota. apply wp_bind, wp_ev; [done|].
  apply wp_bind, wp_bind. unfold wp at 1. cbn [w_mem]. change (w_mem _) with (w_mem w). rewrite Hm. cbn [when].
  sess_steps. cbn [negb]. sess_steps.
  eapply wp_mono; [apply (session_start_opens fd a {[ EvT0; EvT1; EvT2; EvT3 ]});
    [done|done|cbn; rewrite Hs; reflexivity|done|cbn; rewrite Hs; apply fresh_session_inv|by apply (bool_decide_unpack _)
    |cbn; by rewrite view_new|cbn; by rewrite view_new]|].
  intros [] w' [? ->]. done.
Qed.

Lemma listen_opens w :
  silent_connect -> w_mem w = [] -> w_sys w = [] ->
  wp listen_readcb (fun _ w' => opened_session w' /\ w_app w' = w_app w) w.
Proof.
  intros Hsil Hm Hy. unfold listen_readcb, new_bufferevent, try_alloc, next_sys.
  apply wp_bind, wp_modify, wp_bind. unfold wp at 1. change (w_sys _) with (w_sys w). rewrite Hy. cbn -[session_start].
  apply wp_bind, wp_modify, wp_bind, wp_bind. unfold wp at 1. change (w_mem _) with (w_mem w). rewrite Hm. cbn [when].
  apply wp_bind, wp_ev; [reflexivity|]. apply wp_ret. cbn [negb].
  eapply wp_mono; [apply (session_start_opens 3 (Build_sockaddr_in AF_INET 0 0) {[ EvT1; EvT2; EvT3 ]});
    [done|done|reflexivity|done| |by apply (bool_decide_unpack _)|cbn; by rewrite view_new|cbn; by rewrite view_new]|].
  { destruct (fresh_session_inv (F:=F) 3 (Build_sockaddr_in AF_INET 0 0)). by split. }
  intros [] w' [? ->]. done.
Qed.
End opening.

(** C34: The client and the test server cannot talk to each other: the session
    ieclink opens and the session the server accepts both act as the
    controlling station; each sends STARTDT act as its first frame, and each
    treats the other's as an error, closes the session and goes on using it
    after it has been freed. *)
Theorem client_and_server_refuse {E1 E2} {L1 : Libevent E1} {LL1 : LibeventLaws E1} {L2 : Libevent E2}
    {LL2 : LibeventLaws E2} (wa : world E1 client fptr) (wb : world E2 server sfptr) fd a l :
  w_live wa = true -> w_s wa = fresh_session fd a -> w_mem wa = [] -> list_rep (w_app wa) l ->
  w_mem wb = [] -> w_sys wb = [] ->
  wp (connect_writecb false 0) (fun _ wa' =>
    wp listen_readcb (fun _ wb' =>
      ev_out (ev_view (w_ev wa')) = startact /\ ev_out (ev_view (w_ev wb')) = startact /\
      (forall e, ev_in (ev_view e) = ev_out (ev_view (w_ev wa')) ->
         bufreadcb (wb' <| w_ev := e |>) = Faulted UseAfterFree) /\
      (forall e, ev_in (ev_view e) = ev_out (ev_view (w_ev wb')) ->
         bufreadcb (wa' <| w_ev := e |>) = Faulted UseAfterFree)) wb) wa.
Proof.
  intros Hla Hsa Hma Hra Hmb Hyb.
  eapply wp_mono; [by eapply connect_opens|]. intros [] wa' [Ha Ea].
  eapply wp_mono; [by apply listen_opens|]. intros [] wb' [Hb _].
  split_and!; [apply Ha|apply Hb| |].
  - intros e He. apply opened_refuses; [done|exact I|]. by rewrite He, (op_out _ Ha).
  - intros e He. apply opened_refuses; [done|exists l; by rewrite Ea|]. by rewrite He, (op_out _ Hb).
Qed.

Definition client_world : world evview client fptr :=
  Build_world _ _ _ (fresh_session 3 sample_addr) true fresh_events client_init [] 0 [] [] false [].

Lemma client_and_server_refuse_witness :
  wp (connect_writecb false 0) (fun _ wa' =>
    wp listen_readcb (fun _ wb' =>
      ev_out (ev_view (w_ev wa')) = startact /\ ev_out (ev_view (w_ev wb')) = startact /\
      (forall e, ev_in (ev_view e) = ev_out (ev_view (w_ev wa')) ->
         bufreadcb (wb' <| w_ev := e |>) = Faulted UseAfterFree) /\
      (forall e, ev_in (ev_view e) = ev_out (ev_view (w_ev wb')) ->
         bufreadcb (wa' <| w_ev := e |>) = Faulted UseAfterFree)) sample_server) client_world.
Proof.
  apply (client_and_server_refuse client_world sample_server 3 sample_addr []); try reflexivity.
  by apply empty_list_rep.
Defined.
