(* ===== verification/Asdu.v ===== *)
(** * Application data units

    ieclink/iec104_types.h and iec104.h declare the information objects of
    IEC 60870-5-104 as C structures.  No code of the repository fills them in
    or reads them ([iecasdu_parse] is declared and not defined); what they fix
    is where each member lies.  A structure is its list of members, and
    [place] computes their offsets with the rules of the C implementations
    the program is built with: bit-fields fill a byte from its lowest bit, in a
    packed structure every member follows the previous one, in any other
    members are aligned and the size is a multiple of the alignment. *)

From S2P Require Import Prelude Bits.
From Stdlib Require Import Sorted.

Open Scope Z_scope.

(** ** Structures *)

(** [u_char name : w], or a member of [size] bytes to be aligned to [align]. *)
Inductive member :=
  | Bits (name : string) (w : Z)
  | Field (name : string) (size align : Z).

Record cstruct := { packed : bool; members : list member }.

Definition member_name (m : member) : string := match m with Bits n _ | Field n _ _ => n end.
Definition member_bits (m : member) : Z := match m with Bits _ w => w | Field _ s _ => 8 * s end.
Definition member_align (m : member) : Z := match m with Bits _ _ => 1 | Field _ _ a => a end.

(** The next multiple of [a]. *)
Definition align_up (o a : Z) : Z := (o + a - 1) / a * a.

(** The bit a member starts at when the previous one ends at bit [o]. *)
Definition start (p : bool) (o : Z) (m : member) : Z :=
  match m with
  | Bits _ w => if p || (o mod 8 + w <=? 8) then o else align_up o 8
  | Field _ _ a => align_up o (8 * (if p then 1 else a))
  end.

(** Name, first bit and number of bits of every member. *)
Fixpoint place (p : bool) (o : Z) (ms : list member) : list (string * Z * Z) :=
  match ms with
  | [] => []
  | m :: ms' => let s := start p o m in (member_name m, s, member_bits m) :: place p (s + member_bits m) ms'
  end.

Fixpoint last_bit (p : bool) (o : Z) (ms : list member) : Z :=
  match ms with [] => o | m :: ms' => last_bit p (start p o m + member_bits m) ms' end.

Definition alignof (s : cstruct) : Z :=
  if packed s then 1 else foldr Z.max 1 (map member_align (members s)).
Definition sizeof (s : cstruct) : Z := align_up (last_bit (packed s) 0 (members s)) (8 * alignof s) / 8.
Definition layout (s : cstruct) : list (string * Z * Z) := place (packed s) 0 (members s).

(** A member that is a structure. *)
Definition nested (name : string) (s : cstruct) : member := Field name (sizeof s) (alignof s).

Definition u_char (name : string) : member := Field name 1 1.
Definition u_short (name : string) : member := Field name 2 2.
Definition float (name : string) : member := Field name 4 4.

(** The first byte of a member. *)
Definition offsetof (name : string) (s : cstruct) : option Z :=
  (fun x => x.2.1.2 / 8) <$> list_find (fun x => x.1.1 = name) (layout s).

(** *** Members do not overlap *)
Definition member_ok (m : member) : Prop :=
  match m with Bits _ w => 0 < w <= 8 | Field _ s a => 0 <= s /\ 0 < a end.

Lemma align_up_le o a : 0 < a -> o <= align_up o a.
Proof. intros Ha. unfold align_up. pose proof (Z.div_mod (o + a - 1) a). pose proof (Z.mod_pos_bound (o + a - 1) a). nia. Qed.

Lemma start_le p o m : member_ok m -> o <= start p o m.
Proof.
  intros Hm. destruct m as [n w|n s a]; cbn in *.
  - destruct (_ || _); [lia|]. apply align_up_le. lia.
  - apply align_up_le. destruct p; lia.
Qed.

Lemma place_after p ms : forall o, Forall member_ok ms -> Forall (fun x => o <= x.1.2) (place p o ms).
Proof.
  induction ms as [|m ms IH]; intros o Hms; [constructor|]. apply Forall_cons in Hms as [Hm Hms]. cbn [place].
  pose proof (start_le p o m Hm) as Hs. assert (0 <= member_bits m) by (destruct m; cbn in *; lia). constructor; [done|].
  eapply Forall_impl; [by apply IH|]. cbn. lia.
Qed.

(** Every member lies before those declared after it. *)
Lemma place_disjoint p ms : forall o, Forall member_ok ms ->
  StronglySorted (fun x y => x.1.2 + x.2 <= y.1.2) (place p o ms).
Proof.
  induction ms as [|m ms IH]; intros o Hms; [constructor|]. apply Forall_cons in Hms as [Hm Hms]. cbn [place].
  constructor; [by apply IH|]. cbn. by apply place_after.
Qed.

(** ** The structures of the headers *)

(** 32-bit string: state and change data unit. *)
Definition iec_stcd : cstruct := Build_cstruct true
  [Field "st" 0 2; Bits "st1" 1; Bits "st2" 1; Bits "st3" 1; Bits "st4" 1; Bits "st5" 1; Bits "st6" 1; Bits "st7" 1;
   Bits "st8" 1; Bits "st9" 1; Bits "st10" 1; Bits "st11" 1; Bits "st12" 1; Bits "st13" 1; Bits "st14" 1;
   Bits "st15" 1; Bits "st16" 1;
   Field "cd" 0 2; Bits "cd1" 1; Bits "cd2" 1; Bits "cd3" 1; Bits "cd4" 1; Bits "cd5" 1; Bits "cd6" 1; Bits "cd7" 1;
   Bits "cd8" 1; Bits "cd9" 1; Bits "cd10" 1; Bits "cd11" 1; Bits "cd12" 1; Bits "cd13" 1; Bits "cd14" 1;
   Bits "cd15" 1; Bits "cd16" 1].

(** CP56Time2a time stamp.  The attribute after the name of the [typedef] does
    not apply to the structure: it is not packed. *)
Definition cp56time2a : cstruct := Build_cstruct false
  [u_short "msec"; Bits "min" 6; Bits "res1" 1; Bits "iv" 1; Bits "hour" 5; Bits "res2" 2; Bits "su" 1;
   Bits "mday" 5; Bits "wday" 3; Bits "month" 4; Bits "res3" 4; Bits "year" 7; Bits "res4" 1].

(** The quality descriptors that end or follow a value. *)
Definition quality (first : string) : list member :=
  [Bits first 1; Bits "res" 3; Bits "bl" 1; Bits "sb" 1; Bits "nt" 1; Bits "iv" 1].

(** M_SP_NA_1: single point information. *)
Definition iec_type1 : cstruct := Build_cstruct true (quality "sp").

(** M_BO_NA_1: state and change information bit string. *)
Definition iec_type7 : cstruct := Build_cstruct true (nested "stcd" iec_stcd :: quality "ov").

(** M_ME_NA_1: normalised measured value. *)
Definition iec_type9 : cstruct := Build_cstruct true (u_short "mv" :: quality "ov").

(** M_ME_NB_1: scaled measured value. *)
Definition iec_type11 : cstruct := Build_cstruct true (u_short "mv" :: quality "ov").

(** M_ME_NC_1: short floating point measured value. *)
Definition iec_type13 : cstruct := Build_cstruct true (float "mv" :: quality "ov").

(** M_SP_TB_1: single point information with time tag. *)
Definition iec_type30 : cstruct := Build_cstruct true (quality "sp" ++ [nested "time" cp56time2a]).

(** M_BO_TB_1: bit string with time tag. *)
Definition iec_type33 : cstruct := Build_cstruct true (nested "stcd" iec_stcd :: quality "ov" ++ [nested "time" cp56time2a]).

(** M_ME_TD_1, M_ME_TE_1: measured value with time tag. *)
Definition iec_type34 : cstruct := Build_cstruct true (u_short "mv" :: quality "ov" ++ [nested "time" cp56time2a]).
Definition iec_type35 : cstruct := Build_cstruct true (u_short "mv" :: quality "ov" ++ [nested "time" cp56time2a]).

(** M_ME_TF_1: floating point value with time tag. *)
Definition iec_type36 : cstruct := Build_cstruct true (float "mv" :: quality "ov" ++ [nested "time" cp56time2a]).

(** Data unit identifier: the header of an ASDU. *)
Definition iec_unit_id : cstruct := Build_cstruct true
  [u_char "type"; Bits "num" 7; Bits "sq" 1; Bits "cause" 6; Bits "t" 1; Bits "pn" 1; u_short "ca"].

(** *** Information objects *)
Definition M_SP_NA_1 : Z := 1.
Definition M_BO_NA_1 : Z := 7.
Definition M_ME_NA_1 : Z := 9.
Definition M_ME_NB_1 : Z := 11.
Definition M_ME_NC_1 : Z := 13.
Definition M_SP_TB_1 : Z := 30.
Definition M_BO_TB_1 : Z := 33.
Definition M_ME_TD_1 : Z := 34.
Definition M_ME_TE_1 : Z := 35.
Definition M_ME_TF_1 : Z := 36.

(** The members of the union in [struct iec_object], with the type
    identification they go with. *)
Definition iec_object_o : list (Z * cstruct) :=
  [(M_SP_NA_1, iec_type1); (M_BO_NA_1, iec_type7); (M_ME_NA_1, iec_type9); (M_ME_NB_1, iec_type11);
   (M_ME_NC_1, iec_type13); (M_SP_TB_1, iec_type30); (M_BO_TB_1, iec_type33); (M_ME_TD_1, iec_type34);
   (M_ME_TE_1, iec_type35); (M_ME_TF_1, iec_type36)].

(** ** What the declarations amount to *)

(** The time stamp takes eight bytes, the last of them padding, where the
    standard has seven; so the objects with a time tag are one byte longer
    than on the wire. *)
Theorem object_sizes :
  sizeof cp56time2a = 8 /\
  map (fun x => (x.1, sizeof x.2)) iec_object_o =
    [(M_SP_NA_1, 1); (M_BO_NA_1, 5); (M_ME_NA_1, 3); (M_ME_NB_1, 3); (M_ME_NC_1, 5);
     (M_SP_TB_1, 9); (M_BO_TB_1, 13); (M_ME_TD_1, 11); (M_ME_TE_1, 11); (M_ME_TF_1, 13)] /\
  sizeof (Build_cstruct true (members cp56time2a)) = 7.
Proof. by vm_compute. Qed.

(** No two members of a structure share a bit. *)
Theorem objects_disjoint :
  Forall (fun x => StronglySorted (fun a b => a.1.2 + a.2 <= b.1.2) (layout x.2)) iec_object_o.
Proof.
  apply Forall_forall. intros x Hx. apply place_disjoint.
  assert (Forall (fun x => Forall member_ok (members x.2)) iec_object_o) as H.
  { repeat (apply Forall_cons; split); try apply Forall_nil; vm_compute; repeat split; discriminate. }
  by eapply Forall_forall in H.
Qed.

(** The header is five bytes: one for the cause of transmission, where the
    messages that iecproxy exchanges have two, so that read as this structure
    the common address 65535 of an interrogation comes out as 65280. *)
Definition word_at (i : nat) (l : bytes) : Z := nth i l 0 + 256 * nth (S i) l 0.
Lemma unit_id_misreads :
  sizeof iec_unit_id = 5 /\ offsetof "ca" iec_unit_id = Some 3 /\
  word_at 3 [100; 1; 6; 0; 255; 255; 0; 0; 0; 20] = 65280.
Proof. by vm_compute. Qed.
