(* ===== verification/Heap.v ===== *)
(** * The timer heap

    quemngr/heapfunc.c: a binary min-heap of timers in an array indexed from
    1, which doubles when it is full.  Array accesses outside the allocation
    fault.  The theorems relate the array to the multiset of timers it
    holds: it implements a priority queue. *)

From S2P Require Import Prelude.
From Stdlib Require Import Sorting.Sorted.

#[local] Open Scope nat_scope.
#[local] Arguments Nat.div : simpl never.
#[local] Arguments Nat.mul : simpl never.

(** ** Data *)
Record timeval := { tv_sec : Z; tv_usec : Z }.
Record heapnode := { key : timeval; indque : Z; hinode : Z }.

#[export] Instance timeval_eq_dec : EqDecision timeval.
Proof. solve_decision. Defined.
#[export] Instance heapnode_eq_dec : EqDecision heapnode.
Proof. solve_decision. Defined.

Definition timeval_zero : timeval := Build_timeval 0 0.
(** [(struct heapnode){0, 0}]; also what fresh array cells hold here. *)
Definition heapnode_zero : heapnode := Build_heapnode timeval_zero 0 0.

Record heap := { maxsize : nat; nodecount : nat; nodes : list heapnode }.

#[export] Instance heap_rebuild : Rebuild heap := fun h =>
  Build_heap (maxsize h) (nodecount h) (nodes h).
#[export] Instance upd_maxsize : Updater maxsize. Proof. solve_updater. Defined.
#[export] Instance upd_nodecount : Updater nodecount. Proof. solve_updater. Defined.
#[export] Instance upd_nodes : Updater nodes. Proof. solve_updater. Defined.

(** [timercmp(a, b, <)]. *)
Definition timer_lt (a b : timeval) : bool :=
  if (tv_sec a =? tv_sec b)%Z then (tv_usec a <? tv_usec b)%Z else (tv_sec a <? tv_sec b)%Z.

(** ** Operations *)
Abbreviation HM := (ST heap).

Definition hget (i : nat) : HM heapnode := fun h =>
  match nodes h !! i with Some x => Done (x, h) | None => Faulted OutOfBounds end.
Definition hset (i : nat) (x : heapnode) : HM unit := fun h =>
  if i <? length (nodes h) then Done (tt, h <| nodes := <[i := x]> (nodes h) |>) else Faulted OutOfBounds.

Definition heap_create (size : nat) : heap :=
  Build_heap size 0 (replicate (size + 1) heapnode_zero).

Definition heapnode_swap (i j : nat) : HM unit :=
  a ← hget i; b ← hget j; hset i b;; hset j a.

Definition heap_min (h : heap) : option heapnode :=
  if nodecount h =? 0 then None else nodes h !! 1.

(** The sift-up loop; [i] at least halves in each round. *)
Fixpoint sift_up (fuel i : nat) : HM unit :=
  if 1 <? i then
    a ← hget i; b ← hget (i / 2);
    if timer_lt (key a) (key b) then
      match fuel with
      | O => stop OutOfFuel
      | S fuel' => heapnode_swap i (i / 2);; sift_up fuel' (i / 2)
      end
    else skip
  else skip.

Definition heap_insert (k : timeval) (que inode : Z) : HM unit :=
  n ← gets nodecount; m ← gets maxsize;
  when (m <=? n + 1)
    (modify (fun h => h <| maxsize := m * 2 |> <| nodes := resize (m * 2) heapnode_zero (nodes h) |>));;
  modify (fun h => h <| nodecount := n + 1 |>);;
  hset (n + 1) (Build_heapnode k que (i32 inode));;
  sift_up (n + 1) (n + 1).

(** The index of the least among a node and its children. *)
Definition least_of (index : nat) : HM nat :=
  n ← gets nodecount;
  let l := 2 * index in let r := 2 * index + 1 in
  least ← (if l <=? n then
             a ← hget l; x ← hget index; mret (if timer_lt (key a) (key x) then l else index)
           else mret index);
  (if r <=? n then
     a ← hget r; b ← hget least; mret (if timer_lt (key a) (key b) then r else least)
   else mret least).

(** The loop goes down one level in each round. *)
Fixpoint heap_heapify (fuel index : nat) : HM unit :=
  least ← least_of index;
  if least =? index then skip
  else match fuel with
       | O => stop OutOfFuel
       | S fuel' => heapnode_swap index least;; heap_heapify fuel' least
       end.

Definition heap_extract_min : HM heapnode :=
  n ← gets nodecount;
  if n =? 0 then mret heapnode_zero
  else
    m ← hget 1;
    x ← hget n;
    hset 1 x;;
    modify (fun h => h <| nodecount := n - 1 |>);;
    heap_heapify n 1;;
    mret m.

(** ** The timers a heap holds *)
Definition heap_elems (h : heap) : list heapnode := take (nodecount h) (drop 1 (nodes h)).

Definition tle (a b : timeval) : Prop := timer_lt b a = false.

(** The key of the node at an index. *)
Definition kat (l : list heapnode) (i : nat) : timeval := key (nth i l heapnode_zero).

Definition heap_ordered (n : nat) (K : nat -> timeval) : Prop :=
  forall j, 2 <= j <= n -> tle (K (j / 2)) (K j).

(** Type invariant: the array is allocated, with room for one more node
    after a doubling, and every node is at least its parent. *)
Record heap_ok (h : heap) : Prop := {
  hk_room : nodecount h < maxsize h;
  hk_alloc : maxsize h <= length (nodes h);
  hk_order : heap_ordered (nodecount h) (kat (nodes h)) }.

(** ** Order on timers *)
Section order.
Implicit Types a b c : timeval.

Lemma tle_refl a : tle a a.
Proof. unfold tle, timer_lt. rewrite Z.eqb_refl. apply Z.ltb_irrefl. Qed.

Lemma tle_spec a b :
  tle a b <-> (tv_sec a < tv_sec b \/ tv_sec a = tv_sec b /\ tv_usec a <= tv_usec b)%Z.
Proof. unfold tle, timer_lt. destruct (Z.eqb_spec (tv_sec b) (tv_sec a)); lia. Qed.

Lemma tle_trans a b c : tle a b -> tle b c -> tle a c.
Proof. rewrite !tle_spec. lia. Qed.

Lemma tlt_le a b : timer_lt a b = true -> tle a b.
Proof. rewrite tle_spec. unfold timer_lt. destruct (Z.eqb_spec (tv_sec a) (tv_sec b)); lia. Qed.
End order.

Create HintDb heap discriminated.
#[export] Hint Resolve tle_refl tle_trans tlt_le : heap.

(** Division by two is all the arithmetic the index computations need. *)
Ltac half :=
  repeat match goal with
  | |- context [?x / 2] => lazymatch goal with
      | _ : 2 * (x / 2) <= x < 2 * (x / 2) + 2 |- _ => fail
      | _ => assert (2 * (x / 2) <= x < 2 * (x / 2) + 2)
               by (pose proof (Nat.div_mod_eq x 2); pose proof (Nat.mod_upper_bound x 2); lia)
      end
  | H : context [?x / 2] |- _ => lazymatch goal with
      | _ : 2 * (x / 2) <= x < 2 * (x / 2) + 2 |- _ => fail
      | _ => assert (2 * (x / 2) <= x < 2 * (x / 2) + 2)
               by (pose proof (Nat.div_mod_eq x 2); pose proof (Nat.mod_upper_bound x 2); lia)
      end
  end.

(** ** Swapping two nodes *)
Definition lswap (i j : nat) (l : list heapnode) : list heapnode :=
  <[j := nth i l heapnode_zero]> (<[i := nth j l heapnode_zero]> l).

Lemma length_lswap i j l : length (lswap i j l) = length l.
Proof. unfold lswap. by rewrite !length_insert. Qed.

Lemma nth_look (l : list heapnode) i : i < length l -> l !! i = Some (nth i l heapnode_zero).
Proof. intros H. destruct (lookup_lt_is_Some_2 l i H) as [x E]. by rewrite E, (nth_lookup_Some _ _ _ _ E). Qed.

Lemma kat_insert l i x j :
  i < length l -> kat (<[i := x]> l) j = if decide (i = j) then key x else kat l j.
Proof.
  intros H. unfold kat. case_decide as E.
  - subst j. by rewrite (nth_lookup_Some _ _ _ x (list_lookup_insert_eq l i x H)).
  - by rewrite !nth_lookup, list_lookup_insert_ne.
Qed.

Lemma kat_swap l i j k :
  i < length l -> j < length l ->
  kat (lswap i j l) k = if decide (j = k) then kat l i else if decide (i = k) then kat l j else kat l k.
Proof. intros Hi Hj. unfold lswap. by rewrite !kat_insert by (rewrite ?length_insert; done). Qed.

(** Writing over a cell exchanges its old value for the new one. *)
Lemma insert_exchange {A} (l : list A) i x y :
  l !! i = Some x -> x :: <[i := y]> l ≡ₚ y :: l.
Proof.
  revert i. induction l as [|z l IH]; intros [|i] H; simplify_eq/=; [constructor|].
  etrans; [apply Permutation_swap|]. rewrite (IH i H). constructor.
Qed.

Lemma swap_perm {A} (l : list A) i j a b :
  l !! i = Some a -> l !! j = Some b -> <[j := a]> (<[i := b]> l) ≡ₚ l.
Proof.
  intros Ha Hb. apply (Permutation_cons_inv (a := b)).
  assert (<[i := b]> l !! j = Some b) as Hj.
  { destruct (decide (i = j)) as [->|]; [apply list_lookup_insert_eq; eauto using lookup_lt_Some|].
    by rewrite list_lookup_insert_ne. }
  rewrite (insert_exchange _ _ _ _ Hj). by apply insert_exchange.
Qed.

(** The used part of the array, as a list. *)
Definition used (n : nat) (l : list heapnode) : list heapnode := take n (drop 1 l).

Lemma used_insert n l i x :
  1 <= i <= n -> used n (<[i := x]> l) = <[i - 1 := x]> (used n l).
Proof.
  intros H. unfold used. destruct l as [|z l]; [by destruct n, (i - 1), i|].
  destruct i as [|i]; [lia|]. simpl. rewrite !drop_0, Nat.sub_0_r. apply take_insert_lt. lia.
Qed.

Lemma used_lookup n l i : 1 <= i <= n -> used n l !! (i - 1) = l !! i.
Proof. intros H. unfold used. rewrite lookup_take_lt, lookup_drop by lia. f_equal. lia. Qed.

Lemma used_swap n l i j :
  n < length l -> 1 <= i <= n -> 1 <= j <= n -> used n (lswap i j l) ≡ₚ used n l.
Proof.
  intros Hl Hi Hj. unfold lswap. rewrite !used_insert by done.
  apply swap_perm; rewrite used_lookup by done; apply nth_look; lia.
Qed.

Section steps.
Implicit Types (h : heap) (i j : nat).

Lemma wp_hget i (Q : heapnode -> heap -> Prop) h :
  i < length (nodes h) -> Q (nth i (nodes h) heapnode_zero) h -> wp (hget i) Q h.
Proof. intros H HQ. unfold wp, hget. by rewrite nth_look. Qed.

Lemma wp_hset i x (Q : unit -> heap -> Prop) h :
  i < length (nodes h) -> Q tt (h <| nodes := <[i := x]> (nodes h) |>) -> wp (hset i x) Q h.
Proof. intros H HQ. unfold wp, hset. by rewrite (proj2 (Nat.ltb_lt _ _) H). Qed.

Lemma wp_swap i j (Q : unit -> heap -> Prop) h :
  i < length (nodes h) -> j < length (nodes h) ->
  Q tt (h <| nodes := lswap i j (nodes h) |>) -> wp (heapnode_swap i j) Q h.
Proof.
  intros Hi Hj HQ. unfold heapnode_swap. wp_steps. apply wp_hget; [done|]. wp_steps.
  apply wp_hget; [done|]. wp_steps. apply wp_hset; [done|].
  apply wp_hset; [simpl; by rewrite length_insert|]. exact HQ.
Qed.
End steps.

(** What a sift of the first [n] nodes may do. *)
Record sifted (n : nat) (h h' : heap) : Prop := {
  sf_count : nodecount h' = nodecount h;
  sf_max : maxsize h' = maxsize h;
  sf_len : length (nodes h') = length (nodes h);
  sf_perm : used n (nodes h') ≡ₚ used n (nodes h) }.

Lemma sifted_refl n h : sifted n h h.
Proof. by split. Qed.

Lemma sifted_swap n i j h h' :
  n < length (nodes h) -> 1 <= i <= n -> 1 <= j <= n ->
  sifted n (h <| nodes := lswap i j (nodes h) |>) h' -> sifted n h h'.
Proof.
  intros Hn Hi Hj [H1 H2 H3 H4]; simpl in *.
  split; [done|done|by rewrite H3, length_lswap|by rewrite H4, used_swap].
Qed.

(** ** Sift up *)
(** Order holds except between [i] and its parent. *)
Definition up_ok (n : nat) (K : nat -> timeval) (i : nat) : Prop :=
  (forall j, 2 <= j <= n -> j <> i -> tle (K (j / 2)) (K j)) /\
  (forall j, 2 <= j <= n -> j / 2 = i -> 2 <= i -> tle (K (i / 2)) (K j)).

Lemma up_ok_swap n l i :
  2 <= i <= n -> n < length l -> up_ok n (kat l) i -> timer_lt (kat l i) (kat l (i / 2)) = true ->
  up_ok n (kat (lswap i (i / 2) l)) (i / 2).
Proof.
  intros Hi Hn [H1 H2] Hlt. apply tlt_le in Hlt. half.
  split; intros j Hj Hne; [|intros Hp]; rewrite !kat_swap by lia; half.
  - destruct (decide (i / 2 = j)); [lia|].
    destruct (decide (i = j)) as [<-|]; [by rewrite !decide_True by lia|].
    destruct (decide (i / 2 = j / 2)) as [E|]; [eapply tle_trans; [exact Hlt|]; rewrite E; apply H1; lia|].
    destruct (decide (i = j / 2)) as [E|]; [apply H2; lia|].
    apply H1; lia.
  - rewrite !(decide_False (P := i / 2 = i / 2 / 2)), !(decide_False (P := i = i / 2 / 2)) by lia.
    rewrite (decide_False (P := i / 2 = j)) by lia.
    assert (tle (kat l (i / 2 / 2)) (kat l (i / 2))) as Hg by (apply H1; lia).
    destruct (decide (i = j)) as [|]; [done|].
    eapply tle_trans; [exact Hg|]. rewrite <- Hne. apply H1; lia.
Qed.

Lemma up_ok_done n K i : up_ok n K i -> tle (K (i / 2)) (K i) -> heap_ordered n K.
Proof. intros [H _] Hi j Hj. destruct (decide (j = i)) as [->|]; auto. Qed.

Lemma sift_up_wp n fuel i h :
  1 <= i <= n -> i <= fuel -> n < length (nodes h) -> up_ok n (kat (nodes h)) i ->
  wp (sift_up fuel i)
    (fun _ h' => sifted n h h' /\ heap_ordered n (kat (nodes h'))) h.
Proof.
  revert i h. induction fuel as [|fuel IH]; intros i h Hi Hf Hn Hup; [lia|].
  assert (i / 2 < i) by (half; lia).
  simpl. destruct (Nat.ltb_spec 1 i) as [Hgt|Hle].
  2: { wp_steps. split; [apply sifted_refl|]. intros j Hj. apply Hup; lia. }
  wp_steps. apply wp_hget; [lia|]. wp_steps. apply wp_hget; [lia|].
  fold (kat (nodes h) i) (kat (nodes h) (i / 2)). destruct (timer_lt _ _) eqn:Hlt.
  - wp_steps. apply wp_swap; [lia..|]. half.
    eapply wp_mono; [apply IH; simpl; rewrite ?length_lswap; [lia..|apply up_ok_swap; (lia || done)]|].
    intros _ h' [Hs Ho]. split; [|done]. eapply sifted_swap; [..|exact Hs]; lia.
  - wp_steps. split; [apply sifted_refl|]. exact (up_ok_done _ _ _ Hup Hlt).
Qed.

(** ** Sift down *)
(** Order holds except between [i] and its children. *)
Definition down_ok (n : nat) (K : nat -> timeval) (i : nat) : Prop :=
  (forall j, 2 <= j <= n -> j / 2 <> i -> tle (K (j / 2)) (K j)) /\
  (forall j, 2 <= j <= n -> j / 2 = i -> 2 <= i -> tle (K (i / 2)) (K j)).

(** [least] is where the smallest of [i] and its children is. *)
Definition is_least (n : nat) (K : nat -> timeval) (i least : nat) : Prop :=
  (least = i \/ (least / 2 = i /\ 2 <= least <= n)) /\
  tle (K least) (K i) /\ (forall j, 2 <= j <= n -> j / 2 = i -> tle (K least) (K j)).

Lemma least_of_wp i h :
  1 <= i <= nodecount h -> nodecount h < length (nodes h) ->
  wp (least_of i) (fun least h' => h' = h /\ is_least (nodecount h) (kat (nodes h)) i least) h.
Proof.
  intros Hi Hn. unfold least_of. wp_steps.
  set (n := nodecount h) in *. set (K := kat (nodes h)).
  assert (forall j, j / 2 = i -> j = 2 * i \/ j = 2 * i + 1) as Hch by (intros j Hj; half; lia).
  assert (2 * i / 2 = i /\ (2 * i + 1) / 2 = i) as [Hl Hr] by (half; lia).
  destruct (Nat.leb_spec (2 * i) n).
  2: { destruct (Nat.leb_spec (2 * i + 1) n); [lia|]. wp_steps. split; [done|].
       split; [by left|]. split; [apply tle_refl|]. intros j Hj Hc. destruct (Hch j Hc); lia. }
  wp_steps. apply wp_hget; [lia|]. wp_steps. apply wp_hget; [lia|]. wp_steps.
  fold (kat (nodes h) i) (kat (nodes h) (2 * i)). fold K. cbv beta.
  set (m := if timer_lt (K (2 * i)) (K i) then 2 * i else i).
  assert (tle (K m) (K i) /\ tle (K m) (K (2 * i)) /\ (m = i \/ m = 2 * i)) as (Hm1 & Hm2 & Hm).
  { unfold m. destruct (timer_lt (K (2 * i)) (K i)) eqn:E; split_and!; eauto using tle_refl, tlt_le. }
  clearbody m. destruct (Nat.leb_spec (2 * i + 1) n).
  2: { wp_steps. split; [done|]. split; [destruct Hm as [->| ->]; [by left|right; lia]|].
       split; [done|]. intros j Hj Hc. destruct (Hch j Hc) as [->| ->]; [done|lia]. }
  wp_steps. apply wp_hget; [lia|]. wp_steps. apply wp_hget; [lia|]. wp_steps.
  fold (kat (nodes h) (2 * i + 1)) (kat (nodes h) m). fold K.
  destruct (timer_lt (K (2 * i + 1)) (K m)) eqn:E; split; try done; split; try (right; lia).
  - apply tlt_le in E. split; [by eapply tle_trans|].
    intros j Hj Hc. destruct (Hch j Hc) as [->| ->]; [by eapply tle_trans|apply tle_refl].
  - destruct Hm as [->| ->]; [by left|right; lia].
  - split; [done|]. intros j Hj Hc. by destruct (Hch j Hc) as [->| ->].
Qed.

Lemma down_ok_swap n l i m :
  1 <= i <= n -> n < length l -> down_ok n (kat l) i -> is_least n (kat l) i m -> m <> i ->
  down_ok n (kat (lswap i m l)) m.
Proof.
  intros Hi Hn [H1 H2] (Hm & Hmi & Hmin) Hne. destruct Hm as [|[Hm Hr]]; [done|].
  assert (i < m) by (half; lia).
  split; intros j Hj Hc; [|intros Hm2]; rewrite !kat_swap by lia.
  - rewrite (decide_False (P := m = j / 2)) by done.
    destruct (decide (m = j)) as [<-|]; [by rewrite decide_True by done|].
    destruct (decide (i = j / 2)) as [E|].
    + rewrite decide_False by (half; lia). by apply Hmin.
    + destruct (decide (i = j)) as [<-|]; [|by apply H1]. apply H2; [lia|done|lia].
  - rewrite (decide_False (P := m = m / 2)), (decide_True (P := i = m / 2)) by (half; lia).
    rewrite (decide_False (P := m = j)), (decide_False (P := i = j)) by (half; lia).
    rewrite <- Hc. apply H1; [lia|]. lia.
Qed.

Lemma down_ok_done n K i : down_ok n K i -> is_least n K i i -> heap_ordered n K.
Proof. intros [H _] (_ & _ & Hi) j Hj. destruct (decide (j / 2 = i)) as [E|]; [rewrite E|]; auto. Qed.

Lemma heapify_wp fuel i h :
  1 <= i <= nodecount h -> nodecount h <= fuel + i -> nodecount h < length (nodes h) ->
  down_ok (nodecount h) (kat (nodes h)) i ->
  wp (heap_heapify fuel i)
    (fun _ h' => sifted (nodecount h) h h' /\ heap_ordered (nodecount h) (kat (nodes h'))) h.
Proof.
  revert i h. induction fuel as [|fuel IH]; intros i h Hi Hf Hn Hd; simpl; wp_steps;
    (eapply wp_mono; [by apply least_of_wp|]); intros m ? [-> Hm];
    (destruct (Nat.eqb_spec m i) as [->|Hne];
      [wp_steps; split; [apply sifted_refl|by eapply down_ok_done]|]);
    destruct (Hm) as [[|[Hp Hr]] _]; try done; assert (i < m) by (half; lia); [lia|].
  wp_steps. apply wp_swap; [lia..|].
  eapply wp_mono; [apply IH; simpl; rewrite ?length_lswap; [lia..|by apply down_ok_swap]|].
  intros _ h' [Hs Ho]. split; [|done]. eapply sifted_swap; [..|exact Hs]; lia.
Qed.

(** ** The operations *)
Lemma kat_same l l' i : l !! i = l' !! i -> kat l i = kat l' i.
Proof. intros H. unfold kat. by rewrite !nth_lookup, H. Qed.

Lemma ordered_same n l l' :
  (forall i, 1 <= i <= n -> l !! i = l' !! i) -> heap_ordered n (kat l) -> heap_ordered n (kat l').
Proof.
  intros Hl Ho j Hj. assert (1 <= j / 2 <= n) by (half; lia).
  rewrite <- !(kat_same l l') by (apply Hl; lia). by apply Ho.
Qed.

Lemma used_same n l l' :
  (forall i, 1 <= i <= n -> l !! i = l' !! i) -> used n l = used n l'.
Proof.
  intros Hl. apply list_eq. intros i. unfold used. destruct (decide (i < n)).
  - rewrite !lookup_take_lt, !lookup_drop by done. apply Hl. lia.
  - by rewrite !lookup_take_ge by lia.
Qed.

(** The doubling keeps the nodes and makes room. *)
Definition grown (h : heap) : heap :=
  if maxsize h <=? nodecount h + 1 then
    h <| maxsize := maxsize h * 2 |> <| nodes := resize (maxsize h * 2) heapnode_zero (nodes h) |>
  else h.

Lemma grown_spec h :
  heap_ok h ->
  nodecount (grown h) = nodecount h /\ nodecount h + 1 < maxsize (grown h) /\
  maxsize (grown h) <= length (nodes (grown h)) /\
  (forall i, 1 <= i <= nodecount h -> nodes h !! i = nodes (grown h) !! i).
Proof.
  intros [Hr Ha _]. unfold grown. destruct (Nat.leb_spec (maxsize h) (nodecount h + 1)); simpl.
  - rewrite length_resize. split_and!; [done|lia|lia|]. intros i Hi.
    by rewrite lookup_resize by lia.
  - split_and!; (done || lia).
Qed.

Lemma used_snoc n l x :
  S n < length l -> used (S n) (<[S n := x]> l) ≡ₚ x :: used n l.
Proof.
  intros Hl. rewrite used_insert by lia. unfold used. replace (S n - 1) with n by lia.
  destruct (lookup_lt_is_Some_2 (drop 1 l) n) as [y Hy]; [rewrite length_drop; lia|].
  rewrite (take_S_r _ _ y Hy), insert_app_r_alt by (rewrite length_take; lia).
  rewrite length_take, length_drop. replace (n - n `min` (length l - 1)) with 0 by lia.
  simpl. by rewrite Permutation_app_comm.
Qed.

Lemma heap_insert_wp k que ino h :
  heap_ok h ->
  wp (heap_insert k que ino) (fun _ h' =>
    heap_ok h' /\ heap_elems h' ≡ₚ Build_heapnode k que (i32 ino) :: heap_elems h) h.
Proof.
  intros Hk. destruct (grown_spec h Hk) as (Hc & Hm & Hl & Hsame). destruct Hk as [Hr Ha Ho].
  unfold heap_insert. wp_steps.
  eapply (wp_eq _ _ (grown h)). { unfold grown. by destruct (maxsize h <=? nodecount h + 1). }
  wp_steps. set (n := nodecount h) in *. set (l := nodes (grown h)) in *.
  set (x := Build_heapnode k que (i32 ino)).
  apply wp_hset; [simpl; fold l; lia|]. simpl. fold l.
  assert (heap_ordered n (kat (<[n + 1 := x]> l))) as Hn.
  { eapply ordered_same; [|exact Ho]. intros i Hi. rewrite list_lookup_insert_ne by lia. auto. }
  eapply wp_mono; [apply (sift_up_wp (n + 1)); simpl; rewrite ?length_insert; [lia..|]|].
  { split; [intros j Hj Hne; apply Hn; lia|]. intros j Hj Hjn. half. lia. }
  intros _ h' [[S1 S2 S3 S4] Ho']. simpl in *. rewrite length_insert in S3. split.
  - split; rewrite ?S1, ?S2, ?S3; (done || (simpl; fold l; lia) || lia).
  - unfold heap_elems. fold (used (nodecount h') (nodes h')). rewrite S1. simpl.
    rewrite S4, Nat.add_1_r, used_snoc, <- (used_same n (nodes h) l Hsame) by lia. done.
Qed.

(** The root is least. *)
Lemma root_least n K j : heap_ordered n K -> 1 <= j <= n -> tle (K 1) (K j).
Proof.
  intros Ho. induction j as [j IH] using lt_wf_ind. intros Hj.
  destruct (decide (j = 1)) as [->|]; [apply tle_refl|].
  assert (1 <= j / 2 < j) by (half; lia).
  eapply tle_trans; [apply (IH (j / 2)); lia|apply Ho; lia].
Qed.

Lemma elem_used n l x :
  n < length l -> x ∈ used n l -> exists i, 1 <= i <= n /\ nth i l heapnode_zero = x.
Proof.
  intros Hn [i Hi]%list_elem_of_lookup. pose proof (lookup_lt_Some _ _ _ Hi) as Hlt.
  unfold used in *. rewrite length_take, length_drop in Hlt.
  rewrite lookup_take_lt, lookup_drop in Hi by lia.
  exists (1 + i). split; [lia|]. by apply nth_lookup_Some.
Qed.

Lemma heap_least h x :
  heap_ok h -> x ∈ heap_elems h -> tle (kat (nodes h) 1) (key x).
Proof.
  intros [Hr Ha Ho] Hx. apply elem_used in Hx as (i & Hi & <-); [|lia].
  by apply (root_least (nodecount h) (kat (nodes h))).
Qed.

Lemma used_pop n l :
  1 <= n < length l ->
  used n l ≡ₚ nth 1 l heapnode_zero :: used (n - 1) (<[1 := nth n l heapnode_zero]> l).
Proof.
  intros Hn. destruct l as [|z [|a l]]; [simpl in *; lia..|]. destruct n as [|n]; [lia|].
  unfold used. simpl. rewrite Nat.sub_0_r. constructor. destruct n as [|n]; [done|].
  simpl in *. destruct (lookup_lt_is_Some_2 l n) as [y Hy]; [lia|].
  rewrite (nth_lookup_Some _ _ _ _ Hy), (take_S_r _ _ y Hy). apply Permutation_app_comm.
Qed.

Lemma heap_extract_wp h :
  heap_ok h -> 0 < nodecount h ->
  wp heap_extract_min (fun m h' =>
    heap_ok h' /\ heap_elems h ≡ₚ m :: heap_elems h' /\ nodecount h' = nodecount h - 1 /\
    m = nth 1 (nodes h) heapnode_zero) h.
Proof.
  intros [Hr Ha Ho] Hn. unfold heap_extract_min. wp_steps. set (n := nodecount h) in *.
  destruct (Nat.eqb_spec n 0); [lia|]. wp_steps. apply wp_hget; [lia|]. wp_steps.
  apply wp_hget; [lia|]. wp_steps. apply wp_hset; [lia|]. simpl.
  set (l := <[1 := nth n (nodes h) heapnode_zero]> (nodes h)).
  set (h1 := Build_heap (maxsize h) (n - 1) l).
  assert (length l = length (nodes h)) as El by apply length_insert.
  enough (wp (heap_heapify n 1) (fun _ h' => sifted (n - 1) h1 h' /\
      heap_ordered (n - 1) (kat (nodes h'))) h1) as Hw.
  { wp_steps. eapply wp_mono; [exact Hw|]. intros _ h' [[S1 S2 S3 S4] Ho']. simpl in *. wp_steps.
    split_and!; [split; rewrite ?S1, ?S2, ?S3, ?El; (lia || done)| |done|done].
    unfold heap_elems. rewrite S1. fold n. fold (used n (nodes h)) (used (n - 1) (nodes h')).
    rewrite S4. apply used_pop. lia. }
  destruct (decide (n = 1)) as [E1|].
  - unfold h1. rewrite E1. unfold heap_heapify, least_of. simpl. wp_steps. simpl. wp_steps. simpl. wp_steps. simpl. split; [apply sifted_refl|]. intros j Hj. lia.
  - apply (heapify_wp n 1 h1); simpl; [lia..|]. split; intros j Hj Hc; [|lia].
    assert (2 <= j / 2 < j) by (half; lia). unfold l. rewrite !kat_insert by lia.
    rewrite !decide_False by lia. apply Ho. lia.
Qed.

(** ** The priority queue the heap implements *)
Inductive heap_op := OpInsert (k : timeval) (que inode : Z) | OpExtract.

Definition heap_do (op : heap_op) : HM (option heapnode) :=
  match op with
  | OpInsert k q i => heap_insert k q i;; mret None
  | OpExtract => m ← heap_extract_min; mret (Some m)
  end.

Fixpoint heap_run (ops : list heap_op) : HM (list (option heapnode)) :=
  match ops with
  | [] => mret []
  | op :: ops => r ← heap_do op; rs ← heap_run ops; mret (r :: rs)
  end.

(** The specification: a multiset of timers (a list up to permutation). *)
Inductive pq_step (q : list heapnode) : heap_op -> option heapnode -> list heapnode -> Prop :=
  | pq_insert k que ino q' :
      q' ≡ₚ Build_heapnode k que (i32 ino) :: q -> pq_step q (OpInsert k que ino) None q'
  | pq_extract m q' :
      q ≡ₚ m :: q' -> Forall (fun x => tle (key m) (key x)) q -> pq_step q OpExtract (Some m) q'
  | pq_extract_empty : q = [] -> pq_step q OpExtract (Some heapnode_zero) [].

Inductive pq_run (q : list heapnode) : list heap_op -> list (option heapnode) -> list heapnode -> Prop :=
  | pq_run_nil : pq_run q [] [] q
  | pq_run_cons op r q1 ops rs q2 :
      pq_step q op r q1 -> pq_run q1 ops rs q2 -> pq_run q (op :: ops) (r :: rs) q2.

Lemma heap_create_ok n : 1 <= n -> heap_ok (heap_create n).
Proof.
  intros H. split; simpl; [lia|rewrite length_replicate; lia|]. intros j Hj. lia.
Qed.

Lemma heap_elems_nil h : nodecount h = 0 -> heap_elems h = [].
Proof. unfold heap_elems. by intros ->. Qed.

Lemma heap_do_step op h :
  heap_ok h ->
  wp (heap_do op) (fun r h' => heap_ok h' /\ pq_step (heap_elems h) op r (heap_elems h')) h.
Proof.
  intros Hk. destruct op as [k q i|]; simpl; wp_steps.
  - eapply wp_mono; [by apply heap_insert_wp|]. intros _ h' [? ?]. wp_steps. split; [done|by constructor].
  - destruct (decide (nodecount h = 0)) as [E|].
    + unfold heap_extract_min. wp_steps. rewrite E. simpl. wp_steps. split; [done|].
      rewrite heap_elems_nil by done. by constructor.
    + eapply wp_mono; [apply heap_extract_wp; [done|lia]|]. intros m h' (? & ? & _ & ->). wp_steps.
      split; [done|]. constructor; [done|]. apply Forall_forall. intros x. by apply heap_least.
Qed.

(** C22: Refinement: from a heap created with any positive size, every
    sequence of insertions and extractions runs to completion inside the
    allocated array (however often it doubles) and gives the results a
    priority queue gives: an extraction returns a least timer of those
    inserted and not yet extracted, and the zero node when there is none. *)
Theorem heap_refines_priority_queue (size : nat) (ops : list heap_op) :
  1 <= size ->
  exists rs h', heap_run ops (heap_create size) = Done (rs, h') /\
    heap_ok h' /\ pq_run [] ops rs (heap_elems h').
Proof.
  intros Hs. change [] with (heap_elems (heap_create size)).
  generalize (heap_create_ok size Hs). generalize (heap_create size).
  induction ops as [|op ops IH]; intros h Hk; [exists [], h; split_and!; [done|done|apply pq_run_nil]|].
  pose proof (heap_do_step op h Hk) as Hd. apply wp_done in Hd as (r & h1 & E1 & Hk1 & Hstep).
  destruct (IH h1 Hk1) as (rs & h2 & E2 & Hk2 & Hrun).
  exists (r :: rs), h2. split; [|by split; [|econstructor]].
  simpl. unfold mbind, st_bind. by rewrite E1, E2.
Qed.

Lemma heap_refines_priority_queue_witness :
  1 <= 2 /\ exists rs h',
    heap_run [OpInsert (Build_timeval 5 0) 2 7; OpInsert (Build_timeval 3 9) 2 8;
              OpInsert (Build_timeval 3 1) 3 9; OpExtract] (heap_create 2) = Done (rs, h') /\
    heap_ok h' /\
    pq_run [] [OpInsert (Build_timeval 5 0) 2 7; OpInsert (Build_timeval 3 9) 2 8;
               OpInsert (Build_timeval 3 1) 3 9; OpExtract] rs (heap_elems h').
Proof. split; [lia|]. apply heap_refines_priority_queue. lia. Defined.

(** Extract until the heap is empty. *)
Fixpoint heap_drain (n : nat) : HM (list heapnode) :=
  match n with
  | O => mret []
  | S n => m ← heap_extract_min; ms ← heap_drain n; mret (m :: ms)
  end.

(** C23: Draining a well-formed heap gives exactly its timers, in the order
    in which they expire, and leaves it empty: equivalence with sorting. *)
Theorem heap_drain_sorts (h : heap) :
  heap_ok h ->
  exists ms h', heap_drain (nodecount h) h = Done (ms, h') /\
    nodecount h' = 0 /\ ms ≡ₚ heap_elems h /\
    StronglySorted (fun a b => tle (key a) (key b)) ms.
Proof.
  remember (nodecount h) as n eqn:E. revert h E. induction n as [|n IH]; intros h E Hk.
  - exists [], h. split_and!; [done..| |constructor]. by rewrite heap_elems_nil.
  - pose proof (heap_extract_wp h Hk ltac:(lia)) as He.
    apply wp_done in He as (m & h1 & E1 & Hk1 & Hp & Hn & ->).
    destruct (IH h1 ltac:(lia) Hk1) as (ms & h2 & E2 & Hz & Hp2 & Hs).
    exists (nth 1 (nodes h) heapnode_zero :: ms), h2. split_and!; [|done| |].
    + simpl. unfold mbind, st_bind. by rewrite E1, E2.
    + by rewrite Hp2, Hp.
    + constructor; [done|]. apply Forall_forall. intros x Hx. apply (heap_least h); [done|].
      rewrite Hp, <- Hp2. by right.
Qed.

Definition sample_heap : heap :=
  Build_heap 4 3 (heapnode_zero :: map (fun s => Build_heapnode (Build_timeval s 0) 2 s) [1; 5; 3]%Z).

Lemma heap_drain_sorts_witness :
  heap_ok sample_heap /\ exists ms h', heap_drain 3 sample_heap = Done (ms, h') /\
    nodecount h' = 0 /\ ms ≡ₚ heap_elems sample_heap /\
    StronglySorted (fun a b => tle (key a) (key b)) ms.
Proof.
  assert (heap_ok sample_heap) as H.
  { split; simpl; [lia..|]. intros j Hj. assert (j = 2 \/ j = 3) as [-> | ->] by lia; reflexivity. }
  split; [exact H|]. exact (heap_drain_sorts sample_heap H).
Defined.

(** [heap_min] is the timer the next extraction returns. *)
Lemma heap_min_least h :
  heap_ok h ->
  match heap_min h with
  | None => heap_elems h = []
  | Some m => m = nth 1 (nodes h) heapnode_zero /\ m ∈ heap_elems h /\
              Forall (fun x => tle (key m) (key x)) (heap_elems h)
  end.
Proof.
  intros Hk. unfold heap_min. destruct (Nat.eqb_spec (nodecount h) 0) as [|Hn]; [by apply heap_elems_nil|].
  rewrite nth_look by (destruct Hk; lia). split_and!; [done| |].
  - apply list_elem_of_lookup. exists 0. destruct Hk. fold (used (nodecount h) (nodes h)).
    rewrite <- nth_look by lia. unfold heap_elems. fold (used (nodecount h) (nodes h)).
    apply (used_lookup _ _ 1). lia.
  - apply Forall_forall. intros x. by apply heap_least.
Qed.
