(* ===== verification/Posix.v ===== *)
(** * Processes and files

    The programs of quemngr, iecproxy and sockwrite keep state outside
    themselves: what a process has done to the file system outlives its
    [exit].  They are written in a state monad that keeps the state when the
    process stops.  The second part is the part of the POSIX file interface
    that utils.c, quecontrol.c and quemngr.c use: directories as maps from
    names to inodes, [rename], [link], [unlink], [stat], [readdir], and the
    monotonic clock.  Any call may also fail for a reason of its own: the
    list [os_faults] says which of the next calls do. *)

From S2P Require Import Prelude.
From stdpp Require Export pretty.

Open Scope Z_scope.

(** ** Programs that may exit *)
Definition PR (W A : Type) : Type := W -> outcome A * W.

#[export] Instance pr_ret W : MRet (PR W) := fun A a w => (Done a, w).
#[export] Instance pr_bind W : MBind (PR W) := fun A B k m w =>
  match m w with
  | (Done a, w') => k a w'
  | (Faulted f, w') => (Faulted f, w')
  | (Exited c, w') => (Exited c, w')
  end.

Definition pgets {W A} (f : W -> A) : PR W A := fun w => (Done (f w), w).
Definition pmodify {W} (f : W -> W) : PR W unit := fun w => (Done tt, f w).
Definition pfault {W A} (f : fault) : PR W A := fun w => (Faulted f, w).
Definition pexit {W A} (code : Z) : PR W A := fun w => (Exited code, w).
Definition pskip {W} : PR W unit := mret tt.
Definition pwhen {W} (b : bool) (m : PR W unit) : PR W unit := if b then m else pskip.

(** [ERR_SYS]: log and exit with status 2. *)
Definition ERR_SYS {W A} : PR W A := pexit 2.

(** A program over a part of the state. *)
Definition plift {V W A} (get : W -> V) (put : V -> W -> W) (m : PR V A) : PR W A := fun w =>
  let '(r, v) := m (get w) in (r, put v w).

(** ** Reasoning

    [pwp m Q R F w]: if [m] returns, [Q] holds of result and state; if the
    process exits, [R] holds of the state it leaves; and it faults only in the
    ways [F] allows. *)
Definition pwp {W A} (m : PR W A) (Q : A -> W -> Prop) (R : Z -> W -> Prop) (F : fault -> Prop) (w : W) : Prop :=
  match m w with
  | (Done a, w') => Q a w'
  | (Exited c, w') => R c w'
  | (Faulted f, _) => F f
  end.
Definition no_fault (f : fault) : Prop := False.

Section pwp_rules.
Context {W A B : Type}.
Implicit Types (m : PR W A) (k : A -> PR W B) (w : W).

Lemma pwp_ret (a : A) (Q : A -> W -> Prop) R F w : Q a w -> pwp (mret a) Q R F w.
Proof. done. Qed.

Lemma pwp_bind m k Q R F w : pwp m (fun a w' => pwp (k a) Q R F w') R F w -> pwp (m ≫= k) Q R F w.
Proof. unfold pwp, mbind, pr_bind. by destruct (m w) as [[a|f|c] w']. Qed.

Lemma pwp_mono m (Q Q' : A -> W -> Prop) (R R' : Z -> W -> Prop) F w :
  pwp m Q R F w -> (forall a w', Q a w' -> Q' a w') -> (forall c w', R c w' -> R' c w') ->
  pwp m Q' R' F w.
Proof. unfold pwp. destruct (m w) as [[a|f|c] w']; eauto. Qed.

Lemma pwp_faults m (Q : A -> W -> Prop) R (F F' : fault -> Prop) w :
  pwp m Q R F w -> (forall f, F f -> F' f) -> pwp m Q R F' w.
Proof. unfold pwp. destruct (m w) as [[a|f|c] w']; eauto. Qed.

Lemma pwp_gets (f : W -> A) (Q : A -> W -> Prop) R F w : Q (f w) w -> pwp (pgets f) Q R F w.
Proof. done. Qed.

Lemma pwp_exit (c : Z) (Q : A -> W -> Prop) (R : Z -> W -> Prop) F w : R c w -> pwp (pexit c) Q R F w.
Proof. done. Qed.
End pwp_rules.

Lemma pwp_modify {W} (f : W -> W) (Q : unit -> W -> Prop) R F w : Q tt (f w) -> pwp (pmodify f) Q R F w.
Proof. done. Qed.

Lemma pwp_when {W} (b : bool) (m : PR W unit) (Q : unit -> W -> Prop) R F w :
  (b = true -> pwp m Q R F w) -> (b = false -> Q tt w) -> pwp (pwhen b m) Q R F w.
Proof. destruct b; intros H1 H2; [by apply H1|by apply H2]. Qed.

Lemma pwp_lift {V W A} (get : W -> V) (put : V -> W -> W) (m : PR V A)
    (Q : A -> W -> Prop) (R : Z -> W -> Prop) F w :
  pwp m (fun a v => Q a (put v w)) (fun c v => R c (put v w)) F (get w) ->
  pwp (plift get put m) Q R F w.
Proof. unfold pwp, plift. by destruct (m (get w)) as [[a|f|c] v]. Qed.

(** *** However a program ends

    [ends m Q R w]: if [m] returns, [Q] holds; if it ends in any other way, by
    [exit] or by a fault, [R] holds of the state it leaves behind. *)
Definition ends {W A} (m : PR W A) (Q : A -> W -> Prop) (R : W -> Prop) (w : W) : Prop :=
  match m w with (Done a, w') => Q a w' | (_, w') => R w' end.

Section ends_rules.
Context {W A B : Type}.
Implicit Types (m : PR W A) (k : A -> PR W B) (w : W) (R : W -> Prop).

Lemma ends_bind m k Q R w : ends m (fun a w' => ends (k a) Q R w') R w -> ends (m ≫= k) Q R w.
Proof. unfold ends, mbind, pr_bind. by destruct (m w) as [[a|f|c] w']. Qed.

Lemma ends_mono m (Q Q' : A -> W -> Prop) R R' w :
  ends m Q R w -> (forall a w', Q a w' -> Q' a w') -> (forall w', R w' -> R' w') -> ends m Q' R' w.
Proof. unfold ends. destruct (m w) as [[a|f|c] w']; eauto. Qed.

(** A program without faults. *)
Lemma ends_pwp m (Q : A -> W -> Prop) R w : pwp m Q (fun _ => R) no_fault w -> ends m Q R w.
Proof. unfold ends, pwp. by destruct (m w) as [[a|f|c] w']. Qed.

Lemma pwp_ends m (Q Q' : A -> W -> Prop) (R : Z -> W -> Prop) R' F w :
  pwp m Q R F w -> ends m Q' R' w ->
  pwp m (fun a w' => Q a w' /\ Q' a w') (fun c w' => R c w' /\ R' w') F w.
Proof. unfold ends, pwp. by destruct (m w) as [[a|f|c] w']. Qed.
End ends_rules.

Ltac pwp_step :=
  lazymatch goal with
  | |- pwp (mret _) _ _ _ _ => apply pwp_ret
  | |- pwp pskip _ _ _ _ => apply pwp_ret
  | |- pwp (_ ≫= _) _ _ _ _ => apply pwp_bind
  | |- pwp (pgets _) _ _ _ _ => apply pwp_gets
  | |- pwp (pmodify _) _ _ _ _ => apply pwp_modify
  | |- pwp (pexit _) _ _ _ _ => apply pwp_exit
  | |- pwp ERR_SYS _ _ _ _ => apply pwp_exit
  end; cbv beta.
Ltac pwp_steps := repeat pwp_step.

(** ** The file system *)

(** A path, as the directory it names and the entry in it. *)
Abbreviation path := (string * string)%type.
Abbreviation ino := Z.

Record timespec := { ts_sec : Z; ts_nsec : Z }.

Record os := {
  os_dirs : gset string;             (* directories that exist *)
  os_ents : gmap path ino;           (* their entries *)
  os_mtime : gmap ino timespec;      (* modification times *)
  os_clock : list timespec;          (* the next readings of the monotonic clock *)
  os_faults : list bool;             (* which of the next calls fail *)
}.

#[export] Instance os_rebuild : Rebuild os := fun o =>
  Build_os (os_dirs o) (os_ents o) (os_mtime o) (os_clock o) (os_faults o).
#[export] Instance upd_os_ents : Updater os_ents. Proof. solve_updater. Defined.
#[export] Instance upd_os_clock : Updater os_clock. Proof. solve_updater. Defined.
#[export] Instance upd_os_faults : Updater os_faults. Proof. solve_updater. Defined.

(** Whether the next call fails of its own. *)
Definition fails : PR os bool := fun o =>
  match os_faults o with
  | [] => (Done false, o)
  | b :: l => (Done b, o <| os_faults := l |>)
  end.

(** A call that does [act], if it can and is let to. *)
Definition syscall (can : os -> bool) (act : os -> os) : PR os Z :=
  f ← fails; ok ← pgets can;
  if negb f && ok then pmodify act;; mret 0 else mret (-1).

Definition open_dir (d : string) : PR os Z := syscall (fun o => bool_decide (d ∈ os_dirs o)) id.
Definition fsync : PR os Z := syscall (fun _ => true) id.
Definition close : PR os Z := syscall (fun _ => true) id.

(** Two names of one inode: [rename] does nothing and succeeds. *)
Definition rename_ents (src dst : path) (m : gmap path ino) : gmap path ino :=
  match m !! src with
  | Some i => if bool_decide (m !! dst = Some i) then m else <[dst := i]> (delete src m)
  | None => m
  end.
Definition rename (src dst : path) : PR os Z :=
  syscall (fun o => bool_decide (is_Some (os_ents o !! src)) && bool_decide (dst.1 ∈ os_dirs o))
          (fun o => o <| os_ents := rename_ents src dst (os_ents o) |>).

Definition link_ents (src dst : path) (m : gmap path ino) : gmap path ino :=
  match m !! src with Some i => <[dst := i]> m | None => m end.
Definition link (src dst : path) : PR os Z :=
  syscall (fun o => bool_decide (is_Some (os_ents o !! src)) && bool_decide (os_ents o !! dst = None)
                    && bool_decide (dst.1 ∈ os_dirs o))
          (fun o => o <| os_ents := link_ents src dst (os_ents o) |>).

Definition unlink (p : path) : PR os Z :=
  syscall (fun o => bool_decide (is_Some (os_ents o !! p)))
          (fun o => o <| os_ents := delete p (os_ents o) |>).

(** [stat] of a file: its inode and modification time. *)
Definition stat_file (p : path) : PR os (option (ino * timespec)) :=
  f ← fails; o ← pgets id;
  mret (if f : bool then None else
        i ← os_ents o !! p; Some (i, default (Build_timespec 0 0) (os_mtime o !! i))).

(** [clock_gettime(CLOCK_MONOTONIC)]. *)
Definition clock_gettime : PR os (option timespec) :=
  f ← fails;
  if f : bool then mret None
  else fun o => match os_clock o with
                | [] => (Done (Some (Build_timespec 0 0)), o)
                | [t] => (Done (Some t), o)
                | t :: l => (Done (Some t), o <| os_clock := l |>)
                end.

(** Directory entries, in whatever order the file system returns them. *)
Class Readdir := {
  listing : list (string * ino) -> list (string * ino);
  listing_perm l : listing l ≡ₚ l;
}.

Definition in_dir (d : string) (m : gmap path ino) : list (string * ino) :=
  omap (fun '((d', n), i) => if bool_decide (d' = d) then Some (n, i) else None) (map_to_list m).

(** Every directory also lists itself and its parent. *)
Definition dot_entries : list (string * ino) := [("."%string, 0); (".."%string, 0)].

Definition readdir {RD : Readdir} (d : string) : PR os (option (list (string * ino))) :=
  r ← open_dir d;
  if r =? 0 then m ← pgets os_ents; mret (Some (listing (dot_entries ++ in_dir d m))) else mret None.

(** The name of a message file: its inode number in decimal. *)
Definition ino_name (i : ino) : string := pretty i.

Lemma ino_name_inj i j : ino_name i = ino_name j -> i = j.
Proof. apply (inj pretty). Qed.

(** It consists of digits, after a sign if it is negative. *)
Lemma pretty_codes (z : Z) : Forall (fun c => c = 45 \/ 48 <= c <= 57) (codes (pretty z)).
Proof.
  set (P := fun c => c = 45 \/ 48 <= c <= 57).
  assert (forall x s, Forall P (codes s) -> Forall P (codes (pretty_N_go x s))) as Hgo.
  { intros x. induction (N.lt_wf_0 x) as [x _ IH]. intros s Hs.
    destruct (decide (0 < x)%N) as [Hx|Hx]; [|by replace x with 0%N by lia].
    rewrite pretty_N_go_step by done. apply IH; [by apply N.div_lt|].
    constructor; [|done]. unfold P, pretty_N_char. repeat case_match; cbn; lia. }
  assert (forall x : N, Forall P (codes (pretty x))) as Hn.
  { intros x. unfold pretty, pretty_N. case_decide; [|apply Hgo; constructor]. constructor; [|constructor]. unfold P. cbn. lia. }
  destruct z as [|p|p]; [|apply Hn|].
  - constructor; [|constructor]. unfold P. cbn. lia.
  - constructor; [by left|]. apply Hn.
Qed.

(** ** Rules for the calls *)
Section calls.
Implicit Types (o : os) (p : path).

(** Everything is as in [o], but some of the failures have been used up. *)
Definition same_os o o' : Prop :=
  os_dirs o' = os_dirs o /\ os_ents o' = os_ents o /\ os_mtime o' = os_mtime o /\
  os_clock o' = os_clock o /\ os_faults o' `suffix_of` os_faults o.

#[export] Instance same_os_preorder : PreOrder same_os.
Proof.
  split; unfold same_os.
  - by intros o.
  - intros o1 o2 o3 (? & ? & ? & ? & ?) (? & ? & ? & ? & ?). split_and!; try congruence. by etrans.
Qed.

(** Some call fails of its own: what is still to fail only shrinks. *)
Definition faulty o : Prop := true ∈ os_faults o.

Lemma same_os_faulty o o' : same_os o o' -> faulty o' -> faulty o.
Proof. intros (_ & _ & _ & _ & k & E) H. unfold faulty in *. rewrite E. apply elem_of_app. by right. Qed.

Lemma pwp_fails (Q : bool -> os -> Prop) R F o :
  (forall b o', same_os o o' -> (b = true -> faulty o) -> Q b o') -> pwp fails Q R F o.
Proof.
  intros HQ. unfold pwp, fails. unfold faulty, same_os in HQ. destruct (os_faults o) as [|b l] eqn:E; cbn.
  - apply HQ; [|done]. rewrite E. by split_and!.
  - apply HQ; cbn; [|intros ->; by left]. split_and!; try done. by exists [b].
Qed.

(** A call either succeeds and acts, or changes nothing, and then it could
    not act or failed of its own. *)
Lemma pwp_syscall_why can act (Q : Z -> os -> Prop) R F o :
  (forall o', same_os o o' -> can o' = true -> Q 0 (act o')) ->
  (forall o', same_os o o' -> faulty o \/ can o' = false -> Q (-1) o') ->
  pwp (syscall can act) Q R F o.
Proof.
  intros H0 H1. unfold syscall. pwp_steps. apply pwp_fails. intros b o' Ho Hb. pwp_steps.
  destruct b; cbn [negb andb]; [pwp_steps; auto|]. destruct (can o') eqn:Hc; pwp_steps; auto.
Qed.

Lemma pwp_syscall can act (Q : Z -> os -> Prop) R F o :
  (forall o', same_os o o' -> can o' = true -> Q 0 (act o')) ->
  (forall o', same_os o o' -> Q (-1) o') ->
  pwp (syscall can act) Q R F o.
Proof. intros H0 H1. apply pwp_syscall_why; auto. Qed.

(** What the next reading of the clock gives. *)
Definition clock_now o : timespec := hd (Build_timespec 0 0) (os_clock o).
End calls.
