(* ===== verification/Process.v ===== *)
(** * Processes: descriptors, pipes, children, options

    The part of POSIX the [main] functions of quemngr and iecproxy use to
    start: [getopt], the descriptor table with its rule that a new descriptor
    is the lowest one free, [pipe], [dup], [close], [fork] and [exec]; and the
    code both programs share, which starts a child whose standard input and
    output are pipes. *)

From S2P Require Import Prelude Posix.

Open Scope Z_scope.

(** ** Descriptors *)

(** The lowest descriptor that is not open. *)
Definition new_fd (s : gset Z) : Z :=
  hd (-1) (filter (fun k => k ∉ s) (seqZ 0 (Z.of_nat (size s) + 1))).

Lemma new_fd_spec (s : gset Z) : (new_fd s ∉ s) /\ 0 <= new_fd s.
Proof.
  unfold new_fd. set (l := filter _ _).
  assert (l <> []) as Hl.
  { intros E. assert (list_to_set (seqZ 0 (Z.of_nat (size s) + 1)) ⊆ s) as Hs.
    { intros k Hk. apply elem_of_list_to_set in Hk. destruct (decide (k ∈ s)) as [|Hn]; [done|].
      assert (k ∈ l) as Hkl by (by apply list_elem_of_filter). rewrite E in Hkl. by apply elem_of_nil in Hkl. }
    apply subseteq_size in Hs. rewrite size_list_to_set in Hs by apply NoDup_seqZ.
    rewrite length_seqZ in Hs. lia. }
  destruct l as [|k l'] eqn:E; [done|]. cbn.
  assert (k ∈ l) as Hk by (rewrite E; by left). unfold l in Hk.
  apply list_elem_of_filter in Hk as [Hk Hin%elem_of_seqZ]. split; [done|lia].
Qed.

Lemma new_fd_least (s : gset Z) n :
  0 <= n -> n ∉ s -> (forall k, 0 <= k < n -> k ∈ s) -> new_fd s = n.
Proof.
  intros H0 Hn Hlow. destruct (new_fd_spec s) as [Hs Hp].
  destruct (decide (new_fd s < n)) as [Hlt|Hge]; [destruct Hs; apply Hlow; lia|].
  assert (Z.of_nat (size s) >= n) as Hsz.
  { assert (list_to_set (seqZ 0 n) ⊆ s) as Hsub.
    { intros k Hk. apply elem_of_list_to_set, elem_of_seqZ in Hk. apply Hlow. lia. }
    apply subseteq_size in Hsub. rewrite size_list_to_set in Hsub by apply NoDup_seqZ.
    rewrite length_seqZ in Hsub. lia. }
  unfold new_fd. replace (Z.of_nat (size s) + 1) with (n + (Z.of_nat (size s) + 1 - n)) by lia.
  rewrite seqZ_app by lia. rewrite filter_app.
  replace (filter (fun k => k ∉ s) (seqZ 0 n)) with (@nil Z).
  - rewrite seqZ_cons by lia. rewrite Z.add_0_l, filter_cons_True by done. done.
  - symmetry. apply elem_of_nil_inv. intros k [Hk Hin%elem_of_seqZ]%list_elem_of_filter.
    apply Hk, Hlow. lia.
Qed.

(** ** Options

    [getopt] as the programs use it: every option takes an argument, which is
    the rest of the word or the next word; operands are passed over and [--]
    ends the options. *)
Inductive optres := Opt (c : Z) (arg : bytes) | OptMissing (c : Z) | OptUnknown (c : Z).

(** A word after its dash; the option that wants the next word. *)
Fixpoint scan_word (opts word : bytes) : list optres * option Z :=
  match word with
  | [] => ([], None)
  | c :: word' =>
      if bool_decide (c ∈ opts) then
        match word' with [] => ([], Some c) | _ => ([Opt c word'], None) end
      else let '(l, need) := scan_word opts word' in (OptUnknown c :: l, need)
  end.

Definition ch_dash : Z := 45.

Fixpoint getopt (opts : bytes) (args : list bytes) : list optres :=
  match args with
  | [] => []
  | a :: args' =>
      if bool_decide (a = [ch_dash; ch_dash]) then []
      else
        match a with
        | d :: (c0 :: word) =>
            if d =? ch_dash then
              let '(l, need) := scan_word opts (c0 :: word) in
              match need with
              | None => l ++ getopt opts args'
              | Some c =>
                  match args' with
                  | [] => l ++ [OptMissing c]
                  | v :: args'' => l ++ Opt c v :: getopt opts args''
                  end
              end
            else getopt opts args'
        | _ => getopt opts args'
        end
  end.

(** The variable an option sets: its last argument, if it was given. *)
Fixpoint optarg (c : Z) (l : list optres) : option bytes :=
  match l with
  | [] => None
  | Opt c' v :: l' => match optarg c l' with Some v' => Some v' | None => if c' =? c then Some v else None end
  | _ :: l' => optarg c l'
  end.

(** A pointer that was perhaps never assigned. *)
Definition assigned {W A B} (o : option A) (k : A -> PR W B) : PR W B :=
  match o with Some a => k a | None => pfault Uninitialised end.

(** ** Processes *)
Inductive fdesc := Inherited | PipeRead (n : nat) | PipeWrite (n : nat) | Opened (name : bytes).

#[export] Instance fdesc_eq_dec : EqDecision fdesc.
Proof. solve_decision. Defined.

(** What became of a child: how it left its own code, its descriptors, and
    the program and arguments it runs. *)
Record child := { c_end : outcome unit; c_fds : gmap Z fdesc; c_exec : list bytes }.

Record proc := {
  pr_fds : gmap Z fdesc;
  pr_pipes : nat;              (* pipes made so far *)
  pr_faults : list bool;       (* which of the next calls fail *)
  pr_newpid : Z;               (* the process id a child gets *)
  pr_children : list child;
  pr_exec : list bytes;
}.

#[export] Instance proc_rebuild : Rebuild proc := fun p =>
  Build_proc (pr_fds p) (pr_pipes p) (pr_faults p) (pr_newpid p) (pr_children p) (pr_exec p).
#[export] Instance upd_pr_fds : Updater pr_fds. Proof. solve_updater. Defined.
#[export] Instance upd_pr_pipes : Updater pr_pipes. Proof. solve_updater. Defined.
#[export] Instance upd_pr_faults : Updater pr_faults. Proof. solve_updater. Defined.
#[export] Instance upd_pr_children : Updater pr_children. Proof. solve_updater. Defined.
#[export] Instance upd_pr_exec : Updater pr_exec. Proof. solve_updater. Defined.

Abbreviation PC := (PR proc).

Definition pc_fails : PC bool := fun p =>
  (Done (hd false (pr_faults p)), p <| pr_faults := tl (pr_faults p) |>).

(** [if (call < 0) ERR_SYS(...)] for a call that changes nothing here. *)
Definition pc_must : PC unit := f ← pc_fails; pwhen f ERR_SYS.

Definition pc_add (d : fdesc) : PC Z := fun p =>
  let fd := new_fd (dom (pr_fds p)) in (Done fd, p <| pr_fds := <[fd := d]> (pr_fds p) |>).

Definition pc_close (fd : Z) : PC unit := pmodify (fun p => p <| pr_fds := delete fd (pr_fds p) |>).

Definition dup (fd : Z) : PC Z := fun p =>
  match pr_fds p !! fd with
  | Some d => pc_add d p
  | None => (Done (-1), p)
  end.

(** [if (pipe(fd) < 0) ERR_SYS(...)]: the reading and the writing end. *)
Definition pc_pipe : PC (Z * Z) :=
  pc_must;;
  n ← pgets pr_pipes;
  r ← pc_add (PipeRead n); w ← pc_add (PipeWrite n);
  pmodify (fun p => p <| pr_pipes := S n |>);;
  mret (r, w).

(** [execlp]: the program replaces the process, unless it cannot be run. *)
Definition execlp (args : list bytes) : PC unit :=
  f ← pc_fails;
  if f : bool then ERR_SYS else pmodify (fun p => p <| pr_exec := args |>).

(** [fork]: the child runs [m] on a copy of the process. *)
Definition fork (m : PC unit) : PC Z :=
  f ← pc_fails;
  if f : bool then mret (-1)
  else fun p =>
    let '(r, c) := m p in
    (Done (pr_newpid p), p <| pr_children := pr_children p ++ [Build_child r (pr_fds c) (pr_exec c)] |>).

(** ** A child between two pipes *)
Definition STDIN_FILENO : Z := 0.
Definition STDOUT_FILENO : Z := 1.

Definition child_io (pipefd1 pipefd2 : Z * Z) : PC unit :=
  pc_close pipefd1.2;; pc_close STDIN_FILENO;; dup pipefd1.1;; pc_close pipefd1.1;;
  pc_close pipefd2.1;; pc_close STDOUT_FILENO;; dup pipefd2.2;; pc_close pipefd2.2.

(** The result: the child, the descriptor to write to it and the one to read
    from it. *)
Definition spawn (exec : PC unit) : PC (Z * Z * Z) :=
  pipefd1 ← pc_pipe; pipefd2 ← pc_pipe;
  childpid ← fork (child_io pipefd1 pipefd2;; exec);
  pwhen (childpid <? 0) ERR_SYS;;
  pc_close pipefd1.1;; pc_close pipefd2.2;;
  mret (childpid, pipefd1.2, pipefd2.1).

(** ** The wiring *)
Lemma pc_fails_wp (Q : bool -> proc -> Prop) R F p :
  (forall b fl, Q b (p <| pr_faults := fl |>)) -> pwp pc_fails Q R F p.
Proof. intros HQ. apply HQ. Qed.

Lemma pc_must_wp (Q : unit -> proc -> Prop) (R : Z -> proc -> Prop) F p :
  (forall fl, Q tt (p <| pr_faults := fl |>)) -> (forall fl, R 2 (p <| pr_faults := fl |>)) -> pwp pc_must Q R F p.
Proof.
  intros HQ HR. unfold pc_must. apply pwp_bind, pc_fails_wp. intros [] fl; [apply HR|apply HQ].
Qed.

Lemma new_fd_fresh (m : gmap Z fdesc) : m !! new_fd (dom m) = None /\ 0 <= new_fd (dom m).
Proof. destruct (new_fd_spec (dom m)) as [Hn ?]. split; [by apply not_elem_of_dom|done]. Qed.

(** A pipe gets two new descriptors. *)
Lemma pc_pipe_wp (Q : Z * Z -> proc -> Prop) (R : Z -> proc -> Prop) F p :
  (forall r w fl, pr_fds p !! r = None -> pr_fds p !! w = None -> r <> w ->
     Q (r, w) (p <| pr_faults := fl |>
                 <| pr_fds := <[w := PipeWrite (pr_pipes p)]> (<[r := PipeRead (pr_pipes p)]> (pr_fds p)) |>
                 <| pr_pipes := S (pr_pipes p) |>)) ->
  (forall fl, R 2 (p <| pr_faults := fl |>)) -> pwp pc_pipe Q R F p.
Proof.
  intros HQ HR. unfold pc_pipe. apply pwp_bind, pc_must_wp; [|exact HR]. intros fl.
  apply pwp_bind, pwp_gets, pwp_bind. unfold pwp at 1, pc_add at 1. cbn [pr_fds].
  set (m := pr_fds p). change (pr_fds (p <| pr_faults := fl |>)) with m.
  destruct (new_fd_fresh m) as [Hr _]. set (r := new_fd (dom m)) in *.
  apply pwp_bind. unfold pwp at 1, pc_add at 1.
  set (m1 := <[r := PipeRead _]> m). match goal with |- context [dom (pr_fds ?q)] => change (pr_fds q) with m1 end.
  destruct (new_fd_fresh m1) as [Hw _]. set (w := new_fd (dom m1)) in *.
  apply lookup_insert_None in Hw as [Hw Hrw]. pwp_steps. by apply (HQ r w fl).
Qed.

(** [dup] takes the lowest descriptor that is free. *)
Lemma dup_wp fd d target (Q : Z -> proc -> Prop) R F p :
  pr_fds p !! fd = Some d -> 0 <= target -> pr_fds p !! target = None ->
  (forall k, 0 <= k < target -> is_Some (pr_fds p !! k)) ->
  Q target (p <| pr_fds := <[target := d]> (pr_fds p) |>) -> pwp (dup fd) Q R F p.
Proof.
  intros Hfd H0 Hfree Hlow HQ. unfold pwp, dup. rewrite Hfd. unfold pc_add.
  rewrite (new_fd_least _ target); [done|done|by apply not_elem_of_dom|].
  intros k Hk. by apply elem_of_dom, Hlow.
Qed.

(** The table of a process in which the ends of two pipes have been put. *)
Definition piped (n : nat) (r1 w1 r2 w2 : Z) (m : gmap Z fdesc) : gmap Z fdesc :=
  <[w2 := PipeWrite (S n)]> (<[r2 := PipeRead (S n)]> (<[w1 := PipeWrite n]> (<[r1 := PipeRead n]> m))).

Ltac solve_fds :=
  repeat first
    [ rewrite lookup_delete_eq | rewrite lookup_insert_eq
    | rewrite lookup_delete_ne by congruence | rewrite lookup_insert_ne by congruence ]; try done.

Section wiring.
Context (m : gmap Z fdesc) (n : nat) (r1 w1 r2 w2 : Z).
Hypothesis (H0 : is_Some (m !! 0)) (H1 : is_Some (m !! 1)).
Hypothesis (Hr1 : m !! r1 = None) (Hw1 : m !! w1 = None) (Hr2 : m !! r2 = None) (Hw2 : m !! w2 = None).
Hypothesis (Hd : NoDup [r1; w1; r2; w2]).

Lemma ends_differ : r1 <> w1 /\ r1 <> r2 /\ r1 <> w2 /\ w1 <> r2 /\ w1 <> w2 /\ r2 <> w2 /\
  0 <> r1 /\ 0 <> w1 /\ 0 <> r2 /\ 0 <> w2 /\ 1 <> r1 /\ 1 <> w1 /\ 1 <> r2 /\ 1 <> w2.
Proof using All.
  destruct H0 as [d0 E0], H1 as [d1 E1]. repeat rewrite NoDup_cons in Hd. rewrite !not_elem_of_cons in Hd.
  split_and!; try tauto; congruence.
Qed.

Ltac fds_cases :=
  destruct ends_differ as (? & ? & ? & ? & ? & ? & ? & ? & ? & ? & ? & ? & ? & ?);
  unfold piped; apply map_eq; intros k;
  destruct (decide (k = 1)) as [->|]; [solve_fds|]; destruct (decide (k = 0)) as [->|]; [solve_fds|];
  destruct (decide (k = w2)) as [->|]; [solve_fds|]; destruct (decide (k = r2)) as [->|]; [solve_fds|];
  destruct (decide (k = w1)) as [->|]; [solve_fds|]; destruct (decide (k = r1)) as [->|]; solve_fds.

Lemma child_fds :
  delete w2 (<[1 := PipeWrite (S n)]> (delete 1 (delete r2 (delete r1
    (<[0 := PipeRead n]> (delete 0 (delete w1 (piped n r1 w1 r2 w2 m)))))))) =
  <[1 := PipeWrite (S n)]> (<[0 := PipeRead n]> m).
Proof using All. fds_cases. Qed.

(** The child ends up with the pipes as standard input and output and no
    other end of either. *)
Lemma child_io_wp (Q : unit -> proc -> Prop) R F p :
  pr_fds p = piped n r1 w1 r2 w2 m ->
  Q tt (p <| pr_fds := <[1 := PipeWrite (S n)]> (<[0 := PipeRead n]> m) |>) ->
  pwp (child_io (r1, w1) (r2, w2)) Q R F p.
Proof using All.
  intros Em HQ. destruct ends_differ as (? & ? & ? & ? & ? & ? & ? & ? & ? & ? & ? & ? & ? & ?).
  unfold child_io, pc_close, STDIN_FILENO, STDOUT_FILENO. cbn [fst snd]. pwp_steps.
  apply (dup_wp _ (PipeRead n) 0); cbn; rewrite ?Em; unfold piped; [solve_fds|lia|solve_fds|lia|].
  pwp_steps. apply (dup_wp _ (PipeWrite (S n)) 1); cbn; [solve_fds|lia|solve_fds| |].
  { intros k Hk. assert (k = 0) as -> by lia. solve_fds. }
  pwp_steps. rewrite <- child_fds in HQ. destruct p. cbn in *. by subst.
Qed.

Lemma parent_fds : delete w2 (delete r1 (piped n r1 w1 r2 w2 m)) = <[w1 := PipeWrite n]> (<[r2 := PipeRead (S n)]> m).
Proof using All. fds_cases. Qed.
End wiring.

(** How a child was started from [p]; [ends] says what became of it. *)
Record spawned (ends : child -> Prop) (p p' : proc) (w1 r2 : Z) : Prop := {
  sp_parent : pr_fds p' = <[w1 := PipeWrite (pr_pipes p)]> (<[r2 := PipeRead (S (pr_pipes p))]> (pr_fds p));
  sp_new : pr_fds p !! w1 = None /\ pr_fds p !! r2 = None /\ w1 <> r2;
  sp_child : exists c, pr_children p' = pr_children p ++ [c] /\
    c_fds c = <[1 := PipeWrite (S (pr_pipes p))]> (<[0 := PipeRead (pr_pipes p)]> (pr_fds p)) /\ ends c;
}.

(** What the child does after its descriptors are in place leaves them alone. *)
Definition replaces (exec : PC unit) (ends : child -> Prop) : Prop := forall p,
  let '(r, p') := exec p in pr_fds p' = pr_fds p /\ ends (Build_child r (pr_fds p') (pr_exec p')).

Definition runs (args : list bytes) (c : child) : Prop :=
  c_end c = Done tt /\ c_exec c = args \/ c_end c = Exited 2.

Lemma execlp_replaces args : replaces (execlp args) (runs args).
Proof.
  intros p. unfold execlp, pc_fails, mbind, pr_bind. cbn. destruct (hd false (pr_faults p)); cbn; split; try done.
  - by right.
  - by left.
Qed.

Lemma spawn_wp exec ends (Q : Z * Z * Z -> proc -> Prop) (R : Z -> proc -> Prop) F p :
  is_Some (pr_fds p !! 0) -> is_Some (pr_fds p !! 1) -> 0 < pr_newpid p -> replaces exec ends ->
  (forall w1 r2 p', spawned ends p p' w1 r2 -> Q (pr_newpid p, w1, r2) p') ->
  (forall p', R 2 p') ->
  pwp (spawn exec) Q R F p.
Proof.
  intros H0 H1 Hpid Hex HQ HR. unfold spawn. apply pwp_bind, pc_pipe_wp; [|by intros].
  intros r1 w1 fl1 Hr1 Hw1 Hd1. apply pwp_bind, pc_pipe_wp; [|by intros].
  intros r2 w2 fl2. cbn [pr_fds pr_pipes]. intros Hr2 Hw2 Hd2.
  change (pr_fds (p <| pr_faults := fl1 |> <| pr_fds := ?a |> <| pr_pipes := ?b |>)) with a in Hr2, Hw2.
  rewrite !lookup_insert_None in Hr2, Hw2. destruct Hr2 as [[Hr2 ?] ?], Hw2 as [[Hw2 ?] ?].
  assert (NoDup [r1; w1; r2; w2]) as Hnd.
  { rewrite !NoDup_cons, !not_elem_of_cons. split_and!; first [congruence|apply not_elem_of_nil|constructor]. }
  unfold fork. apply pwp_bind, pwp_bind, pc_fails_wp. intros [] fl3.
  { pwp_steps. cbn. apply HR. }
  unfold pwp at 1. match goal with |- context [(_ ≫= _) ?q] => set (p3 := q) end.
  assert (pr_fds p3 = piped (pr_pipes p) r1 w1 r2 w2 (pr_fds p)) as E3 by done.
  assert (exists c, pr_children p3 = pr_children p /\ (let '(r, q) := (child_io (r1, w1) (r2, w2);; exec) p3 in Build_child r (pr_fds q) (pr_exec q)) = c /\
    c_fds c = <[1 := PipeWrite (S (pr_pipes p))]> (<[0 := PipeRead (pr_pipes p)]> (pr_fds p)) /\
    ends c) as (c & Ec & Hc & Hfds & Hend).
  { eexists. split; [done|]. split; [reflexivity|].
    pose proof (child_io_wp (pr_fds p) (pr_pipes p) r1 w1 r2 w2 H0 H1 Hr1 Hw1 Hr2 Hw2 Hnd
      (fun _ q => q = p3 <| pr_fds := <[1 := PipeWrite (S (pr_pipes p))]> (<[0 := PipeRead (pr_pipes p)]> (pr_fds p)) |>)
      (fun _ _ => False) no_fault p3 E3 eq_refl) as Hio.
    unfold pwp in Hio. unfold mbind, pr_bind. destruct (child_io (r1, w1) (r2, w2) p3) as [[[]|f|z] q]; try done.
    subst q. match goal with |- context [exec ?x] => pose proof (Hex x) as Hx; destruct (exec x) as [r q] end. by destruct Hx as [-> ?]. }
  destruct ((child_io (r1, w1) (r2, w2);; exec) p3) as [r q] eqn:E. cbn zeta in Hc.
  replace (pr_newpid p3 <? 0) with false by (symmetry; apply Z.ltb_ge; cbn; lia). cbn [pwhen].
  unfold pc_close. pwp_steps. apply HQ. split.
  - cbn. by apply (parent_fds (pr_fds p) (pr_pipes p) r1 w1 r2 w2).
  - cbn. split_and!; congruence.
  - exists c. split; [cbn; by rewrite Hc|done].
Qed.

(** *** Who holds which end *)
Definition pipes_below (n : nat) (m : gmap Z fdesc) : Prop :=
  forall fd k, m !! fd = Some (PipeRead k) \/ m !! fd = Some (PipeWrite k) -> (k < n)%nat.

Lemma pipes_below_pipe n m r w :
  pipes_below n m -> pipes_below (S n) (<[w := PipeWrite n]> (<[r := PipeRead n]> m)).
Proof.
  intros Hm fd k. rewrite !lookup_insert_Some. intros H.
  assert (k = n \/ (k < n)%nat); [|lia].
  destruct H as [[[_ E]|[_ [[_ E]|[_ H]]]]|[[_ E]|[_ [[_ E]|[_ H]]]]]; try discriminate E; try (injection E as ->; by left);
    right; apply (Hm fd); auto.
Qed.

(** Pipe [n] leads from the parent to the child's standard input, pipe [S n]
    from the child's standard output to the parent, and neither process holds
    an end that belongs to the other: the reader of a pipe sees its end when
    the writer closes it. *)
Record wired (n : nat) (parent child : gmap Z fdesc) (w1 r2 : Z) : Prop := {
  wi_in : parent !! w1 = Some (PipeWrite n) /\ child !! 0 = Some (PipeRead n);
  wi_out : child !! 1 = Some (PipeWrite (S n)) /\ parent !! r2 = Some (PipeRead (S n));
  wi_parent : forall fd, parent !! fd <> Some (PipeRead n) /\ parent !! fd <> Some (PipeWrite (S n));
  wi_child : forall fd, child !! fd <> Some (PipeWrite n) /\ child !! fd <> Some (PipeRead (S n));
}.

Lemma insert_avoids (m : gmap Z fdesc) fd d e :
  d <> e -> (forall k, m !! k <> Some e) -> forall k, <[fd := d]> m !! k <> Some e.
Proof. intros Hd Hm k [[_ ?]|[_ ?]]%lookup_insert_Some; [done|by apply (Hm k)]. Qed.

Lemma spawned_wired ends p p' w1 r2 :
  spawned ends p p' w1 r2 -> pipes_below (pr_pipes p) (pr_fds p) ->
  exists c, pr_children p' = pr_children p ++ [c] /\ wired (pr_pipes p) (pr_fds p') (c_fds c) w1 r2 /\ ends c.
Proof.
  intros [Ep (_ & _ & Hd) (c & Hc & Ef & He)] Hb. exists c. split_and!; [done| |done].
  assert (forall e, e = PipeRead (pr_pipes p) \/ e = PipeWrite (pr_pipes p) \/ e = PipeRead (S (pr_pipes p)) \/
            e = PipeWrite (S (pr_pipes p)) -> forall k, pr_fds p !! k <> Some e) as Hno.
  { intros e He' k Hk. destruct He' as [->|[->|[->| ->]]];
      first [pose proof (Hb k _ (or_introl Hk))|pose proof (Hb k _ (or_intror Hk))]; lia. }
  split; rewrite ?Ep, ?Ef.
  - by rewrite lookup_insert_eq, lookup_insert_ne, lookup_insert_eq.
  - by rewrite lookup_insert_eq, lookup_insert_ne, lookup_insert_eq.
  - intros fd. split; apply insert_avoids; try apply insert_avoids; try apply Hno; auto; intros [= ]; lia.
  - intros fd. split; apply insert_avoids; try apply insert_avoids; try apply Hno; auto; intros [= ]; lia.
Qed.

Lemma wired_open n parent child w1 r2 fd nm :
  wired n parent child w1 r2 -> parent !! fd = None -> wired n (<[fd := Opened nm]> parent) child w1 r2.
Proof.
  intros [[H1 H2] [H3 H4] H5 H6] Hfd. split; [|..|done].
  - rewrite lookup_insert_ne by congruence. done.
  - rewrite lookup_insert_ne by congruence. done.
  - intros k. split; apply insert_avoids; try congruence; intros j; apply H5.
Qed.

(** With standard input closed at the start the same code leaves the child
    without its input: the first pipe takes descriptor 0, which the child
    closes, and its output becomes descriptor 0. *)
Definition no_stdin : proc := Build_proc {[1 := Inherited; 2 := Inherited]} 0 [] 100 [] [].

Lemma spawn_needs_stdin :
  match spawn (execlp []) no_stdin with
  | (Done _, p) => map (fun c => (c_fds c !! 0, c_fds c !! 1)) (pr_children p) = [(Some (PipeWrite 1), None)]
  | _ => False
  end.
Proof. by vm_compute. Qed.
