(* ===== verification/Logging.v ===== *)
(** * Log lines

    quemngr/logging.c, of which iecproxy and sockwrite have copies: [logmsg]
    builds a line in a buffer of [MSGMAX] bytes with [snprintf] and prints it.
    Buffers are arrays of bytes that a write must not leave.  Texts that the
    C library formats from the caller's arguments, and the time, the host name
    and the error text it reports, are inputs. *)

From S2P Require Import Prelude Posix.

#[local] Open Scope Z_scope.

Definition MSGMAX : nat := 4096.

(** ** Strings in a buffer *)

(** [snprintf(buf + off, size, ...)]: as much of the text as fits, and a zero. *)
Definition snprintf (off size : nat) (text : bytes) : ST bytes unit := fun b =>
  let t := take (size - 1) text ++ [0] in
  if (off + length t <=? length b)%nat then Done (tt, take off b ++ t ++ drop (off + length t) b)
  else Faulted OutOfBounds.

Definition strlen : ST bytes nat := gets (fun b => length (cstr b)).

(** The string [t] in a buffer of [n] bytes. *)
Definition holds (n : nat) (t b : bytes) : Prop :=
  length b = n /\ Forall (fun c => c <> 0) t /\ exists r, b = t ++ 0 :: r.

Lemma cstr_ends t r : Forall (fun c => c <> 0) t -> cstr (t ++ 0 :: r) = t.
Proof.
  induction 1 as [|c t Hc Ht IH]; [done|]. cbn. rewrite (proj2 (Z.eqb_neq _ _) Hc). by f_equal.
Qed.

Lemma snprintf_wp n t b size text (Q : unit -> bytes -> Prop) :
  holds n t b -> Forall (fun c => c <> 0) text -> (1 <= size)%nat -> (length t + size <= n)%nat ->
  (forall b', holds n (t ++ take (size - 1) text) b' -> Q tt b') ->
  wp (snprintf (length t) size text) Q b.
Proof.
  intros (Hn & Ht & r & ->) Hx Hs Hf HQ. unfold wp, snprintf. rewrite length_app in *. cbn [length] in *.
  set (x := take (size - 1) text) in *. assert (length x <= size - 1)%nat as Hlx by (unfold x; rewrite length_take; lia).
  rewrite (proj2 (Nat.leb_le _ _)) by (rewrite length_app; cbn; lia). apply HQ.
  rewrite take_app_length, <- app_assoc. split_and!.
  - rewrite !length_app, length_drop. cbn. rewrite ?length_app. cbn. lia.
  - apply Forall_app. split; [done|]. by apply Forall_take.
  - eexists. rewrite <- !app_assoc. cbn. reflexivity.
Qed.

Lemma strlen_wp n t b (Q : nat -> bytes -> Prop) : holds n t b -> Q (length t) b -> wp strlen Q b.
Proof. intros (_ & Ht & r & ->) HQ. unfold strlen. apply wp_gets. by rewrite cstr_ends. Qed.

(** ** The line *)
Record tm := { tm_mon : Z; tm_mday : Z; tm_hour : Z; tm_min : Z; tm_sec : Z }.

Definition monthnames : list bytes :=
  map codes ["Jan"; "Feb"; "Mar"; "Apr"; "May"; "Jun"; "Jul"; "Aug"; "Sep"; "Oct"; "Nov"; "Dec"]%string.

(** [%02d] and [%2.2d], of a number that is not negative. *)
Definition pad2 (z : Z) : bytes := if z <? 10 then codes "0" ++ codes (pretty z) else codes (pretty z).

Definition time_text (month : bytes) (t : tm) : bytes :=
  month ++ codes " " ++ pad2 (tm_mday t) ++ codes " " ++ pad2 (tm_hour t) ++ codes ":" ++ pad2 (tm_min t) ++
  codes ":" ++ pad2 (tm_sec t).

(** What a call finds: the caller's place and text, and the rest. *)
Record logcall := {
  lc_file : bytes; lc_func : bytes; lc_line : Z;
  lc_errnoflag : bool;
  lc_text : bytes;                (* the caller's format and arguments *)
  lc_daemon : bool;               (* daemon_proc *)
  lc_tm : tm;                     (* localtime *)
  lc_pid : Z; lc_host : bytes; lc_progname : bytes;
  lc_strerror : bytes;            (* strerror(errno_save) *)
}.

Definition daemon_prefix (time : bytes) (c : logcall) : bytes :=
  time ++ codes " " ++ lc_host c ++ codes " " ++ lc_progname c ++ codes "[" ++ codes (pretty (lc_pid c)) ++ codes "]: ".
Definition place_prefix (c : logcall) : bytes :=
  codes "[ file: " ++ lc_file c ++ codes ", func: " ++ lc_func c ++ codes ", line: " ++ codes (pretty (lc_line c)) ++ codes " ] ".
Definition error_suffix (c : logcall) : bytes := codes " (" ++ lc_strerror c ++ codes ")".

(** [char time[32]], its contents after [snprintf(time, sizeof(time), ...)]. *)
Definition log_time (t : tm) : outcome bytes :=
  match monthnames !! Z.to_nat (tm_mon t) with
  | None => Faulted OutOfBounds
  | Some month =>
      match snprintf 0 32 (time_text month t) (replicate 32 0) with
      | Done (_, b) => Done (cstr b)
      | Faulted f => Faulted f
      | Exited z => Exited z
      end
  end.

Definition of_outcome {W A} (o : outcome A) : ST W A := fun w =>
  match o with Done a => Done (a, w) | Faulted f => Faulted f | Exited z => Exited z end.

(** The state is [buf]; the result is what goes to the log stream. *)
Definition logmsg (c : logcall) : ST bytes bytes :=
  modify (fun _ => replicate MSGMAX 0);;
  (if lc_daemon c then
     time ← of_outcome (log_time (lc_tm c));
     snprintf 0 MSGMAX (daemon_prefix time c)
   else snprintf 0 MSGMAX (place_prefix c));;
  n ← strlen;
  snprintf n (MSGMAX - n) (lc_text c);;
  when (lc_errnoflag c) (n ← strlen; snprintf n (MSGMAX - n) (error_suffix c));;
  b ← get;
  mret (cstr b ++ [10]).

(** ** Its length *)
Definition no_zero (l : bytes) : Prop := Forall (fun c => c <> 0) l.

Definition two_digits (z : Z) : Prop := 0 <= z < 100.
Definition valid_tm (t : tm) : Prop :=
  0 <= tm_mon t < 12 /\ two_digits (tm_mday t) /\ two_digits (tm_hour t) /\ two_digits (tm_min t) /\ two_digits (tm_sec t).

Record valid_call (c : logcall) : Prop := {
  vc_tm : valid_tm (lc_tm c);
  vc_strings : Forall no_zero [lc_file c; lc_func c; lc_text c; lc_host c; lc_progname c; lc_strerror c];
}.

(** The text without regard to the buffer. *)
Definition full_text (time : bytes) (c : logcall) : bytes :=
  (if lc_daemon c then daemon_prefix time c else place_prefix c) ++ lc_text c ++
  (if lc_errnoflag c then error_suffix c else []).

(** Filling up a bounded buffer piece by piece is cutting the whole. *)
Lemma take_fill {A} k (p x : list A) : take k p ++ take (k - length (take k p)) x = take k (p ++ x).
Proof.
  rewrite take_app, length_take. f_equal. f_equal. lia.
Qed.

Lemma no_zero_app l l' : no_zero l -> no_zero l' -> no_zero (l ++ l').
Proof. intros H H'. by apply Forall_app. Qed.

Lemma no_zero_dec l : forallb (fun c => negb (c =? 0)) l = true -> no_zero l.
Proof.
  intros H. apply Forall_forall. intros c Hc. rewrite forallb_forall in H.
  apply list_elem_of_In in Hc. specialize (H c Hc). lia.
Qed.

Lemma pretty_no_zero (z : Z) : no_zero (codes (pretty z)).
Proof. eapply Forall_impl; [apply pretty_codes|]. intros c; cbv beta; lia. Qed.

Lemma pad2_ok z : two_digits z -> length (pad2 z) = 2%nat /\ no_zero (pad2 z).
Proof.
  intros Hz. assert (Forall (fun z => length (pad2 z) = 2%nat /\ forallb (fun c => negb (c =? 0)) (pad2 z) = true) (seqZ 0 100)) as H.
  { apply (bool_decide_unpack _). vm_compute. exact I. }
  rewrite Forall_forall in H. destruct (H z) as [H1 H2]; [apply elem_of_seqZ; unfold two_digits in Hz; lia|].
  split; [done|by apply no_zero_dec].
Qed.

Lemma log_time_ok t : valid_tm t -> exists time, log_time t = Done time /\ length time = 15%nat /\ no_zero time.
Proof.
  intros (Hm & [D1 N1]%pad2_ok & [D2 N2]%pad2_ok & [D3 N3]%pad2_ok & [D4 N4]%pad2_ok).
  assert (exists month, monthnames !! Z.to_nat (tm_mon t) = Some month /\ length month = 3%nat /\ no_zero month)
    as (month & Em & Hl & Hz).
  { destruct (lookup_lt_is_Some_2 monthnames (Z.to_nat (tm_mon t))) as [month Em]; [cbn; lia|]. exists month. split; [done|].
    assert (Forall (fun l => length l = 3%nat /\ forallb (fun c => negb (c =? 0)) l = true) monthnames) as Ha
      by (by apply (bool_decide_unpack _)).
    destruct (Forall_lookup_1 _ _ _ _ Ha Em). split; [done|by apply no_zero_dec]. }
  assert (length (time_text month t) = 15%nat) as Hlen.
  { unfold time_text. rewrite !length_app, D1, D2, D3, D4, Hl. done. }
  assert (no_zero (time_text month t)) as Hnz.
  { unfold time_text. repeat apply no_zero_app; try done; by apply no_zero_dec. }
  exists (time_text month t). split; [|done]. unfold log_time. rewrite Em.
  assert (wp (snprintf 0 32 (time_text month t)) (fun _ b => cstr b = time_text month t) (replicate 32 0)) as Hw.
  { apply (snprintf_wp 32 []); [|done|lia|cbn; lia|].
    - split_and!; [done|constructor|by exists (replicate 31 0)].
    - intros b' (_ & Ht & r & ->). cbn [app] in *. rewrite cstr_ends by done. apply take_ge. cbn. lia. }
  unfold wp in Hw. destruct (snprintf 0 32 (time_text month t) (replicate 32 0)) as [[[] b]|f|z]; [by rewrite Hw|done..].
Qed.

Lemma MSGMAX_pos : (1 <= MSGMAX)%nat.
Proof. by apply Nat.leb_le. Qed.

Lemma holds_empty : holds MSGMAX [] (replicate MSGMAX 0).
Proof. split_and!; [by rewrite length_replicate|constructor|by exists (replicate 4095 0)]. Qed.

(** Appending to the string in the buffer. *)
Lemma append_wp t x b (P : nat -> bytes -> Prop) :
  holds MSGMAX (take (MSGMAX - 1) t) b -> no_zero x ->
  (forall n, (forall Q : unit -> bytes -> Prop, (forall b', holds MSGMAX (take (MSGMAX - 1) (t ++ x)) b' -> Q tt b') ->
     wp (snprintf n (MSGMAX - n) x) Q b) -> P n b) ->
  wp strlen P b.
Proof.
  intros Hb Hx HP. eapply strlen_wp; [exact Hb|]. apply HP. intros Q HQ. pose proof MSGMAX_pos as HM.
  assert (length (take (MSGMAX - 1) t) < MSGMAX)%nat as HK by (rewrite length_take; lia).
  eapply snprintf_wp; [exact Hb|done|lia|lia|]. intros b' Hb'. apply HQ. rewrite <- take_fill.
  replace (MSGMAX - 1 - length (take (MSGMAX - 1) t))%nat with (MSGMAX - length (take (MSGMAX - 1) t) - 1)%nat by lia. done.
Qed.

(** C31: A log line never leaves its buffer: whatever the caller, the host and
    the error text are, the stamp of date and time is complete and the line
    printed is the prefix, the text and, if asked for, the error, cut after
    4095 characters. *)
Theorem logmsg_fits c b0 :
  valid_call c ->
  exists time, log_time (lc_tm c) = Done time /\ length time = 15%nat /\
    wp (logmsg c) (fun line b => line = take (MSGMAX - 1) (full_text time c) ++ [10] /\ length b = MSGMAX) b0.
Proof.
  intros [Hvt Hvs]. destruct (log_time_ok _ Hvt) as (time & Et & Hl & Hz). exists time. split_and!; [done|done|].
  repeat (apply Forall_cons in Hvs as [? Hvs]). clear Hvs Hvt.
  assert (no_zero (error_suffix c)) as He by (unfold error_suffix; repeat apply no_zero_app; try done; by apply no_zero_dec).
  assert (no_zero (daemon_prefix time c) /\ no_zero (place_prefix c)) as [Hd Hp].
  { unfold daemon_prefix, place_prefix. split; repeat apply no_zero_app; try done; try apply pretty_no_zero; by apply no_zero_dec. }
  set (p := if lc_daemon c then daemon_prefix time c else place_prefix c).
  unfold logmsg. apply wp_bind, wp_modify, wp_bind.
  apply (wp_mono _ (fun _ b => holds MSGMAX (take (MSGMAX - 1) p) b)).
  { unfold p. destruct (lc_daemon c).
    - apply wp_bind. rewrite Et. change (of_outcome (Done time)) with (mret time : ST bytes bytes). apply wp_ret.
      apply (snprintf_wp MSGMAX []); [apply holds_empty|done|apply MSGMAX_pos|done|]. by intros b.
    - apply (snprintf_wp MSGMAX []); [apply holds_empty|done|apply MSGMAX_pos|done|]. by intros b. }
  intros [] b1 Hb1. apply wp_bind. eapply (append_wp _ (lc_text c)); [exact Hb1|done|]. intros n1 E1.
  apply wp_bind. apply E1. intros b2 Hb2. apply wp_bind.
  apply (wp_mono _ (fun _ b => holds MSGMAX (take (MSGMAX - 1) (full_text time c)) b)).
  { unfold full_text. fold p. rewrite app_assoc. destruct (lc_errnoflag c); cbn [when].
    - apply wp_bind. eapply (append_wp _ (error_suffix c)); [exact Hb2|done|]. intros n2 E2. by apply E2.
    - apply wp_ret. by rewrite app_nil_r. }
  intros [] b3 (Hn & Hnz & r & ->). apply wp_bind, wp_get, wp_ret. by rewrite cstr_ends.
Qed.

Definition sample_call : logcall :=
  Build_logcall (codes "quemngr.c") (codes "initqueue") 163 true (codes "error open directory ./df/") true
    (Build_tm 1 28 23 59 60) 1234 (codes "gw1") (codes "quemngr") (codes "No such file or directory").

Lemma logmsg_fits_witness :
  exists time, log_time (lc_tm sample_call) = Done time /\ length time = 15%nat /\
    wp (logmsg sample_call)
      (fun line b => line = take (MSGMAX - 1) (full_text time sample_call) ++ [10] /\ length b = MSGMAX) [].
Proof.
  apply (logmsg_fits sample_call []). split; [unfold valid_tm, two_digits; cbn; lia|].
  repeat constructor; by vm_compute.
Defined.
