(* ===== verification/Utils.v ===== *)
(** * quemngr/utils.c

    Moving and linking message files, synchronising directories, the delay
    encoded in the name of a deferred queue's directory, and the clock. *)

From S2P Require Import Prelude Heap Posix.

(** ** Files *)
Definition mvfile (src dst : path) : PR os Z :=
  srcdirfd ← open_dir src.1;
  if srcdirfd <? 0 then mret (-1)
  else
    dstdirfd ← open_dir dst.1;
    if dstdirfd <? 0 then mret (-1)
    else
      r ← rename src dst;
      if r =? 0 then
        (* the results of fsync are overwritten by ret = 0 *)
        fsync;; fsync;; close;; close;; mret 0
      else mret (-1).

Definition cpfile (src dst : path) : PR os Z := link src dst.

Definition fsyncdir (dir : string) : PR os Z :=
  dirfd ← open_dir dir;
  if dirfd <? 0 then mret (-1)
  else
    r ← fsync;
    if r <? 0 then mret (-1)
    else c ← close; if c <? 0 then mret (-1) else mret 0.

(** ** The delay of a queue *)
Definition is_digit (c : Z) : bool := (48 <=? c) && (c <=? 57).

(** [%n[0-9]]: between one and [n] digits. *)
Fixpoint take_digits (n : nat) (l : bytes) : bytes * bytes :=
  match n, l with
  | S n', c :: l' =>
      if is_digit c then let '(d, r) := take_digits n' l' in (c :: d, r) else ([], l)
  | _, _ => ([], l)
  end.
Definition scan_set (n : nat) (l : bytes) : option (bytes * bytes) :=
  match take_digits n l with ([], _) => None | r => Some r end.

Definition scan_char (c : Z) (l : bytes) : option bytes :=
  match l with x :: l' => if x =? c then Some l' else None | [] => None end.

(** [atoi] of a string of digits. *)
Definition atoi (d : bytes) : Z := foldl (fun n c => 10 * n + (c - 48)) 0 d.

Definition ch_h : Z := 104.
Definition ch_m : Z := 109.
Definition ch_s : Z := 115.

(** [sscanf(dir, "%2[0-9]h%2[0-9]m%2[0-9]s", ...)]: three conversions succeed
    whether or not the final [s] is there. *)
Definition calctimeout (dir : bytes) : Z :=
  match (r1 ← scan_set 2 dir; l1 ← scan_char ch_h r1.2;
         r2 ← scan_set 2 l1; l2 ← scan_char ch_m r2.2;
         r3 ← scan_set 2 l2; Some (r1.1, r2.1, r3.1)) with
  | Some (hour, min, sec) => atoi hour * 60 * 60 + atoi min * 60 + atoi sec
  | None => -1
  end.

(** ** The clock *)
Definition getmonotime : PR os timeval :=
  t ← clock_gettime;
  match t with
  | None => ERR_SYS
  | Some ts => mret (Build_timeval (ts_sec ts) (ts_nsec ts / 1000))
  end.

(** ** Rules *)
Section rules.
Implicit Types (o : os).

(** [m] only consumes the failures and the clock. *)
Definition quiet {A} (m : PR os A) : Prop := forall (Q : A -> os -> Prop) R F o,
  (forall a o', same_os o o' -> Q a o') -> pwp m Q R F o.

Lemma quiet_ret {A} (a : A) : quiet (mret a).
Proof. intros Q R F o HQ. apply pwp_ret, HQ. reflexivity. Qed.

Lemma quiet_bind {A B} (m : PR os A) (k : A -> PR os B) :
  quiet m -> (forall a, quiet (k a)) -> quiet (m ≫= k).
Proof.
  intros Hm Hk Q R F o HQ. apply pwp_bind, Hm. intros a o' Ho. apply Hk. intros b o'' Ho'.
  apply HQ. by etrans.
Qed.

Lemma quiet_syscall can : quiet (syscall can id).
Proof. intros Q R F o HQ. apply pwp_syscall; intros o' Ho; auto. Qed.

Lemma quiet_if {A} (b : bool) (m m' : PR os A) : quiet m -> quiet m' -> quiet (if b then m else m').
Proof. by destruct b. Qed.

Lemma fsyncdir_quiet d : quiet (fsyncdir d).
Proof.
  unfold fsyncdir, open_dir, fsync, close.
  repeat first [apply quiet_bind; [apply quiet_syscall|intros ?] | apply quiet_if | apply quiet_ret].
Qed.

(** What [getmonotime] makes of the clock. *)
Definition monotime o : timeval := Build_timeval (ts_sec (clock_now o)) (ts_nsec (clock_now o) / 1000).

Lemma getmonotime_wp (Q : timeval -> os -> Prop) (R : Z -> os -> Prop) F o :
  (forall o', os_ents o' = os_ents o -> Q (monotime o) o') ->
  (forall o', same_os o o' -> R 2 o') -> pwp getmonotime Q R F o.
Proof.
  intros HQ HR. unfold getmonotime, clock_gettime. apply pwp_bind, pwp_bind, pwp_fails.
  intros b o1 Ho1 _. destruct b; [apply pwp_ret; cbn; pwp_steps; by apply HR|].
  destruct Ho1 as (_ & He & _ & Hc & _). unfold pwp, monotime, clock_now in *. rewrite <- Hc in HQ.
  destruct (os_clock o1) as [|t [|t' l]]; cbn; by apply HQ.
Qed.

(** [mvfile] renames, or changes nothing and reports it. *)
Lemma mvfile_wp src dst (Q : Z -> os -> Prop) R F o :
  (forall o', same_os (o <| os_ents := rename_ents src dst (os_ents o) |>) o' ->
     is_Some (os_ents o !! src) -> Q 0 o') ->
  (forall o', same_os o o' -> Q (-1) o') ->
  pwp (mvfile src dst) Q R F o.
Proof.
  intros H0 H1. unfold mvfile. apply pwp_bind, quiet_syscall. intros a o1 Ho1.
  destruct (a <? 0); [pwp_steps; auto|]. apply pwp_bind, quiet_syscall. intros b o2 Ho2.
  destruct (b <? 0); [pwp_steps; apply H1; by etrans|]. apply pwp_bind, pwp_syscall.
  - intros o3 Ho3 Hc. bool_hyps. cbn. pose proof (transitivity Ho1 (transitivity Ho2 Ho3)) as (Hd & He & Hm & Hc & Hf).
    do 4 (apply pwp_bind, quiet_syscall; intros ? ? ?). pwp_steps. apply H0; [|by rewrite <- He].
    do 3 (etrans; [|eassumption]). etrans; [|eassumption]. rewrite <- He. by split_and!.
  - intros o3 Ho3. pwp_steps. apply H1. do 2 (etrans; [|eassumption]). done.
Qed.

Lemma cpfile_wp src dst (Q : Z -> os -> Prop) R F o :
  (forall o' i, same_os (o <| os_ents := <[dst := i]> (os_ents o) |>) o' ->
     os_ents o !! src = Some i -> os_ents o !! dst = None -> Q 0 o') ->
  (forall o', same_os o o' -> Q (-1) o') ->
  pwp (cpfile src dst) Q R F o.
Proof.
  intros H0 H1. unfold cpfile, link. apply pwp_syscall; [|done].
  intros o1 (Hd & He & Hm & Hk & Hf) Hc. rewrite !He in Hc. bool_hyps. destruct H as [i Hi].
  apply (H0 _ i); [|done|done]. unfold same_os, link_ents; cbn. by rewrite He, Hi.
Qed.

Lemma unlink_wp p (Q : Z -> os -> Prop) R F o :
  (forall o', same_os (o <| os_ents := delete p (os_ents o) |>) o' ->
     is_Some (os_ents o !! p) -> Q 0 o') ->
  (forall o', same_os o o' -> Q (-1) o') ->
  pwp (unlink p) Q R F o.
Proof.
  intros H0 H1. unfold unlink. apply pwp_syscall; [|done].
  intros o1 (Hd & He & Hm & Hk & Hf) Hc. rewrite He in Hc. bool_hyps. apply H0; [|done].
  unfold same_os; cbn. by rewrite He.
Qed.
End rules.

(** ** The delay in a directory name *)
Definition dd (n : Z) : bytes := [48 + n / 10; 48 + n mod 10].
Definition delay_name (h m s : Z) : bytes := dd h ++ [ch_h] ++ dd m ++ [ch_m] ++ dd s ++ [ch_s].

Lemma scan_dd n l : 0 <= n < 100 -> scan_set 2 (dd n ++ l) = Some (dd n, l).
Proof.
  intros Hn. unfold scan_set, dd; cbn. unfold is_digit.
  replace ((48 <=? 48 + n / 10) && (48 + n / 10 <=? 57)) with true by (Z.div_mod_to_equations; lia).
  replace ((48 <=? 48 + n mod 10) && (48 + n mod 10 <=? 57)) with true by (Z.div_mod_to_equations; lia).
  done.
Qed.

Lemma atoi_dd n : 0 <= n < 100 -> atoi (dd n) = n.
Proof. intros Hn. cbn. Z.div_mod_to_equations. lia. Qed.

Lemma scan_set_range l d r : scan_set 2 l = Some (d, r) -> 0 <= atoi d < 100.
Proof.
  unfold scan_set. destruct l as [|a l]; cbn; [done|].
  destruct (is_digit a) eqn:Ha; [|done]. unfold is_digit in Ha.
  destruct l as [|b l]; cbn; [intros; simplify_eq; cbn; bool_hyps; lia|].
  destruct (is_digit b) eqn:Hb; unfold is_digit in Hb; intros; simplify_eq; cbn; bool_hyps; lia.
Qed.

(** C30: The name of a deferred queue's directory, two digits each of hours,
    minutes and seconds, is read back as the delay it stands for, in
    seconds; and whatever the name, the result is -1 or a delay of at most
    99 hours, 99 minutes and 99 seconds, so that expiry times and the
    milliseconds passed to [poll] stay within an [int]. *)
Theorem calctimeout_delay (h m s : Z) (name : bytes) :
  (0 <= h < 100 /\ 0 <= m < 100 /\ 0 <= s < 100 ->
     calctimeout (delay_name h m s) = h * 3600 + m * 60 + s) /\
  (calctimeout name = -1 \/ 0 <= calctimeout name <= 362439).
Proof.
  split.
  - intros (Hh & Hm & Hs). unfold calctimeout, delay_name. rewrite scan_dd by done. cbn -[scan_set dd].
    rewrite scan_dd by done. cbn -[scan_set dd]. rewrite scan_dd by done. cbn -[scan_set dd atoi].
    rewrite !atoi_dd by done. lia.
  - unfold calctimeout. destruct (scan_set 2 name) as [[d1 r1]|] eqn:E1; cbn -[scan_set atoi]; [|by left].
    destruct (scan_char ch_h r1) as [l1|]; cbn -[scan_set atoi]; [|by left].
    destruct (scan_set 2 l1) as [[d2 r2]|] eqn:E2; cbn -[scan_set atoi]; [|by left].
    destruct (scan_char ch_m r2) as [l2|]; cbn -[scan_set atoi]; [|by left].
    destruct (scan_set 2 l2) as [[d3 r3]|] eqn:E3; cbn -[scan_set atoi]; [|by left].
    apply scan_set_range in E1, E2, E3. right. lia.
Qed.

Lemma calctimeout_delay_witness :
  (0 <= 1 < 100 /\ 0 <= 30 < 100 /\ 0 <= 5 < 100) /\
  calctimeout (codes "01h30m05s") = 5405 /\ (calctimeout (codes "x") = -1 \/ 0 <= calctimeout (codes "x") <= 362439).
Proof.
  assert (0 <= 1 < 100 /\ 0 <= 30 < 100 /\ 0 <= 5 < 100) as H by lia. split; [exact H|].
  destruct (calctimeout_delay 1 30 5 (codes "x")) as [H1 H2]. split; [exact (H1 H)|exact H2].
Defined.
