(* ===== verification/Xalloc.v ===== *)
(** * Memory from the allocator

    quemngr/xalloc.c and ieclink/xalloc.c: [malloc], [realloc] and [free] that
    end the program when there is no memory.  Memory is a set of live blocks of
    words; a word may be an integer, a pointer, or not yet written.  The
    allocator answers each request in one of the ways the C library allows. *)

From S2P Require Import Prelude Posix.

(** ** Blocks *)
Inductive word := WInt (z : Z) | WPtr (p : option nat).
Abbreviation block := (list (option word)).

(** No memory; a block elsewhere; or, for [realloc], the block where it was. *)
Inductive answer := NoMemory | Elsewhere | InPlace.

Record cmem := { cm_blocks : gmap nat block; cm_next : nat; cm_answers : list answer }.

#[export] Instance cmem_rebuild : Rebuild cmem := fun m => Build_cmem (cm_blocks m) (cm_next m) (cm_answers m).
#[export] Instance upd_cm_blocks : Updater cm_blocks. Proof. solve_updater. Defined.
#[export] Instance upd_cm_next : Updater cm_next. Proof. solve_updater. Defined.
#[export] Instance upd_cm_answers : Updater cm_answers. Proof. solve_updater. Defined.

Abbreviation CM := (PR cmem).

Definition blocks_to (f : gmap nat block -> gmap nat block) (m : cmem) : cmem := m <| cm_blocks := f (cm_blocks m) |>.

(** Where the answers end, there is memory. *)
Definition next_answer : CM answer := fun m =>
  match cm_answers m with
  | [] => (Done Elsewhere, m)
  | a :: l => (Done a, m <| cm_answers := l |>)
  end.

(** ** The C library *)
Definition new_block (b : block) : CM nat :=
  p ← pgets cm_next;
  pmodify (fun m => (blocks_to <[p := b]> m) <| cm_next := S p |>);; mret p.

Definition malloc (size : nat) : CM (option nat) :=
  a ← next_answer;
  match a with
  | NoMemory => mret None
  | _ => p ← new_block (replicate size None); mret (Some p)
  end.

(** The block [p] names, which must be live. *)
Definition live_block (p : nat) : CM block :=
  b ← pgets (fun m => cm_blocks m !! p);
  match b with Some b => mret b | None => pfault UseAfterFree end.

Definition free (vp : option nat) : CM unit :=
  match vp with
  | None => pskip
  | Some p => live_block p;; pmodify (blocks_to (delete p))
  end.

(** With the GNU C library, size zero frees the block. *)
Definition realloc (vp : option nat) (size : nat) : CM (option nat) :=
  match vp with
  | None => malloc size
  | Some p =>
      if (size =? 0)%nat then free vp;; mret None
      else
        b ← live_block p;
        a ← next_answer;
        match a with
        | NoMemory => mret None
        | InPlace => pmodify (blocks_to (<[p := resize size None b]>));; mret vp
        | Elsewhere =>
            pmodify (blocks_to (delete p));;
            q ← new_block (resize size None b); mret (Some q)
        end
  end.

(** Reading and writing a word of a block. *)
Definition load (p : nat) (i : nat) : CM word :=
  b ← live_block p;
  match b !! i with
  | Some (Some v) => mret v
  | Some None => pfault Uninitialised
  | None => pfault OutOfBounds
  end.

Definition store (p : nat) (i : nat) (v : word) : CM unit :=
  b ← live_block p;
  if (i <? length b)%nat then pmodify (blocks_to (<[p := <[i := Some v]> b]>))
  else pfault OutOfBounds.

(** ** The wrappers of quemngr *)
Definition xmalloc (size : nat) : CM nat :=
  ptr ← malloc size;
  match ptr with None => ERR_SYS | Some p => mret p end.

Definition xresize (vp : option nat) (size : nat) : CM nat :=
  ptr ← realloc vp size;
  match ptr with None => ERR_SYS | Some p => mret p end.

Definition xfree (ptr : option nat) : CM unit := free ptr.

(** ** The wrappers of ieclink *)
Definition link_xmalloc (size : nat) : CM nat :=
  p ← malloc size;
  match p with None => pexit 1 | Some p => mret p end.

Definition link_xfree (ptr : option nat) : CM unit := free ptr.

(** [memmove] of [k] words of one block. *)
Definition memmove (p dst src k : nat) : CM unit :=
  b ← live_block p;
  if (dst + k <=? length b)%nat && (src + k <=? length b)%nat
  then pmodify (blocks_to (<[p := take dst b ++ take k (drop src b) ++ drop (dst + k) b]>))
  else pfault OutOfBounds.

(** ** Reasoning

    The program owns the blocks [B]; [R] are the blocks of others.  Nothing
    else is live, so that a block that is in neither has been freed.  [A] is
    what the allocator had to say at the start. *)
Record owns (A : list answer) (B R : gmap nat block) (m : cmem) : Prop := {
  ow_blocks : cm_blocks m = B ∪ R;
  ow_disjoint : B ##ₘ R;
  ow_next : forall p, is_Some (cm_blocks m !! p) -> (p < cm_next m)%nat;
  ow_answers : forall a, a ∈ cm_answers m -> a ∈ A;
}.

(** The ways a program with no memory ends. *)
Definition out_of_memory (code : Z) (A : list answer) (c : Z) (m : cmem) : Prop := c = code /\ NoMemory ∈ A.

Section rules.
Context (A : list answer).
Implicit Types (B R : gmap nat block) (m : cmem) (b : block).

Lemma owns_lookup B R m p b : owns A B R m -> B !! p = Some b -> cm_blocks m !! p = Some b /\ R !! p = None.
Proof.
  intros [-> Hd _ _] Hp. split; [by apply lookup_union_Some_l|]. by eapply map_disjoint_Some_l.
Qed.

Lemma owns_insert B R m p b b' : owns A B R m -> B !! p = Some b -> owns A (<[p := b']> B) R (blocks_to <[p := b']> m).
Proof.
  intros Ho Hp. destruct (owns_lookup B R m p b Ho Hp) as [Hm Hr]. destruct Ho as [Eb Hd Hn Ha]. split; cbn.
  - by rewrite Eb, insert_union_l.
  - by apply map_disjoint_insert_l_2.
  - intros q Hq. apply Hn. destruct (decide (p = q)) as [<-|Hne]; [by rewrite Hm|]. by rewrite lookup_insert_ne in Hq.
  - done.
Qed.

Lemma owns_delete B R m p b : owns A B R m -> B !! p = Some b -> owns A (delete p B) R (blocks_to (delete p) m).
Proof.
  intros Ho Hp. destruct (owns_lookup B R m p b Ho Hp) as [Hm Hr]. destruct Ho as [Eb Hd Hn Ha]. split; cbn.
  - rewrite Eb, delete_union. by rewrite (delete_id R).
  - by apply map_disjoint_delete_l.
  - intros q [_ Hq]%lookup_delete_is_Some. by apply Hn.
  - done.
Qed.

Lemma live_block_wp B R m p b (Q : block -> cmem -> Prop) Ex :
  owns A B R m -> B !! p = Some b -> Q b m -> pwp (live_block p) Q Ex no_fault m.
Proof.
  intros Ho Hp HQ. unfold live_block. pwp_steps. destruct (owns_lookup B R m p b Ho Hp) as [-> _]. by pwp_steps.
Qed.

Lemma new_block_wp B R m b (Q : nat -> cmem -> Prop) Ex :
  owns A B R m -> (forall p m', B !! p = None -> owns A (<[p := b]> B) R m' -> Q p m') ->
  pwp (new_block b) Q Ex no_fault m.
Proof.
  intros [Eb Hd Hn Ha] HQ. unfold new_block. pwp_steps.
  assert (cm_blocks m !! cm_next m = None) as Hf.
  { apply eq_None_not_Some. intros Hs%Hn. lia. }
  rewrite Eb, lookup_union_None in Hf. destruct Hf as [Hb Hr]. apply HQ; [done|]. split; cbn.
  - by rewrite Eb, insert_union_l.
  - by apply map_disjoint_insert_l_2.
  - intros q Hq. destruct (decide (cm_next m = q)) as [<-|Hne]; [lia|]. rewrite lookup_insert_ne in Hq by done.
    apply Hn in Hq. lia.
  - done.
Qed.

Lemma next_answer_wp B R m (Q : answer -> cmem -> Prop) Ex :
  owns A B R m -> (forall a m', (a = NoMemory -> NoMemory ∈ A) -> owns A B R m' -> Q a m') ->
  pwp next_answer Q Ex no_fault m.
Proof.
  intros [Eb Hd Hn Ha] HQ. unfold pwp, next_answer. destruct (cm_answers m) as [|a l] eqn:El.
  - apply HQ; [done|]. split; try done. by rewrite El.
  - apply HQ; [intros ->; apply Ha; set_solver|]. split; try done. cbn. intros x Hx. apply Ha. set_solver.
Qed.

Lemma malloc_wp B R m size (Q : option nat -> cmem -> Prop) Ex :
  owns A B R m ->
  (forall p m', B !! p = None -> owns A (<[p := replicate size None]> B) R m' -> Q (Some p) m') ->
  (forall m', NoMemory ∈ A -> owns A B R m' -> Q None m') ->
  pwp (malloc size) Q Ex no_fault m.
Proof.
  intros Ho HQ HN. unfold malloc. pwp_step. eapply next_answer_wp; [done|]. intros a m' Ha Ho'.
  destruct a; pwp_steps; [by apply HN; [apply Ha|]|..]; (eapply new_block_wp; [done|]; intros; pwp_steps; eauto).
Qed.

(** A block that is not null, or the end. *)
Lemma xmalloc_wp B R m size (Q : nat -> cmem -> Prop) :
  owns A B R m -> (forall p m', B !! p = None -> owns A (<[p := replicate size None]> B) R m' -> Q p m') ->
  pwp (xmalloc size) Q (out_of_memory 2 A) no_fault m.
Proof.
  intros Ho HQ. unfold xmalloc. pwp_step. eapply malloc_wp; [done|..]; intros; pwp_steps; [by apply HQ|done].
Qed.

Lemma link_xmalloc_wp B R m size (Q : nat -> cmem -> Prop) :
  owns A B R m -> (forall p m', B !! p = None -> owns A (<[p := replicate size None]> B) R m' -> Q p m') ->
  pwp (link_xmalloc size) Q (out_of_memory 1 A) no_fault m.
Proof.
  intros Ho HQ. unfold link_xmalloc. pwp_step. eapply malloc_wp; [done|..]; intros; pwp_steps; [by apply HQ|done].
Qed.

Lemma xfree_wp B R m p b (Q : unit -> cmem -> Prop) Ex :
  owns A B R m -> B !! p = Some b -> (forall m', owns A (delete p B) R m' -> Q tt m') ->
  pwp (xfree (Some p)) Q Ex no_fault m.
Proof.
  intros Ho Hp HQ. unfold xfree, free. pwp_step. eapply live_block_wp; [done..|]. pwp_steps.
  apply HQ. by eapply owns_delete.
Qed.

(** The block with its contents, cut or extended, here or elsewhere; the old
    one is gone. *)
Lemma xresize_wp B R m p b size (Q : nat -> cmem -> Prop) :
  owns A B R m -> B !! p = Some b -> (0 < size)%nat ->
  (forall q m', delete p B !! q = None -> owns A (<[q := resize size None b]> (delete p B)) R m' -> Q q m') ->
  pwp (xresize (Some p) size) Q (out_of_memory 2 A) no_fault m.
Proof.
  intros Ho Hp Hs HQ. unfold xresize, realloc. rewrite (proj2 (Nat.eqb_neq _ _)) by lia. pwp_steps.
  eapply live_block_wp; [done..|]. pwp_step. eapply next_answer_wp; [done|]. intros a m' Ha Ho'.
  destruct a; pwp_steps.
  - split; [done|by apply Ha].
  - eapply new_block_wp; [by eapply owns_delete|]. intros q m2 Hq Ho2. pwp_steps. by apply HQ.
  - apply HQ; [apply lookup_delete_eq|]. rewrite insert_delete_eq. by eapply owns_insert.
Qed.

Lemma load_wp B R m p b i v (Q : word -> cmem -> Prop) Ex :
  owns A B R m -> B !! p = Some b -> b !! i = Some (Some v) -> Q v m -> pwp (load p i) Q Ex no_fault m.
Proof.
  intros Ho Hp Hi HQ. unfold load. pwp_step. eapply live_block_wp; [done..|]. rewrite Hi. by pwp_steps.
Qed.

Lemma store_wp B R m p b i v (Q : unit -> cmem -> Prop) Ex :
  owns A B R m -> B !! p = Some b -> (i < length b)%nat ->
  (forall m', owns A (<[p := <[i := Some v]> b]> B) R m' -> Q tt m') -> pwp (store p i v) Q Ex no_fault m.
Proof.
  intros Ho Hp Hi HQ. unfold store. pwp_step. eapply live_block_wp; [done..|].
  rewrite (proj2 (Nat.ltb_lt _ _)) by done. pwp_steps. apply HQ. by eapply owns_insert.
Qed.

Lemma memmove_wp B R m p b dst src k (Q : unit -> cmem -> Prop) Ex :
  owns A B R m -> B !! p = Some b -> (dst + k <= length b)%nat -> (src + k <= length b)%nat ->
  (forall m', owns A (<[p := take dst b ++ take k (drop src b) ++ drop (dst + k) b]> B) R m' -> Q tt m') ->
  pwp (memmove p dst src k) Q Ex no_fault m.
Proof.
  intros Ho Hp Hd Hs HQ. unfold memmove. pwp_step. eapply live_block_wp; [done..|].
  rewrite !(proj2 (Nat.leb_le _ _)) by done. cbn [andb]. pwp_steps. apply HQ. by eapply owns_insert.
Qed.
End rules.
