(* ===== verification/QueControl.v ===== *)
(** * quemngr/quecontrol.c

    Message queues: growing arrays of messages with counters, their search,
    insertion and deletion by inode, and sorting by modification time.  The
    part of the array past [total] holds nothing meaningful and is not
    represented: [l_msg] is the null pointer or the first [total] messages. *)

From S2P Require Import Prelude Heap Posix.
From stdpp Require Import sorting.

#[local] Open Scope Z_scope.

(** ** Data *)
Record msg := { m_inode : ino; m_modtime : timeval; m_state : nat }.

Record msglist := {
  l_msg : option (list msg);
  l_nmax : Z;
  l_total : Z;
  l_conf : Z;
  l_send : Z;
  l_dir : string;
  l_timeout : Z;
}.

#[export] Instance msg_eq_dec : EqDecision msg.
Proof. solve_decision. Defined.
#[export] Instance msglist_rebuild : Rebuild msglist := fun l =>
  Build_msglist (l_msg l) (l_nmax l) (l_total l) (l_conf l) (l_send l) (l_dir l) (l_timeout l).
#[export] Instance upd_l_msg : Updater l_msg. Proof. solve_updater. Defined.
#[export] Instance upd_l_nmax : Updater l_nmax. Proof. solve_updater. Defined.
#[export] Instance upd_l_total : Updater l_total. Proof. solve_updater. Defined.
#[export] Instance upd_l_conf : Updater l_conf. Proof. solve_updater. Defined.
#[export] Instance upd_l_send : Updater l_send. Proof. solve_updater. Defined.
#[export] Instance upd_l_dir : Updater l_dir. Proof. solve_updater. Defined.
#[export] Instance upd_l_timeout : Updater l_timeout. Proof. solve_updater. Defined.

Definition ARINIT : Z := 4.
Definition ARGROW : Z := 2.

(** After [memset(..., 0, ...)]. *)
Definition msglist_zero : msglist := Build_msglist None 0 0 0 0 "" 0.

(** ** Comparison *)
Definition sign_of (diff : Z) : Z := if diff <? 0 then -1 else if 0 <? diff then 1 else 0.

Definition mtimecomp (m1 m2 : msg) : Z :=
  sign_of (((tv_sec (m_modtime m1) - tv_sec (m_modtime m2)) * 1000000
            + tv_usec (m_modtime m1)) - tv_usec (m_modtime m2)).

Definition queue_comp (q1 q2 : msglist) : Z := sign_of (l_timeout q1 - l_timeout q2).

(** The C library's [qsort]: some permutation that is in order.  Nothing is
    promised about elements that compare equal. *)
Definition comparison {A} (cmp : A -> A -> Z) : Prop :=
  (forall x y, cmp x y <= 0 \/ cmp y x <= 0) /\
  (forall x y z, cmp x y <= 0 -> cmp y z <= 0 -> cmp x z <= 0).

Class Qsort := {
  qsort : forall {A}, (A -> A -> Z) -> list A -> list A;
  qsort_perm A (cmp : A -> A -> Z) l : qsort cmp l ≡ₚ l;
  qsort_sorted A (cmp : A -> A -> Z) l :
    comparison cmp -> StronglySorted (fun x y => cmp x y <= 0) (qsort cmp l);
}.

(** ** Messages *)
Definition elem_new (i : ino) (t : timeval) (state : nat) : msg := Build_msg i t state.

(** The messages [list->msg[0 .. total)]. *)
Definition msgs (l : msglist) : list msg :=
  match l_msg l with Some ms => take (Z.to_nat (l_total l)) ms | None => [] end.

Definition elem_add (l : msglist) (e : msg) : msglist * Z :=
  let l1 := match l_msg l with
            | None => l <| l_msg := Some [] |> <| l_nmax := ARINIT |> <| l_total := 0 |>
            | Some _ => if l_nmax l <=? l_total l then l <| l_nmax := l_nmax l * ARGROW |> else l
            end in
  let l2 := l1 <| l_msg := Some (msgs l1 ++ [e]) |> <| l_total := l_total l1 + 1 |> in
  (l2, l_total l2).

Fixpoint find_from (i : Z) (ms : list msg) (n : ino) : Z :=
  match ms with
  | [] => -1
  | m :: ms' => if m_inode m =? n then i else find_from (i + 1) ms' n
  end.
Definition elem_find (l : msglist) (n : ino) : Z := find_from 0 (msgs l) n.

Fixpoint del_first (ms : list msg) (n : ino) : option (list msg) :=
  match ms with
  | [] => None
  | m :: ms' => if m_inode m =? n then Some ms' else (cons m) <$> del_first ms' n
  end.
Definition elem_del (l : msglist) (n : ino) : msglist * Z :=
  match del_first (msgs l) n with
  | Some ms => (l <| l_msg := Some ms |> <| l_total := l_total l - 1 |>, 1)
  | None => (l, 0)
  end.

(** ** Queues: the global array [quelist] and [quecount] *)
Definition queue_add (q : list msglist * Z) : (list msglist * Z) * Z :=
  let '(quelist, quecount) := q in
  let q' := match quelist with
            | [] => ([msglist_zero], i16 (quecount + 1))
            | _ => if 0 <? quecount then (quelist ++ [msglist_zero], i16 (quecount + 1)) else q
            end in
  (q', q'.2 - 1).

Definition queue_sort {QS : Qsort} (l : msglist) : msglist :=
  match l_msg l with
  | Some _ => l <| l_msg := Some (qsort mtimecomp (msgs l)) |>
  | None => l
  end.

(** Read the messages a directory holds; a file that cannot be examined ends
    the process. *)
Fixpoint restore_entries (index : nat) (ents : list (string * ino)) (l : msglist) : PR os msglist :=
  match ents with
  | [] => mret l
  | (name, _) :: ents' =>
      if bool_decide (name = ".") || bool_decide (name = "..") then restore_entries index ents' l
      else
        st ← stat_file (l_dir l, name);
        match st with
        | None => ERR_SYS
        | Some (i, ts) =>
            let tv := Build_timeval (ts_sec ts) (ts_nsec ts / 1000) in
            restore_entries index ents' (elem_add l (elem_new i tv index)).1
        end
  end.

(** [readdir(NULL)] when the directory cannot be opened. *)
Definition queue_restore {RD : Readdir} (l : msglist) (index : nat) : PR os msglist :=
  ents ← readdir (l_dir l);
  match ents with
  | None => pfault NullDeref
  | Some es => restore_entries index es l
  end.

(** ** Well-formed queues *)
Definition ml_ok (l : msglist) : Prop :=
  match l_msg l with
  | None => l_total l <= 0
  | Some ms => l_total l = Z.of_nat (length ms) /\ l_total l <= l_nmax l /\ 0 < l_nmax l
  end.

Definition inodes (l : msglist) : list ino := map m_inode (msgs l).

Lemma msgs_some l ms : ml_ok l -> l_msg l = Some ms -> msgs l = ms.
Proof.
  unfold ml_ok, msgs. intros H E. rewrite E in *. destruct H as [Ht _]. rewrite Ht, Nat2Z.id. by apply take_ge.
Qed.

Lemma total_msgs l : ml_ok l -> Z.max 0 (l_total l) = Z.of_nat (length (msgs l)).
Proof.
  unfold ml_ok, msgs. destruct (l_msg l) as [ms|]; [|simpl; lia]. intros [Ht _].
  rewrite Ht, Nat2Z.id, take_ge by lia. lia.
Qed.

Lemma elem_add_ok l e :
  ml_ok l ->
  let l' := (elem_add l e).1 in
  ml_ok l' /\ msgs l' = msgs l ++ [e] /\ l_total l' = Z.of_nat (length (msgs l)) + 1 /\
  l_conf l' = l_conf l /\ l_send l' = l_send l /\ l_dir l' = l_dir l /\ l_timeout l' = l_timeout l.
Proof.
  intros Hk. unfold elem_add. destruct (l_msg l) as [ms|] eqn:E.
  - pose proof (msgs_some l ms Hk E) as Em. unfold ml_ok in Hk. rewrite E in Hk. destruct Hk as (Ht & Hn & H0).
    set (l1 := if l_nmax l <=? l_total l then l <| l_nmax := l_nmax l * ARGROW |> else l).
    assert (l_msg l1 = Some ms /\ l_total l1 = l_total l /\ l_total l < l_nmax l1 /\
            l_conf l1 = l_conf l /\ l_send l1 = l_send l /\ l_dir l1 = l_dir l /\
            l_timeout l1 = l_timeout l) as (E1 & T1 & N1 & Hrest).
    { unfold l1, ARGROW. destruct (Z.leb_spec (l_nmax l) (l_total l)); cbn; split_and!; (done || lia). }
    clearbody l1. assert (msgs l1 = ms) as Hm1.
    { unfold msgs. rewrite E1, T1, Ht, Nat2Z.id. by apply take_ge. }
    rewrite Em. unfold ml_ok. cbn. rewrite Hm1, length_app, T1, Ht. cbn.
    split_and!; try apply Hrest; try lia.
    unfold msgs. cbn. apply take_ge. rewrite length_app. cbn. lia.
  - assert (msgs l = []) as Em by (unfold msgs; by rewrite E).
    rewrite Em. unfold ml_ok, ARINIT. cbn. by split_and!.
Qed.

Lemma del_first_some ms n ms' :
  del_first ms n = Some ms' ->
  exists ms1 m ms2, ms = ms1 ++ m :: ms2 /\ ms' = ms1 ++ ms2 /\ m_inode m = n /\ n ∉ map m_inode ms1.
Proof.
  revert ms'. induction ms as [|m ms IH]; intros ms' H; cbn in H; [done|].
  destruct (Z.eqb_spec (m_inode m) n) as [Hm|Hm].
  - simplify_eq. exists [], m, ms'. split_and!; try done. cbn. set_solver.
  - apply fmap_Some in H as (ms1 & H1 & ->). apply IH in H1 as (a & x & b & -> & -> & Hx & Hn).
    exists (m :: a), x, b. split_and!; try done. cbn. set_solver.
Qed.

Lemma del_first_none ms n : del_first ms n = None <-> n ∉ map m_inode ms.
Proof.
  induction ms as [|m ms IH]; cbn; [set_solver|].
  destruct (Z.eqb_spec (m_inode m) n); [set_solver|]. rewrite fmap_None, IH. set_solver.
Qed.

Lemma find_from_spec i ms n :
  0 <= i ->
  match find_from i ms n with
  | Z.neg _ => find_from i ms n = -1 /\ n ∉ map m_inode ms
  | _ => i <= find_from i ms n /\ exists m, ms !! Z.to_nat (find_from i ms n - i) = Some m /\ m_inode m = n
  end.
Proof.
  revert i. induction ms as [|m ms IH]; intros i Hi; cbn; [set_solver|].
  destruct (Z.eqb_spec (m_inode m) n) as [Hm|Hm].
  - destruct i; (lia || (split; [lia|]; exists m; by rewrite Z.sub_diag)).
  - specialize (IH (i + 1) ltac:(lia)). destruct (find_from (i + 1) ms n) as [|p|p] eqn:E.
    + lia.
    + destruct IH as (Hle & m' & Hl & Hm'). split; [lia|]. exists m'. split; [|done].
      replace (Z.to_nat (Z.pos p - i)) with (S (Z.to_nat (Z.pos p - (i + 1)))) by lia. done.
    + destruct IH as [? ?]. split; [done|]. set_solver.
Qed.

(** Searching finds the message, or tells that there is none. *)
Lemma elem_find_spec l n :
  (elem_find l n = -1 /\ n ∉ inodes l) \/
  (0 <= elem_find l n /\ exists m, msgs l !! Z.to_nat (elem_find l n) = Some m /\ m_inode m = n).
Proof.
  pose proof (find_from_spec 0 (msgs l) n ltac:(lia)) as H. unfold elem_find, inodes.
  destruct (find_from 0 (msgs l) n) as [|p|p].
  - right. split; [lia|]. by apply H.
  - right. rewrite Z.sub_0_r in H. split; [lia|]. by apply H.
  - left. by destruct H.
Qed.

Lemma elem_del_ok l n :
  ml_ok l ->
  let l' := (elem_del l n).1 in
  ml_ok l' /\ l_conf l' = l_conf l /\ l_send l' = l_send l /\ l_dir l' = l_dir l /\
  l_timeout l' = l_timeout l /\ msgs l' = default (msgs l) (del_first (msgs l) n).
Proof.
  intros Hk. unfold elem_del. destruct (del_first (msgs l) n) as [ms|] eqn:E; cbn; [|done].
  destruct (del_first_some _ _ _ E) as (a & m & b & Ha & Hb & _).
  destruct (l_msg l) as [ms0|] eqn:E0; [|unfold msgs in Ha; rewrite E0 in Ha; by destruct a].
  pose proof (msgs_some l ms0 Hk E0) as Em. unfold ml_ok in Hk. rewrite E0 in Hk. destruct Hk as (Ht & Hn & H0).
  assert (length ms0 = S (length ms)) as Hlen.
  { rewrite <- Em, Ha, Hb, !length_app. cbn. lia. }
  unfold ml_ok, msgs. cbn. split_and!; try done; try lia. apply take_ge. lia.
Qed.

(** ** Sorting *)
Definition usecs (t : timeval) : Z := tv_sec t * 1000000 + tv_usec t.

Lemma sign_of_le z : sign_of z <= 0 <-> z <= 0.
Proof. unfold sign_of. destruct (Z.ltb_spec z 0), (Z.ltb_spec 0 z); lia. Qed.

Lemma mtimecomp_le a b : mtimecomp a b <= 0 <-> usecs (m_modtime a) <= usecs (m_modtime b).
Proof. unfold mtimecomp, usecs. rewrite sign_of_le. lia. Qed.

Lemma mtimecomp_comparison : comparison mtimecomp.
Proof. split; intros *; rewrite !mtimecomp_le; lia. Qed.

Lemma queue_comp_comparison : comparison queue_comp.
Proof. unfold queue_comp. split; intros *; rewrite !sign_of_le; lia. Qed.

Lemma queue_sort_ok {QS : Qsort} l :
  ml_ok l ->
  ml_ok (queue_sort l) /\ msgs (queue_sort l) = match l_msg l with Some _ => qsort mtimecomp (msgs l) | None => [] end /\
  msgs (queue_sort l) ≡ₚ msgs l.
Proof.
  intros Hk. unfold queue_sort. destruct (l_msg l) as [ms|] eqn:E.
  - pose proof (msgs_some l ms Hk E) as Em. unfold ml_ok in Hk. rewrite E in Hk. destruct Hk as (Ht & Hn & H0).
    pose proof (qsort_perm _ mtimecomp (msgs l)) as Hp. pose proof (Permutation_length Hp) as Hl.
    set (s := qsort mtimecomp (msgs l)) in *.
    assert (msgs (l <| l_msg := Some s |>) = s) as Es.
    { unfold msgs at 1. cbn. apply take_ge. rewrite Hl, Em. lia. }
    rewrite Es. split_and!; [|done|done]. unfold ml_ok. cbn. rewrite Hl, Em. by split_and!.
  - unfold msgs. by rewrite E.
Qed.

Lemma queue_sort_counters {QS : Qsort} l :
  (l_total (queue_sort l), l_send (queue_sort l), l_conf (queue_sort l), l_dir (queue_sort l))
  = (l_total l, l_send l, l_conf l, l_dir l).
Proof. unfold queue_sort. by destruct (l_msg l). Qed.

(** Sorting a queue keeps exactly its messages and puts them in order of
    modification time, oldest first, whatever the C library's [qsort] does
    with equal times. *)
Theorem queue_sort_orders {QS : Qsort} (l : msglist) :
  ml_ok l ->
  ml_ok (queue_sort l) /\ msgs (queue_sort l) ≡ₚ msgs l /\
  StronglySorted (fun a b => usecs (m_modtime a) <= usecs (m_modtime b)) (msgs (queue_sort l)) /\
  (l_total (queue_sort l), l_send (queue_sort l), l_conf (queue_sort l)) = (l_total l, l_send l, l_conf l).
Proof.
  intros Hk. destruct (queue_sort_ok l Hk) as (Hok & Es & Hp). split_and!; [done|done| |].
  - rewrite Es. destruct (l_msg l); [|constructor].
    pose proof (qsort_sorted _ mtimecomp (msgs l) mtimecomp_comparison) as Hs. clear -Hs.
    induction Hs as [|a s Hs IH Ha]; constructor; [done|].
    eapply Forall_impl; [exact Ha|]. intros b. apply mtimecomp_le.
  - pose proof (queue_sort_counters l) as E. injection E as -> -> -> _. done.
Qed.

(** ** A sorting function that meets the specification *)
Section merge_qsort.
Context {A : Type} (cmp : A -> A -> Z).
Definition cmp_le (x y : A) : Prop := cmp x y <= 0.
#[local] Instance cmp_le_dec : RelDecision cmp_le.
Proof. intros x y. unfold cmp_le. apply _. Defined.
Definition merge_qsort (l : list A) : list A := merge_sort cmp_le l.

Lemma merge_qsort_perm l : merge_qsort l ≡ₚ l.
Proof. apply merge_sort_Permutation. Qed.

Lemma merge_qsort_sorted l : comparison cmp -> StronglySorted cmp_le (merge_qsort l).
Proof.
  intros [Ht Htr]. apply Sorted_StronglySorted; [exact Htr|].
  apply Sorted_merge_sort. exact Ht.
Qed.
End merge_qsort.

Definition merge_Qsort : Qsort := {|
  qsort A cmp l := merge_qsort cmp l;
  qsort_perm A cmp l := merge_qsort_perm cmp l;
  qsort_sorted A cmp l := merge_qsort_sorted cmp l;
|}.

(** Another one, which reverses equal elements. *)
Definition reversing_Qsort : Qsort.
Proof.
  refine {| qsort A cmp l := merge_qsort cmp (reverse l) |}.
  - intros A cmp l. rewrite merge_qsort_perm. apply reverse_Permutation.
  - intros A cmp l. apply merge_qsort_sorted.
Defined.

Definition sample_list : msglist :=
  Build_msglist (Some [Build_msg 12 (Build_timeval 7 0) 1; Build_msg 13 (Build_timeval 3 5) 1]) 4 2 0 0 "./in/" 0.

Lemma queue_sort_orders_witness :
  ml_ok sample_list /\
  let l' := @queue_sort merge_Qsort sample_list in
  ml_ok l' /\ msgs l' ≡ₚ msgs sample_list /\
  StronglySorted (fun a b => usecs (m_modtime a) <= usecs (m_modtime b)) (msgs l') /\
  (l_total l', l_send l', l_conf l') = (l_total sample_list, l_send sample_list, l_conf sample_list).
Proof.
  assert (ml_ok sample_list) as H by (unfold ml_ok; cbn; lia). split; [exact H|].
  exact (@queue_sort_orders merge_Qsort sample_list H).
Defined.

(** ** The array as a list *)
Inductive list_op := AddOp (m : msg) | DelOp (n : ino) | FindOp (n : ino).

Definition elem_do (op : list_op) (l : msglist) : msglist * Z :=
  match op with
  | AddOp m => elem_add l m
  | DelOp n => elem_del l n
  | FindOp n => (l, elem_find l n)
  end.

(** What the operation means for the list of messages [ms]. *)
Definition list_step (op : list_op) (ms ms' : list msg) (r : Z) : Prop :=
  match op with
  | AddOp m => ms' = ms ++ [m] /\ r = Z.of_nat (length ms')
  | DelOp n =>
      (r = 0 /\ ms' = ms /\ n ∉ map m_inode ms) \/
      (r = 1 /\ exists a m b, ms = a ++ m :: b /\ ms' = a ++ b /\ m_inode m = n /\ n ∉ map m_inode a)
  | FindOp n =>
      ms' = ms /\ ((r = -1 /\ n ∉ map m_inode ms) \/
                   (0 <= r /\ exists m, ms !! Z.to_nat r = Some m /\ m_inode m = n))
  end.

(** The growing array implements a list of messages: insertion appends
    and returns the new length, deletion removes the first message with the
    inode and says whether there was one, search returns its index or -1;
    every operation keeps the array within its allocation, and the counters
    of the queue are left alone. *)
Theorem elem_ops_refine (op : list_op) (l : msglist) :
  ml_ok l ->
  let '(l', r) := elem_do op l in
  ml_ok l' /\ list_step op (msgs l) (msgs l') r /\
  (l_conf l', l_send l', l_dir l', l_timeout l') = (l_conf l, l_send l, l_dir l, l_timeout l).
Proof.
  intros Hk. destruct op as [m|n|n]; cbn [elem_do].
  - pose proof (elem_add_ok l m Hk) as H. cbn zeta in H. destruct (elem_add l m) as [l' r] eqn:E.
    cbn [fst] in H. destruct H as (Hk' & Hm & Ht & -> & -> & -> & ->). split_and!; [done| |done].
    split; [done|]. rewrite Hm, length_app. unfold elem_add in E. simplify_eq. cbn in *. lia.
  - pose proof (elem_del_ok l n Hk) as H. cbn zeta in H. destruct (elem_del l n) as [l' r] eqn:E.
    cbn [fst] in H. destruct H as (Hk' & -> & -> & -> & -> & Hm). split_and!; [done| |done].
    unfold elem_del in E. destruct (del_first (msgs l) n) as [ms|] eqn:Ed; simplify_eq; rewrite Hm; cbn [default].
    + right. split; [done|]. by apply del_first_some.
    + left. split_and!; [done..|]. by apply del_first_none.
  - split_and!; [done| |done]. split; [done|]. apply elem_find_spec.
Qed.
