(* ===== verification/MsgStore.v ===== *)
(** * Message queues in memory

    quecontrol.c once more, with its pointers: a queue is an array of pointers
    to messages, each message a block of its own.  [QueControl] has the same
    operations on values; here they run on the allocator's blocks, and are
    shown to do the same without leaking a block, freeing one twice or reading
    one that is gone. *)

From S2P Require Import Prelude Heap Posix Xalloc QueControl.

#[local] Open Scope Z_scope.

(** ** Data *)

(** The words of a [struct msg]. *)
Definition sizeof_msg : nat := 4.
Definition msg_words (i : ino) (t : timeval) (state : nat) : list word :=
  [WInt i; WInt (tv_sec t); WInt (tv_usec t); WInt (Z.of_nat state)].

(** A [struct msglist], [msg] being a pointer. *)
Record plist := {
  pl_msg : option nat;
  pl_nmax : Z;
  pl_total : Z;
  pl_conf : Z;
  pl_send : Z;
  pl_dir : string;
  pl_timeout : Z;
}.

#[export] Instance plist_rebuild : Rebuild plist := fun l =>
  Build_plist (pl_msg l) (pl_nmax l) (pl_total l) (pl_conf l) (pl_send l) (pl_dir l) (pl_timeout l).
#[export] Instance upd_pl_msg : Updater pl_msg. Proof. solve_updater. Defined.
#[export] Instance upd_pl_nmax : Updater pl_nmax. Proof. solve_updater. Defined.
#[export] Instance upd_pl_total : Updater pl_total. Proof. solve_updater. Defined.

(** ** Operations *)
Definition new_msg (i : ino) (t : timeval) (state : nat) : CM nat :=
  nelem ← xmalloc sizeof_msg;
  store nelem 0 (WInt i);;
  store nelem 1 (WInt (tv_sec t));; store nelem 2 (WInt (tv_usec t));;
  store nelem 3 (WInt (Z.of_nat state));;
  mret nelem.

(** [list->msg], to be followed. *)
Definition array_of (l : plist) : CM nat := match pl_msg l with Some a => mret a | None => pfault NullDeref end.

Definition index (i : Z) : CM nat := if 0 <=? i then mret (Z.to_nat i) else pfault OutOfBounds.

(** [elem_add] first makes room, *)
Definition make_room (l : plist) : CM plist :=
  match pl_msg l with
  | None =>
      a ← xmalloc (Z.to_nat ARINIT);
      mret (l <| pl_msg := Some a |> <| pl_nmax := ARINIT |> <| pl_total := 0 |>)
  | Some a =>
      if pl_nmax l <=? pl_total l then
        templist ← xresize (Some a) (Z.to_nat (ARGROW * pl_nmax l));
        mret (l <| pl_nmax := pl_nmax l * ARGROW |> <| pl_msg := Some templist |>)
      else mret l
  end.

(** then writes the pointer. *)
Definition add_msg (l : plist) (elem : nat) : CM (plist * Z) :=
  l1 ← make_room l;
  a ← array_of l1;
  i ← index (pl_total l1);
  store a i (WPtr (Some elem));;
  mret (l1 <| pl_total := pl_total l1 + 1 |>, pl_total l1 + 1).

(** [list->msg[i]], a pointer to a message. *)
Definition msg_at (l : plist) (i : Z) : CM nat :=
  a ← array_of l;
  j ← index i;
  v ← load a j;
  match v with WPtr (Some p) => mret p | WPtr None => pfault NullDeref | WInt _ => pfault Uninitialised end.

(** [list->msg[i]->inode == inode] *)
Definition msg_is (l : plist) (i : Z) (inode : ino) : CM bool :=
  p ← msg_at l i;
  v ← load p 0;
  match v with WInt z => mret (z =? inode) | WPtr _ => pfault Uninitialised end.

(** [for (i = 0; i < list->total; ++i)]: [n] rounds are left. *)
Fixpoint find_loop (l : plist) (n : nat) (i : Z) (inode : ino) : CM Z :=
  match n with
  | O => mret (-1)
  | S n' =>
      b ← msg_is l i inode;
      if b : bool then mret i else find_loop l n' (i + 1) inode
  end.
Definition find_msg (l : plist) (inode : ino) : CM Z := find_loop l (Z.to_nat (pl_total l)) 0 inode.

Fixpoint del_loop (l : plist) (n : nat) (i : Z) (inode : ino) : CM (plist * Z) :=
  match n with
  | O => mret (l, 0)
  | S n' =>
      b ← msg_is l i inode;
      if b : bool then
        p ← msg_at l i;
        xfree (Some p);;
        a ← array_of l;
        j ← index i;
        memmove a j (j + 1) (Z.to_nat (pl_total l - (i + 1)));;
        mret (l <| pl_total := pl_total l - 1 |>, 1)
      else del_loop l n' (i + 1) inode
  end.
Definition del_msg (l : plist) (inode : ino) : CM (plist * Z) := del_loop l (Z.to_nat (pl_total l)) 0 inode.

(** ** Representation *)
Definition msg_block (m : msg) : block := Some <$> msg_words (m_inode m) (m_modtime m) (m_state m).

(** The blocks of messages, each with its address. *)
Definition msg_nodes (ns : list (nat * msg)) : gmap nat block :=
  list_to_map ((fun x => (x.1, msg_block x.2)) <$> ns).

(** The queue [l], with its messages at the addresses of [ns], takes up exactly
    the blocks [B]. *)
Record in_memory (pl : plist) (l : msglist) (B : gmap nat block) : Prop := {
  so_counts : (pl_nmax pl, pl_total pl, pl_conf pl, pl_send pl, pl_dir pl, pl_timeout pl)
            = (l_nmax l, l_total l, l_conf l, l_send l, l_dir l, l_timeout l);
  so_blocks : match pl_msg pl, l_msg l with
    | None, None => B = ∅
    | Some a, Some ms => exists b ns, ns.*2 = ms /\ NoDup (a :: ns.*1) /\ B = <[a := b]> (msg_nodes ns) /\
        Z.of_nat (length b) = l_nmax l /\
        take (length ns) b = (fun p => Some (WPtr (Some p))) <$> ns.*1
    | _, _ => False
    end;
}.

Lemma nodes_keys ns : ((fun x : nat * msg => (x.1, msg_block x.2)) <$> ns).*1 = ns.*1.
Proof. by rewrite <- list_fmap_compose. Qed.

Lemma nodes_lookup ns p m : NoDup ns.*1 -> (p, m) ∈ ns -> msg_nodes ns !! p = Some (msg_block m).
Proof.
  intros Hn Hi. apply elem_of_list_to_map_1; [by rewrite nodes_keys|].
  apply list_elem_of_fmap. by exists (p, m).
Qed.

Lemma nodes_none ns p : msg_nodes ns !! p = None <-> p ∉ ns.*1.
Proof. unfold msg_nodes. by rewrite <- (nodes_keys ns), not_elem_of_list_to_map. Qed.

(** In any order. *)
Lemma nodes_perm ns ns' : NoDup ns.*1 -> ns ≡ₚ ns' -> msg_nodes ns = msg_nodes ns'.
Proof. intros Hn Hp. apply list_to_map_proper; [by rewrite nodes_keys|]. by rewrite Hp. Qed.

Lemma nodes_cons p m ns : msg_nodes ((p, m) :: ns) = <[p := msg_block m]> (msg_nodes ns).
Proof. done. Qed.

Lemma nodes_snoc p m ns : NoDup (p :: ns.*1) -> msg_nodes (ns ++ [(p, m)]) = <[p := msg_block m]> (msg_nodes ns).
Proof.
  intros Hn. rewrite <- nodes_cons. symmetry. apply nodes_perm; [done|]. by rewrite Permutation_cons_append.
Qed.

Lemma nodes_delete p m n1 n2 :
  NoDup (n1 ++ (p, m) :: n2).*1 -> delete p (msg_nodes (n1 ++ (p, m) :: n2)) = msg_nodes (n1 ++ n2).
Proof.
  intros Hn. assert (n1 ++ (p, m) :: n2 ≡ₚ (p, m) :: n1 ++ n2) as Hp by (symmetry; apply Permutation_middle).
  rewrite (nodes_perm _ _ Hn Hp), nodes_cons. rewrite Hp in Hn. apply NoDup_cons in Hn as [Hi _].
  rewrite delete_insert_eq. by apply delete_id, nodes_none.
Qed.

(** ** Creating and adding *)
Section rules.
Context (A : list answer).
Implicit Types (B R : gmap nat block) (m : cmem).

Lemma new_msg_wp B R m i t st (Q : nat -> cmem -> Prop) :
  owns A B R m ->
  (forall p m', B !! p = None -> owns A (<[p := msg_block (elem_new i t st)]> B) R m' -> Q p m') ->
  pwp (new_msg i t st) Q (out_of_memory 2 A) no_fault m.
Proof.
  intros Ho HQ. unfold new_msg. pwp_step. eapply xmalloc_wp; [done|]. intros p m1 Hp Ho1.
  do 4 (pwp_step; eapply store_wp; [eassumption|apply lookup_insert_eq|cbn; lia|];
        clear Ho1; intros ? Ho1; rewrite insert_insert_eq in Ho1).
  pwp_steps. apply HQ; [done|exact Ho1].
Qed.

(** The room [elem_add] makes. *)
Definition with_room (l : msglist) : msglist :=
  match l_msg l with
  | None => l <| l_msg := Some [] |> <| l_nmax := ARINIT |> <| l_total := 0 |>
  | Some _ => if l_nmax l <=? l_total l then l <| l_nmax := l_nmax l * ARGROW |> else l
  end.

(** The queue with room, and a message beside it. *)
Record roomy (pl : plist) (l : msglist) (p : nat) (e : msg) R m : Prop := {
  ry_counts : (pl_nmax pl, pl_total pl, pl_conf pl, pl_send pl, pl_dir pl, pl_timeout pl)
            = (l_nmax l, l_total l, l_conf l, l_send l, l_dir l, l_timeout l);
  ry_room : exists a b ns, pl_msg pl = Some a /\ ns.*2 = msgs l /\ NoDup (a :: p :: ns.*1) /\
    owns A (<[a := b]> (<[p := msg_block e]> (msg_nodes ns))) R m /\
    Z.of_nat (length b) = l_nmax l /\ l_total l = Z.of_nat (length ns) /\ (length ns < length b)%nat /\
    take (length ns) b = (fun p => Some (WPtr (Some p))) <$> ns.*1;
}.

Lemma make_room_wp pl l B R m p e :
  in_memory pl l B -> ml_ok l -> B !! p = None -> owns A (<[p := msg_block e]> B) R m ->
  pwp (make_room pl) (fun pl' m' => roomy pl' (with_room l) p e R m') (out_of_memory 2 A) no_fault m.
Proof.
  intros [Ec Hb] Hk Hp Ho. injection Ec as En Et E1 E2 E3 E4. unfold make_room, with_room, ml_ok in *. rewrite En, Et.
  destruct (pl_msg pl) as [a|] eqn:Ea, (l_msg l) as [ms|] eqn:El; [|done|done|].
  - destruct Hb as (b & ns & Hms & Hnd & -> & Hlen & Htk). destruct Hk as (Ht & Hle & Hpos).
    assert (length ns = length ms) as Hln by by rewrite <- Hms, length_fmap.
    apply lookup_insert_None in Hp as [Hp Hne]. apply NoDup_cons in Hnd as [Ha Hnd].
    apply nodes_none in Hp as Hpn.
    assert (msgs l = ms) as Em by (unfold msgs; rewrite El, Ht, Nat2Z.id; by apply take_ge).
    destruct (Z.leb_spec (l_nmax l) (l_total l)) as [Hfull|Hroom].
    + pwp_step. eapply xresize_wp; [exact Ho|by rewrite lookup_insert_ne, lookup_insert_eq|unfold ARGROW; lia|].
      intros q m' Hq Ho'. pwp_steps. rewrite delete_insert_ne, delete_insert_eq in Hq, Ho' by done.
      rewrite (delete_id (msg_nodes ns)) in Hq, Ho' by by apply nodes_none.
      apply lookup_insert_None in Hq as [Hq Hqp]. split; [cbn; congruence|].
      exists q, (resize (Z.to_nat (ARGROW * l_nmax l)) None b), ns. split_and!; [done|by rewrite Hms| |done|..].
      * apply NoDup_cons. split; [|by apply NoDup_cons]. apply nodes_none in Hq. set_solver.
      * rewrite length_resize. unfold ARGROW. cbn. lia.
      * cbn. lia.
      * rewrite length_resize. unfold ARGROW. lia.
      * rewrite take_resize_le by (unfold ARGROW; lia). rewrite resize_le by lia. exact Htk.
    + pwp_steps. split; [congruence|]. exists a, b, ns. split_and!; [done|congruence| | |done|lia|lia|done].
      * apply NoDup_cons. split; [set_solver|by apply NoDup_cons].
      * by rewrite insert_insert_ne.
  - subst B. pwp_step. eapply xmalloc_wp; [done|]. intros a m' Ha Ho'. pwp_steps.
    apply lookup_insert_None in Ha as [_ Ha]. split; [cbn; congruence|].
    exists a, (replicate 4 None), []. split_and!; try done; [|cbn; lia].
    apply NoDup_cons. split; [set_solver|apply NoDup_singleton].
Qed.

Lemma add_msg_wp pl l B R m p e :
  in_memory pl l B -> ml_ok l -> B !! p = None -> owns A (<[p := msg_block e]> B) R m ->
  pwp (add_msg pl p) (fun x m' => exists B', in_memory x.1 (elem_add l e).1 B' /\ owns A B' R m' /\ x.2 = (elem_add l e).2)
    (out_of_memory 2 A) no_fault m.
Proof.
  intros Hs Hk Hp Ho. unfold add_msg. pwp_step. eapply pwp_mono; [by eapply make_room_wp| |done].
  intros pl1 m1 [Ec (a & b & ns & Ea & Hms & Hnd & Ho1 & Hlen & Ht & Hlt & Htk)].
  change (elem_add l e) with (let l1 := with_room l in let l2 := l1 <| l_msg := Some (msgs l1 ++ [e]) |>
    <| l_total := l_total l1 + 1 |> in (l2, l_total l2)). cbv zeta. set (l1 := with_room l) in *. clearbody l1.
  injection Ec as En Et E1 E2 E3 E4. unfold array_of, index. rewrite Ea, Et, Ht. pwp_steps.
  rewrite (proj2 (Z.leb_le _ _)), Nat2Z.id by lia. pwp_steps.
  eapply store_wp; [exact Ho1|apply lookup_insert_eq|lia|]. intros m2 Ho2. rewrite insert_insert_eq in Ho2. pwp_steps.
  apply NoDup_cons in Hnd as [Ha Hnd].
  exists (<[a := <[length ns := Some (WPtr (Some p))]> b]> (<[p := msg_block e]> (msg_nodes ns))).
  split_and!; [|done|cbn; by rewrite ?Ht]. split; [cbn; rewrite ?Ht; congruence|].
  cbn. rewrite Ea. exists (<[length ns := Some (WPtr (Some p))]> b), (ns ++ [(p, e)]).
  split_and!.
  - by rewrite fmap_app, Hms.
  - rewrite fmap_app. cbn. rewrite <- Permutation_cons_append. by apply NoDup_cons.
  - by rewrite nodes_snoc.
  - by rewrite length_insert.
  - rewrite length_app, fmap_app, fmap_app. cbn. rewrite Nat.add_1_r.
    rewrite (take_S_r _ _ (Some (WPtr (Some p)))) by by apply list_lookup_insert_eq.
    by rewrite take_insert_ge, Htk by lia.
Qed.

(** ** Searching and deleting *)

(** An array [a] of pointers to the messages [ns]. *)
Record array (pl : plist) (a : nat) (b : block) (ns : list (nat * msg)) B : Prop := {
  ar_msg : pl_msg pl = Some a;
  ar_nodup : NoDup (a :: ns.*1);
  ar_blocks : B = <[a := b]> (msg_nodes ns);
  ar_slots : take (length ns) b = (fun p => Some (WPtr (Some p))) <$> ns.*1;
}.

Lemma array_at pl a b ns B i q mi :
  array pl a b ns B -> ns !! i = Some (q, mi) ->
  B !! a = Some b /\ b !! i = Some (Some (WPtr (Some q))) /\ B !! q = Some (msg_block mi) /\ q <> a.
Proof.
  intros [_ Hnd -> Hb] Hi. apply NoDup_cons in Hnd as [Ha Hnd].
  assert (q ∈ ns.*1) as Hq by (apply list_elem_of_fmap; exists (q, mi); split; [done|by eapply list_elem_of_lookup_2]).
  assert (a <> q) as Hne by set_solver. split_and!; [apply lookup_insert_eq| | |done].
  - pose proof (lookup_lt_Some _ _ _ Hi). rewrite <- (lookup_take_lt b (length ns)), Hb by done.
    by rewrite !list_lookup_fmap, Hi.
  - rewrite lookup_insert_ne by done. by apply nodes_lookup; [|eapply list_elem_of_lookup_2].
Qed.

Lemma msg_at_wp pl a b ns B R m i q mi (Q : nat -> cmem -> Prop) Ex :
  array pl a b ns B -> owns A B R m -> ns !! i = Some (q, mi) -> Q q m ->
  pwp (msg_at pl (Z.of_nat i)) Q Ex no_fault m.
Proof.
  intros Har Ho Hi HQ. destruct (array_at _ _ _ _ _ _ _ _ Har Hi) as (Ha & Hb & _).
  unfold msg_at, array_of, index. rewrite (ar_msg _ _ _ _ _ Har), (proj2 (Z.leb_le _ _)), Nat2Z.id by lia. pwp_steps.
  eapply load_wp; [done..|]. by pwp_steps.
Qed.

Lemma msg_is_wp pl a b ns B R m i q mi inode (Q : bool -> cmem -> Prop) Ex :
  array pl a b ns B -> owns A B R m -> ns !! i = Some (q, mi) -> Q (m_inode mi =? inode) m ->
  pwp (msg_is pl (Z.of_nat i) inode) Q Ex no_fault m.
Proof.
  intros Har Ho Hi HQ. destruct (array_at _ _ _ _ _ _ _ _ Har Hi) as (_ & _ & Hq & _).
  unfold msg_is. pwp_step. eapply msg_at_wp; [done..|]. pwp_step. eapply load_wp; [done..|]. by pwp_steps.
Qed.

Lemma find_loop_wp pl a b n1 n2 B R m inode Ex :
  array pl a b (n1 ++ n2) B -> owns A B R m ->
  pwp (find_loop pl (length n2) (Z.of_nat (length n1)) inode)
    (fun r m' => m' = m /\ r = find_from (Z.of_nat (length n1)) n2.*2 inode) Ex no_fault m.
Proof.
  revert n1. induction n2 as [|[q mi] n2 IH]; intros n1 Har Ho; cbn [length find_loop]; [by pwp_steps|].
  pwp_step. eapply msg_is_wp; [done|done|by apply list_lookup_middle|]. cbn [fmap list_fmap find_from snd].
  destruct (m_inode mi =? inode); [by pwp_steps|].
  replace (Z.of_nat (length n1) + 1) with (Z.of_nat (length (n1 ++ [(q, mi)]))) by (rewrite length_app; cbn; lia).
  apply IH; [|done]. by rewrite <- app_assoc.
Qed.

Lemma find_msg_wp pl l B R m inode Ex :
  in_memory pl l B -> ml_ok l -> owns A B R m ->
  pwp (find_msg pl inode) (fun r m' => m' = m /\ r = elem_find l inode) Ex no_fault m.
Proof.
  intros [Ec Hb] Hk Ho. injection Ec as En Et _ _ _ _. unfold find_msg, elem_find, msgs, ml_ok in *. rewrite Et.
  destruct (pl_msg pl) as [a|] eqn:Ea, (l_msg l) as [ms|] eqn:El; [|done|done|].
  - destruct Hb as (b & ns & <- & Hnd & -> & Hlen & Htk). destruct Hk as (Ht & _). rewrite length_fmap in Ht.
    rewrite Ht, Nat2Z.id, take_ge by (rewrite length_fmap; lia).
    by apply (find_loop_wp pl a b [] ns (<[a := b]> (msg_nodes ns)) R); [split|].
  - replace (Z.to_nat (l_total l)) with 0%nat by lia. by pwp_steps.
Qed.

Lemma cut_out {X} (l1 l2 rest : list X) x :
  let b := l1 ++ x :: l2 ++ rest in
  take (length l1) b ++ take (length l2) (drop (length l1 + 1) b) = l1 ++ l2.
Proof.
  intros b. unfold b. rewrite take_app_length, <- drop_drop, drop_app_length. cbn. by rewrite drop_0, take_app_length.
Qed.

(** The message at [length n1] is taken out. *)
Lemma del_at_wp pl a b n1 q mi n2 B R m (ns := n1 ++ (q, mi) :: n2) Ex :
  array pl a b ns B -> owns A B R m -> pl_total pl = Z.of_nat (length ns) -> (length ns <= length b)%nat ->
  let i := Z.of_nat (length n1) in
  pwp (p ← msg_at pl i; xfree (Some p);; a ← array_of pl; j ← index i;
       memmove a j (j + 1) (Z.to_nat (pl_total pl - (i + 1)));;
       mret (pl <| pl_total := pl_total pl - 1 |>, 1))
    (fun x m' => exists b' B', x = (pl <| pl_total := pl_total pl - 1 |>, 1) /\ array x.1 a b' (n1 ++ n2) B' /\
       owns A B' R m' /\ length b' = length b) Ex no_fault m.
Proof.
  intros Har Ho Ht Hle i. assert (ns !! length n1 = Some (q, mi)) as Hi by by apply list_lookup_middle.
  destruct (array_at _ _ _ _ _ _ _ _ Har Hi) as (Ha & Hb & Hq & Hne). pwp_step. eapply msg_at_wp; [done..|].
  pwp_step. eapply xfree_wp; [done..|]. intros m1 Ho1. unfold array_of, index. rewrite (ar_msg _ _ _ _ _ Har). pwp_steps.
  unfold i. rewrite (proj2 (Z.leb_le _ _)), Nat2Z.id by lia. pwp_steps.
  assert (Z.to_nat (pl_total pl - (Z.of_nat (length n1) + 1)) = length n2) as ->.
  { rewrite Ht. unfold ns. rewrite length_app. cbn. lia. }
  unfold ns in Hle. rewrite length_app in Hle. cbn in Hle.
  eapply memmove_wp; [done|by rewrite lookup_delete_ne|lia|lia|]. intros m2 Ho2. pwp_steps.
  destruct Har as [Hm Hnd -> Hsl].
  set (b' := take (length n1) b ++ take (length n2) (drop (length n1 + 1) b) ++ drop (length n1 + length n2) b) in *.
  exists b', (<[a := b']> (msg_nodes (n1 ++ n2))).
  assert (length (take (length n1) b ++ take (length n2) (drop (length n1 + 1) b)) = length n1 + length n2)%nat as Hl2.
  { rewrite length_app, !length_take, length_drop. lia. }
  split_and!; [done| | |].
  - split; [done| |done|].
    + apply NoDup_cons in Hnd as [Hna Hnd]. unfold ns in *. rewrite fmap_app in *. cbn in *.
      rewrite <- Permutation_middle in Hnd, Hna. apply NoDup_cons in Hnd as [_ Hnd]. apply NoDup_cons. split; [set_solver|done].
    + unfold b'. rewrite app_assoc, take_app_length' by (rewrite length_app; lia).
      set (ptr := fun p : nat => Some (WPtr (Some p))) in *.
      assert (b = (ptr <$> n1.*1) ++ ptr q :: (ptr <$> n2.*1) ++ drop (length ns) b) as Eb.
      { rewrite <- (take_drop (length ns) b) at 1. rewrite Hsl. unfold ns. rewrite !fmap_app. cbn. by rewrite <- app_assoc. }
      pose proof (cut_out (ptr <$> n1.*1) (ptr <$> n2.*1) (drop (length ns) b) (ptr q)) as Hc. cbn zeta in Hc.
      rewrite <- Eb, !length_fmap in Hc. by rewrite Hc, !fmap_app.
  - unfold ns in Ho2, Hnd. rewrite delete_insert_ne, insert_insert_eq, nodes_delete in Ho2; [done| |done]. by apply NoDup_cons in Hnd as [_ Hnd].
  - unfold b'. rewrite app_assoc, length_app, Hl2, length_drop. lia.
Qed.

Lemma del_loop_wp pl a b n1 n2 B R m inode Ex :
  array pl a b (n1 ++ n2) B -> owns A B R m -> pl_total pl = Z.of_nat (length (n1 ++ n2)) ->
  (length (n1 ++ n2) <= length b)%nat ->
  pwp (del_loop pl (length n2) (Z.of_nat (length n1)) inode) (fun x m' =>
    match del_first n2.*2 inode with
    | None => x = (pl, 0) /\ m' = m
    | Some ms => exists b' ns' B', x = (pl <| pl_total := pl_total pl - 1 |>, 1) /\ ns'.*2 = n1.*2 ++ ms /\
        array x.1 a b' ns' B' /\ owns A B' R m' /\ length b' = length b
    end) Ex no_fault m.
Proof.
  revert n1. induction n2 as [|[q mi] n2 IH]; intros n1 Har Ho Ht Hle; cbn [length del_loop]; [by pwp_steps|].
  pwp_step. eapply msg_is_wp; [done|done|by apply list_lookup_middle|]. cbn [fmap list_fmap del_first snd].
  destruct (m_inode mi =? inode).
  - eapply pwp_mono; [by apply (del_at_wp pl a b n1 q mi n2 B R)| |done].
    intros x m' (b' & B' & -> & Har' & Ho' & Hl'). exists b', (n1 ++ n2), B'. by rewrite fmap_app.
  - replace (Z.of_nat (length n1) + 1) with (Z.of_nat (length (n1 ++ [(q, mi)]))) by (rewrite length_app; cbn; lia).
    eapply pwp_mono; [apply IH; rewrite <- ?app_assoc; done| |done].
    intros x m'. cbn beta. destruct (del_first n2.*2 inode) as [ms|]; cbn [fmap option_fmap option_map]; [|done].
    intros (b' & ns' & B' & -> & Hns & H). exists b', ns', B'. split; [done|]. split; [|done].
    by rewrite Hns, fmap_app, <- app_assoc.
Qed.

Lemma del_msg_wp pl l B R m inode Ex :
  in_memory pl l B -> ml_ok l -> owns A B R m ->
  pwp (del_msg pl inode) (fun x m' => exists B', in_memory x.1 (elem_del l inode).1 B' /\ owns A B' R m' /\
    x.2 = (elem_del l inode).2) Ex no_fault m.
Proof.
  intros Hs Hk Ho. destruct (Hs) as [Ec Hb]. injection Ec as En Et E1 E2 E3 E4.
  unfold del_msg, elem_del, msgs, ml_ok in *. rewrite Et.
  destruct (pl_msg pl) as [a|] eqn:Ea, (l_msg l) as [ms|] eqn:El; [|done|done|].
  - destruct Hb as (b & ns & <- & Hnd & -> & Hlen & Htk). destruct Hk as (Ht & Hle & _). rewrite length_fmap in Ht.
    rewrite Ht, Nat2Z.id, take_ge by (rewrite length_fmap; lia).
    eapply pwp_mono; [apply (del_loop_wp pl a b [] ns (<[a := b]> (msg_nodes ns)) R); cbn [app]; [by split|done|lia|lia]| |done].
    intros x m'. destruct (del_first ns.*2 inode) as [ms|]; cbn [fst snd].
    + intros (b' & ns' & B' & -> & Hns & [Hm Hn -> Hsl] & Ho' & Hl'). exists (<[a := b']> (msg_nodes ns')).
      split_and!; [|done|done]. split; [cbn; congruence|]. cbn in *. rewrite Hm. exists b', ns'. rewrite Hl'. by split_and!.
    + intros [-> ->]. by exists (<[a := b]> (msg_nodes ns)).
  - replace (Z.to_nat (l_total l)) with 0%nat by lia. pwp_steps. by exists B.
Qed.
End rules.

(** ** Claims *)

(** One operation, as quemngr uses it: a new message is allocated and added. *)
Definition store_do (op : list_op) (l : plist) : CM (plist * Z) :=
  match op with
  | AddOp e => p ← new_msg (m_inode e) (m_modtime e) (m_state e); add_msg l p
  | DelOp n => del_msg l n
  | FindOp n => r ← find_msg l n; mret (l, r)
  end.

Lemma store_ops_wp A op pl l B R m :
  in_memory pl l B -> ml_ok l -> owns A B R m ->
  pwp (store_do op pl) (fun x m' => exists l' B', elem_do op l = (l', x.2) /\ in_memory x.1 l' B' /\ owns A B' R m')
    (out_of_memory 2 A) no_fault m.
Proof.
  intros Hs Hk Ho. destruct op as [e|n|n]; cbn [store_do elem_do].
  - pwp_step. eapply new_msg_wp; [done|]. intros p m1 Hp Ho1. replace (elem_new _ _ _) with e in Ho1 by by destruct e.
    eapply pwp_mono; [by eapply add_msg_wp| |done]. intros x m2 (B' & Hs' & Ho2 & ->).
    exists (elem_add l e).1, B'. by destruct (elem_add l e).
  - eapply pwp_mono; [by apply (del_msg_wp A pl l B R)| |done]. intros x m2 (B' & Hs' & Ho2 & ->).
    exists (elem_del l n).1, B'. by destruct (elem_del l n).
  - pwp_step. eapply pwp_mono; [by apply (find_msg_wp A pl l B R)| |done]. intros r m2 [-> ->]. pwp_steps. by exists l, B.
Qed.

(** C27: The queue in memory implements the list of messages: insertion allocates a
    message and appends it, deletion frees and removes the first message with
    the inode, search returns its index or -1.  Every access is to a live block
    and inside it, however often the array grows and wherever the allocator
    puts it; no block is leaked, freed twice or kept after its message is gone;
    blocks of others are not touched, nor are the counters of the queue.  The
    program ends, with status 2, only when the allocator has no memory. *)
Theorem msg_ops_refine A (op : list_op) (pl : plist) (l : msglist) B R m :
  in_memory pl l B -> ml_ok l -> owns A B R m ->
  pwp (store_do op pl)
    (fun x m' => exists l' B', elem_do op l = (l', x.2) /\ ml_ok l' /\ list_step op (msgs l) (msgs l') x.2 /\
       (l_conf l', l_send l', l_dir l', l_timeout l') = (l_conf l, l_send l, l_dir l, l_timeout l) /\
       in_memory x.1 l' B' /\ owns A B' R m')
    (out_of_memory 2 A) no_fault m.
Proof.
  intros Hs Hk Ho. pose proof (elem_ops_refine op l Hk) as Hr.
  eapply pwp_mono; [by apply (store_ops_wp A op pl l B R)| |done]. intros x m' (l' & B' & E & Hs' & Ho'). rewrite E in Hr.
  destruct Hr as (Hk' & Hst & Hc). exists l', B'. by split_and!.
Qed.

(** Two messages in an array of four, and a block of somebody else. *)
Definition sample_nodes : list (nat * msg) := zip [1; 2]%nat (msgs sample_list).
Definition sample_array : block := [Some (WPtr (Some 1%nat)); Some (WPtr (Some 2%nat)); None; None].
Definition sample_blocks : gmap nat block := <[0%nat := sample_array]> (msg_nodes sample_nodes).
Definition others : gmap nat block := {[7%nat := [None]]}.
Definition sample_plist : plist :=
  Build_plist (Some 0%nat) 4 (l_total sample_list) (l_conf sample_list) (l_send sample_list) (l_dir sample_list)
    (l_timeout sample_list).
Definition sample_mem : cmem := Build_cmem (sample_blocks ∪ others) 8 [].

Lemma sample_in_memory : in_memory sample_plist sample_list sample_blocks.
Proof.
  split; [done|]. exists sample_array, sample_nodes. split_and!; try done.
  apply (bool_decide_unpack _). by vm_compute.
Qed.

Lemma sample_owns : owns [] sample_blocks others sample_mem.
Proof.
  split; [done|..|done].
  - apply map_disjoint_singleton_r_2. by vm_compute.
  - intros p Hp. cbn in Hp. apply elem_of_dom in Hp.
    assert (dom (sample_blocks ∪ others) = {[0; 1; 2; 7]}%nat) as E by by vm_compute.
    rewrite E in Hp. cbn. set_unfold. lia.
Qed.

Lemma msg_ops_refine_witness :
  pwp (store_do (DelOp 12) sample_plist)
    (fun x m' => exists l' B', elem_do (DelOp 12) sample_list = (l', x.2) /\ ml_ok l' /\
       list_step (DelOp 12) (msgs sample_list) (msgs l') x.2 /\
       (l_conf l', l_send l', l_dir l', l_timeout l')
         = (l_conf sample_list, l_send sample_list, l_dir sample_list, l_timeout sample_list) /\
       in_memory x.1 l' B' /\ owns [] B' others m')
    (out_of_memory 2 []) no_fault sample_mem.
Proof.
  apply (msg_ops_refine [] (DelOp 12) sample_plist sample_list sample_blocks others sample_mem).
  - exact sample_in_memory.
  - unfold ml_ok. cbn. lia.
  - exact sample_owns.
Defined.
