(* ===== verification/Quemngr.v ===== *)
(** * quemngr: the queue manager

    quemngr/quemngr.c: messages are files named by their inode.  They arrive
    in [drop], wait in the queue [in] and, after a failed attempt, in deferred
    queues with growing delays; while a message is with the sender it is also
    linked in [act].  The process talks to the sender through two pipes and
    waits in [poll] for a trigger, a response, a signal or a timer.

    The locals of [main] are part of the state, [poll] is the place where the
    environment decides what happens next, and [q_feed] holds the bytes the
    sender will write.  Log messages are not modelled. *)

From S2P Require Import Prelude Heap Posix Utils QueControl.

(** ** State *)
Record qm := {
  q_os : os;
  q_list : list msglist;       (* quelist *)
  q_count : Z;                 (* quecount *)
  q_countq : nat;              (* countq *)
  q_heap : heap;               (* timerheap *)
  q_sent : list ino;           (* numbers written to the sender *)
  q_in : bytes;                (* responses arrived and not yet read *)
  q_feed : list bytes;         (* what arrives before each of the next reads *)
  q_sigs : bytes;              (* signalpipe *)
  q_childpid : Z;
  q_kills : list (Z * Z);      (* signals sent: process, signal *)
  q_isconnect : bool;
  q_wait : Z;
  q_minnode : bool;            (* minnode points at nodes[1] *)
  q_fd0 : bool;                (* the trigger is polled *)
  q_fd1 : bool;                (* the response pipe is polled *)
  q_polling : bool;            (* at signal_received, not at the loop head *)
  q_ret : option Z * option Z; (* retinode and code, once assigned *)
}.

#[export] Instance qm_rebuild : Rebuild qm := fun w =>
  Build_qm (q_os w) (q_list w) (q_count w) (q_countq w) (q_heap w) (q_sent w) (q_in w) (q_feed w)
    (q_sigs w) (q_childpid w) (q_kills w) (q_isconnect w) (q_wait w) (q_minnode w) (q_fd0 w) (q_fd1 w)
    (q_polling w) (q_ret w).
#[export] Instance upd_q_os : Updater q_os. Proof. solve_updater. Defined.
#[export] Instance upd_q_list : Updater q_list. Proof. solve_updater. Defined.
#[export] Instance upd_q_count : Updater q_count. Proof. solve_updater. Defined.
#[export] Instance upd_q_countq : Updater q_countq. Proof. solve_updater. Defined.
#[export] Instance upd_q_heap : Updater q_heap. Proof. solve_updater. Defined.
#[export] Instance upd_q_sent : Updater q_sent. Proof. solve_updater. Defined.
#[export] Instance upd_q_in : Updater q_in. Proof. solve_updater. Defined.
#[export] Instance upd_q_feed : Updater q_feed. Proof. solve_updater. Defined.
#[export] Instance upd_q_sigs : Updater q_sigs. Proof. solve_updater. Defined.
#[export] Instance upd_q_childpid : Updater q_childpid. Proof. solve_updater. Defined.
#[export] Instance upd_q_kills : Updater q_kills. Proof. solve_updater. Defined.
#[export] Instance upd_q_isconnect : Updater q_isconnect. Proof. solve_updater. Defined.
#[export] Instance upd_q_wait : Updater q_wait. Proof. solve_updater. Defined.
#[export] Instance upd_q_minnode : Updater q_minnode. Proof. solve_updater. Defined.
#[export] Instance upd_q_fd0 : Updater q_fd0. Proof. solve_updater. Defined.
#[export] Instance upd_q_fd1 : Updater q_fd1. Proof. solve_updater. Defined.
#[export] Instance upd_q_polling : Updater q_polling. Proof. solve_updater. Defined.
#[export] Instance upd_q_ret : Updater q_ret. Proof. solve_updater. Defined.

Definition WINSIZE : Z := 1.
Definition WINDEFSIZE : Z := 10.
Definition TIMERHEAPSIZE : nat := 16.
Definition DELTAUSEC : Z := 25.
Definition DESCMAX : nat := 255.

Definition ACT : nat := 0.
Definition IN : nat := 1.

Definition drop_dir : string := "./drop/".
Definition fail_dir : string := "./fail/".
Definition df_dir : string := "./df/".
Definition act_dir : string := "./act/".
Definition in_dir_name : string := "./in/".

Definition SIGUSR2 : Z := 12.
Definition SIGTERM : Z := 15.

Abbreviation QM := (PR qm).

Definition on_os {A} (m : PR os A) : QM A := plift q_os (fun o w => w <| q_os := o |>) m.

(** An array access [quelist[i]]. *)
Definition que (i : nat) : QM msglist := fun w =>
  match q_list w !! i with Some l => (Done l, w) | None => (Faulted OutOfBounds, w) end.
Definition que_set (i : nat) (f : msglist -> msglist) : QM unit := fun w =>
  match q_list w !! i with
  | Some l => (Done tt, w <| q_list := <[i := f l]> (q_list w) |>)
  | None => (Faulted OutOfBounds, w)
  end.

Definition on_heap {A} (m : ST heap A) : QM A := fun w =>
  match m (q_heap w) with
  | Done (a, h) => (Done a, w <| q_heap := h |>)
  | Faulted f => (Faulted f, w)
  | Exited c => (Exited c, w)
  end.

(** [if (call < 0) ERR_SYS(...)]. *)
Definition or_die (m : PR os Z) : QM unit := r ← on_os m; pwhen (r <? 0) ERR_SYS.

(** ** Macros *)
Definition msg_path (dir : string) (i : ino) : path := (dir, ino_name i).

Definition GETFILENAME (numque : nat) : QM ino :=
  l ← que numque;
  match msgs l !! Z.to_nat (l_send l) with
  | Some m => mret (m_inode m)
  | None => pfault OutOfBounds
  end.

Definition MOVEFILE (s d : nat) (file : ino) : QM unit :=
  ls ← que s; ld ← que d; or_die (mvfile (msg_path (l_dir ls) file) (msg_path (l_dir ld) file)).

Definition COPYFILE (s d : nat) (file : ino) : QM unit :=
  ls ← que s; ld ← que d; or_die (cpfile (msg_path (l_dir ls) file) (msg_path (l_dir ld) file)).

(** Growing the heap moves it: pointers to its nodes dangle. *)
Definition ADDTIMER (queind : nat) (inode : ino) : QM unit :=
  now ← on_os getmonotime;
  l ← que queind;
  m ← pgets (fun w => maxsize (q_heap w));
  on_heap (heap_insert (Build_timeval (tv_sec now + l_timeout l) (tv_usec now)) (Z.of_nat queind) inode);;
  m' ← pgets (fun w => maxsize (q_heap w));
  pwhen (negb (m =? m')%nat) (pmodify (fun w => w <| q_minnode := false |>)).

Definition elem_add_q (i : nat) (m : msg) : QM unit := que_set i (fun l => (elem_add l m).1).
Definition elem_del_q (i : nat) (n : ino) : QM unit := que_set i (fun l => (elem_del l n).1).

Definition timeval_none : timeval := Build_timeval 0 0.

(** ** Responses *)

(** The message has left queue [state]. *)
Definition conf_send_dec (state : nat) : QM unit :=
  que_set state (fun l => l <| l_conf := l_conf l - 1 |> <| l_send := l_send l - 1 |>).

Definition check_response (inode : ino) (retval : Z) : QM Z :=
  la ← que ACT;
  let indelem := elem_find la inode in
  if indelem <? 0 then mret (-1)
  else
    match msgs la !! Z.to_nat indelem with
    | None => pfault OutOfBounds
    | Some m =>
        let state := m_state m in
        ls ← que state;
        let dirstate := l_dir ls in
        if retval =? 0 then
          or_die (unlink (msg_path act_dir inode));;
          or_die (fsyncdir act_dir);;
          or_die (unlink (msg_path dirstate inode));;
          or_die (fsyncdir dirstate);;
          elem_del_q ACT inode;;
          elem_del_q state inode;;
          conf_send_dec state;;
          mret 1
        else if retval =? 1 then
          que_set state (fun l => l <| l_conf := l_conf l + 1 |>);;
          mret 0
        else
          countq ← pgets q_countq;
          (if (state =? countq)%nat then
             or_die (unlink (msg_path act_dir inode));;
             or_die (fsyncdir act_dir);;
             or_die (mvfile (msg_path dirstate inode) (msg_path fail_dir inode));;
             elem_del_q ACT inode;;
             elem_del_q state inode;;
             conf_send_dec state
           else
             or_die (unlink (msg_path act_dir inode));;
             or_die (fsyncdir act_dir);;
             MOVEFILE state (state + 1) inode;;
             elem_add_q (state + 1) (elem_new inode timeval_none (state + 1));;
             elem_del_q ACT inode;;
             elem_del_q state inode;;
             conf_send_dec state;;
             ADDTIMER (state + 1) inode);;
          mret 0
    end.

(** *** [fscanf(pipestream, "%ld %d %[^\n]", ...)] *)
Definition is_space (c : Z) : bool := (c =? 32) || ((9 <=? c) && (c <=? 13)).

Fixpoint skip_space (l : bytes) : bytes :=
  match l with c :: l' => if is_space c then skip_space l' else l | [] => [] end.

Fixpoint span_digits (l : bytes) : bytes * bytes :=
  match l with
  | c :: l' => if is_digit c then let '(d, r) := span_digits l' in (c :: d, r) else ([], l)
  | [] => ([], [])
  end.

(** [%ld] and [%d]: the value if there are digits, and the input left. *)
Definition scan_int (l : bytes) : option Z * bytes :=
  let l := skip_space l in
  let '(neg, l) := match l with
                   | c :: l' => if c =? 45 then (true, l') else if c =? 43 then (false, l') else (false, l)
                   | [] => (false, l)
                   end in
  let '(d, r) := span_digits l in
  match d with
  | [] => (None, r)
  | _ => (Some (if neg : bool then - atoi d else atoi d), r)
  end.

Fixpoint span_line (l : bytes) : bytes * bytes :=
  match l with
  | c :: l' => if c =? 10 then ([], l) else let '(d, r) := span_line l' in (c :: d, r)
  | [] => ([], [])
  end.

(** [ScanEOF], or what was assigned (inode, code, length of the description)
    and the input left. *)
Inductive scanned :=
  | ScanEOF (rest : bytes)
  | Scanned (si sc : option Z) (dlen : nat) (rest : bytes).

Definition scan_response (l : bytes) : scanned :=
  match skip_space l with
  | [] => ScanEOF []
  | l0 =>
      match scan_int l0 with
      | (None, r) => Scanned None None 0 r
      | (Some i, r) =>
          match scan_int r with
          | (None, r') => Scanned (Some (u64 i)) None 0 r'
          | (Some c, r') =>
              let '(d, r'') := span_line (skip_space r') in
              Scanned (Some (u64 i)) (Some (i32 c)) (length d) r''
          end
      end
  end.

(** One call: what has arrived by now is read. *)
Definition fscanf_response : QM scanned := fun w =>
  let l := q_in w ++ hd [] (q_feed w) in
  let r := scan_response l in
  (Done r, w <| q_in := match r with ScanEOF rest => rest | Scanned _ _ _ rest => rest end |>
             <| q_feed := tl (q_feed w) |>).

(** Bytes and reads still to come. *)
Definition feed_size (w : qm) : nat := length (q_in w) + length (concat (q_feed w)) + length (q_feed w).

(** [while (fscanf(...) != EOF) if (check_response(...) > 0) ++n;].  The two
    variables keep their values when a conversion fails.  A description of
    [DESCMAX] characters or more overruns its buffer.  The result is the
    count and the variables. *)
Fixpoint response_loop (fuel : nat) (v : option Z * option Z) (n : Z) : QM (Z * (option Z * option Z)) :=
  r ← fscanf_response;
  match r with
  | ScanEOF _ => mret (n, v)
  | Scanned si sc dlen _ =>
      let v := (match si with Some i => Some i | None => v.1 end,
                match sc with Some c => Some c | None => v.2 end) in
      if (DESCMAX <=? dlen)%nat then pfault OutOfBounds
      else
        match v with
        | (Some i, Some c) =>
            k ← check_response i c;
            match fuel with
            | O => pfault OutOfFuel
            | S fuel' => response_loop fuel' v (if 0 <? k then n + 1 else n)
            end
        | _ => pfault Uninitialised
        end
  end.

Definition read_responses (v : option Z * option Z) (n : Z) : QM (Z * (option Z * option Z)) :=
  fuel ← pgets feed_size; response_loop fuel v n.

(** ** Sending *)

(** Whether queue [l] may send another message. *)
Definition may_send (win : Z) (l : msglist) : bool :=
  (l_send l <? win) && (l_send l <? l_total l) && (l_send l =? l_conf l).

(** Link the message into [act] and write its number to the sender. *)
Definition send_message (q : nat) (i : ino) : QM unit :=
  COPYFILE q ACT i;;
  elem_add_q ACT (elem_new i timeval_none q);;
  f ← on_os fails;
  pwhen f ERR_SYS;;
  pmodify (fun w => w <| q_sent := q_sent w ++ [i] |>);;
  que_set q (fun l => l <| l_send := l_send l + 1 |>).

Section reading.
Context {RD : Readdir} {QS : Qsort}.

(** ** New messages *)

(** [strtoul(name, NULL, 10)], on names short enough not to overflow. *)
Definition strtoul (l : bytes) : Z :=
  match scan_int l with (Some v, _) => u64 v | (None, _) => 0 end.

Fixpoint scan_entries (ents : list (string * ino)) (count : Z) : QM Z :=
  match ents with
  | [] => mret count
  | (name, d_ino) :: ents' =>
      if bool_decide (name = ".") || bool_decide (name = "..") then scan_entries ents' count
      else if strtoul (codes name) =? d_ino then
        l ← que IN;
        or_die (mvfile (drop_dir, name) (l_dir l, name));;
        st ← on_os (stat_file (l_dir l, name));
        match st with
        | None => ERR_SYS
        | Some (i, ts) =>
            elem_add_q IN (elem_new i (Build_timeval (ts_sec ts) (ts_nsec ts / 1000)) IN);;
            scan_entries ents' (count + 1)
        end
      else scan_entries ents' count
  end.

Definition scan_drop : QM Z :=
  ents ← on_os (readdir drop_dir);
  match ents with
  | None => ERR_SYS
  | Some es =>
      count ← scan_entries es 0;
      pwhen (negb (count =? 0)) (que_set IN queue_sort);;
      mret count
  end.

(** ** Start *)
Definition queue_add_q : QM nat := fun w =>
  let '((l, c), r) := queue_add (q_list w, q_count w) in
  (Done (Z.to_nat r), w <| q_list := l |> <| q_count := c |> <| q_countq := Z.to_nat r |>).

Fixpoint df_entries (ents : list (string * ino)) : QM unit :=
  match ents with
  | [] => pskip
  | (name, _) :: ents' =>
      if bool_decide (name = ".") || bool_decide (name = "..") then df_entries ents'
      else
        let dir := String.append df_dir name in
        st ← on_os (stat_file (df_dir, name));
        match st with
        | None => ERR_SYS
        | Some _ =>
            isdir ← pgets (fun w => bool_decide (dir ∈ os_dirs (q_os w)));
            let timeout := calctimeout (codes name) in
            pwhen (isdir && (0 <? timeout))
              (c ← queue_add_q;
               que_set c (fun l => l <| l_dir := dir |> <| l_timeout := timeout |>));;
            df_entries ents'
        end
  end.

(** [for (i = 1; i < countq + 1; ++i)] *)
Fixpoint restore_queues (ixs : list nat) : QM unit :=
  match ixs with
  | [] => pskip
  | i :: ixs' =>
      l ← que i;
      l' ← on_os (queue_restore l i);
      que_set i (fun _ => queue_sort l');;
      restore_queues ixs'
  end.

(** [initqueue] up to the queues being read back, and the whole of it. *)
Definition load_queues : QM unit :=
  c ← queue_add_q;
  que_set c (fun l => l <| l_dir := act_dir |> <| l_timeout := 0 |> <| l_total := -1 |>);;
  c ← queue_add_q;
  que_set c (fun l => l <| l_dir := in_dir_name |> <| l_timeout := 0 |>);;
  ents ← on_os (readdir df_dir);
  match ents with
  | None => ERR_SYS
  | Some es =>
      df_entries es;;
      countq ← pgets q_countq;
      pmodify (fun w => w <| q_list := qsort queue_comp (take (countq + 1) (q_list w)) ++
                                       drop (countq + 1) (q_list w) |>
                          <| q_heap := heap_create TIMERHEAPSIZE |>);;
      restore_queues (seq 1 countq)
  end.

Definition initqueue : QM Z := load_queues;; scan_drop;; mret 0.

(** ** Flushing *)

(** [while (quelist[indque].total > 0)]: the process spins until the sender
    has answered for every message; [fuel] bounds the rounds. *)
Fixpoint flush_one (fuel : nat) (indque : nat) (v : option Z * option Z) (n : Z) :
    QM (Z * (option Z * option Z)) :=
  l ← que indque;
  if 0 <? l_total l then
    pwhen (may_send WINSIZE l) (i ← GETFILENAME indque; send_message indque i);;
    r ← read_responses v n;
    match fuel with
    | O => pfault OutOfFuel
    | S fuel' => flush_one fuel' indque r.2 r.1
    end
  else mret (n, v).

Fixpoint flush_from (fuel : nat) (indque : nat) (v : option Z * option Z) (n : Z) : QM Z :=
  match indque with
  | O => mret n
  | S q => r ← flush_one fuel indque v n; flush_from fuel q r.2 r.1
  end.

Definition flush_queue (fuel : nat) : QM Z :=
  countq ← pgets q_countq; flush_from fuel countq (None, None) 0.

(** ** Signals *)
Definition ch_H : Z := 72.
Definition ch_U : Z := 85.

Definition flag_signal (c : Z) : QM unit :=
  f ← on_os fails;
  if f : bool then pexit 1 else pmodify (fun w => w <| q_sigs := q_sigs w ++ [c] |>).
Definition sig_hup : QM unit := flag_signal ch_H.
Definition sig_usr1 : QM unit := flag_signal ch_U.

Definition kill (pid sig : Z) : QM unit := pmodify (fun w => w <| q_kills := q_kills w ++ [(pid, sig)] |>).

(** [while (n >= 0)], from [n = total] on. *)
Fixpoint unlink_act (n : nat) : QM unit :=
  l ← que ACT;
  match msgs l !! n with
  | None => pfault OutOfBounds
  | Some m =>
      on_os (unlink (msg_path act_dir (m_inode m)));;
      match n with O => pskip | S n' => unlink_act n' end
  end.

Definition sig_term : QM unit :=
  l ← que ACT;
  pwhen (0 <=? l_total l) (unlink_act (Z.to_nat (l_total l)));;
  pid ← pgets q_childpid;
  if 0 <? pid then kill pid SIGTERM else pexit 0.

Definition sig_chld (pid : Z) : QM unit :=
  c ← pgets q_childpid;
  if pid =? c then pmodify (fun w => w <| q_childpid := 0 |>);; sig_term else pskip.

(** ** The main loop *)

(** Milliseconds until [key], as an [int]. *)
Definition ms_until (key now : timeval) : Z :=
  i32 (Z.quot (((tv_sec key - tv_sec now) * 1000000 + tv_usec key) - tv_usec now) 1000).

Definition min_key : QM timeval :=
  h ← pgets q_heap;
  pmodify (fun w => w <| q_minnode := bool_decide (is_Some (heap_min h)) |>);;
  match heap_min h with Some m => mret (key m) | None => pfault NullDeref end.

(** The body of the loop up to [poll]. *)
Definition loop_head : QM unit :=
  conn ← pgets q_isconnect;
  pwhen conn
    (l ← que IN;
     (if may_send WINSIZE l then
        pmodify (fun w => w <| q_fd0 := false |>);;
        i ← GETFILENAME IN;
        send_message IN i
      else pwhen (l_total l =? l_send l) (pmodify (fun w => w <| q_fd0 := true |>)));;
     wait ← pgets q_wait;
     n ← pgets (fun w => nodecount (q_heap w));
     if 0 <? wait then
       k ← min_key;
       now ← on_os getmonotime;
       let nearest := ms_until k now in
       let nearest := if nearest <? 0 then DELTAUSEC else nearest in
       pwhen (nearest <? wait) (pmodify (fun w => w <| q_wait := nearest |>))
     else if (n =? 0)%nat then pmodify (fun w => w <| q_wait := -1 |>)
     else
       k ← min_key;
       now ← on_os getmonotime;
       let wait := ms_until k now in
       pmodify (fun w => w <| q_wait := if wait <=? 0 then DELTAUSEC else wait |>)).

(** [poll] has timed out: the least timer has expired. *)
Definition on_timeout : QM unit :=
  ok ← pgets q_minnode;
  if negb ok then pfault NullDeref
  else
    m ← on_heap (hget 1);
    let definode := u64 (hinode m) in
    let q := Z.to_nat (indque m) in
    pmodify (fun w => w <| q_wait := -1 |>);;
    l ← que q;
    if elem_find l definode <? 0 then on_heap heap_extract_min;; pskip
    else
      pwhen (may_send WINDEFSIZE l)
        (send_message q definode;; on_heap heap_extract_min;; pskip).

(** A system call that has no effect on the state of the model. *)
Definition must_succeed : QM unit := f ← on_os fails; pwhen f ERR_SYS.

Definition on_trigger : QM unit :=
  must_succeed;; must_succeed;; must_succeed;;   (* unlink, mkfifo, open *)
  scan_drop;; pskip.

Definition on_signal (fuel : nat) (c : Z) : QM unit :=
  if c =? ch_H then
    pmodify (fun w => w <| q_wait := -1 |> <| q_isconnect := false |> <| q_fd0 := false |> <| q_fd1 := false |>)
  else if c =? ch_U then
    pmodify (fun w => w <| q_isconnect := true |> <| q_fd0 := true |> <| q_fd1 := true |>);;
    scan_drop;;
    flush_queue fuel;;
    pid ← pgets q_childpid;
    kill pid SIGUSR2
  else pskip.

Fixpoint read_signals (fuel nsig : nat) : QM unit :=
  match nsig with
  | O => pskip
  | S n =>
      must_succeed;;
      s ← pgets q_sigs;
      match s with
      | [] => pfault Blocked         (* nothing to read *)
      | c :: s' => pmodify (fun w => w <| q_sigs := s' |>);; on_signal fuel c;; read_signals fuel n
      end
  end.

Inductive pollres :=
  | PollFail
  | PollIntr
  | PollTimeout
  | PollReady (trigger response signal : bool).

Definition on_ready (fuel : nat) (trigger response signal : bool) : QM unit :=
  pwhen trigger on_trigger;;
  pwhen response
    (v ← pgets q_ret; r ← read_responses v 0; pmodify (fun w => w <| q_ret := r.2 |>));;
  pwhen signal
    (must_succeed;;                              (* ioctl *)
     n ← pgets (fun w => length (q_sigs w)); read_signals fuel n).

(** One pass: the head of the loop unless [poll] is being repeated, then what
    [poll] returns.  It reports only descriptors it was given, and with a
    negative timeout it does not time out. *)
Definition main_step (fuel : nat) (p : pollres) : QM unit :=
  again ← pgets q_polling;
  pwhen (negb again) loop_head;;
  w ← pgets id;
  match p with
  | PollFail => ERR_SYS
  | PollIntr => pmodify (fun w => w <| q_polling := true |>)
  | PollTimeout =>
      if q_wait w <? 0 then pmodify (fun w => w <| q_polling := true |>)
      else pmodify (fun w => w <| q_polling := false |>);; on_timeout
  | PollReady t r s =>
      pmodify (fun w => w <| q_polling := false |>);;
      on_ready fuel (t && q_fd0 w) (r && q_fd1 w) s
  end.

(** The state in which the loop starts. *)
Definition main_start (w : qm) : qm :=
  w <| q_isconnect := false |> <| q_wait := -1 |> <| q_fd0 := false |> <| q_fd1 := false |>
    <| q_minnode := false |> <| q_polling := false |> <| q_ret := (None, None) |>.
End reading.
