(* ===== verification/QueProps.v ===== *)
(** * The queue manager: invariant and message safety

    The queues in memory against the files on disk, what a response does to
    both, and that no message file is lost, whatever the sender answers and
    whichever system call fails. *)

From S2P Require Import Prelude Heap Posix Utils QueControl Quemngr.

(** ** Files *)

Definition is_dot (nm : string) : bool := bool_decide (nm = ".") || bool_decide (nm = "..").

(** Message files have one link outside [act], and outside [drop] they are
    named by their inode.  In [drop] any name will do, as long as a name the
    queue manager would take for the file's number is that number.  No file is
    called like the entries every directory has. *)
Record disk_ok (m : gmap path ino) : Prop := {
  dk_named : forall d nm i, d <> df_dir -> d <> drop_dir -> m !! (d, nm) = Some i -> nm = ino_name i;
  dk_drop : forall nm i, m !! (drop_dir, nm) = Some i -> strtoul (codes nm) = i -> nm = ino_name i;
  dk_single : forall p p' i, m !! p = Some i -> m !! p' = Some i ->
    p.1 <> act_dir -> p'.1 <> act_dir -> p = p';
  dk_dot : forall p i, m !! p = Some i -> is_dot p.2 = false;
}.

(** The message has a file. *)
Definition stored (m : gmap path ino) (i : ino) : Prop := exists p, m !! p = Some i /\ p.1 <> act_dir.

(** ** The invariant *)
Definition sending_from (q : nat) (ms : list msg) : nat := length (filter (fun m => m_state m = q) ms).

Record queues_ok (countq : nat) (ql : list msglist) (m : gmap path ino) : Prop := {
  qi_len : length ql = S countq;
  qi_two : (1 <= countq)%nat;
  qi_ok : Forall ml_ok ql;
  qi_nodup : Forall (fun l => NoDup (inodes l)) ql;
  qi_act_dir : forall la, ql !! ACT = Some la -> l_dir la = act_dir;
  qi_dirs : NoDup (map l_dir ql);
  qi_other : Forall (fun l => l_dir l ∉ [fail_dir; drop_dir; df_dir]) ql;
  (* a message with the sender is in the queue it was sent from *)
  qi_act : forall la x, ql !! ACT = Some la -> x ∈ msgs la ->
    (1 <= m_state x)%nat /\ exists l, ql !! m_state x = Some l /\ m_inode x ∈ inodes l;
  qi_send : forall la q l, ql !! ACT = Some la -> (1 <= q)%nat -> ql !! q = Some l ->
    l_send l = Z.of_nat (sending_from q (msgs la));
  (* every queued message has its file *)
  qi_files : forall q l n, (1 <= q)%nat -> ql !! q = Some l -> n ∈ inodes l ->
    m !! msg_path (l_dir l) n = Some n;
  qi_act_files : forall la n, ql !! ACT = Some la -> n ∈ inodes la -> is_Some (m !! msg_path act_dir n);
}.

Record qinv (w : qm) : Prop := {
  qv_disk : disk_ok (os_ents (q_os w));
  qv_queues : queues_ok (q_countq w) (q_list w) (os_ents (q_os w));
  qv_heap : heap_ok (q_heap w);
  qv_timers : Forall (fun x => 1 <= indque x <= Z.of_nat (q_countq w)) (heap_elems (q_heap w));
}.

(** ** What happens to the files *)
Lemma stored_delete_act m n i : stored m i -> stored (delete (msg_path act_dir n) m) i.
Proof.
  intros (p & Hp & Hd). exists p. split; [|done]. rewrite lookup_delete_ne; [done|].
  intros <-. by apply Hd.
Qed.

Lemma stored_delete m p i : stored m i -> stored (delete p m) i \/ m !! p = Some i.
Proof.
  intros (p' & Hp & Hd). destruct (decide (p' = p)) as [->|]; [by right|].
  left. exists p'. by rewrite lookup_delete_ne.
Qed.

Lemma stored_link m n i j : stored m j ->
  stored (<[msg_path act_dir n := i]> m) j.
Proof.
  intros (p & Hp & Hd). exists p. split; [|done]. rewrite lookup_insert_ne; [done|].
  intros <-. by apply Hd.
Qed.

(** A message file moves to another directory under its name. *)
Definition moved (d d' : string) (n : ino) (m : gmap path ino) : gmap path ino :=
  <[msg_path d' n := n]> (delete (msg_path d n) m).

Section moving.
Context (m : gmap path ino) (d d' : string) (n : ino).
Hypothesis (Hok : disk_ok m) (Hd : d <> act_dir) (Hd' : d' <> act_dir) (Hdd : d <> d').
Hypothesis (Hdf' : d' <> df_dir) (Hdr' : d' <> drop_dir).

(** The target is free, unless some other file has taken the name. *)
Lemma move_target : m !! msg_path d n = Some n -> m !! msg_path d' n = None.
Proof using All.
  intros Hn. destruct (m !! msg_path d' n) as [j|] eqn:E; [|done].
  pose proof (dk_named _ Hok _ _ _ Hdf' Hdr' E) as Hj. apply ino_name_inj in Hj as ->.
  pose proof (dk_single _ Hok _ _ _ Hn E Hd Hd'). unfold msg_path in *. by simplify_eq.
Qed.

Lemma rename_moves : m !! msg_path d n = Some n ->
  rename_ents (msg_path d n) (msg_path d' n) m = moved d d' n m.
Proof using All. intros Hn. unfold rename_ents. rewrite Hn, move_target by done. by rewrite bool_decide_false. Qed.

Lemma moved_lookup p i : moved d d' n m !! p = Some i ->
  (p = msg_path d' n /\ i = n) \/ (p <> msg_path d' n /\ p <> msg_path d n /\ m !! p = Some i).
Proof using All.
  unfold moved. intros H. destruct (decide (p = msg_path d' n)) as [->|].
  - rewrite lookup_insert_eq in H. left. by simplify_eq.
  - rewrite lookup_insert_ne in H by done. apply lookup_delete_Some in H as [? ?]. by right.
Qed.

Lemma moved_disk : m !! msg_path d n = Some n -> disk_ok (moved d d' n m).
Proof using All.
  intros Hn. split.
  - intros e nm i He He' [[E ->]|(_ & _ & H)]%moved_lookup.
    + unfold msg_path in E. by simplify_eq.
    + by apply (dk_named _ Hok e).
  - intros nm i [[E ->]|(_ & _ & H)]%moved_lookup; [|by apply (dk_drop _ Hok)].
    unfold msg_path in E. by simplify_eq.
  - intros p p' i [[-> ->]|(? & Hp & H)]%moved_lookup [[-> E']|(? & Hp' & H')]%moved_lookup Ha Ha'; try done.
    + destruct Hp'. by apply (dk_single _ Hok _ _ n).
    + subst. destruct Hp. by apply (dk_single _ Hok _ _ n).
    + by apply (dk_single _ Hok _ _ i).
  - intros p i [[-> ->]|(_ & _ & H)]%moved_lookup; [|by eapply dk_dot]. by apply (dk_dot _ Hok _ _ Hn).
Qed.

Lemma moved_stored i : m !! msg_path d n = Some n -> stored m i -> stored (moved d d' n m) i.
Proof using All.
  intros Hn (p & Hp & Ha). destruct (decide (p = msg_path d n)) as [->|].
  - exists (msg_path d' n). split; [|done]. unfold moved. rewrite lookup_insert_eq. by rewrite Hn in Hp.
  - exists p. split; [|done]. unfold moved. rewrite lookup_insert_ne; [by rewrite lookup_delete_ne|].
    intros <-. rewrite move_target in Hp by done. done.
Qed.
End moving.

Lemma disk_delete m p : disk_ok m -> disk_ok (delete p m).
Proof.
  intros [H1 H0 H2 H3]. split.
  - intros d nm i Hd Hd' [_ H]%lookup_delete_Some. by apply (H1 d).
  - intros nm i [_ H]%lookup_delete_Some. by apply H0.
  - intros a b i [_ Ha]%lookup_delete_Some [_ Hb]%lookup_delete_Some. by apply (H2 a b i).
  - intros q i [_ H]%lookup_delete_Some. by eapply H3.
Qed.

Lemma disk_link m d n i : disk_ok m -> m !! msg_path d n = Some i -> disk_ok (<[msg_path act_dir n := n]> m).
Proof.
  intros [H1 H0 H2 H3] Hdn. split.
  - intros e nm j Hd Hd' [[E ->]|[_ H]]%lookup_insert_Some; [|by apply (H1 e)].
    unfold msg_path in E. by simplify_eq.
  - intros nm j [[E ->]|[_ H]]%lookup_insert_Some; [|by apply H0]. by unfold msg_path in E.
  - intros a b j [[E ?]|[_ Ha]]%lookup_insert_Some [[E' ?]|[_ Hb]]%lookup_insert_Some Hda Hdb; subst; try done.
    by apply (H2 a b j).
  - intros q j [[<- _]|[_ H]]%lookup_insert_Some; [by apply (H3 _ _ Hdn)|by eapply H3].
Qed.

Lemma sending_from_perm q ms ms' : ms ≡ₚ ms' -> sending_from q ms = sending_from q ms'.
Proof. unfold sending_from. by intros ->. Qed.

(** ** Updating one queue *)
Lemma alter_Some {A} (f : A -> A) q (l : list A) i x :
  alter f q l !! i = Some x ->
  (i = q /\ exists y, l !! q = Some y /\ x = f y) \/ (i <> q /\ l !! i = Some x).
Proof.
  destruct (decide (i = q)) as [->|].
  - rewrite list_lookup_alter_eq. intros (y & Hy & ->)%fmap_Some. left. eauto.
  - rewrite list_lookup_alter_ne by done. by right.
Qed.

Lemma alter_look {A} (f : A -> A) q (l : list A) y : l !! q = Some y -> alter f q l !! q = Some (f y).
Proof. intros H. by rewrite list_lookup_alter_eq, H. Qed.

Lemma Forall_alter' {A} (P : A -> Prop) f q (l : list A) :
  Forall P l -> (forall y, l !! q = Some y -> P y -> P (f y)) -> Forall P (alter f q l).
Proof.
  intros Hl Hf. apply Forall_lookup. intros i x [(-> & y & Hy & ->)|[_ Hx]]%alter_Some.
  - apply Hf; [done|]. by eapply Forall_lookup_1.
  - by eapply Forall_lookup_1.
Qed.

Lemma dirs_alter f q (l : list msglist) :
  (forall y, l_dir (f y) = l_dir y) -> map l_dir (alter f q l) = map l_dir l.
Proof.
  intros Hf. apply list_eq. intros i. rewrite !list_lookup_fmap.
  destruct (decide (i = q)) as [->|]; [|by rewrite list_lookup_alter_ne].
  rewrite list_lookup_alter_eq. destruct (l !! q); cbn; [|done]. by rewrite Hf.
Qed.

(** An update that keeps messages, up to order, counter and directory. *)
Lemma queues_alter_frame f q countq ql m :
  queues_ok countq ql m ->
  (forall l, ml_ok l -> ml_ok (f l) /\ msgs (f l) ≡ₚ msgs l) ->
  (forall l, l_send (f l) = l_send l /\ l_dir (f l) = l_dir l) ->
  queues_ok countq (alter f q ql) m.
Proof.
  intros [H1 H2 H3 H4 H5 H6 H7 H8 H9 H10 H11] Hm Hf.
  assert (forall i l', alter f q ql !! i = Some l' -> exists l, ql !! i = Some l /\
            msgs l' ≡ₚ msgs l /\ inodes l' ≡ₚ inodes l /\ l_send l' = l_send l /\ l_dir l' = l_dir l) as Hl.
  { intros i l' [(-> & l & Hl & ->)|[_ Hl]]%alter_Some; [|by exists l'].
    exists l. destruct (Hm l) as [_ Hm']; [by eapply Forall_lookup_1|]. destruct (Hf l).
    unfold inodes. by rewrite Hm'. }
  split; try done.
  - by rewrite length_alter.
  - apply Forall_alter'; [done|]. intros y _ Hy. by apply Hm.
  - apply Forall_lookup. intros i l' (l & Hi & _ & -> & _)%Hl. by eapply (Forall_lookup_1 _ _ _ _ H4).
  - intros la (l & Hi & _ & _ & _ & ->)%Hl. by apply H5.
  - rewrite dirs_alter; [done|]. intros l. apply Hf.
  - apply Forall_alter'; [done|]. intros y _. by destruct (Hf y) as [_ ->].
  - intros la x (l & Hi & Em & _)%Hl Hx. rewrite Em in Hx. destruct (H8 l x Hi Hx) as (? & l2 & Hl2 & Hin).
    split; [done|]. destruct (decide (m_state x = q)) as [Eq|].
    + exists (f l2). rewrite Eq in *. split; [by apply alter_look|].
      unfold inodes in *. destruct (Hm l2) as [_ ->]; [by eapply Forall_lookup_1|done].
    + exists l2. by rewrite list_lookup_alter_ne.
  - intros la i l' (la0 & Hi & Em & _)%Hl Hq (l & Hi' & _ & _ & -> & _)%Hl.
    rewrite (sending_from_perm i _ _ Em). by apply H9.
  - intros i l' n Hq (l & Hi' & _ & -> & _ & ->)%Hl. by eapply H10.
  - intros la n (l & Hi & _ & -> & _)%Hl. by eapply H11.
Qed.

(** *** Removing a message *)
Definition without (n : ino) (ms : list msg) : list msg := filter (fun x => m_inode x <> n) ms.

Lemma filter_all {A} (P : A -> Prop) `{forall x, Decision (P x)} (l : list A) :
  Forall P l -> filter P l = l.
Proof. induction 1 as [|x l Hx Hl IH]; [done|]. by rewrite filter_cons_True, IH. Qed.

Lemma del_without ms n :
  NoDup (map m_inode ms) -> default ms (del_first ms n) = without n ms.
Proof.
  unfold without. induction ms as [|x ms IH]; [done|]. cbn [map del_first]. intros [Hx Hn]%NoDup_cons.
  destruct (Z.eqb_spec (m_inode x) n) as [E|E].
  - cbn [default]. rewrite filter_cons_False by (by rewrite E; tauto). symmetry. apply filter_all. apply Forall_forall.
    intros y Hy Hyn. destruct Hx. rewrite E, <- Hyn. apply list_elem_of_fmap. by exists y.
  - rewrite filter_cons_True by done. rewrite <- IH by done. by destruct (del_first ms n).
Qed.

Lemma without_perm ms x :
  NoDup (map m_inode ms) -> x ∈ ms -> ms ≡ₚ x :: without (m_inode x) ms.
Proof.
  intros Hn Hx. rewrite <- del_without by done.
  destruct (del_first ms (m_inode x)) as [ms'|] eqn:E.
  - apply del_first_some in E as (a & y & b & -> & -> & Hy & Ha). cbn.
    assert (y = x) as ->.
    { rewrite map_app in Hn. apply NoDup_app in Hn as (_ & Hd & Hb).
      apply elem_of_app in Hx as [Hx|Hx].
      - destruct Ha. apply list_elem_of_fmap. by exists x.
      - apply elem_of_cons in Hx as [->|Hx]; [done|]. cbn in Hb. apply NoDup_cons in Hb as [Hb _].
        destruct Hb. rewrite Hy. apply list_elem_of_fmap. by exists x. }
    by rewrite Permutation_middle.
  - apply del_first_none in E. destruct E. apply list_elem_of_fmap. by exists x.
Qed.

Lemma sending_from_cons q x ms :
  sending_from q (x :: ms) = ((if decide (m_state x = q) then 1 else 0) + sending_from q ms)%nat.
Proof. unfold sending_from. rewrite filter_cons. by case_decide. Qed.

Lemma sending_from_snoc q x ms :
  sending_from q (ms ++ [x]) = (sending_from q ms + (if decide (m_state x = q) then 1 else 0))%nat.
Proof.
  unfold sending_from. rewrite filter_app, length_app. f_equal. rewrite filter_cons. by case_decide.
Qed.

Lemma without_inodes n ms k : k ∈ map m_inode (without n ms) <-> k ∈ map m_inode ms /\ k <> n.
Proof.
  unfold without. rewrite !list_elem_of_fmap. split.
  - intros (x & -> & [? ?]%list_elem_of_filter). split; [by exists x|done].
  - intros [(x & -> & Hx) Hn]. exists x. split; [done|]. by apply list_elem_of_filter.
Qed.

Lemma without_nodup n ms : NoDup (map m_inode ms) -> NoDup (map m_inode (without n ms)).
Proof.
  induction ms as [|x ms IH]; [done|]. cbn [map]. intros [Hx Hn]%NoDup_cons.
  unfold without. rewrite filter_cons. case_decide; [|by apply IH]. cbn. apply NoDup_cons.
  split; [|by apply IH]. by intros [? _]%without_inodes.
Qed.

Lemma elem_del_without l n :
  ml_ok l -> NoDup (inodes l) ->
  let l' := (elem_del l n).1 in
  ml_ok l' /\ msgs l' = without n (msgs l) /\ l_conf l' = l_conf l /\ l_send l' = l_send l /\
  l_dir l' = l_dir l /\ l_timeout l' = l_timeout l.
Proof.
  intros Hk Hn. destruct (elem_del_ok l n Hk) as (? & ? & ? & ? & ? & Hm). rewrite del_without in Hm by done.
  by split_and!.
Qed.

(** A message is in one queue only. *)
Lemma queues_disjoint countq ql m q q' l l' n :
  queues_ok countq ql m -> disk_ok m -> (1 <= q)%nat -> (1 <= q')%nat ->
  ql !! q = Some l -> ql !! q' = Some l' -> n ∈ inodes l -> n ∈ inodes l' -> q = q'.
Proof.
  intros Hq Hd H1 H1' Hl Hl' Hn Hn'.
  pose proof (qi_files _ _ _ Hq _ _ _ H1 Hl Hn) as Hf.
  pose proof (qi_files _ _ _ Hq _ _ _ H1' Hl' Hn') as Hf'.
  destruct (lookup_lt_is_Some_2 ql ACT) as [la Hla]; [rewrite (qi_len _ _ _ Hq); unfold ACT; lia|].
  assert (forall i x, (1 <= i)%nat -> ql !! i = Some x -> l_dir x <> act_dir) as Ha.
  { intros i x Hi Hx E. rewrite <- (qi_act_dir _ _ _ Hq la Hla) in E.
    assert (i = ACT); [|unfold ACT in *; lia].
    eapply NoDup_lookup; [apply (qi_dirs _ _ _ Hq)| |];
      rewrite list_lookup_fmap; [by rewrite Hx|]. rewrite Hla. cbn. by rewrite E. }
  pose proof (dk_single _ Hd _ _ n Hf Hf' (Ha _ _ H1 Hl) (Ha _ _ H1' Hl')) as E.
  unfold msg_path in E. simplify_eq. eapply NoDup_lookup; [apply (qi_dirs _ _ _ Hq)| |];
    rewrite list_lookup_fmap; [by rewrite Hl|]. rewrite Hl'. cbn. by f_equal.
Qed.

(** The queues after message [n] of queue [q] has been answered for good. *)
Definition gone (q : nat) (n : ino) (ql : list msglist) : list msglist :=
  alter (fun l => l <| l_conf := l_conf l - 1 |> <| l_send := l_send l - 1 |>) q
    (alter (fun l => (elem_del l n).1) q (alter (fun l => (elem_del l n).1) ACT ql)).

Lemma gone_lookup q n ql i l' :
  (1 <= q)%nat -> gone q n ql !! i = Some l' ->
  exists l, ql !! i = Some l /\
    l' = if decide (i = q) then
           ((elem_del l n).1) <| l_conf := l_conf l' |> <| l_send := l_send (elem_del l n).1 - 1 |>
         else if decide (i = ACT) then (elem_del l n).1 else l.
Proof.
  intros Hq. unfold gone. intros [(-> & y & Hy & ->)|[Hi Hx]]%alter_Some.
  - apply alter_Some in Hy as [(_ & z & Hz & ->)|[? _]]; [|done].
    apply alter_Some in Hz as [(E & _)|[_ Hz]]; [unfold ACT in E; lia|].
    exists z. rewrite decide_True by done. by destruct (elem_del z n) as [[] ?].
  - apply alter_Some in Hx as [(? & _)|[_ Hx]]; [done|].
    apply alter_Some in Hx as [(-> & z & Hz & ->)|[? Hx]].
    + exists z. by rewrite (decide_False (P := ACT = q)), decide_True.
    + exists l'. by rewrite !decide_False.
Qed.

(** The part of a queue the invariant depends on. *)
Lemma gone_view countq ql m q n i l' :
  queues_ok countq ql m -> (1 <= q)%nat -> gone q n ql !! i = Some l' ->
  exists l, ql !! i = Some l /\ ml_ok l' /\ l_dir l' = l_dir l /\ NoDup (inodes l') /\
    msgs l' = (if decide (i = q \/ i = ACT) then without n (msgs l) else msgs l) /\
    l_send l' = (if decide (i = q) then l_send l - 1 else l_send l).
Proof.
  intros Hk Hq (l & Hl & El)%gone_lookup; [|done]. exists l. split; [done|].
  pose proof (Forall_lookup_1 _ _ _ _ (qi_ok _ _ _ Hk) Hl) as Hml.
  pose proof (Forall_lookup_1 _ _ _ _ (qi_nodup _ _ _ Hk) Hl) as Hnd. cbv beta in Hnd.
  destruct (elem_del_without l n Hml Hnd) as (D1 & D2 & D3 & D4 & D5 & D6).
  pose proof (without_nodup n _ Hnd) as Hnd'. rewrite <- D2 in Hnd'.
  destruct (decide (i = q)) as [->|Hiq].
  - rewrite (decide_True (P := q = q \/ q = ACT)) by auto. revert El. generalize (l_conf l').
    intros c ->. cbn. split_and!; [exact D1|exact D5|exact Hnd'|exact D2|by rewrite D4].
  - destruct (decide (i = ACT)) as [->|Hia].
    + rewrite (decide_True (P := ACT = q \/ ACT = ACT)) by auto. subst l'. split_and!; done.
    + rewrite decide_False by tauto. by subst l'.
Qed.

Lemma length_gone q n ql : length (gone q n ql) = length ql.
Proof. unfold gone. by rewrite !length_alter. Qed.

Lemma dirs_gone countq ql m q n :
  queues_ok countq ql m -> (1 <= q)%nat -> map l_dir (gone q n ql) = map l_dir ql.
Proof.
  intros Hk Hq. apply list_eq. intros i. rewrite !list_lookup_fmap.
  destruct (gone q n ql !! i) as [l'|] eqn:E; cbn.
  - destruct (gone_view _ _ _ _ _ _ _ Hk Hq E) as (l & -> & _ & -> & _). done.
  - apply lookup_ge_None in E. rewrite length_gone in E. by rewrite (lookup_ge_None_2 ql i E).
Qed.

Lemma queues_gone countq ql m m' q n la x :
  queues_ok countq ql m -> disk_ok m -> ql !! ACT = Some la -> x ∈ msgs la ->
  m_inode x = n -> m_state x = q ->
  (forall d k, k <> n -> m' !! msg_path d k = m !! msg_path d k) ->
  queues_ok countq (gone q n ql) m'.
Proof.
  intros Hk Hd Hla Hx Hn Hs Hm.
  destruct (qi_act _ _ _ Hk la x Hla Hx) as (Hq & lq & Hlq & Hin). rewrite Hn, Hs in *.
  pose proof (Forall_lookup_1 _ _ _ _ (qi_nodup _ _ _ Hk) Hla) as Hnda. cbv beta in Hnda.
  assert (forall i l', gone q n ql !! i = Some l' -> forall k, k ∈ inodes l' ->
            k <> n /\ exists l, ql !! i = Some l /\ k ∈ inodes l /\ l_dir l' = l_dir l) as Hsub.
  { intros i l' Hl' k Hki. destruct (gone_view _ _ _ _ _ _ _ Hk Hq Hl') as (l & Hl & _ & Ed & _ & Em & _).
    unfold inodes in Hki. rewrite Em in Hki. case_decide as E.
    - apply without_inodes in Hki as [? ?]. split; [done|]. by exists l.
    - split; [|by exists l]. intros ->. apply E. left.
      apply (queues_disjoint _ _ _ i q l lq n Hk Hd); [|done..].
      destruct i; [|lia]. destruct E. by right. }
  split.
  - rewrite length_gone. apply Hk.
  - apply Hk.
  - apply Forall_lookup. intros i l' Hl'. by destruct (gone_view _ _ _ _ _ _ _ Hk Hq Hl') as (l & _ & ? & _).
  - apply Forall_lookup. intros i l' Hl'. by destruct (gone_view _ _ _ _ _ _ _ Hk Hq Hl') as (l & _ & _ & _ & ? & _).
  - intros l' Hl'. destruct (gone_view _ _ _ _ _ _ _ Hk Hq Hl') as (l & Hl & _ & -> & _). by apply Hk.
  - erewrite dirs_gone by done. apply Hk.
  - apply Forall_lookup. intros i l' Hl'. destruct (gone_view _ _ _ _ _ _ _ Hk Hq Hl') as (l & Hl & _ & -> & _).
    by apply (Forall_lookup_1 _ _ _ _ (qi_other _ _ _ Hk) Hl).
  - intros l' y Hl' Hy. destruct (gone_view _ _ _ _ _ _ _ Hk Hq Hl') as (l & Hl & _ & _ & _ & Em & _).
    rewrite Em, decide_True in Hy by auto. simplify_eq. unfold without in Hy.
    apply list_elem_of_filter in Hy as [Hyn Hy]. destruct (qi_act _ _ _ Hk la y Hla Hy) as (Hy1 & l2 & Hl2 & Hyi).
    split; [done|]. destruct (lookup_lt_is_Some_2 (gone (m_state x) (m_inode x) ql) (m_state y)) as [l2' Hl2'].
    { rewrite length_gone. by eapply lookup_lt_Some. }
    exists l2'. split; [done|].
    destruct (gone_view _ _ _ _ _ _ _ Hk Hq Hl2') as (l3 & Hl3 & _ & _ & _ & Em2 & _). simplify_eq.
    unfold inodes. rewrite Em2. case_decide; [|done]. by apply without_inodes.
  - intros l' i li' Hl' Hi Hli'. destruct (gone_view _ _ _ _ _ _ _ Hk Hq Hl') as (l & Hl & _ & _ & _ & Em & _).
    destruct (gone_view _ _ _ _ _ _ _ Hk Hq Hli') as (li & Hli & _ & _ & _ & _ & Es).
    rewrite Em, Es, (decide_True (P := ACT = q \/ ACT = ACT)) by auto. simplify_eq. rewrite (qi_send _ _ _ Hk la i li Hla Hi Hli).
    rewrite (sending_from_perm i (msgs la) _ (without_perm _ x Hnda Hx)), sending_from_cons.
    destruct (decide (i = m_state x)); destruct (decide (m_state x = i)); try congruence; lia.
  - intros i l' k Hi Hl' Hki. destruct (Hsub i l' Hl' k Hki) as (Hkn & l & Hl & Hkl & ->).
    rewrite Hm by done. by eapply qi_files.
  - intros l' k Hl' Hki. destruct (Hsub _ l' Hl' k Hki) as (Hkn & l & Hl & Hkl & _).
    rewrite Hm by done. by eapply qi_act_files.
Qed.

(** *** Adding a message *)
Definition added (q : nat) (e : msg) (ql : list msglist) : list msglist :=
  alter (fun l => (elem_add l e).1) q ql.

Lemma added_view countq ql m q e i l' :
  queues_ok countq ql m -> added q e ql !! i = Some l' ->
  exists l, ql !! i = Some l /\ ml_ok l' /\ l_dir l' = l_dir l /\ l_send l' = l_send l /\
    msgs l' = msgs l ++ (if decide (i = q) then [e] else []).
Proof.
  intros Hk [(-> & l & Hl & ->)|[Hi Hl]]%alter_Some.
  - exists l. split; [done|]. pose proof (Forall_lookup_1 _ _ _ _ (qi_ok _ _ _ Hk) Hl) as Hml.
    destruct (elem_add_ok l e Hml) as (? & ? & ? & ? & ? & ? & ?). by rewrite decide_True.
  - exists l'. split; [done|]. pose proof (Forall_lookup_1 _ _ _ _ (qi_ok _ _ _ Hk) Hl) as Hml.
    by rewrite decide_False, app_nil_r.
Qed.

Lemma dirs_added countq ql m q e :
  queues_ok countq ql m -> map l_dir (added q e ql) = map l_dir ql.
Proof.
  intros Hk. apply list_eq. intros i. rewrite !list_lookup_fmap.
  destruct (added q e ql !! i) as [l'|] eqn:E; cbn.
  - destruct (added_view _ _ _ _ _ _ _ Hk E) as (l & -> & _ & -> & _). done.
  - apply lookup_ge_None in E. unfold added in E. rewrite length_alter in E.
    by rewrite (lookup_ge_None_2 ql i E).
Qed.

Lemma nodup_snoc (l : list msg) e :
  NoDup (map m_inode l) -> m_inode e ∉ map m_inode l -> NoDup (map m_inode (l ++ [e])).
Proof.
  intros Hl He. rewrite map_app. apply NoDup_app. split_and!; [done| |apply NoDup_singleton].
  intros x Hx ->%list_elem_of_singleton. done.
Qed.

Lemma queues_added countq ql m q e l :
  queues_ok countq ql m -> (1 <= q)%nat -> ql !! q = Some l -> m_inode e ∉ inodes l ->
  m !! msg_path (l_dir l) (m_inode e) = Some (m_inode e) ->
  queues_ok countq (added q e ql) m.
Proof.
  intros Hk Hq Hl He Hf.
  assert (forall i l' k, added q e ql !! i = Some l' -> k ∈ inodes l' -> exists l0, ql !! i = Some l0 /\
            l_dir l' = l_dir l0 /\ (k ∈ inodes l0 \/ (i = q /\ k = m_inode e))) as Hsub.
  { intros i l' k Hl' Hki. destruct (added_view _ _ _ _ _ _ _ Hk Hl') as (l0 & Hl0 & _ & -> & _ & Em).
    exists l0. split_and!; [done..|]. unfold inodes in *. rewrite Em, map_app in Hki.
    apply elem_of_app in Hki as [?|Hki]; [by left|]. case_decide; [|set_solver].
    right. split; [done|]. set_solver. }
  split.
  - unfold added. rewrite length_alter. apply Hk.
  - apply Hk.
  - apply Forall_lookup. intros i l' Hl'. by destruct (added_view _ _ _ _ _ _ _ Hk Hl') as (? & _ & ? & _).
  - apply Forall_lookup. intros i l' Hl'. destruct (added_view _ _ _ _ _ _ _ Hk Hl') as (l0 & Hl0 & _ & _ & _ & Em).
    pose proof (Forall_lookup_1 _ _ _ _ (qi_nodup _ _ _ Hk) Hl0) as Hnd. unfold inodes in *. rewrite Em.
    case_decide; [|by rewrite app_nil_r]. subst i. simplify_eq. by apply nodup_snoc.
  - intros l' Hl'. destruct (added_view _ _ _ _ _ _ _ Hk Hl') as (l0 & Hl0 & _ & -> & _). by apply Hk.
  - erewrite dirs_added by done. apply Hk.
  - apply Forall_lookup. intros i l' Hl'. destruct (added_view _ _ _ _ _ _ _ Hk Hl') as (l0 & Hl0 & _ & -> & _).
    by apply (Forall_lookup_1 _ _ _ _ (qi_other _ _ _ Hk) Hl0).
  - intros l' y Hl' Hy. destruct (added_view _ _ _ _ _ _ _ Hk Hl') as (l0 & Hl0 & _ & _ & _ & Em).
    rewrite Em, decide_False, app_nil_r in Hy by (unfold ACT; lia).
    destruct (qi_act _ _ _ Hk l0 y Hl0 Hy) as (Hy1 & l2 & Hl2 & Hyi). split; [done|].
    destruct (lookup_lt_is_Some_2 (added q e ql) (m_state y)) as [l2' Hl2'].
    { unfold added. rewrite length_alter. by eapply lookup_lt_Some. }
    exists l2'. split; [done|]. destruct (added_view _ _ _ _ _ _ _ Hk Hl2') as (l3 & Hl3 & _ & _ & _ & Em2).
    simplify_eq. unfold inodes in *. rewrite Em2, map_app. apply elem_of_app. by left.
  - intros l' i li' Hl' Hi Hli'. destruct (added_view _ _ _ _ _ _ _ Hk Hl') as (l0 & Hl0 & _ & _ & _ & Em).
    destruct (added_view _ _ _ _ _ _ _ Hk Hli') as (li & Hli & _ & _ & Es & _).
    rewrite Em, Es, decide_False, app_nil_r by (unfold ACT; lia). by apply (qi_send _ _ _ Hk).
  - intros i l' k Hi Hl' Hki. destruct (Hsub i l' k Hl' Hki) as (l0 & Hl0 & -> & [Hk0|[-> ->]]).
    + by eapply qi_files.
    + by simplify_eq.
  - intros l' k Hl' Hki. destruct (Hsub _ l' k Hl' Hki) as (l0 & Hl0 & _ & [Hk0|[E _]]).
    + by eapply qi_act_files.
    + unfold ACT in E. lia.
Qed.

(** *** Sending a message *)
Definition handed (q : nat) (n : ino) (ql : list msglist) : list msglist :=
  alter (fun l => l <| l_send := l_send l + 1 |>) q (added ACT (elem_new n timeval_none q) ql).

Lemma handed_view countq ql m q n i l' :
  queues_ok countq ql m -> handed q n ql !! i = Some l' ->
  exists l, ql !! i = Some l /\ ml_ok l' /\ l_dir l' = l_dir l /\
    l_send l' = l_send l + (if decide (i = q) then 1 else 0) /\
    msgs l' = msgs l ++ (if decide (i = ACT) then [elem_new n timeval_none q] else []).
Proof.
  intros Hk [(-> & y & Hy & ->)|[Hi Hl]]%alter_Some.
  - destruct (added_view _ _ _ _ _ _ _ Hk Hy) as (l & Hl & Hok & Hd & Hs & Em). exists l.
    rewrite (decide_True (P := q = q)) by done. cbn. rewrite Hs. by split_and!.
  - destruct (added_view _ _ _ _ _ _ _ Hk Hl) as (l & Hl0 & Hok & Hd & Hs & Em). exists l.
    rewrite (decide_False (P := i = q)) by done. split_and!; try done. lia.
Qed.

Lemma length_handed q n ql : length (handed q n ql) = length ql.
Proof. unfold handed, added. by rewrite !length_alter. Qed.

Lemma queues_handed countq ql m q n l la :
  queues_ok countq ql m -> (1 <= q)%nat -> ql !! q = Some l -> n ∈ inodes l ->
  ql !! ACT = Some la -> m !! msg_path act_dir n = None ->
  queues_ok countq (handed q n ql) (<[msg_path act_dir n := n]> m).
Proof.
  intros Hk Hq Hl Hn Hla Hm. set (e := elem_new n timeval_none q).
  assert (forall i l', handed q n ql !! i = Some l' -> exists l0, ql !! i = Some l0 /\ ml_ok l' /\
            l_dir l' = l_dir l0 /\ l_send l' = l_send l0 + (if decide (i = q) then 1 else 0) /\
            msgs l' = msgs l0 ++ (if decide (i = ACT) then [e] else [])) as Hv
    by (intros; by eapply handed_view).
  assert (n ∉ inodes la) as Hna.
  { intros Hna. destruct (qi_act_files _ _ _ Hk la n Hla Hna) as [j Hj]. by rewrite Hm in Hj. }
  split.
  - rewrite length_handed. apply Hk.
  - apply Hk.
  - apply Forall_lookup. intros i l' Hl'. by destruct (Hv i l' Hl') as (? & _ & ? & _).
  - apply Forall_lookup. intros i l' Hl'. destruct (Hv i l' Hl') as (l0 & Hl0 & _ & _ & _ & Em).
    pose proof (Forall_lookup_1 _ _ _ _ (qi_nodup _ _ _ Hk) Hl0) as Hnd. unfold inodes in *. rewrite Em.
    case_decide; [|by rewrite app_nil_r]. subst i. simplify_eq. by apply nodup_snoc.
  - intros l' Hl'. destruct (Hv _ l' Hl') as (l0 & Hl0 & _ & -> & _). by apply Hk.
  - unfold handed. rewrite dirs_alter by done. erewrite dirs_added by done. apply Hk.
  - apply Forall_lookup. intros i l' Hl'. destruct (Hv i l' Hl') as (l0 & Hl0 & _ & -> & _).
    by apply (Forall_lookup_1 _ _ _ _ (qi_other _ _ _ Hk) Hl0).
  - intros l' y Hl' Hy. destruct (Hv _ l' Hl') as (l0 & Hl0 & _ & _ & _ & Em). simplify_eq.
    rewrite Em, decide_True in Hy by done.
    assert (exists l2, (1 <= m_state y)%nat /\ ql !! m_state y = Some l2 /\ m_inode y ∈ inodes l2)
      as (l2 & Hy1 & Hl2 & Hyi).
    { apply elem_of_app in Hy as [Hy| ->%list_elem_of_singleton]; [|by exists l].
      destruct (qi_act _ _ _ Hk _ y Hla Hy) as (? & l2 & ?). by exists l2. }
    split; [done|]. destruct (lookup_lt_is_Some_2 (handed q n ql) (m_state y)) as [l2' Hl2'].
    { rewrite length_handed. by eapply lookup_lt_Some. }
    exists l2'. split; [done|]. destruct (Hv _ _ Hl2') as (l3 & Hl3 & _ & _ & _ & Em2).
    simplify_eq. unfold inodes in *. rewrite Em2, map_app. apply elem_of_app. by left.
  - intros l' i li' Hl' Hi Hli'. destruct (Hv _ _ Hl') as (l0 & Hl0 & _ & _ & _ & Em).
    destruct (Hv _ _ Hli') as (li & Hli & _ & _ & Es & _). simplify_eq.
    rewrite Em, Es, (decide_True (P := ACT = ACT)), sending_from_snoc by done.
    rewrite (qi_send _ _ _ Hk la i li Hla Hi Hli). cbn [e elem_new m_state].
    destruct (decide (i = q)), (decide (q = i)); try congruence; lia.
  - intros i l' k Hi Hl' Hki. destruct (Hv _ _ Hl') as (l0 & Hl0 & _ & -> & _ & Em).
    unfold inodes in Hki. rewrite Em, decide_False, app_nil_r in Hki by (unfold ACT; lia).
    pose proof (qi_files _ _ _ Hk i l0 k Hi Hl0 Hki) as Hf. rewrite lookup_insert_ne; [done|].
    intros E. rewrite <- E, Hm in Hf. done.
  - intros l' k Hl' Hki. destruct (Hv _ _ Hl') as (l0 & Hl0 & _ & _ & _ & Em). simplify_eq.
    unfold inodes in Hki. rewrite Em, decide_True, map_app in Hki by done.
    apply elem_of_app in Hki as [Hki|Hki].
    + destruct (decide (k = n)) as [->|]; [by rewrite lookup_insert_eq|].
      rewrite lookup_insert_ne; [by eapply qi_act_files|]. unfold msg_path. intros [= E%ino_name_inj]. done.
    + cbn in Hki. apply list_elem_of_singleton in Hki as ->. by rewrite lookup_insert_eq.
Qed.

(** ** Running the operations *)

(** What the operations on messages leave alone. *)
Definition frame (w : qm) := (q_countq w, q_sent w, q_in w, q_feed w, q_isconnect w, q_wait w, q_polling w, q_sigs w).

(** [w] is [w0] with queues [ql] and files [m]. *)
Record at_ (w0 : qm) (ql : list msglist) (m : gmap path ino) (w : qm) : Prop := {
  at_list : q_list w = ql;
  at_ents : os_ents (q_os w) = m;
  at_heap : q_heap w = q_heap w0;
  at_min : q_minnode w = q_minnode w0;
  at_frame : frame w = frame w0;
  at_clock : os_clock (q_os w) = os_clock (q_os w0);
}.

Lemma alter_insert {A} (f : A -> A) i (l : list A) x : l !! i = Some x -> <[i := f x]> l = alter f i l.
Proof.
  intros Hx. apply list_eq. intros j. destruct (decide (i = j)) as [<-|].
  - rewrite list_lookup_insert_eq by (by eapply lookup_lt_Some). by rewrite (alter_look f i l x).
  - by rewrite list_lookup_insert_ne, list_lookup_alter_ne.
Qed.

Section running.
Context (w0 : qm) (R : Z -> qm -> Prop) (F : fault -> Prop).
Implicit Types (w : qm) (ql : list msglist) (m : gmap path ino).

Lemma at_que i l ql m (Q : msglist -> qm -> Prop) w :
  at_ w0 ql m w -> ql !! i = Some l -> Q l w -> pwp (que i) Q R F w.
Proof. intros [Hl _ _ _ _ _] Hi HQ. unfold pwp, que. by rewrite Hl, Hi. Qed.

Lemma at_que_set i f l ql m (Q : unit -> qm -> Prop) w :
  at_ w0 ql m w -> ql !! i = Some l -> (forall w', at_ w0 (alter f i ql) m w' -> Q tt w') ->
  pwp (que_set i f) Q R F w.
Proof.
  intros [Hl He Hh Hm Hf Hc] Hi HQ. unfold pwp, que_set. rewrite Hl, Hi. apply HQ.
  split; cbn; try done. by apply alter_insert.
Qed.

(** A call on the files that succeeds with files [m'] or changes nothing. *)
Lemma at_or_die (call : PR os Z) ql m (P : gmap path ino -> Prop) (Q : unit -> qm -> Prop) w :
  at_ w0 ql m w ->
  (forall (Q' : Z -> os -> Prop) R' F' o, os_ents o = m ->
     (forall o', P (os_ents o') -> os_clock o' = os_clock o -> Q' 0 o') ->
     (forall o', os_ents o' = m -> os_clock o' = os_clock o -> Q' (-1) o') ->
     pwp call Q' R' F' o) ->
  (forall w' m', P m' -> at_ w0 ql m' w' -> Q tt w') ->
  (forall w', at_ w0 ql m w' -> R 2 w') ->
  pwp (or_die call) Q R F w.
Proof.
  intros [Hl He Hh Hm Hf Hc] Hcall HQ HR. unfold or_die. apply pwp_bind, pwp_lift, Hcall; [done|..].
  - intros o' Ho' Hc'. cbn. pwp_steps. apply (HQ _ _ Ho'). split; cbn; first [done|congruence].
  - intros o' Ho' Hc'. cbn. pwp_steps. apply HR. split; cbn; first [done|congruence].
Qed.

Lemma at_unlink p ql m (Q : unit -> qm -> Prop) w :
  at_ w0 ql m w ->
  (forall w', is_Some (m !! p) -> at_ w0 ql (delete p m) w' -> Q tt w') ->
  (forall w', at_ w0 ql m w' -> R 2 w') -> pwp (or_die (unlink p)) Q R F w.
Proof.
  intros Hat HQ HR. eapply (at_or_die _ _ _ (fun m' => m' = delete p m /\ is_Some (m !! p))); [done|..|done].
  - intros Q' R' F' o <- H0 H1. apply unlink_wp.
    + intros o' (_ & He & _ & Hc & _) Hp. apply H0; [by split|done].
    + intros o' (_ & He & _ & Hc & _). by apply H1.
  - intros w' m' [-> Hp] Hw'. by apply HQ.
Qed.

Lemma at_fsyncdir d ql m (Q : unit -> qm -> Prop) w :
  at_ w0 ql m w -> (forall w', at_ w0 ql m w' -> Q tt w') ->
  (forall w', at_ w0 ql m w' -> R 2 w') -> pwp (or_die (fsyncdir d)) Q R F w.
Proof.
  intros Hat HQ HR. unfold or_die. apply pwp_bind, pwp_lift, fsyncdir_quiet.
  intros r o' (_ & He & _ & Hc & _). destruct Hat as [? <- ? ? ? ?].
  destruct (r <? 0); cbn; pwp_steps; [apply HR|apply HQ]; split; cbn; first [done|congruence].
Qed.

Lemma at_mvfile src dst ql m (Q : unit -> qm -> Prop) w :
  at_ w0 ql m w ->
  (forall w', is_Some (m !! src) -> at_ w0 ql (rename_ents src dst m) w' -> Q tt w') ->
  (forall w', at_ w0 ql m w' -> R 2 w') -> pwp (or_die (mvfile src dst)) Q R F w.
Proof.
  intros Hat HQ HR.
  eapply (at_or_die _ _ _ (fun m' => m' = rename_ents src dst m /\ is_Some (m !! src))); [done|..|done].
  - intros Q' R' F' o <- H0 H1. apply mvfile_wp.
    + intros o' (_ & He & _ & Hc & _) Hp. apply H0; [by split|done].
    + intros o' (_ & He & _ & Hc & _). by apply H1.
  - intros w' m' [-> Hp] Hw'. by apply HQ.
Qed.

Lemma at_cpfile src dst ql m (Q : unit -> qm -> Prop) w :
  at_ w0 ql m w ->
  (forall w' i, m !! src = Some i -> m !! dst = None -> at_ w0 ql (<[dst := i]> m) w' -> Q tt w') ->
  (forall w', at_ w0 ql m w' -> R 2 w') -> pwp (or_die (cpfile src dst)) Q R F w.
Proof.
  intros Hat HQ HR.
  eapply (at_or_die _ _ _ (fun m' => exists i, m' = <[dst := i]> m /\ m !! src = Some i /\ m !! dst = None));
    [done|..|done].
  - intros Q' R' F' o <- H0 H1. apply cpfile_wp.
    + intros o' i (_ & He & _ & Hc & _) Hp Hd. apply H0; [by exists i|done].
    + intros o' (_ & He & _ & Hc & _). by apply H1.
  - intros w' m' (i & -> & Hp & Hd) Hw'. by apply (HQ _ i).
Qed.
End running.

Lemma at_refl w : at_ w (q_list w) (os_ents (q_os w)) w.
Proof. by split. Qed.

(** The invariant, for a state reached without touching the heap. *)
Lemma at_qinv w0 ql m w :
  qinv w0 -> at_ w0 ql m w -> disk_ok m -> queues_ok (q_countq w0) ql m -> qinv w.
Proof.
  intros [_ _ H3 H4] [Hl He Hh Hm Hf _] Hd Hq. assert (q_countq w = q_countq w0) as Hc.
  { unfold frame in Hf. by simplify_eq. }
  split; rewrite ?Hl, ?He, ?Hh, ?Hc; done.
Qed.

(** ** Timers *)
Lemma heap_elems_length h : heap_ok h -> length (heap_elems h) = nodecount h.
Proof. intros [? ? _]. unfold heap_elems. rewrite length_take, length_drop. lia. Qed.

(** [w] is [w0] with queues [ql], files [m] and one more timer. *)
Record timed (w0 : qm) (ql : list msglist) (m : gmap path ino) (t : heapnode) (w : qm) : Prop := {
  td_list : q_list w = ql;
  td_ents : os_ents (q_os w) = m;
  td_heap : heap_ok (q_heap w);
  td_elems : heap_elems (q_heap w) ≡ₚ t :: heap_elems (q_heap w0);
  td_frame : frame w = frame w0;
}.

(** The timer of message [n] in queue [q], set at time [t]. *)
Definition expiry (t : timeval) (l : msglist) (q : nat) (n : ino) : heapnode :=
  Build_heapnode (Build_timeval (tv_sec t + l_timeout l) (tv_usec t)) (Z.of_nat q) (i32 n).

Lemma addtimer_wp w0 ql m q n l (Q : unit -> qm -> Prop) (R : Z -> qm -> Prop) F w :
  at_ w0 ql m w -> heap_ok (q_heap w0) -> ql !! q = Some l ->
  (forall w', timed w0 ql m (expiry (monotime (q_os w0)) l q n) w' -> Q tt w') ->
  (forall w', at_ w0 ql m w' -> R 2 w') ->
  pwp (ADDTIMER q n) Q R F w.
Proof.
  intros [Hl He Hh Hm Hf Hc] Hok Hq HQ HR. unfold ADDTIMER. apply pwp_bind, pwp_lift, getmonotime_wp.
  2: { intros o' (_ & He' & _ & Hc' & _). apply HR. split; cbn; first [done|congruence]. }
  intros o' He'. assert (monotime (q_os w) = monotime (q_os w0)) as ->.
  { unfold monotime, clock_now. by rewrite Hc. }
  set (t := monotime (q_os w0)) in *. cbn beta. apply pwp_bind. unfold pwp at 1, que. cbn [q_list upd upd_q_os].
  rewrite Hl, Hq. pwp_steps. pose proof (heap_insert_wp
    (Build_timeval (tv_sec t + l_timeout l) (tv_usec t)) (Z.of_nat q) n (q_heap w)) as Hins.
  rewrite Hh in Hins. specialize (Hins Hok). apply wp_done in Hins as ([] & h & Eh & Hk & Hp).
  unfold pwp at 1, on_heap. cbn [q_heap upd upd_q_os]. rewrite Hh, Eh. pwp_steps.
  assert (forall b, timed w0 ql m (expiry t l q n) (w <| q_os := o' |> <| q_heap := h |> <| q_minnode := b |>)) as Ht.
  { intros b. split; cbn; try done. congruence. }
  destruct (negb _); pwp_steps; apply HQ; [apply Ht|].
  specialize (Ht (q_minnode w)). destruct w. exact Ht.
Qed.

(** ** Responses *)

(** What a response with code [r] to message [x] does to the queues. *)
Definition answered (countq : nat) (x : msg) (r : Z) (ql : list msglist) : list msglist :=
  let q := m_state x in
  if r =? 0 then gone q (m_inode x) ql
  else if r =? 1 then alter (fun l => l <| l_conf := l_conf l + 1 |>) q ql
  else if (q =? countq)%nat then gone q (m_inode x) ql
  else added (q + 1) (elem_new (m_inode x) timeval_none (q + 1)) (gone q (m_inode x) ql).

(** Where its file goes. *)
Definition refiled (countq : nat) (ql : list msglist) (x : msg) (r : Z) (m : gmap path ino) : gmap path ino :=
  let n := m_inode x in
  let dir i := default "" (l_dir <$> ql !! i) in
  if r =? 0 then delete (msg_path (dir (m_state x)) n) (delete (msg_path act_dir n) m)
  else if r =? 1 then m
  else if (m_state x =? countq)%nat then moved (dir (m_state x)) fail_dir n (delete (msg_path act_dir n) m)
  else moved (dir (m_state x)) (dir (m_state x + 1)%nat) n (delete (msg_path act_dir n) m).

(** No file of a message other than those in [lost] has gone. *)
Definition keeps_stored (m m' : gmap path ino) (lost : ino -> Prop) : Prop :=
  forall i, stored m i -> stored m' i \/ lost i.

Lemma keeps_stored_refl m lost : keeps_stored m m lost.
Proof. intros i Hi. by left. Qed.

(** What a process that has ended in state [w'] leaves behind: consistent
    files, with those of [w] except [lost] among them. *)
Record survives (w w' : qm) (lost : ino -> Prop) : Prop := {
  sv_disk : disk_ok (os_ents (q_os w'));
  sv_sent : q_sent w' = q_sent w;
  sv_stored : keeps_stored (os_ents (q_os w)) (os_ents (q_os w')) lost;
}.

Lemma at_survives w ql m w' lost :
  at_ w ql m w' -> disk_ok m -> keeps_stored (os_ents (q_os w)) m lost -> survives w w' lost.
Proof.
  intros [_ He _ _ Hf _] Hd Hs. split; [by rewrite He| |by rewrite He]. unfold frame in Hf. by injection Hf.
Qed.

Lemma survives_weaken w w' (P Q : ino -> Prop) : survives w w' P -> (forall i, P i -> Q i) -> survives w w' Q.
Proof. intros [Hd Hn Hs] HPQ. split; [done|done|]. intros i Hi. destruct (Hs i Hi); auto. Qed.

Lemma act_entry countq ql m la x :
  queues_ok countq ql m -> ql !! ACT = Some la -> x ∈ msgs la ->
  exists l, (1 <= m_state x <= countq)%nat /\ ql !! m_state x = Some l /\ m_inode x ∈ inodes l /\
    l_dir l <> act_dir /\ l_dir l ∉ [fail_dir; drop_dir; df_dir] /\
    m !! msg_path (l_dir l) (m_inode x) = Some (m_inode x).
Proof.
  intros Hk Hla Hx. destruct (qi_act _ _ _ Hk la x Hla Hx) as (Hq & l & Hl & Hin). exists l.
  pose proof (lookup_lt_Some _ _ _ Hl) as Hlt. rewrite (qi_len _ _ _ Hk) in Hlt.
  split_and!; [lia|lia|done|done| | |by eapply qi_files].
  - intros E. rewrite <- (qi_act_dir _ _ _ Hk la Hla) in E.
    assert (m_state x = ACT); [|unfold ACT in *; lia].
    eapply NoDup_lookup; [apply (qi_dirs _ _ _ Hk)| |]; rewrite list_lookup_fmap; [by rewrite Hl|].
    rewrite Hla. cbn. by rewrite E.
  - by apply (Forall_lookup_1 _ _ _ _ (qi_other _ _ _ Hk) Hl).
Qed.

Lemma dirs_differ countq ql m q q' l l' :
  queues_ok countq ql m -> ql !! q = Some l -> ql !! q' = Some l' -> q <> q' -> l_dir l <> l_dir l'.
Proof.
  intros Hk Hl Hl' Hne E. apply Hne. eapply NoDup_lookup; [apply (qi_dirs _ _ _ Hk)| |];
    rewrite list_lookup_fmap; [by rewrite Hl|]. rewrite Hl'. cbn. by rewrite E.
Qed.

(** The three updates of the queues that end a delivery attempt, possibly
    followed by more. *)
Ltac gone_steps Hat Hla Hl :=
  unfold elem_del_q, conf_send_dec;
  apply pwp_bind; eapply at_que_set; [exact Hat|exact Hla|]; intros ? H2;
  apply pwp_bind; eapply at_que_set; [exact H2|rewrite list_lookup_alter_ne by (unfold ACT; lia); exact Hl|];
  intros ? H3; try apply pwp_bind; eapply at_que_set;
  [exact H3|apply alter_look; rewrite list_lookup_alter_ne by (unfold ACT; lia); exact Hl|].

Lemma at_gone w0 ql m q n la l (Q : unit -> qm -> Prop) R F w :
  at_ w0 ql m w -> ql !! ACT = Some la -> ql !! q = Some l -> (1 <= q)%nat ->
  (forall w', at_ w0 (gone q n ql) m w' -> Q tt w') ->
  pwp (elem_del_q ACT n;; elem_del_q q n;; conf_send_dec q) Q R F w.
Proof. intros Hat Hla Hl Hq HQ. gone_steps Hat Hla Hl. intros w4 H4. by apply HQ. Qed.

Lemma at_gone_then {A} w0 ql m q n la l (k : QM A) (Q : A -> qm -> Prop) R F w :
  at_ w0 ql m w -> ql !! ACT = Some la -> ql !! q = Some l -> (1 <= q)%nat ->
  (forall w', at_ w0 (gone q n ql) m w' -> pwp k Q R F w') ->
  pwp (elem_del_q ACT n;; elem_del_q q n;; conf_send_dec q;; k) Q R F w.
Proof. intros Hat Hla Hl Hq HQ. gone_steps Hat Hla Hl. intros w4 H4. by apply HQ. Qed.

Lemma gone_added_commute q n e ql :
  gone q n (added (q + 1) e ql) = added (q + 1) e (gone q n ql).
Proof.
  unfold added, gone. rewrite (list_alter_alter_ne _ _ _ (q + 1) q) by lia. f_equal.
  rewrite (list_alter_alter_ne _ _ _ (q + 1) q) by lia. f_equal.
  apply list_alter_alter_ne. unfold ACT. lia.
Qed.

(** The link in [act] goes first, in every branch that ends an attempt. *)
Lemma at_leave_act {A} w n (k : QM A) (Q : A -> qm -> Prop) (R : Z -> qm -> Prop) F :
  (forall w', at_ w (q_list w) (delete (msg_path act_dir n) (os_ents (q_os w))) w' -> pwp k Q R F w') ->
  disk_ok (os_ents (q_os w)) -> (forall w', survives w w' (fun _ => False) -> R 2 w') ->
  pwp (or_die (unlink (msg_path act_dir n));; or_die (fsyncdir act_dir);; k) Q R F w.
Proof.
  intros Hk Hd HR. apply pwp_bind. eapply at_unlink; [apply at_refl| |].
  - intros w1 _ H1. apply pwp_bind. eapply at_fsyncdir; [exact H1|exact Hk|].
    intros w2 H2. eapply HR, at_survives; [exact H2|by apply disk_delete|].
    intros i Hi. left. by apply stored_delete_act.
  - intros w1 H1. eapply HR, at_survives; [exact H1|done|]. apply keeps_stored_refl.
Qed.

Section response.
Context (w : qm) (n : ino) (la l : msglist) (x : msg).
Let ql := q_list w.
Let m := os_ents (q_os w).
Let m1 := delete (msg_path act_dir n) m.
Let q := m_state x.
Context (Hd : disk_ok m) (Hk : queues_ok (q_countq w) ql m).
Context (Hla : ql !! ACT = Some la) (Hl : ql !! q = Some l) (Hq : (1 <= q <= q_countq w)%nat).
Context (Hda : l_dir l <> act_dir) (Hdo : l_dir l ∉ [fail_dir; drop_dir; df_dir]).
Context (Hfile : m !! msg_path (l_dir l) n = Some n).

Lemma left_act : disk_ok m1 /\ m1 !! msg_path (l_dir l) n = Some n /\ (forall i, stored m i -> stored m1 i).
Proof using All.
  split_and!; [by apply disk_delete| |intros i; apply stored_delete_act].
  unfold m1. rewrite lookup_delete_ne; [done|]. unfold msg_path. congruence.
Qed.

(** Delivered: the file is deleted. *)
Lemma response_done (Q : Z -> qm -> Prop) (R : Z -> qm -> Prop) F w1 :
  at_ w ql m1 w1 ->
  (forall w', at_ w (gone q n ql) (delete (msg_path (l_dir l) n) m1) w' -> Q 1 w') ->
  (forall w', survives w w' (fun i => i = n) -> R 2 w') ->
  pwp (or_die (unlink (msg_path (l_dir l) n));; or_die (fsyncdir (l_dir l));;
       elem_del_q ACT n;; elem_del_q q n;; conf_send_dec q;; mret 1) Q R F w1.
Proof using All.
  intros H1 HQ HR. destruct left_act as (Hd1 & Hf1 & Hs1).
  apply pwp_bind. eapply at_unlink; [exact H1| |].
  2: { intros w2 H2. eapply HR, at_survives; [exact H2|done|]. intros i Hi. left. by apply Hs1. }
  intros w2 _ H2. apply pwp_bind. eapply at_fsyncdir; [exact H2| |].
  - intros w3 H3. eapply at_gone_then; [exact H3|exact Hla|exact Hl|lia|]. intros w4 H4. pwp_steps. by apply HQ.
  - intros w3 H3. eapply HR, at_survives; [exact H3|by apply disk_delete|]. intros i Hi.
    destruct (stored_delete m1 (msg_path (l_dir l) n) i (Hs1 i Hi)) as [?|Hi']; [by left|right].
    rewrite Hf1 in Hi'. by simplify_eq.
Qed.

(** A move to a directory that is not [act]. *)
Lemma response_moves d' (Q : unit -> qm -> Prop) (R : Z -> qm -> Prop) F w1 :
  at_ w ql m1 w1 -> d' <> act_dir -> d' <> df_dir -> d' <> drop_dir -> l_dir l <> d' ->
  (forall w', at_ w ql (moved (l_dir l) d' n m1) w' -> Q tt w') ->
  (forall w', survives w w' (fun _ => False) -> R 2 w') ->
  pwp (or_die (mvfile (msg_path (l_dir l) n) (msg_path d' n))) Q R F w1.
Proof using All.
  intros H1 Ha Hdf Hdr Hne Hk' HR. destruct left_act as (Hd1 & Hf1 & Hs1).
  eapply at_mvfile; [exact H1| |].
  - intros w2 Hsome H2. apply Hk'.
    by rewrite (rename_moves m1 (l_dir l) d' n) in H2.
  - intros w2 H2. eapply HR, at_survives; [exact H2|done|]. intros i Hi. left. by apply Hs1.
Qed.

(** Deferred: the message goes to the next queue, with a timer. *)
Lemma response_defers l' (Q : unit -> qm -> Prop) (R : Z -> qm -> Prop) F w1
    (e := elem_new n timeval_none (q + 1)) (m2 := moved (l_dir l) (l_dir l') n m1) :
  at_ w ql m1 w1 -> heap_ok (q_heap w) -> ql !! (q + 1)%nat = Some l' ->
  (forall w', timed w (added (q + 1) e (gone q n ql)) m2 (expiry (monotime (q_os w)) l' (q + 1) n) w' -> Q tt w') ->
  (forall w', survives w w' (fun _ => False) -> R 2 w') ->
  pwp (MOVEFILE q (q + 1) n;; elem_add_q (q + 1) e;; elem_del_q ACT n;; elem_del_q q n;; conf_send_dec q;;
       ADDTIMER (q + 1) n) Q R F w1.
Proof using All.
  intros H1 Hh Hl' HQ HR. destruct left_act as (Hd1 & Hf1 & Hs1).
  assert (l_dir l' <> act_dir) as Hda'.
  { rewrite <- (qi_act_dir _ _ _ Hk la Hla). eapply dirs_differ; [exact Hk|exact Hl'|exact Hla|unfold ACT; lia]. }
  assert (l_dir l <> l_dir l') as Hne by (eapply dirs_differ; [exact Hk|exact Hl|exact Hl'|lia]).
  assert (l_dir l' <> df_dir /\ l_dir l' <> drop_dir) as [Hdf' Hdr'].
  { pose proof (Forall_lookup_1 _ _ _ _ (qi_other _ _ _ Hk) Hl') as H. clear -H Hdo. set_solver. }
  pose proof (Forall_lookup_1 _ _ _ _ (qi_ok _ _ _ Hk) Hl') as Hok'.
  apply pwp_bind. unfold MOVEFILE.
  apply pwp_bind. eapply at_que; [exact H1|exact Hl|]. apply pwp_bind. eapply at_que; [exact H1|exact Hl'|].
  eapply response_moves; [exact H1|done|done|done|done| |exact HR].
  intros w2 H2. unfold elem_add_q. apply pwp_bind. eapply at_que_set; [exact H2|exact Hl'|].
  intros w3 H3. eapply (at_gone_then w (added (q + 1) e ql)); [exact H3|..|lia|].
  { unfold added. rewrite list_lookup_alter_ne by (unfold ACT; lia). exact Hla. }
  { unfold added. rewrite list_lookup_alter_ne by lia. exact Hl. }
  rewrite gone_added_commute. intros w4 H4. eapply addtimer_wp; [exact H4|exact Hh|..].
  { unfold added. apply alter_look. unfold gone. rewrite !list_lookup_alter_ne by (unfold ACT; lia). exact Hl'. }
  - intros w5 H5. apply HQ. destruct (elem_add_ok l' e Hok') as (_ & _ & _ & _ & _ & _ & Et).
    unfold expiry in *. rewrite Et in H5. exact H5.
  - intros w5 H5. eapply HR, at_survives; [exact H5|by apply moved_disk|].
    intros i Hi. left. apply moved_stored; [done..|by apply Hs1].
Qed.
End response.

Lemma act_dir_names : act_dir <> fail_dir /\ act_dir <> drop_dir /\ act_dir <> df_dir /\
  fail_dir <> df_dir /\ drop_dir <> df_dir /\ fail_dir <> drop_dir.
Proof. by split_and!. Qed.

Lemma check_response_wp w n r (Q : Z -> qm -> Prop) (R : Z -> qm -> Prop) F :
  let ql := q_list w in let m := os_ents (q_os w) in let cq := q_countq w in
  qinv w ->
  (forall la, ql !! ACT = Some la -> n ∉ inodes la -> Q (-1) w) ->
  (forall la x w', ql !! ACT = Some la -> x ∈ msgs la -> m_inode x = n ->
     r = 0 \/ r = 1 \/ m_state x = cq ->
     at_ w (answered cq x r ql) (refiled cq ql x r m) w' -> Q (if r =? 0 then 1 else 0) w') ->
  (forall la x l' w', ql !! ACT = Some la -> x ∈ msgs la -> m_inode x = n ->
     r <> 0 -> r <> 1 -> m_state x <> cq -> ql !! (m_state x + 1)%nat = Some l' ->
     timed w (answered cq x r ql) (refiled cq ql x r m) (expiry (monotime (q_os w)) l' (m_state x + 1) n) w' ->
     Q 0 w') ->
  (forall la x w', ql !! ACT = Some la -> x ∈ msgs la -> m_inode x = n ->
     survives w w' (fun i => r = 0 /\ i = n) -> R 2 w') ->
  pwp (check_response n r) Q R F w.
Proof.
  intros ql m cq Hinv Hnone Hkeep Htimer Hexit. destruct (Hinv) as [Hd Hk Hh _]. fold ql m cq in Hd, Hk.
  destruct (lookup_lt_is_Some_2 ql ACT) as [la Hla]; [rewrite (qi_len _ _ _ Hk); unfold ACT; lia|].
  unfold check_response. apply pwp_bind. eapply at_que; [apply at_refl|exact Hla|].
  destruct (elem_find_spec la n) as [[E Hn]|(Hge & x & Hx & Hxn)].
  { rewrite E. cbn. pwp_steps. by eapply Hnone. }
  destruct (Z.ltb_spec (elem_find la n) 0); [lia|]. rewrite Hx.
  assert (x ∈ msgs la) as Hxin by (by eapply list_elem_of_lookup_2).
  destruct (act_entry _ _ _ _ _ Hk Hla Hxin) as (l & Hq & Hl & Hin & Hda & Hdo & Hfile). rewrite Hxn in *.
  apply pwp_bind. eapply at_que; [apply at_refl|exact Hl|].
  specialize (Hkeep la x). specialize (Htimer la x). specialize (Hexit la x).
  unfold answered, refiled in Hkeep, Htimer. rewrite Hxn, Hl in Hkeep, Htimer.
  cbn [fmap option_fmap option_map default] in Hkeep, Htimer.
  assert (forall w', survives w w' (fun _ => False) -> R 2 w') as Hexit'
    by (intros w' Hs; by eapply Hexit; [..|eapply survives_weaken]).
  destruct (Z.eqb_spec r 0) as [->|Hr0]; [|destruct (Z.eqb_spec r 1) as [->|Hr1]].
  - apply at_leave_act; [|exact Hd|exact Hexit']. intros w1 H1.
    eapply response_done; [exact Hd|exact Hk|exact Hla|exact Hl|done..|exact H1| |].
    + intros w' Hw'. apply Hkeep; auto.
    + intros w' Hs. by eapply Hexit; [..|eapply survives_weaken].
  - apply pwp_bind. eapply at_que_set; [apply at_refl|exact Hl|]. intros w1 H1. pwp_steps.
    apply Hkeep; auto.
  - pwp_steps. destruct (Nat.eqb_spec (m_state x) (q_countq w)) as [Hlast|Hlast]; fold cq in Hlast.
    + apply at_leave_act; [|exact Hd|exact Hexit']. intros w1 H1.
      apply pwp_bind. eapply (response_moves w n la l x);
        [exact Hd|exact Hk|exact Hla|exact Hl|done..|clear -Hdo; set_solver| |exact Hexit'].
      intros w2 H2. eapply at_gone; [exact H2|exact Hla|exact Hl|lia|]. intros w3 H3. pwp_steps.
      rewrite Hlast, Nat.eqb_refl in Hkeep. rewrite Hlast in H3. apply Hkeep; auto.
    + assert (m_state x + 1 < length ql)%nat as Hlt by (rewrite (qi_len _ _ _ Hk); fold cq in Hq; lia).
      destruct (lookup_lt_is_Some_2 ql _ Hlt) as [l' Hl'].
      apply at_leave_act; [|exact Hd|exact Hexit']. intros w1 H1.
      eapply (response_defers w n la l x);
        [exact Hd|exact Hk|exact Hla|exact Hl|done..|exact H1|exact Hh|exact Hl'| |exact Hexit'].
      intros w5 H5. pwp_steps. apply (Htimer l'); try done.
      replace (m_state x =? cq)%nat with false by (symmetry; by apply Nat.eqb_neq).
      by rewrite Hl'.
Qed.

(** ** A response keeps the invariant *)
Lemma moved_other d d' n m e k : k <> n -> moved d d' n m !! msg_path e k = m !! msg_path e k.
Proof.
  intros Hk. assert (forall f, msg_path f n <> msg_path e k) as H.
  { intros f [= _ E%ino_name_inj]. done. }
  unfold moved. rewrite lookup_insert_ne, lookup_delete_ne; done.
Qed.

Lemma delete_other (d : string) (n : ino) (m : gmap path ino) (e : string) (k : ino) :
  k <> n -> delete (msg_path d n) m !! msg_path e k = m !! msg_path e k.
Proof. intros Hk. rewrite lookup_delete_ne; [done|]. intros [= _ E%ino_name_inj]. done. Qed.

Section answered.
Context (cq : nat) (ql : list msglist) (m : gmap path ino) (la : msglist) (x : msg) (r : Z).
Context (Hd : disk_ok m) (Hk : queues_ok cq ql m) (Hla : ql !! ACT = Some la) (Hx : x ∈ msgs la).

Lemma answered_ok :
  disk_ok (refiled cq ql x r m) /\ queues_ok cq (answered cq x r ql) (refiled cq ql x r m).
Proof using All.
  destruct (act_entry _ _ _ _ _ Hk Hla Hx) as (l & Hq & Hl & Hin & Hda & Hdo & Hfile).
  unfold answered, refiled. set (n := m_inode x) in *. rewrite Hl. cbn [fmap option_fmap option_map default].
  set (m1 := delete (msg_path act_dir n) m).
  assert (disk_ok m1) as Hd1 by by apply disk_delete.
  assert (m1 !! msg_path (l_dir l) n = Some n) as Hf1.
  { unfold m1. rewrite lookup_delete_ne; [done|]. unfold msg_path. congruence. }
  assert (l_dir l <> fail_dir) as Hfl by (clear -Hdo; set_solver).
  assert (forall d', d' <> act_dir -> d' <> df_dir -> d' <> drop_dir -> l_dir l <> d' ->
            disk_ok (moved (l_dir l) d' n m1) /\
            queues_ok cq (gone (m_state x) n ql) (moved (l_dir l) d' n m1)) as Hmv.
  { intros d' ? ? ? ?. split; [by apply moved_disk|].
    eapply queues_gone; [exact Hk|exact Hd|exact Hla|exact Hx|done|done|].
    intros e k Hkn. rewrite moved_other by done. by apply delete_other. }
  destruct (Z.eqb_spec r 0); [|destruct (Z.eqb_spec r 1)].
  - split; [by apply disk_delete|]. eapply queues_gone; [exact Hk|exact Hd|exact Hla|exact Hx|done|done|].
    intros e' k Hkn. unfold m1. by rewrite !delete_other.
  - split; [done|]. apply queues_alter_frame; [done| |done].
    intros l0 H0. split; [|done]. unfold ml_ok in *. cbn. by destruct (l_msg l0).
  - destruct (Nat.eqb_spec (m_state x) cq) as [Hlast|Hlast]; [by apply Hmv|].
    destruct (lookup_lt_is_Some_2 ql (m_state x + 1)) as [l' Hl']; [rewrite (qi_len _ _ _ Hk); lia|].
    rewrite Hl'. cbn [fmap option_fmap option_map default].
    assert (l_dir l' <> act_dir) as Hda'.
    { rewrite <- (qi_act_dir _ _ _ Hk la Hla). eapply dirs_differ; [exact Hk|done..|unfold ACT; lia]. }
    assert (l_dir l' <> df_dir /\ l_dir l' <> drop_dir) as [Hdf' Hdr'].
    { pose proof (Forall_lookup_1 _ _ _ _ (qi_other _ _ _ Hk) Hl') as H. clear -H. set_solver. }
    assert (l_dir l <> l_dir l') as Hll by (eapply dirs_differ; [exact Hk|exact Hl|exact Hl'|lia]).
    destruct (Hmv (l_dir l')) as [Hdm Hqm]; [done..|]. split; [done|].
    eapply (queues_added _ _ _ _ _ l'); [done|lia|..]; cbn [elem_new m_inode].
    + unfold gone. rewrite !list_lookup_alter_ne by (unfold ACT; lia). done.
    + intros Hn'. assert (m_state x = m_state x + 1)%nat; [|lia].
      eapply (queues_disjoint _ _ _ _ _ l l' n Hk Hd); done || lia.
    + unfold moved. apply lookup_insert_eq.
Qed.

Lemma answered_stored : keeps_stored m (refiled cq ql x r m) (fun i => r = 0 /\ i = m_inode x).
Proof using All.
  destruct (act_entry _ _ _ _ _ Hk Hla Hx) as (l & Hq & Hl & Hin & Hda & Hdo & Hfile).
  unfold refiled. set (n := m_inode x) in *. rewrite Hl. cbn [fmap option_fmap option_map default].
  set (m1 := delete (msg_path act_dir n) m). intros i Hi.
  assert (stored m1 i) as Hi1 by by apply stored_delete_act.
  assert (disk_ok m1) as Hd1 by by apply disk_delete.
  assert (m1 !! msg_path (l_dir l) n = Some n) as Hf1.
  { unfold m1. rewrite lookup_delete_ne; [done|]. unfold msg_path. congruence. }
  destruct (Z.eqb_spec r 0); [|destruct (Z.eqb_spec r 1); [by left|left]].
  - destruct (stored_delete m1 (msg_path (l_dir l) n) i Hi1) as [?|E]; [by left|right].
    rewrite Hf1 in E. by simplify_eq.
  - destruct (Nat.eqb_spec (m_state x) cq) as [Hlast|Hlast].
    + apply moved_stored; try done; clear -Hdo; set_solver.
    + destruct (lookup_lt_is_Some_2 ql (m_state x + 1)) as [l' Hl']; [rewrite (qi_len _ _ _ Hk); lia|].
      rewrite Hl'. cbn [fmap option_fmap option_map default].
      pose proof (Forall_lookup_1 _ _ _ _ (qi_other _ _ _ Hk) Hl') as H.
      apply moved_stored; [done|done| | |clear -H; set_solver|clear -H; set_solver|done|done].
      * rewrite <- (qi_act_dir _ _ _ Hk la Hla). eapply dirs_differ; [exact Hk|done..|unfold ACT; lia].
      * eapply dirs_differ; [exact Hk|exact Hl|exact Hl'|lia].
Qed.
End answered.

Lemma timed_qinv w ql m t w' :
  qinv w -> timed w ql m t w' -> disk_ok m -> queues_ok (q_countq w) ql m ->
  1 <= indque t <= Z.of_nat (q_countq w) -> qinv w'.
Proof.
  intros [_ _ Hh Ht] [Hl He Hh' Hp Hf] Hd Hq Hi. assert (q_countq w' = q_countq w) as Hc.
  { unfold frame in Hf. by simplify_eq. }
  split; rewrite ?Hl, ?He, ?Hc; try done.
  rewrite Hp. by constructor.
Qed.

(** Timers are never removed by a response. *)
Lemma check_response_inv n r w :
  qinv w ->
  pwp (check_response n r)
    (fun k w' => qinv w' /\ frame w' = frame w /\ (nodecount (q_heap w) <= nodecount (q_heap w'))%nat /\
       (k = 1 -> r = 0) /\
       keeps_stored (os_ents (q_os w)) (os_ents (q_os w')) (fun i => r = 0 /\ i = n /\ k = 1))
    (fun c w' => c = 2 /\ survives w w' (fun i => r = 0 /\ i = n)) no_fault w.
Proof.
  intros Hinv. apply check_response_wp; [done|..].
  - intros la Hla Hn. split_and!; [done|done|lia|lia|apply keeps_stored_refl].
  - intros la x w' Hla Hx Hxn Hr Hat. destruct (Hinv) as [Hd Hk _ _].
    destruct (answered_ok _ _ _ la x r Hd Hk Hla Hx) as [Hd' Hk'].
    pose proof (answered_stored _ _ _ la x r Hd Hk Hla Hx) as Hs. rewrite Hxn in Hs.
    split_and!; [by eapply at_qinv|apply Hat|by rewrite (at_heap _ _ _ _ Hat)| |].
    + destruct (Z.eqb_spec r 0); lia.
    + rewrite (at_ents _ _ _ _ Hat). intros i Hi. destruct (Hs i Hi) as [?|[-> ->]]; auto.
  - intros la x l' w' Hla Hx Hxn Hr0 Hr1 Hlast Hl' Ht. destruct (Hinv) as [Hd Hk Hh _].
    destruct (answered_ok _ _ _ la x r Hd Hk Hla Hx) as [Hd' Hk'].
    pose proof (answered_stored _ _ _ la x r Hd Hk Hla Hx) as Hs.
    destruct (act_entry _ _ _ _ _ Hk Hla Hx) as (_ & Hq & _).
    split_and!; [|apply Ht| |lia|].
    + eapply timed_qinv; [exact Hinv|exact Ht|done..|cbn; lia].
    + rewrite <- !heap_elems_length, (td_elems _ _ _ _ _ Ht) by (done || apply Ht). cbn. lia.
    + rewrite (td_ents _ _ _ _ _ Ht). intros i Hi. destruct (Hs i Hi) as [?|[? _]]; [by left|done].
  - by intros la x w' _ _ _ Hs.
Qed.
