(* ===== verification/QueSend.v ===== *)
(** * The queue manager: sending and new messages

    Handing messages to the sender, taking new messages from [drop], and
    reading the sender's responses. *)

From S2P Require Import Prelude Heap Posix Utils QueControl Quemngr QueProps.

(** The state after message [n] has been written to the sender. *)
Definition wrote (n : ino) (w : qm) : qm := w <| q_sent := q_sent w ++ [n] |>.

Lemma act_lookup countq ql m : queues_ok countq ql m -> exists la, ql !! ACT = Some la.
Proof. intros Hk. apply lookup_lt_is_Some_2. rewrite (qi_len _ _ _ Hk). unfold ACT. lia. Qed.

Lemma send_message_wp w q n l (Q : unit -> qm -> Prop) (R : Z -> qm -> Prop) F :
  let m := os_ents (q_os w) in
  qinv w -> (1 <= q)%nat -> q_list w !! q = Some l -> n ∈ inodes l ->
  (forall w', m !! msg_path act_dir n = None ->
     at_ (wrote n w) (handed q n (q_list w)) (<[msg_path act_dir n := n]> m) w' -> Q tt w') ->
  (forall w', survives w w' (fun _ => False) -> R 2 w') ->
  pwp (send_message q n) Q R F w.
Proof.
  intros m Hinv Hq Hl Hn HQ HR. destruct (Hinv) as [Hd Hk _ _]. destruct (act_lookup _ _ _ Hk) as [la Hla].
  unfold send_message, COPYFILE. apply pwp_bind. apply pwp_bind. eapply at_que; [apply at_refl|exact Hl|].
  apply pwp_bind. eapply at_que; [apply at_refl|exact Hla|]. rewrite (qi_act_dir _ _ _ Hk la Hla).
  eapply at_cpfile; [apply at_refl| |].
  2: { intros w' H'. eapply HR, at_survives; [exact H'|done|]. apply keeps_stored_refl. }
  intros w1 i Hi Hfree H1. pose proof (qi_files _ _ _ Hk q l n Hq Hl Hn) as Hf. fold m in Hf.
  fold m in Hi. rewrite Hf in Hi. injection Hi as <-. fold m in Hfree, H1. set (m' := <[msg_path act_dir n := n]> m) in *.
  unfold elem_add_q. apply pwp_bind. eapply at_que_set; [exact H1|exact Hla|]. intros w2 H2.
  assert (keeps_stored m m' (fun _ => False)) as Hs by (intros j Hj; left; by apply stored_link).
  apply pwp_bind, pwp_lift, pwp_fails. intros b o (_ & He & _ & Hc & _) _. rewrite (at_ents _ _ _ _ H2) in He. destruct b; cbn.
  { apply pwp_bind. pwp_steps. eapply HR, (at_survives w _ m'); [|by eapply disk_link|exact Hs].
    destruct H2; split; cbn; first [done|congruence]. }
  pwp_steps. unfold pwp, que_set. cbn. rewrite (at_list _ _ _ _ H2).
  assert (added ACT (elem_new n timeval_none q) (q_list w) !! q = Some l) as Hl2.
  { unfold added. rewrite list_lookup_alter_ne by (unfold ACT; lia). done. }
  unfold added in Hl2. rewrite Hl2. apply HQ; [done|]. destruct H2 as [_ _ Hh Hm Hf2 Hc2]. split; cbn; try done; [..|congruence].
  - exact (alter_insert (fun l0 => l0 <| l_send := l_send l0 + 1 |>) q
      (added ACT (elem_new n timeval_none q) (q_list w)) l Hl2).
  - unfold frame in *. cbn. simplify_eq. congruence.
Qed.

(** Sending keeps the invariant and every file. *)
Lemma send_message_inv w q n l :
  qinv w -> (1 <= q)%nat -> q_list w !! q = Some l -> n ∈ inodes l ->
  pwp (send_message q n)
    (fun _ w' => qinv w' /\ q_sent w' = q_sent w ++ [n] /\ frame w' = frame (wrote n w) /\
       q_heap w' = q_heap w /\ q_minnode w' = q_minnode w /\
       keeps_stored (os_ents (q_os w)) (os_ents (q_os w')) (fun _ => False) /\
       os_ents (q_os w') !! msg_path act_dir n = Some n)
    (fun c w' => c = 2 /\ survives w w' (fun _ => False)) no_fault w.
Proof.
  intros Hinv Hq Hl Hn. destruct (Hinv) as [Hd Hk _ _]. destruct (act_lookup _ _ _ Hk) as [la Hla].
  eapply send_message_wp; [done..| |by split].
  intros w' Hfree Hat. destruct (Hat) as [_ He Hh Hm Hf _]. split_and!; [|by unfold frame in Hf; cbn in Hf; simplify_eq|done..| |].
  - eapply at_qinv; [|exact Hat| |by eapply queues_handed]; [by destruct Hinv|].
    eapply disk_link; [done|]. by eapply qi_files.
  - rewrite He. intros i Hi. left. by apply stored_link.
  - rewrite He. apply lookup_insert_eq.
Qed.

(** A message whose link in [act] was left behind, as it is when the
    process dies between linking it and hearing from the sender, cannot be
    sent any more: every attempt ends the process. *)
Theorem stale_act_link_exits w q n l :
  qinv w -> (1 <= q)%nat -> q_list w !! q = Some l -> n ∈ inodes l ->
  is_Some (os_ents (q_os w) !! msg_path act_dir n) ->
  exists w', send_message q n w = (Exited 2, w').
Proof.
  intros Hinv Hq Hl Hn [i Hi].
  assert (pwp (send_message q n) (fun _ _ => False) (fun c _ => c = 2) no_fault w) as H.
  { eapply send_message_wp; [done..| |done]. intros w' E. by rewrite Hi in E. }
  unfold pwp in H. destruct (send_message q n w) as [[]]; try done. subst. by eexists.
Qed.

(** ** New messages *)
Section scan.
Context {RD : Readdir} {QS : Qsort}.

(** Everything a scan of [drop] leaves alone. *)
Definition scan_frame (w : qm) := (frame w, q_heap w, q_minnode w).

Record scanning (w : qm) (w' : qm) : Prop := {
  sg_inv : qinv w';
  sg_frame : scan_frame w' = scan_frame w;
  sg_stored : keeps_stored (os_ents (q_os w)) (os_ents (q_os w')) (fun _ => False);
}.

Lemma scanning_refl w : qinv w -> scanning w w.
Proof. intros Hw. split; [done..|]. apply keeps_stored_refl. Qed.

Lemma scanning_trans w w1 w2 : scanning w w1 -> scanning w1 w2 -> scanning w w2.
Proof.
  intros [_ Hf Hs] [Hi Hf' Hs']. split; [done|by rewrite Hf'|].
  intros i Hin. destruct (Hs i Hin) as [H|[]]. by apply Hs'.
Qed.

Lemma scanning_survives w w1 w2 lost : scanning w w1 -> survives w1 w2 lost -> survives w w2 lost.
Proof.
  intros [_ Hf Hs] [Hd Hn Hs']. split; [done| |].
  - pose proof (f_equal (fun p => p.1.1) Hf) as E. unfold frame in E. cbn in E. rewrite Hn. by injection E.
  - intros i Hi. destruct (Hs i Hi) as [H|[]]. by apply Hs'.
Qed.

Lemma stat_wp p (Q : option (ino * timespec) -> os -> Prop) R F o :
  (forall o' i ts, same_os o o' -> os_ents o !! p = Some i -> Q (Some (i, ts)) o') ->
  (forall o', same_os o o' -> Q None o') -> pwp (stat_file p) Q R F o.
Proof.
  intros H1 H0. unfold stat_file. apply pwp_bind, pwp_fails. intros b o' Ho _. pwp_steps. cbn.
  destruct b; [by apply H0|]. destruct (os_ents o' !! p) as [i|] eqn:E; cbn; [|by apply H0].
  apply H1; [done|]. by destruct Ho as (_ & <- & _).
Qed.

(** What [readdir] returns for directory [d]. *)
Definition dir_listing (d : string) (m : gmap path ino) : list (string * ino) :=
  listing (dot_entries ++ in_dir d m).

Lemma readdir_wp d (Q : option (list (string * ino)) -> os -> Prop) R F o :
  (forall o', same_os o o' -> Q (Some (dir_listing d (os_ents o))) o') ->
  (forall o', same_os o o' -> faulty o \/ d ∉ os_dirs o -> Q None o') -> pwp (readdir d) Q R F o.
Proof.
  intros H1 H0. unfold readdir. apply pwp_bind, pwp_syscall_why.
  - intros o' Ho _. cbn. pwp_steps. destruct (Ho) as (_ & -> & _). by apply H1.
  - intros o' Ho Hwhy. cbn. pwp_steps. apply H0; [done|]. destruct Hwhy as [?|Hno]; [by left|right].
    destruct (Ho) as (<- & _). by apply bool_decide_eq_false in Hno.
Qed.

(** The queues do not notice a file they do not hold coming from [drop]. *)
Lemma queues_files_frame countq ql m m' :
  queues_ok countq ql m ->
  (forall q l n d, ql !! q = Some l -> n ∈ inodes l -> m' !! msg_path d n = m !! msg_path d n) ->
  queues_ok countq ql m'.
Proof.
  intros [H1 H2 H3 H4 H5 H6 H7 H8 H9 H10 H11] Hm. split; try done.
  - intros q l n Hq Hl Hn. rewrite (Hm q l) by done. by eapply H10.
  - intros la n Hla Hn. rewrite (Hm ACT la) by done. by eapply H11.
Qed.

(** A file in [drop] is in no queue. *)
Lemma dropped_fresh countq ql m q l n :
  queues_ok countq ql m -> disk_ok m -> m !! msg_path drop_dir n = Some n -> ql !! q = Some l -> n ∉ inodes l.
Proof.
  intros Hk Hd Hm Hl Hn. destruct (act_lookup _ _ _ Hk) as [la Hla].
  assert (forall q l, (1 <= q)%nat -> ql !! q = Some l -> n ∉ inodes l) as Hpos.
  { intros q0 l0 Hq0 Hl0 Hn0. pose proof (qi_files _ _ _ Hk q0 l0 n Hq0 Hl0 Hn0) as Hf.
    pose proof (Forall_lookup_1 _ _ _ _ (qi_other _ _ _ Hk) Hl0) as Ho.
    assert (l_dir l0 <> act_dir) as Ha.
    { rewrite <- (qi_act_dir _ _ _ Hk la Hla). eapply dirs_differ; [exact Hk|done..|unfold ACT; lia]. }
    pose proof (dk_single _ Hd _ _ n Hm Hf) as E. cbn in E. specialize (E ltac:(done) Ha).
    injection E as E. cbv beta in Ho. rewrite <- E in Ho. clear -Ho. set_solver. }
  destruct q as [|q]; [|by apply (Hpos (S q) l ltac:(lia) Hl)].
  unfold inodes in Hn. apply list_elem_of_fmap in Hn as (x & -> & Hx).
  change (ql !! ACT = Some l) in Hl. destruct (qi_act _ _ _ Hk l x Hl Hx) as (Hq & l' & Hl' & Hin).
  by apply (Hpos _ _ Hq Hl').
Qed.

(** Taken into the queue in directory [d], or left in [drop]. *)
Definition taken (d : string) (nm : string) (i : ino) (w : qm) : Prop :=
  if strtoul (codes nm) =? i then
    os_ents (q_os w) !! (d, nm) = Some i /\ exists l, q_list w !! IN = Some l /\ i ∈ inodes l
  else os_ents (q_os w) !! (drop_dir, nm) = Some i.

(** A queue keeps its place, and the messages it has. *)
Definition grew (l l' : msglist) : Prop :=
  l_dir l' = l_dir l /\ l_timeout l' = l_timeout l /\ inodes l ⊆ inodes l'.

#[export] Instance grew_preorder : PreOrder grew.
Proof.
  split; [by intros l|]. intros l1 l2 l3 (? & ? & ?) (? & ? & ?). split_and!; [congruence..|by etrans].
Qed.

Lemma grew_alter f i l ql : ql !! i = Some l -> grew l (f l) -> Forall2 grew ql (alter f i ql).
Proof.
  intros Hl Hg. apply Forall2_same_length_lookup. split; [by rewrite length_alter|].
  intros j x y Hx [(-> & z & Hz & ->)|[_ Hy]]%alter_Some; by simplify_eq.
Qed.

(** The part of the state that later entries rely on. *)
Record scan_mono (d : string) (names : list string) (w w' : qm) : Prop := {
  sm_drop : forall nm, nm ∉ names -> os_ents (q_os w') !! (drop_dir, nm) = os_ents (q_os w) !! (drop_dir, nm);
  sm_in : forall nm i, os_ents (q_os w) !! (d, nm) = Some i -> os_ents (q_os w') !! (d, nm) = Some i;
  sm_list : Forall2 grew (q_list w) (q_list w');
  sm_act : q_list w' !! ACT = q_list w !! ACT;
  sm_links : forall nm, os_ents (q_os w') !! (act_dir, nm) = os_ents (q_os w) !! (act_dir, nm);
}.

Lemma scan_mono_refl d names w : scan_mono d names w w.
Proof. by split. Qed.

Lemma scan_mono_trans d ns ns' w w1 w2 :
  scan_mono d ns w w1 -> scan_mono d ns' w1 w2 -> scan_mono d (ns ++ ns') w w2.
Proof.
  intros [A1 A2 A3 A4 A5] [B1 B2 B3 B4 B5]. split; [..|congruence|intros nm; by rewrite B5].
  - intros nm Hn. rewrite elem_of_app in Hn. rewrite B1, A1 by tauto. done.
  - intros nm i H. by apply B2, A2.
  - by etrans.
Qed.

Lemma taken_mono d nm i names w w' :
  scan_mono d names w w' -> nm ∉ names -> taken d nm i w -> taken d nm i w'.
Proof.
  intros [A1 A2 A3 _ _] Hn. unfold taken. destruct (_ =? _).
  - intros (H & l & Hl & Hi). split; [by apply A2|]. 
    destruct (Forall2_lookup_l _ _ _ _ _ A3 Hl) as (l' & Hl' & _ & _ & Hsub).
    exists l'. split; [done|]. by apply Hsub.
  - intros H. by rewrite A1.
Qed.

(** Where a file in [drop] can go. *)
Lemma in_dir_apart w l d :
  qinv w -> q_list w !! IN = Some l -> l_dir l = d -> drop_dir <> d /\ d <> df_dir /\ d <> act_dir.
Proof.
  intros [_ Hk _ _] Hl <-. destruct (act_lookup _ _ _ Hk) as [la Hla].
  pose proof (Forall_lookup_1 _ _ _ _ (qi_other _ _ _ Hk) Hl) as Ho.
  assert (l_dir l <> act_dir) by (rewrite <- (qi_act_dir _ _ _ Hk la Hla); by eapply (dirs_differ _ _ _ IN ACT)).
  split_and!; [..|done]; clear -Ho; set_solver.
Qed.

(** The state after a file has been moved and its message added. *)
Lemma took d i l w t w' (e := elem_new i t IN) (m := os_ents (q_os w)) :
  qinv w -> q_list w !! IN = Some l -> l_dir l = d -> m !! msg_path drop_dir i = Some i ->
  strtoul (codes (ino_name i)) = i ->
  at_ w (added IN e (q_list w)) (moved drop_dir d i m) w' ->
  scanning w w' /\ scan_mono d [ino_name i] w w' /\ taken d (ino_name i) i w'.
Proof.
  intros Hinv Hl Hd Hi Hstr Hat. destruct (in_dir_apart _ _ _ Hinv Hl Hd) as (Hdd & Hdf & Hda).
  assert (d <> drop_dir) as Hdr by done. destruct (Hinv) as [Hdk Hk _ _]. set (m1 := moved drop_dir d i m) in *.
  assert (i ∉ inodes l) as Hfresh by (by eapply dropped_fresh).
  assert (queues_ok (q_countq w) (q_list w) m1) as Hk1.
  { eapply queues_files_frame; [exact Hk|]. intros q l0 n d' Hl0 Hn. apply moved_other.
    intros ->. by apply (dropped_fresh _ _ _ q l0 i Hk Hdk). }
  assert (m1 !! msg_path d i = Some i) as Hm1 by apply lookup_insert_eq.
  assert (queues_ok (q_countq w) (added IN e (q_list w)) m1) as Hk2.
  { eapply queues_added; [exact Hk1|unfold IN; lia|exact Hl|done|]. by rewrite Hd. }
  destruct (Hat) as [El He Hh Hm Hf _].
  destruct (elem_add_ok l e (Forall_lookup_1 _ _ _ _ (qi_ok _ _ _ Hk) Hl)) as (_ & Em & _ & _ & _ & Ed & Et).
  assert (q_list w' !! IN = Some (elem_add l e).1) as Hin
    by (rewrite El; exact (alter_look (fun l0 => (elem_add l0 e).1) IN (q_list w) l Hl)).
  split_and!.
  - split; [eapply at_qinv; [done|exact Hat|by apply moved_disk|done]|unfold scan_frame; congruence|].
    rewrite He. intros j Hj. left. by apply moved_stored.
  - split.
    + intros nm Hnn. rewrite He. unfold m1, moved. rewrite lookup_insert_ne, lookup_delete_ne; [done|..];
        unfold msg_path; intros [= ]; set_solver.
    + intros nm j Hj. rewrite He. fold m in Hj. unfold m1, moved.
      destruct (decide (msg_path d i = (d, nm))) as [E|].
      * rewrite <- E in Hj |- *. rewrite lookup_insert_eq. f_equal. by rewrite (move_target m drop_dir d i) in Hj.
      * rewrite lookup_insert_ne, lookup_delete_ne; [done| |done]. unfold msg_path. congruence.
    + rewrite El. eapply grew_alter; [exact Hl|]. split_and!; [done|done|]. unfold inodes. rewrite Em, map_app. set_solver.
    + rewrite El. unfold added. by rewrite list_lookup_alter_ne.
    + intros nm. rewrite He. unfold m1, moved. rewrite lookup_insert_ne, lookup_delete_ne; [done|by intros [= ]|]. unfold msg_path. congruence.
  - unfold taken. rewrite Hstr, Z.eqb_refl, He. split; [exact Hm1|]. eexists. split; [exact Hin|].
    unfold inodes. rewrite Em, map_app. apply elem_of_app. right. by apply list_elem_of_singleton.
Qed.

(** Taking one file. *)
Lemma take_one {A} d nm i l w (k : QM A) (Q : A -> qm -> Prop) (R : Z -> qm -> Prop) F :
  qinv w -> q_list w !! IN = Some l -> l_dir l = d ->
  os_ents (q_os w) !! (drop_dir, nm) = Some i -> strtoul (codes nm) = i ->
  (forall w', scanning w w' -> scan_mono d [nm] w w' -> taken d nm i w' -> pwp k Q R F w') ->
  (forall w', survives w w' (fun _ => False) -> R 2 w') ->
  pwp (or_die (mvfile (drop_dir, nm) (d, nm));;
       st ← on_os (stat_file (d, nm));
       match st with
       | None => ERR_SYS
       | Some (i, ts) => elem_add_q IN (elem_new i (Build_timeval (ts_sec ts) (ts_nsec ts / 1000)) IN);; k
       end) Q R F w.
Proof.
  intros Hinv Hl Hd Hnm Hstr HQ HR. destruct (in_dir_apart _ _ _ Hinv Hl Hd) as (Hdd & Hdf & Hda).
  destruct (Hinv) as [Hdk _ _ _]. assert (nm = ino_name i) as -> by (by apply (dk_drop _ Hdk)).
  assert (d <> drop_dir) as Hdr by done.
  set (m := os_ents (q_os w)) in *. fold (msg_path drop_dir i) (msg_path d i) in *.
  apply pwp_bind. eapply at_mvfile; [apply at_refl| |].
  2: { intros w' H'. eapply HR, at_survives; [exact H'|done|]. apply keeps_stored_refl. }
  intros w1 _ H1. fold m in H1. rewrite (rename_moves m drop_dir d i) in H1 by done.
  apply pwp_bind, pwp_lift, stat_wp.
  2: { intros o' (_ & He & _ & Hc & _). cbn. pwp_steps. rewrite (at_ents _ _ _ _ H1) in He.
       eapply HR, (at_survives w _ (moved drop_dir d i m)); [destruct H1; split; cbn; first [done|congruence]|by apply moved_disk|].
       intros j Hj. left. by apply moved_stored. }
  intros o' j ts (_ & He & _ & Hc & _) Hj. rewrite (at_ents _ _ _ _ H1) in He, Hj.
  unfold moved in Hj. rewrite lookup_insert_eq in Hj. injection Hj as <-.
  assert (at_ w (q_list w) (moved drop_dir d i m) (w1 <| q_os := o' |>)) as H2
    by (destruct H1; split; cbn; first [done|congruence]).
  unfold elem_add_q. apply pwp_bind. eapply at_que_set; [exact H2|exact Hl|]. intros w3 H3.
  destruct (took d i l w _ w3 Hinv Hl Hd Hnm Hstr H3) as (? & ? & ?). by apply HQ.
Qed.

Lemma scan_entries_wp d es count w :
  qinv w -> (exists l, q_list w !! IN = Some l /\ l_dir l = d) -> NoDup es.*1 ->
  (forall nm i, (nm, i) ∈ es -> is_dot nm = false -> os_ents (q_os w) !! (drop_dir, nm) = Some i) ->
  pwp (scan_entries es count)
    (fun _ w' => scanning w w' /\ scan_mono d es.*1 w w' /\
       forall nm i, (nm, i) ∈ es -> is_dot nm = false -> taken d nm i w')
    (fun c w' => c = 2 /\ survives w w' (fun _ => False)) no_fault w.
Proof.
  revert count w. induction es as [|[nm i] es IH]; intros count w Hinv (l & Hl & Hd) Hnd Hes.
  { cbn. pwp_steps. split_and!; [by apply scanning_refl|apply scan_mono_refl|]. intros nm i []%not_elem_of_nil. }
  cbn [scan_entries]. fold (is_dot nm). apply NoDup_cons in Hnd as [Hnm Hnd].
  assert (forall w1 (Hsc : scanning w w1) (Hmo : scan_mono d [nm] w w1) (Hta : is_dot nm = false -> taken d nm i w1) c,
    pwp (scan_entries es c)
      (fun _ w' => scanning w w' /\ scan_mono d (nm :: es.*1) w w' /\
         forall nm' i', (nm', i') ∈ (nm, i) :: es -> is_dot nm' = false -> taken d nm' i' w')
      (fun c w' => c = 2 /\ survives w w' (fun _ => False)) no_fault w1) as Hnext.
  { intros w1 Hsc Hmo Hta c. eapply pwp_mono; [apply IH| |].
    - apply Hsc.
    - destruct (Forall2_lookup_l _ _ _ _ _ (sm_list _ _ _ _ Hmo) Hl) as (l1 & Hl1 & Hd1 & _).
      exists l1. split; [done|congruence].
    - done.
    - intros nm' i' Hin Hdot. rewrite (sm_drop _ _ _ _ Hmo).
      + apply Hes; [by right|done].
      + intros ->%list_elem_of_singleton. destruct Hnm. apply list_elem_of_fmap. by exists (nm, i').
    - intros k w2 (Hsc2 & Hmo2 & Hta2). split_and!; [by eapply scanning_trans|by apply (scan_mono_trans _ [nm] _ w w1 w2)|].
      intros nm' i' [E|Hin]%elem_of_cons Hdot; [|by apply Hta2].
      injection E as -> ->. eapply taken_mono; [exact Hmo2| |by apply Hta].
      intros Hin. by apply Hnm.
    - intros c' w2 [-> Hs]. split; [done|]. by eapply scanning_survives. }
  destruct (is_dot nm) eqn:Hdot.
  { apply (Hnext w); [by apply scanning_refl|apply scan_mono_refl|done]. }
  assert (os_ents (q_os w) !! (drop_dir, nm) = Some i) as Hi by (apply Hes; [by left|done]).
  destruct (Z.eqb_spec (strtoul (codes nm)) i) as [Hstr|Hstr].
  2: { apply (Hnext w); [by apply scanning_refl|apply scan_mono_refl|]. intros _.
       unfold taken. by rewrite (proj2 (Z.eqb_neq _ _) Hstr). }
  apply pwp_bind. eapply at_que; [apply at_refl|exact Hl|]. rewrite Hd.
  eapply take_one; [exact Hinv|exact Hl|exact Hd|exact Hi|exact Hstr|..].
  - intros w1 Hsc Hmo Hta. by apply Hnext.
  - intros w1 Hs. by split.
Qed.

Lemma queue_sort_grew l : ml_ok l -> grew l (queue_sort l) /\ inodes (queue_sort l) ≡ₚ inodes l.
Proof.
  intros Hk. assert (inodes (queue_sort l) ≡ₚ inodes l) as Hp.
  { unfold inodes. destruct (queue_sort_ok l Hk) as (_ & _ & Hp). by rewrite Hp. }
  split; [|done]. unfold grew. unfold queue_sort at 1 2. split_and!; [by destruct (l_msg l)..|].
  intros n. by rewrite Hp.
Qed.

(** Sorting the incoming queue. *)
Lemma sort_in_wp l w (Q : unit -> qm -> Prop) R F :
  qinv w -> q_list w !! IN = Some l ->
  (forall w', at_ w (alter queue_sort IN (q_list w)) (os_ents (q_os w)) w' -> qinv w' -> Q tt w') ->
  pwp (que_set IN queue_sort) Q R F w.
Proof.
  intros Hinv Hl HQ. eapply at_que_set; [apply at_refl|exact Hl|]. intros w' Hw'. apply HQ; [done|].
  destruct (Hinv) as [Hd Hk _ _]. eapply at_qinv; [done|done|done|].
  apply queues_alter_frame; [done| |].
  - intros l0 H0. destruct (queue_sort_ok l0 H0) as (? & _ & ?). done.
  - intros l0. pose proof (queue_sort_counters l0) as E. by injection E as _ -> _ ->.
Qed.

Lemma in_dir_lookup (d : string) (m : gmap path ino) (nm : string) (i : ino) : (nm, i) ∈ in_dir d m <-> m !! (d, nm) = Some i.
Proof.
  unfold in_dir. rewrite list_elem_of_omap. split.
  - intros ([[d' n'] j] & Hin & E). apply elem_of_map_to_list in Hin. case_bool_decide; by simplify_eq.
  - intros H. exists ((d, nm), i). rewrite elem_of_map_to_list, bool_decide_true by done. done.
Qed.

Lemma in_dir_nodup (d : string) (m : gmap path ino) : NoDup (in_dir d m).*1.
Proof.
  unfold in_dir. pose proof (NoDup_fst_map_to_list m) as Hn. induction (map_to_list m) as [|[[d' n] i] l IH];
    cbn in *; [constructor|]. apply NoDup_cons in Hn as [Hx Hn].
  case_bool_decide as E; [|by apply IH]. subst d'. cbn. apply NoDup_cons. split; [|by apply IH].
  rewrite list_elem_of_fmap. intros ([n' j] & E & Hin). cbn in E. subst n'.
  apply list_elem_of_omap in Hin as ([[d2 n2] j2] & Hin & E2). case_bool_decide; [|done]. simplify_eq.
  destruct Hx. apply list_elem_of_fmap. by exists ((d, n), j).
Qed.

Lemma listing_lookup d m nm i :
  is_dot nm = false -> (nm, i) ∈ dir_listing d m <-> m !! (d, nm) = Some i.
Proof.
  intros Hdot. unfold dir_listing. rewrite listing_perm, elem_of_app, in_dir_lookup. split; [|by right].
  intros [Hin|?]; [|done]. apply elem_of_cons in Hin as [E|E%list_elem_of_singleton]; by simplify_eq.
Qed.

Lemma listing_nodup d m : disk_ok m -> NoDup (dir_listing d m).*1.
Proof.
  intros Hd. unfold dir_listing. rewrite listing_perm.
  assert (forall nm, nm ∈ (in_dir d m).*1 -> is_dot nm = false) as H.
  { intros nm ([nm' i] & -> & Hin)%list_elem_of_fmap. apply in_dir_lookup in Hin. by apply (dk_dot _ Hd _ _ Hin). }
  cbn. rewrite !NoDup_cons. split_and!; [| |apply in_dir_nodup].
  - intros [E|Hin]%elem_of_cons; [done|]. by apply H in Hin.
  - intros Hin. by apply H in Hin.
Qed.

Lemma at_scanning w w1 ql w2 :
  scanning w w1 -> at_ w1 ql (os_ents (q_os w1)) w2 -> qinv w2 -> scanning w w2.
Proof.
  intros [Hi Hf Hs] [_ He Hh Hm Hf' _] Hi2. split; [done| |by rewrite He].
  unfold scan_frame in *. congruence.
Qed.

Lemma scan_drop_wp w :
  qinv w ->
  pwp scan_drop
    (fun _ w' => scanning w w' /\ Forall2 grew (q_list w) (q_list w') /\
       (q_list w' !! ACT = q_list w !! ACT /\
        forall nm, os_ents (q_os w') !! (act_dir, nm) = os_ents (q_os w) !! (act_dir, nm)) /\
       exists l, q_list w !! IN = Some l /\
       forall nm i, os_ents (q_os w) !! (drop_dir, nm) = Some i -> taken (l_dir l) nm i w')
    (fun c w' => c = 2 /\ survives w w' (fun _ => False)) no_fault w.
Proof.
  intros Hinv. destruct (Hinv) as [Hd Hk _ _].
  destruct (lookup_lt_is_Some_2 (q_list w) IN) as [l Hl].
  { rewrite (qi_len _ _ _ Hk). pose proof (qi_two _ _ _ Hk). unfold IN. lia. }
  unfold scan_drop. apply pwp_bind, pwp_lift, readdir_wp.
  2: { intros o' (_ & He & _) _. cbn. pwp_steps. split; [done|]. split; cbn; rewrite ?He; [done..|apply keeps_stored_refl]. }
  intros o' (_ & He & _ & Hc & _). cbn. set (w1 := w <| q_os := o' |>).
  set (es := dir_listing _ _).
  assert (at_ w (q_list w) (os_ents (q_os w)) w1) as H1 by by split.
  assert (scanning w w1) as Hs1.
  { split; [by eapply at_qinv|done|]. cbn. rewrite He. apply keeps_stored_refl. }
  apply pwp_bind. eapply pwp_mono; [apply (scan_entries_wp (l_dir l))| |].
  - apply Hs1.
  - by exists l.
  - by apply listing_nodup.
  - intros nm i Hin Hdot. cbn. rewrite He. by apply listing_lookup in Hin.
  - intros k w2 (Hsc & Hmo & Hta). pose proof (scanning_trans _ _ _ Hs1 Hsc) as Hs2.
    assert (forall nm i, os_ents (q_os w) !! (drop_dir, nm) = Some i -> taken (l_dir l) nm i w2) as Ht2.
    { intros nm i Hi. pose proof (dk_dot _ Hd _ _ Hi) as Hdot. apply Hta; [|done]. by apply listing_lookup. }
    destruct (Forall2_lookup_l _ _ _ _ _ (sm_list _ _ _ _ Hmo) Hl) as (l2 & Hl2 & _).
    apply pwp_bind. destruct (negb (k =? 0)); cbn [pwhen]; pwp_steps.
    2: { split_and!; [done|apply Hmo|apply Hmo| |by exists l]. intros nm. rewrite (sm_links _ _ _ _ Hmo). cbn. by rewrite He. }
    apply (sort_in_wp l2); [apply Hs2|done|]. intros w3 H3 Hi3. pwp_steps. split; [by eapply at_scanning|].
    assert (forall l0, q_list w2 !! IN = Some l0 -> grew l0 (queue_sort l0) /\ inodes (queue_sort l0) ≡ₚ inodes l0) as Hsort.
    { intros l0 Hl0. assert (ml_ok l0) as Hok0.
      { eapply Forall_lookup_1; [|exact Hl0]. apply (qv_queues w2). apply Hs2. }
      apply queue_sort_grew. done. }
    split.
    { etrans; [apply Hmo|]. rewrite (at_list _ _ _ _ H3). eapply grew_alter; [exact Hl2|]. by apply Hsort. }
    split.
    { split; [rewrite (at_list _ _ _ _ H3), list_lookup_alter_ne by done; apply Hmo|].
      intros nm. rewrite (at_ents _ _ _ _ H3), (sm_links _ _ _ _ Hmo). cbn. by rewrite He. }
    exists l. split; [done|]. intros nm i Hi. specialize (Ht2 nm i Hi). unfold taken in *.
    rewrite (at_ents _ _ _ _ H3). destruct (_ =? i); [|done]. destruct Ht2 as (Hf & l0 & Hl0 & Hil). split; [done|].
    exists (queue_sort l0). rewrite (at_list _ _ _ _ H3). split; [by apply alter_look|].
    by apply Hsort.
  - intros c w2 [-> Hs]. split; [done|]. by eapply scanning_survives.
Qed.

(** C16: Taking new messages: every file in [drop] whose name reads as its
    inode number is moved into the incoming queue's directory and its message
    added to the queue, every other file stays, such as the temporary files
    [putqueue] creates there, the invariant is kept and no
    file is lost; a failing call ends the process with status 2, and loses no
    file either. *)
Theorem scan_drop_takes w :
  qinv w ->
  pwp scan_drop
    (fun _ w' => qinv w' /\
       keeps_stored (os_ents (q_os w)) (os_ents (q_os w')) (fun _ => False) /\
       exists l l', q_list w !! IN = Some l /\ q_list w' !! IN = Some l' /\
         forall nm i, os_ents (q_os w) !! (drop_dir, nm) = Some i ->
           if strtoul (codes nm) =? i
           then os_ents (q_os w') !! (l_dir l, nm) = Some i /\ i ∈ inodes l'
           else os_ents (q_os w') !! (drop_dir, nm) = Some i)
    (fun c w' => c = 2 /\ survives w w' (fun _ => False)) no_fault w.
Proof.
  intros Hinv. eapply pwp_mono; [by apply scan_drop_wp| |done].
  intros k w' ([Hi _ Hs] & _ & _ & l & Hl & Ht). split_and!; [done|done|].
  pose proof (qv_queues _ Hi) as Hk'. destruct (lookup_lt_is_Some_2 (q_list w') IN) as [l' Hl'].
  { rewrite (qi_len _ _ _ Hk'). pose proof (qi_two _ _ _ Hk'). unfold IN. lia. }
  exists l, l'. split_and!; [done|done|]. intros nm i Hnm. specialize (Ht nm i Hnm). unfold taken in Ht.
  destruct (_ =? i); [|done]. destruct Ht as (Hf & l0 & Hl0 & Hin). split; [done|]. by simplify_eq.
Qed.
End scan.
