(* ===== verification/QueMain.v ===== *)
(** * The queue manager: the main loop

    Reading responses, flushing the queues and the poll loop: whatever [poll]
    reports, whatever the sender answers and whichever system call fails, the
    loop keeps its invariant, never uses a null or stale timer and never
    leaves an array. *)

From S2P Require Import Prelude Heap Posix Utils QueControl Quemngr QueProps QueSend.

(** ** The sender's lines *)

Lemma skip_space_length l : (length (skip_space l) <= length l)%nat.
Proof. induction l as [|c l IH]; cbn; [lia|]. destruct (is_space c); cbn; lia. Qed.

Lemma span_digits_length l : (length (span_digits l).1 + length (span_digits l).2 = length l)%nat.
Proof.
  induction l as [|c l IH]; cbn; [done|]. destruct (is_digit c); [|done].
  destruct (span_digits l) as [d r]. cbn in *. lia.
Qed.

Lemma scan_int_length l i r : scan_int l = (Some i, r) -> (length r < length l)%nat.
Proof.
  unfold scan_int. pose proof (skip_space_length l) as Hs. set (l1 := skip_space l) in *.
  set (p := match l1 with c :: l' => _ | [] => _ end).
  assert (length p.2 <= length l1)%nat as Hp.
  { unfold p. destruct l1 as [|c l1]; cbn; [lia|]. destruct (c =? 45), (c =? 43); cbn; lia. }
  destruct p as [neg l2]. cbn in Hp. pose proof (span_digits_length l2) as Hd.
  destruct (span_digits l2) as [[|c d] r2]; intros; simplify_eq. cbn in *. lia.
Qed.

Lemma scan_int_length_le l o r : scan_int l = (o, r) -> (length r <= length l)%nat.
Proof.
  destruct o as [i|]; [intros H%scan_int_length; lia|].
  unfold scan_int. pose proof (skip_space_length l) as Hs. set (l1 := skip_space l) in *.
  set (p := match l1 with c :: l' => _ | [] => _ end).
  assert (length p.2 <= length l1)%nat as Hp.
  { unfold p. destruct l1 as [|c l1]; cbn; [lia|]. destruct (c =? 45), (c =? 43); cbn; lia. }
  destruct p as [neg l2]. cbn in Hp. pose proof (span_digits_length l2) as Hd.
  destruct (span_digits l2) as [[|c d] r2]; intros; simplify_eq. cbn in *. lia.
Qed.

Lemma span_line_length l : (length (span_line l).2 <= length l)%nat.
Proof.
  induction l as [|c l IH]; cbn; [done|]. destruct (c =? 10); [done|].
  destruct (span_line l) as [d r]. cbn in *. lia.
Qed.

(** A response consumes input. *)
Lemma scan_response_length l si sc dlen r :
  scan_response l = Scanned (Some si) sc dlen r -> (length r < length l)%nat.
Proof.
  unfold scan_response. pose proof (skip_space_length l) as Hs. destruct (skip_space l) as [|c l0]; [done|].
  destruct (scan_int (c :: l0)) as [[i|] r1] eqn:E1; [|done]. apply scan_int_length in E1.
  destruct (scan_int r1) as [[k|] r2] eqn:E2; apply scan_int_length_le in E2.
  - pose proof (skip_space_length r2). pose proof (span_line_length (skip_space r2)).
    destruct (span_line (skip_space r2)) as [d r3]. intros. simplify_eq. cbn in *. lia.
  - intros. simplify_eq. lia.
Qed.

(** The sender keeps to the format: for the next [n] calls, each finds no
    input or a complete response with a description that fits. *)
Fixpoint fed_ok (n : nat) (l : bytes) (fs : list bytes) : Prop :=
  match n with
  | O => True
  | S n =>
      match scan_response (l ++ hd [] fs) with
      | ScanEOF r => fed_ok n r (tl fs)
      | Scanned (Some _) (Some _) dlen r => (dlen < DESCMAX)%nat /\ fed_ok n r (tl fs)
      | _ => False
      end
  end.
Definition well_fed (w : qm) : Prop := forall n, fed_ok n (q_in w) (q_feed w).

(** A response line, a number, a code and a description, is read back as
    that number and code, with nothing of the next line consumed. *)
Theorem response_line_read (di dc d rest : bytes) :
  di <> [] -> dc <> [] -> d <> [] ->
  Forall (fun c => is_digit c = true) di -> Forall (fun c => is_digit c = true) dc ->
  Forall (fun c => (c =? 10) = false) d -> is_space (hd 0 d) = false ->
  scan_response (di ++ [32] ++ dc ++ [32] ++ d ++ [10] ++ rest)
  = Scanned (Some (u64 (atoi di))) (Some (i32 (atoi dc))) (length d) (10 :: rest).
Proof.
  intros Hdi Hdc Hd Fdi Fdc Fd Hsp.
  assert (forall d0 l, Forall (fun c => is_digit c = true) d0 -> span_digits (d0 ++ 32 :: l) = (d0, 32 :: l)) as Hspan.
  { intros d0 l H. induction H as [|c d0 Hc H IH]; [done|]. cbn. rewrite Hc, IH. done. }
  assert (forall c, is_digit c = true -> is_space c = false /\ (c =? 45) = false /\ (c =? 43) = false) as Hdig.
  { intros c. unfold is_digit, is_space. lia. }
  assert (forall d0 l, d0 <> [] -> Forall (fun c => is_digit c = true) d0 ->
            scan_int (d0 ++ 32 :: l) = (Some (atoi d0), 32 :: l)) as Hint.
  { intros d0 l Hne H. unfold scan_int. destruct d0 as [|c d0]; [done|]. pose proof (Forall_inv H) as Hc. cbv beta in Hc.
    destruct (Hdig c Hc) as (E1 & E2 & E3). cbn [app skip_space]. rewrite E1. cbn [app]. rewrite E2, E3.
    rewrite app_comm_cons, (Hspan (c :: d0) l H). done. }
  assert (forall d0, Forall (fun c => (c =? 10) = false) d0 -> span_line (d0 ++ 10 :: rest) = (d0, 10 :: rest)) as Hline.
  { intros d0 H. induction H as [|c d0 Hc H IH]; [done|]. cbn. rewrite Hc, IH. done. }
  cbn [app]. unfold scan_response.
  assert (skip_space (di ++ 32 :: dc ++ 32 :: d ++ 10 :: rest) = di ++ 32 :: dc ++ 32 :: d ++ 10 :: rest) as ->.
  { destruct di as [|c di]; [done|]. pose proof (Forall_inv Fdi) as Hc. cbn. by rewrite (proj1 (Hdig c Hc)). }
  destruct (di ++ _) eqn:E; [by destruct di|]. rewrite <- E. rewrite Hint by done.
  assert (scan_int (32 :: dc ++ 32 :: d ++ 10 :: rest) = scan_int (dc ++ 32 :: d ++ 10 :: rest)) as -> by done.
  rewrite Hint by done.
  assert (skip_space (32 :: d ++ 10 :: rest) = d ++ 10 :: rest) as ->.
  { cbn. destruct d as [|c d]; [done|]. cbn in *. by rewrite Hsp. }
  by rewrite Hline.
Qed.

Lemma response_line_read_witness :
  scan_response (codes "123" ++ [32] ++ codes "0" ++ [32] ++ codes "ok" ++ [10] ++ codes "77 1 x")
  = Scanned (Some (u64 (atoi (codes "123")))) (Some (i32 (atoi (codes "0")))) 2 (10 :: codes "77 1 x").
Proof.
  apply (response_line_read (codes "123") (codes "0") (codes "ok") (codes "77 1 x"));
    try discriminate; try (repeat constructor).
Defined.

(** ** Operations that keep the invariant *)
Definition control (w : qm) := (q_countq w, q_isconnect w, q_wait w, q_polling w, q_sigs w).

(** The sender still keeps to the format if it did. *)
Definition feeds (w w' : qm) : Prop := well_fed w -> well_fed w'.

#[export] Instance feeds_preorder : PreOrder feeds.
Proof. split; [by intros w Hw|]. intros w1 w2 w3 H12 H23 Hw. by apply H23, H12. Qed.
#[export] Hint Extern 0 (feeds _ _) => (intro; assumption) : core.

Record keepq (w w' : qm) : Prop := {
  kq_inv : qinv w';
  kq_fed : feeds w w';
  kq_control : control w' = control w;
  kq_heap : (nodecount (q_heap w) <= nodecount (q_heap w'))%nat;
}.

Lemma keepq_trans w1 w2 w3 : keepq w1 w2 -> keepq w2 w3 -> keepq w1 w3.
Proof. intros [_ F1 C1 H1] [I2 F2 C2 H2]. split; [done|by etrans|congruence|lia]. Qed.

Definition exits_2 (c : Z) (w : qm) : Prop := c = 2.
Definition spins (f : fault) : Prop := f = OutOfFuel.

(** What a sender that does not keep to the format leads to: a variable used
    before a conversion has assigned it, a description longer than its buffer,
    a conversion that fails on the same input again and again. *)
Definition garbled (f : fault) : Prop := f = Uninitialised \/ f = OutOfBounds \/ f = OutOfFuel.
Definition misfed (F : fault -> Prop) (w : qm) (f : fault) : Prop := F f \/ (garbled f /\ ~ well_fed w).

Lemma misfed_back F w w' f : feeds w w' -> misfed F w' f -> misfed F w f.
Proof. intros Hw [?|[? Hf]]; [by left|right]. split; [done|]. intros Hfed. by apply Hf, Hw. Qed.

(** [m] keeps the invariant; [F]: the faults it may end in while the sender
    keeps to the format. *)
Definition respects {A} (F : fault -> Prop) (m : QM A) : Prop := forall w,
  qinv w -> pwp m (fun _ w' => keepq w w') exits_2 (misfed F w) w.

Lemma keepq_refl w : qinv w -> keepq w w.
Proof. intros. by split. Qed.

Lemma pwp_then {A B} F (m : QM A) (k : A -> QM B) (P : A -> qm -> Prop) Q w :
  pwp m P exits_2 (misfed F w) w -> (forall a w1, P a w1 -> feeds w w1) ->
  (forall a w1, P a w1 -> pwp (k a) Q exits_2 (misfed F w1) w1) ->
  pwp (m ≫= k) Q exits_2 (misfed F w) w.
Proof.
  intros Hm Hf Hk. apply pwp_bind. eapply pwp_mono; [exact Hm| |done]. intros a w1 H1.
  eapply pwp_faults; [by apply Hk|]. intros f. apply misfed_back. by eapply Hf.
Qed.

Lemma keep_then {A B} F (m : QM A) (k : A -> QM B) Q w :
  pwp m (fun _ w1 => keepq w w1) exits_2 (misfed F w) w ->
  (forall a w1, keepq w w1 -> pwp (k a) Q exits_2 (misfed F w1) w1) ->
  pwp (m ≫= k) Q exits_2 (misfed F w) w.
Proof. intros Hm Hk. eapply pwp_then; [exact Hm|by intros a w1 []|done]. Qed.

Section respects.
Context (F : fault -> Prop).

Lemma respects_ret {A} (a : A) : respects F (mret a).
Proof. intros w Hi. apply pwp_ret. by apply keepq_refl. Qed.

Lemma respects_bind {A B} (m : QM A) (k : A -> QM B) :
  respects F m -> (forall a, respects F (k a)) -> respects F (m ≫= k).
Proof.
  intros Hm Hk w Hi. apply keep_then; [by apply Hm|].
  intros a w1 H1. eapply pwp_mono; [apply Hk; apply H1| |done].
  intros b w2 H2. exact (keepq_trans _ _ _ H1 H2).
Qed.

Lemma respects_gets {A} (f : qm -> A) : respects F (pgets f).
Proof. intros w Hi. apply pwp_gets. by apply keepq_refl. Qed.

Lemma respects_when b m : respects F m -> respects F (pwhen b m).
Proof. destruct b; [done|]. intros _. apply respects_ret. Qed.

(** A change the invariant does not look at. *)
Lemma respects_modify f :
  (forall w, (q_os (f w), q_list (f w), q_heap (f w), q_in (f w), q_feed (f w)) =
             (q_os w, q_list w, q_heap w, q_in w, q_feed w) /\ control (f w) = control w) ->
  respects F (pmodify f).
Proof.
  intros Hf w Hi. destruct (Hf w) as [E C]. injection E as E1 E2 E3 E4 E5.
  pose proof C as C'. unfold control in C'. injection C' as C1 _ _ _ _.
  apply pwp_modify. split; [|unfold feeds, well_fed; by rewrite E4, E5|done|by rewrite E3].
  destruct Hi. split; rewrite ?E1, ?E2, ?E3, ?C1; done.
Qed.

Lemma frame_control w w' : frame w' = frame w -> control w' = control w.
Proof. unfold frame, control. intros E. by injection E as -> _ _ _ -> -> -> ->. Qed.

Lemma frame_fed w w' : frame w' = frame w -> feeds w w'.
Proof. unfold frame, feeds, well_fed. intros E. by injection E as _ _ -> -> _ _ _ _. Qed.

Lemma check_response_keeps n r w :
  qinv w ->
  pwp (check_response n r) (fun _ w' => keepq w w' /\ feed_size w' = feed_size w) exits_2 F w.
Proof.
  intros Hi. pose proof (check_response_inv n r w Hi) as H. unfold pwp in *.
  destruct (check_response n r w) as [[k|f|c] w']; [|done|by destruct H].
  destruct H as (H1 & H2 & H3 & _). split; [split; [done|by apply (frame_fed w)|by apply frame_control|done]|].
  unfold frame in H2. unfold feed_size. by injection H2 as _ _ -> -> _ _ _ _.
Qed.

Lemma scan_drop_respects {RD : Readdir} {QS : Qsort} : respects F scan_drop.
Proof.
  intros w Hi. pose proof (scan_drop_wp w Hi) as H. unfold pwp in *.
  destruct (scan_drop w) as [[k|f|c] w']; [|done|by destruct H].
  destruct H as [[H1 H2 _] _]. pose proof (f_equal (fun p => p.1.1) H2) as Hfr.
  pose proof (f_equal (fun p => p.1.2) H2) as Hh. cbn in Hfr, Hh.
  split; [done|by apply (frame_fed w)|by apply frame_control|by rewrite Hh].
Qed.

Lemma must_succeed_respects : respects F must_succeed.
Proof.
  intros w Hi. unfold must_succeed. apply pwp_bind, pwp_lift, pwp_fails.
  intros b o (_ & He & _) _. destruct b; cbn; pwp_steps; [done|].
  split; [|done..]. destruct Hi as [H1 H2 H3 H4]. split; cbn; rewrite ?He; done.
Qed.

(** Sending from queue [q >= 1] the next message, if the window allows. *)
Lemma next_message w q l :
  qinv w -> (1 <= q)%nat -> q_list w !! q = Some l -> l_send l < l_total l ->
  exists n, n ∈ inodes l /\ GETFILENAME q w = (Done n, w).
Proof.
  intros [_ Hk _ _] Hq Hl Hlt. destruct (act_lookup _ _ _ Hk) as [la Hla].
  pose proof (qi_send _ _ _ Hk la q l Hla Hq Hl) as Hs.
  pose proof (Forall_lookup_1 _ _ _ _ (qi_ok _ _ _ Hk) Hl) as Hok. pose proof (total_msgs l Hok) as Ht.
  destruct (lookup_lt_is_Some_2 (msgs l) (Z.to_nat (l_send l))) as [x Hx]; [lia|].
  exists (m_inode x). split.
  - apply list_elem_of_fmap. exists x. split; [done|]. by eapply list_elem_of_lookup_2.
  - unfold GETFILENAME, mbind, pr_bind, que. by rewrite Hl, Hx.
Qed.

Lemma send_message_keeps w q n l :
  qinv w -> (1 <= q)%nat -> q_list w !! q = Some l -> n ∈ inodes l ->
  pwp (send_message q n) (fun _ w' => keepq w w' /\ q_heap w' = q_heap w /\ q_minnode w' = q_minnode w) exits_2 F w.
Proof.
  intros Hi Hq Hl Hn. pose proof (send_message_inv w q n l Hi Hq Hl Hn) as H. unfold pwp in *.
  destruct (send_message q n w) as [[k|f|c] w']; [|done|by destruct H].
  destruct H as (H1 & _ & H2 & H3 & H4 & _). split_and!; [split|done|done].
  - done.
  - by apply (frame_fed (wrote n w)).
  - by apply (frame_control (wrote n w)).
  - by rewrite H3.
Qed.

Lemma send_next_keeps win w q l :
  qinv w -> (1 <= q)%nat -> q_list w !! q = Some l -> may_send win l = true ->
  pwp (i ← GETFILENAME q; send_message q i)
    (fun _ w' => keepq w w' /\ q_heap w' = q_heap w /\ q_minnode w' = q_minnode w) exits_2 F w.
Proof.
  intros Hi Hq Hl Hm. unfold may_send in Hm. bool_hyps.
  destruct (next_message w q l Hi Hq Hl) as (n & Hn & E); [done|].
  apply pwp_bind. unfold pwp at 1. rewrite E. by apply (send_message_keeps w q n l).
Qed.

(** *** The response loop reads everything and stops *)
Lemma fed_step w si sc dlen r :
  well_fed w -> scan_response (q_in w ++ hd [] (q_feed w)) = Scanned si sc dlen r ->
  (exists i, si = Some i) /\ (exists c, sc = Some c) /\ (dlen < DESCMAX)%nat.
Proof.
  intros Hf E. specialize (Hf 1%nat). cbn in Hf. rewrite E in Hf.
  destruct si as [i|], sc as [c|]; try done. destruct Hf as [? _]. split_and!; eauto.
Qed.

Definition after_scan (w : qm) (r : bytes) : qm := w <| q_in := r |> <| q_feed := tl (q_feed w) |>.

Lemma after_scan_keeps w r :
  qinv w ->
  scan_response (q_in w ++ hd [] (q_feed w)) = ScanEOF r \/
  (exists si sc d, scan_response (q_in w ++ hd [] (q_feed w)) = Scanned si sc d r) ->
  keepq w (after_scan w r).
Proof.
  intros Hi Hs. split; [by destruct Hi| |done|done].
  intros Hf n. specialize (Hf (S n)). cbn in Hf. destruct Hs as [E|(si & sc & d & E)]; rewrite E in Hf; [done|].
  destruct si, sc; try done. apply Hf.
Qed.

Lemma feed_size_step w si sc dlen r :
  scan_response (q_in w ++ hd [] (q_feed w)) = Scanned (Some si) sc dlen r ->
  (feed_size (after_scan w r) < feed_size w)%nat.
Proof.
  intros E%scan_response_length. unfold feed_size, after_scan. cbn.
  destruct (q_feed w) as [|c fs]; cbn in *; rewrite ?length_app in *; cbn in *; lia.
Qed.

Lemma response_loop_respects w0 fuel v n w :
  qinv w -> feeds w0 w -> (well_fed w0 -> (feed_size w <= fuel)%nat) ->
  pwp (response_loop fuel v n) (fun _ w' => keepq w w') exits_2 (misfed F w0) w.
Proof.
  revert v n w. induction fuel as [|fuel IH]; intros v n w Hi Hf Hsz; cbn [response_loop];
    apply pwp_bind; unfold pwp at 1, fscanf_response;
    destruct (scan_response (q_in w ++ hd [] (q_feed w))) as [r|si sc dlen r] eqn:E;
    fold (after_scan w r);
    try (pwp_steps; apply after_scan_keeps; by eauto);
    pose proof (after_scan_keeps w r Hi ltac:(eauto)) as Hk;
    (assert (forall f, garbled f -> si = None \/ sc = None \/ (DESCMAX <= dlen)%nat -> misfed F w0 f) as Hbad;
     [intros f Hg Hb; right; split; [done|]; intros H0; destruct (fed_step _ _ _ _ _ (Hf H0) E) as ([? ->] & [? ->] & ?);
      destruct Hb as [|[|]]; done || lia|]);
    (destruct (Nat.leb_spec DESCMAX dlen); [apply Hbad; unfold garbled; auto|]);
    (destruct (match si with Some i => Some i | None => v.1 end) as [i|] eqn:Ei;
     [|apply Hbad; [unfold garbled; auto|left; by destruct si]]);
    (destruct (match sc with Some c => Some c | None => v.2 end) as [c|] eqn:Ec;
     [|apply Hbad; [unfold garbled; auto|right; left; by destruct sc]]);
    cbn [fst snd]; apply pwp_bind; (eapply pwp_mono; [eapply pwp_faults; [apply check_response_keeps; apply Hk|by left]| |done]);
    intros k w2 [H2 Hz].
  - right. split; [unfold garbled; auto|]. intros H0. destruct (fed_step _ _ _ _ _ (Hf H0) E) as ((j & ->) & _).
    pose proof (feed_size_step _ _ _ _ _ E). specialize (Hsz H0). lia.
  - pose proof (keepq_trans _ _ _ Hk H2) as Hk2. eapply pwp_mono; [apply IH| |done].
    + apply H2.
    + etrans; [exact Hf|apply Hk2].
    + intros H0. destruct (fed_step _ _ _ _ _ (Hf H0) E) as ((j & ->) & _).
      pose proof (feed_size_step _ _ _ _ _ E). specialize (Hsz H0). lia.
    + intros p w3 H3. exact (keepq_trans _ _ _ Hk2 H3).
Qed.
End respects.

(** *** Flushing *)
Lemma read_responses_respects F v n : respects F (read_responses v n).
Proof. intros w Hi. unfold read_responses. pwp_steps. by apply response_loop_respects. Qed.

Lemma que_at q w : qinv w -> (q <= q_countq w)%nat -> exists l, q_list w !! q = Some l.
Proof. intros [_ Hk _ _] Hq. apply lookup_lt_is_Some_2. rewrite (qi_len _ _ _ Hk). lia. Qed.

Lemma keepq_countq w w' : keepq w w' -> q_countq w' = q_countq w.
Proof. intros [_ _ E _]. unfold control in E. by injection E as -> _ _ _ _. Qed.

Lemma flush_one_keeps fuel q v n w :
  qinv w -> (1 <= q <= q_countq w)%nat ->
  pwp (flush_one fuel q v n) (fun _ w' => keepq w w') exits_2 (misfed spins w) w.
Proof.
  revert v n w. induction fuel as [|fuel IH]; intros v n w Hi Hq;
    (destruct (que_at q w Hi) as [l Hl]; [lia|]);
    cbn [flush_one]; apply pwp_bind; (eapply at_que; [apply at_refl|exact Hl|]);
    (destruct (0 <? l_total l); [|pwp_steps; by apply keepq_refl]);
    (apply keep_then;
      [apply pwp_when; intros Hm; [|by apply keepq_refl];
       eapply pwp_mono; [by eapply send_next_keeps; [..|lia| |]|by intros ? ? [? _]|done]|]);
    intros [] w1 H1; (apply keep_then; [apply read_responses_respects; apply H1|]);
    intros p w2 H2; pose proof (keepq_trans _ _ _ H1 H2) as H12; [by left|].
  eapply pwp_mono; [apply IH; [apply H12|by rewrite (keepq_countq _ _ H12)]| |done].
  intros p' w3 H3. exact (keepq_trans _ _ _ H12 H3).
Qed.

Lemma flush_from_keeps fuel q v n w :
  qinv w -> (q <= q_countq w)%nat ->
  pwp (flush_from fuel q v n) (fun _ w' => keepq w w') exits_2 (misfed spins w) w.
Proof.
  revert v n w. induction q as [|q IH]; intros v n w Hi Hq; cbn [flush_from].
  { pwp_steps. by apply keepq_refl. }
  apply keep_then; [apply flush_one_keeps; [done|lia]|].
  intros p w1 H1. eapply pwp_mono; [apply IH; [apply H1|rewrite (keepq_countq _ _ H1); lia]| |done].
  intros p' w2 H2. exact (keepq_trans _ _ _ H1 H2).
Qed.

Lemma flush_queue_respects fuel : respects spins (flush_queue fuel).
Proof. intros w Hi. unfold flush_queue. pwp_steps. by apply flush_from_keeps. Qed.

(** When the sender stays silent, a queue with a message in flight keeps
    [flush_queue] busy for ever: however many rounds it is given, it neither
    returns nor waits. *)
Theorem flush_spins_without_answer (fuel q : nat) (v : option Z * option Z) (n : Z) (w : qm) (l : msglist) :
  q_list w !! q = Some l -> 0 < l_total l -> l_conf l < l_send l -> q_in w = [] -> q_feed w = [] ->
  exists w', flush_one fuel q v n w = (Faulted OutOfFuel, w').
Proof.
  revert w. induction fuel as [|fuel IH]; intros w Hl Ht Hs Hin Hfeed;
    cbn [flush_one]; unfold mbind, pr_bind at 1, que; rewrite Hl;
    (replace (0 <? l_total l) with true by lia);
    (assert (may_send WINSIZE l = false) as -> by (unfold may_send; lia));
    unfold pr_bind, pwhen, pskip, mret, pr_ret, read_responses, mbind, pr_bind, pgets;
    unfold feed_size; rewrite Hin, Hfeed; cbn [length concat app Nat.add];
    unfold response_loop, mbind, pr_bind, fscanf_response; rewrite Hin, Hfeed; cbn.
  - by eexists.
  - by apply IH.
Qed.

(** ** The loop *)
Record hinv (w : qm) : Prop := {
  hv_q : qinv w;
  hv_wait : 0 < q_wait w -> (0 < nodecount (q_heap w))%nat;
  hv_conn : q_isconnect w = false -> q_wait w < 0;
}.

(** When [poll] may time out, the least timer is known. *)
Definition timer_known (w : qm) : Prop :=
  0 <= q_wait w -> q_minnode w = true /\ (0 < nodecount (q_heap w))%nat.

Record minv (w : qm) : Prop := {
  mv_h : hinv w;
  mv_poll : q_polling w = true -> timer_known w;
}.

Lemma keepq_hinv w w' : keepq w w' -> hinv w -> hinv w' /\ q_polling w' = q_polling w.
Proof.
  intros [Hi Hf E Hh] [_ Hw Hc]. unfold control in E. injection E as _ E1 E2 E3 _. split; [|done].
  split; [done| |]; rewrite ?E1, ?E2; [|done]. intros H. specialize (Hw H). lia.
Qed.

Lemma min_key_wp w (Q : timeval -> qm -> Prop) R F :
  heap_ok (q_heap w) -> (0 < nodecount (q_heap w))%nat ->
  (forall k, Q k (w <| q_minnode := true |>)) -> pwp min_key Q R F w.
Proof.
  intros Hh Hn HQ. unfold min_key. pwp_steps. pose proof (heap_min_least _ Hh) as Hm.
  destruct (heap_min (q_heap w)) as [m|] eqn:E.
  - pwp_steps. rewrite bool_decide_true by (by eexists). apply HQ.
  - pose proof (heap_elems_length _ Hh) as Hl. rewrite Hm in Hl. cbn in Hl. lia.
Qed.

Lemma qinv_os w o : qinv w -> os_ents o = os_ents (q_os w) -> qinv (w <| q_os := o |>).
Proof. intros [H1 H2 H3 H4] He. split; cbn; rewrite ?He; done. Qed.

(** The part of the head that computes the timeout. *)
Lemma loop_wait_wp w (Q : unit -> qm -> Prop) F :
  hinv w -> q_isconnect w = true ->
  (forall w', hinv w' -> feeds w w' -> timer_known w' -> q_polling w' = q_polling w -> Q tt w') ->
  pwp (wait ← pgets q_wait;
       n ← pgets (fun w => nodecount (q_heap w));
       if 0 <? wait then
         k ← min_key;
         now ← on_os getmonotime;
         let nearest := ms_until k now in
         let nearest := if nearest <? 0 then DELTAUSEC else nearest in
         pwhen (nearest <? wait) (pmodify (fun w => w <| q_wait := nearest |>))
       else if (n =? 0)%nat then pmodify (fun w => w <| q_wait := -1 |>)
       else
         k ← min_key;
         now ← on_os getmonotime;
         let wait := ms_until k now in
         pmodify (fun w => w <| q_wait := if wait <=? 0 then DELTAUSEC else wait |>)) Q exits_2 F w.
Proof.
  intros [Hi Hw Hc] Hconn HQ. pwp_steps. destruct (Z.ltb_spec 0 (q_wait w)) as [Hpos|Hneg].
  - apply pwp_bind, min_key_wp; [apply Hi|auto|]. intros k.
    apply pwp_bind, pwp_lift, getmonotime_wp; [|done]. intros o He. set (t := monotime _). cbn zeta beta.
    set (near := if ms_until k t <? 0 then DELTAUSEC else ms_until k t).
    assert (0 <= near) by (unfold near, DELTAUSEC; destruct (Z.ltb_spec (ms_until k t) 0); lia).
    assert (qinv (w <| q_minnode := true |> <| q_os := o |>)) as Hi' by (apply qinv_os; [by destruct Hi|done]).
    apply pwp_when; intros _; pwp_steps; (apply HQ; [split; cbn|done|split; cbn|]; try done; auto; try (intros; by auto)).
    + by destruct Hi'.
    + intros E. by rewrite Hconn in E.
  - destruct (Nat.eqb_spec (nodecount (q_heap w)) 0) as [Hz|Hnz].
    + pwp_steps. apply HQ; [split; cbn; try done; try lia; by destruct Hi|done|intros H; cbn in H; lia|done].
    + apply pwp_bind, min_key_wp; [apply Hi|lia|]. intros k.
      apply pwp_bind, pwp_lift, getmonotime_wp; [|done]. intros o He. cbn zeta beta. pwp_steps.
      assert (qinv (w <| q_minnode := true |> <| q_os := o |>)) as Hi' by (apply qinv_os; [by destruct Hi|done]).
      apply HQ; [split; cbn|done|split; cbn|]; try done; try lia.
      * by destruct Hi'.
      * intros E. by rewrite Hconn in E.
Qed.

Lemma hinv_fd0 w b : hinv w -> hinv (w <| q_fd0 := b |>).
Proof. intros [[] ? ?]. by split. Qed.

Lemma loop_head_wp w F :
  hinv w ->
  pwp loop_head (fun _ w' => hinv w' /\ feeds w w' /\ timer_known w' /\ q_polling w' = q_polling w) exits_2 F w.
Proof.
  intros Hh. unfold loop_head. pwp_steps. apply pwp_when; intros Hconn.
  2: { split_and!; [done|done| |done]. intros H. pose proof (hv_conn _ Hh Hconn). lia. }
  destruct (que_at IN w) as [l Hl]; [apply Hh|pose proof (qi_two _ _ _ (qv_queues _ (hv_q _ Hh))); unfold IN; lia|].
  apply pwp_bind. eapply at_que; [apply at_refl|exact Hl|]. apply pwp_bind.
  eapply (pwp_mono _ (fun _ w' => hinv w' /\ feeds w w' /\ q_isconnect w' = true /\ q_polling w' = q_polling w)).
  - destruct (may_send WINSIZE l) eqn:Hm.
    + apply pwp_bind, pwp_modify. pose proof (hinv_fd0 w false Hh) as Hh1.
      eapply pwp_mono; [eapply (send_next_keeps F WINSIZE (w <| q_fd0 := false |>) IN l); [apply Hh1|unfold IN; lia|done|done]| |done].
      intros [] w1 (Hk & _). destruct (keepq_hinv _ _ Hk Hh1) as [? Hp]. split_and!; [done|apply (kq_fed _ _ Hk)| |done].
      pose proof (kq_control _ _ Hk) as E. unfold control in E. by injection E as _ -> _ _ _.
    + apply pwp_when; intros _; pwp_steps; [|done]. split_and!; [by apply hinv_fd0|done|done|done].
  - intros [] w1 (Hh1 & Hf1 & Hc1 & Hp1). apply loop_wait_wp; [done|done|]. intros w2 Hh2 Hf2 Ht Hp2.
    split_and!; [done|by etrans|done|congruence].
  - done.
Qed.

(** *** After [poll] *)
Lemma extract_hinv w w1 :
  hinv w -> q_wait w < 0 -> (0 < nodecount (q_heap w))%nat ->
  pwp (on_heap heap_extract_min;; pskip) (fun _ w' => hinv w' /\ feeds w w' /\ q_polling w' = q_polling w) exits_2 w1 w.
Proof.
  intros [[Hd Hk Hok Ht] _ Hc] Hw Hn.
  pose proof (heap_extract_wp (q_heap w) Hok Hn) as He. apply wp_done in He as (m & h & E & Hok' & Hp & _ & _).
  apply pwp_bind. unfold pwp at 1, on_heap. rewrite E. pwp_steps. split; [|done].
  split; [split; cbn|..]; try done; cbn; [|lia]. rewrite Hp in Ht. by inversion_clear Ht.
Qed.

Lemma on_timeout_wp w F :
  hinv w -> timer_known w -> 0 <= q_wait w ->
  pwp on_timeout (fun _ w' => hinv w' /\ feeds w w' /\ q_polling w' = q_polling w) exits_2 F w.
Proof.
  intros Hh Ht Hw. destruct (Ht Hw) as [Hmin Hn]. destruct (Hh) as [[Hd Hk Hok Htm] _ Hc].
  unfold on_timeout. pwp_steps. rewrite Hmin. cbn [negb]. apply pwp_bind. unfold pwp at 1, on_heap.
  pose proof (heap_min_least _ Hok) as Hleast. unfold heap_min in Hleast.
  destruct (Nat.eqb_spec (nodecount (q_heap w)) 0); [lia|].
  destruct (nodes (q_heap w) !! 1%nat) as [m|] eqn:E1.
  2: { apply lookup_ge_None in E1. destruct Hok. lia. }
  unfold hget. rewrite E1. destruct Hleast as (_ & Hin & _).
  pose proof (proj1 (Forall_forall _ _) Htm m Hin) as Hq. cbv beta in Hq.
  assert (w <| q_heap := q_heap w |> = w) as -> by by destruct w.
  pwp_steps. set (w1 := w <| q_wait := -1 |>).
  assert (hinv w1) as Hh1 by (split; cbn; try done; lia).
  destruct (que_at (Z.to_nat (indque m)) w1) as [l Hl]; [apply Hh1|cbn; lia|].
  eapply at_que; [apply at_refl|exact Hl|].
  destruct (elem_find_spec l (u64 (hinode m))) as [[E _]|(Hge & x & Hx & Hxn)].
  - rewrite E. cbn [Z.ltb Z.compare]. by apply (extract_hinv w1).
  - destruct (Z.ltb_spec (elem_find l (u64 (hinode m))) 0); [lia|]. apply pwp_when; intros Hm; [|done].
    apply pwp_bind. eapply pwp_mono; [eapply (send_message_keeps F w1 _ _ l); [apply Hh1|lia|done|]| |done].
    + rewrite <- Hxn. apply list_elem_of_fmap. exists x. split; [done|]. by eapply list_elem_of_lookup_2.
    + intros [] w2 (Hk2 & Hheap & _). destruct (keepq_hinv _ _ Hk2 Hh1) as [Hh2 Hp2].
      pose proof (kq_control _ _ Hk2) as Ec. unfold control in Ec. injection Ec as _ _ Ew _ _.
      eapply pwp_mono; [apply (extract_hinv w2); [done|rewrite Ew; cbn; lia|by rewrite Hheap]| |done].
      intros [] w3 (? & Hf3 & Hp3). split_and!; [done|etrans; [apply (kq_fed _ _ Hk2)|done]|by rewrite Hp3, Hp2].
Qed.

Section loop.
Context {RD : Readdir} {QS : Qsort}.

(** [m] keeps the state the loop head starts from, and the signals that are
    waiting. *)
Definition steady (m : QM unit) : Prop := forall w,
  hinv w -> q_polling w = false ->
  pwp m (fun _ w' => hinv w' /\ feeds w w' /\ q_polling w' = false /\ q_sigs w' = q_sigs w) exits_2 (misfed spins w) w.

Lemma keepq_sigs w w' : keepq w w' -> q_sigs w' = q_sigs w.
Proof. intros [_ _ E _]. unfold control in E. by injection E as _ _ _ _ ->. Qed.

Lemma steady_respects {A} (m : QM A) (k : A -> QM unit) :
  respects spins m -> (forall a, steady (k a)) -> steady (m ≫= k).
Proof.
  intros Hm Hk w Hh Hp. apply keep_then; [apply Hm; apply Hh|].
  intros a w1 H1. destruct (keepq_hinv _ _ H1 Hh) as [Hh1 Hp1].
  eapply pwp_mono; [apply Hk; [done|congruence]| |done].
  intros [] w2 (? & Hf2 & ? & ->). split_and!; [done|etrans; [apply (kq_fed _ _ H1)|done]|done|]. by apply keepq_sigs.
Qed.

Lemma steady_bind (m k : QM unit) : steady m -> steady k -> steady (m;; k).
Proof.
  intros Hm Hk w Hh Hp. eapply pwp_then; [by apply Hm|by intros a w1 (_ & ? & _)|].
  intros [] w1 (? & Hf1 & ? & E). eapply pwp_mono; [by apply Hk| |done].
  intros [] w2 (? & Hf2 & ? & ->). split_and!; [done|by etrans|done|done].
Qed.

Lemma steady_skip : steady pskip.
Proof. intros w Hh Hp. pwp_steps. done. Qed.

Lemma steady_when b m : steady m -> steady (pwhen b m).
Proof. destruct b; [done|]. intros _. apply steady_skip. Qed.

Lemma steady_last m : respects spins m -> steady m.
Proof.
  intros Hm w Hh Hp. eapply pwp_mono; [apply Hm; apply Hh| |done].
  intros [] w1 H1. destruct (keepq_hinv _ _ H1 Hh) as [Hh1 Hp1].
  split_and!; [done|apply H1|congruence|by apply keepq_sigs].
Qed.

Lemma on_trigger_steady : steady on_trigger.
Proof.
  unfold on_trigger. do 3 (apply steady_respects; [apply must_succeed_respects|intros _]).
  apply steady_respects; [apply scan_drop_respects|intros _]. apply steady_skip.
Qed.

Lemma on_signal_steady fuel c : steady (on_signal fuel c).
Proof.
  unfold on_signal. destruct (c =? ch_H).
  { intros w [[] _ _] Hp. pwp_steps. split_and!; [|done|done|done]. split; cbn; try done; lia. }
  destruct (c =? ch_U); [|apply steady_skip]. apply steady_bind.
  - intros w [[] Hw _] Hp. pwp_steps. split_and!; [|done|done|done]. by split.
  - apply steady_respects; [apply scan_drop_respects|intros _].
    apply steady_respects; [apply flush_queue_respects|intros _].
    apply steady_respects; [apply respects_gets|intros pid]. apply steady_last. unfold kill.
    apply respects_modify. done.
Qed.

(** As many signals are read as were counted: the call does not block. *)
Lemma read_signals_keeps fuel n w :
  hinv w -> q_polling w = false -> (n <= length (q_sigs w))%nat ->
  pwp (read_signals fuel n) (fun _ w' => hinv w' /\ feeds w w' /\ q_polling w' = false) exits_2 (misfed spins w) w.
Proof.
  revert w. induction n as [|n IH]; intros w Hh Hp Hn; cbn [read_signals]; [by pwp_steps|].
  apply keep_then; [apply must_succeed_respects; apply Hh|].
  intros [] w1 H1. destruct (keepq_hinv _ _ H1 Hh) as [Hh1 Hp1]. pwp_steps.
  rewrite (keepq_sigs _ _ H1). destruct (q_sigs w) as [|c s] eqn:E; cbn [length] in Hn; [lia|].
  apply pwp_bind, pwp_modify. change (misfed spins w1) with (misfed spins (w1 <| q_sigs := s |>)). eapply pwp_then.
  { apply (on_signal_steady fuel c (w1 <| q_sigs := s |>)); [destruct Hh1 as [[] ? ?]; by split|cbn; congruence]. }
  { by intros a w2 (_ & ? & _). }
  intros [] w2 (Hh2 & Hf2 & Hp2 & Es). eapply pwp_mono; [apply IH; [done|done|]| |done].
  - rewrite Es. cbn. lia.
  - intros [] w3 (? & Hf3 & ?). split_and!; [done| |done]. etrans; [apply (kq_fed _ _ H1)|]. by etrans.
Qed.

Lemma on_ready_keeps fuel t r s w :
  hinv w -> q_polling w = false ->
  pwp (on_ready fuel t r s) (fun _ w' => hinv w' /\ feeds w w' /\ q_polling w' = false) exits_2 (misfed spins w) w.
Proof.
  intros Hh Hp. unfold on_ready.
  eapply pwp_then; [by apply (steady_when t), Hp; [apply on_trigger_steady|]|by intros a w1 (_ & ? & _)|].
  intros [] w1 (Hh1 & Hf1 & Hp1 & _).
  eapply pwp_then; [apply steady_when; [|exact Hh1|exact Hp1]|by intros a w2 (_ & ? & _)|].
  - apply steady_respects; [apply respects_gets|intros v].
    apply steady_respects; [apply read_responses_respects|intros p]. apply steady_last, respects_modify. done.
  - intros [] w2 (Hh2 & Hf2 & Hp2 & _). assert (feeds w w2) as Hf by by etrans.
    apply pwp_when; intros _; [|done]. apply keep_then; [apply must_succeed_respects; apply Hh2|]. intros [] w3 H3.
    destruct (keepq_hinv _ _ H3 Hh2) as [Hh3 Hp3]. pwp_steps.
    eapply pwp_mono; [apply read_signals_keeps; [done|congruence|done]| |done].
    intros [] w4 (? & Hf4 & ?). split_and!; [done| |done]. etrans; [exact Hf|]. etrans; [apply (kq_fed _ _ H3)|done].
Qed.

Lemma main_step_ok fuel p w :
  minv w -> pwp (main_step fuel p) (fun _ w' => minv w' /\ feeds w w') exits_2 (misfed spins w) w.
Proof.
  intros [Hh Hpoll]. unfold main_step. apply pwp_bind, pwp_gets. cbn [q_polling].
  eapply (pwp_then _ _ _ (fun _ w' => hinv w' /\ feeds w w' /\ timer_known w')); [|by intros a w1 (_ & ? & _)|].
  - apply pwp_when; intros Hp; bool_hyps; [|split_and!; [done|done|by apply Hpoll]].
    eapply pwp_mono; [by apply loop_head_wp| |done]. by intros [] w1 (? & ? & ? & _).
  - intros [] w1 (Hh1 & Hf1 & Ht1). pwp_steps. cbn. destruct p as [| | |t r s].
    + by pwp_steps.
    + pwp_steps. split; [|done]. split; [destruct Hh1 as [[] ? ?]; by split|]. intros _. exact Ht1.
    + destruct (Z.ltb_spec (q_wait w1) 0) as [Hneg|Hpos].
      * pwp_steps. split; [|done]. split; [destruct Hh1 as [[] ? ?]; by split|]. intros _. exact Ht1.
      * apply pwp_bind, pwp_modify.
        eapply pwp_mono; [apply (on_timeout_wp (w1 <| q_polling := false |>)); [destruct Hh1 as [[] ? ?]; by split|exact Ht1|done]| |done].
        intros [] w2 (Hh2 & Hf2 & Hp2). split; [|etrans; [exact Hf1|exact Hf2]]. split; [done|]. intros E. by rewrite Hp2 in E.
    + apply pwp_bind, pwp_modify. change (misfed spins w1) with (misfed spins (w1 <| q_polling := false |>)).
      eapply pwp_mono; [apply (on_ready_keeps fuel _ _ _ (w1 <| q_polling := false |>)); [destruct Hh1 as [[] ? ?]; by split|done]| |done].
      intros [] w2 (Hh2 & Hf2 & Hp2). split; [|etrans; [exact Hf1|exact Hf2]]. split; [done|]. intros E. by rewrite Hp2 in E.
Qed.

(** C11: Safety of the main loop: from a state of the invariant [minv] (queues,
    files, send counters and timers agree, and a timeout can only be reported
    when the least timer is known), whatever [poll] reports and whatever the
    sender has written, one pass of the loop returns with the invariant kept,
    or exits with status 2, or does not finish ([OutOfFuel]): [flush_queue]
    waits for answers without blocking, and the loop that reads responses meets
    the same text again and again if it is not one.  Only
    if the sender does not keep to the response format ([well_fed]: a number,
    a code and a description of less than 255 characters) may the pass use a
    variable that no conversion has assigned or overrun the buffer of the
    description.  It never follows a null or stale timer, and a sender that
    keeps to the format before the pass does so after it. *)
Theorem main_step_safe fuel p w :
  minv w ->
  pwp (main_step fuel p) (fun _ w' => minv w' /\ (well_fed w -> well_fed w')) exits_2
    (fun f => f = OutOfFuel \/ ((f = Uninitialised \/ f = OutOfBounds) /\ ~ well_fed w)) w.
Proof.
  intros Hm. eapply pwp_faults; [by apply main_step_ok|].
  intros f [?|[[?|[?|?]] ?]]; auto.
Qed.
End loop.
