(* ===== verification/QueClaims.v ===== *)
(** * The queue manager: properties

    What a response does to a message, that no message is lost on the way,
    and the defects of timers and shutdown. *)

From S2P Require Import Prelude Heap Posix Utils QueControl Quemngr QueProps QueSend QueMain.

#[local] Open Scope Z_scope.

(** C10: No message is lost: processing a response keeps the agreement of
    queues, counters, files and timers, and whatever the response and
    whichever system call fails, every message that had a file still has one,
    except the one the sender has reported as delivered (code 0).  A failing
    call ends the process with status 2. *)
Theorem check_response_safe n r w :
  qinv w ->
  pwp (check_response n r)
    (fun k w' => qinv w' /\
       keeps_stored (os_ents (q_os w)) (os_ents (q_os w')) (fun i => r = 0 /\ i = n /\ k = 1))
    (fun c w' => c = 2 /\ survives w w' (fun i => r = 0 /\ i = n)) no_fault w.
Proof.
  intros Hi. eapply pwp_mono; [by apply check_response_inv| |done].
  by intros k w' (? & _ & _ & _ & ?).
Qed.

(** The message is in queue [q], with its file there. *)
Definition queued_in (q : nat) (n : ino) (w : qm) : Prop :=
  exists l, q_list w !! q = Some l /\ n ∈ inodes l /\ os_ents (q_os w) !! msg_path (l_dir l) n = Some n.

Lemma qinv_queued q n l w :
  qinv w -> (1 <= q)%nat -> q_list w !! q = Some l -> n ∈ inodes l -> queued_in q n w.
Proof. intros [_ Hk _ _] Hq Hl Hn. exists l. split_and!; [done|done|]. by eapply qi_files. Qed.

Lemma answered_not_act w w' cq x r la :
  qinv w -> q_list w !! ACT = Some la -> x ∈ msgs la -> r <> 1 ->
  q_list w' = answered cq x r (q_list w) ->
  forall la', q_list w' !! ACT = Some la' -> m_inode x ∉ inodes la'.
Proof.
  intros [Hd Hk _ _] Hla Hx Hr E la' Hla'. destruct (qi_act _ _ _ Hk la x Hla Hx) as (Hq & _).
  assert (gone (m_state x) (m_inode x) (q_list w) !! ACT = Some la') as Hg.
  { rewrite E in Hla'. unfold answered in Hla'. replace (r =? 1) with false in Hla' by lia.
    destruct (r =? 0); [done|]. destruct (_ =? _)%nat; [done|].
    unfold added in Hla'. rewrite list_lookup_alter_ne in Hla' by (unfold ACT; lia). done. }
  destruct (gone_view _ _ _ _ _ _ _ Hk Hq Hg) as (l0 & Hl0 & _ & _ & _ & Em & _).
  unfold inodes. rewrite Em, decide_True by auto. intros [_ ?]%without_inodes. done.
Qed.

(** C17: A message the sender could not deliver moves on: with any code other
    than 0 and 1 it leaves [act] and, unless it was in the last queue, it is
    in the next one, file included, with a timer that expires that queue's
    delay after the time the clock shows; from the last queue it goes to
    [fail], without a timer.  A failing call ends the process with status 2. *)
Theorem check_response_defers n r w x la :
  qinv w -> q_list w !! ACT = Some la -> x ∈ msgs la -> m_inode x = n -> r <> 0 -> r <> 1 ->
  pwp (check_response n r)
    (fun k w' => k = 0 /\ (forall la', q_list w' !! ACT = Some la' -> n ∉ inodes la') /\
       if (m_state x =? q_countq w)%nat
       then os_ents (q_os w') !! msg_path fail_dir n = Some n /\ q_heap w' = q_heap w
       else queued_in (m_state x + 1) n w' /\
            exists l', q_list w !! (m_state x + 1)%nat = Some l' /\
              heap_elems (q_heap w') ≡ₚ
                Build_heapnode (Build_timeval (ts_sec (clock_now (q_os w)) + l_timeout l')
                                              (ts_nsec (clock_now (q_os w)) / 1000))
                  (Z.of_nat (m_state x + 1)) (i32 n) :: heap_elems (q_heap w))
    (fun c w' => c = 2) no_fault w.
Proof.
  intros Hi Hla Hx Hn Hr0 Hr1. destruct (Hi) as [Hd Hk _ _].
  assert (forall x', x' ∈ msgs la -> m_inode x' = n -> x' = x) as Huniq.
  { intros x' Hx' E. pose proof (Forall_lookup_1 _ _ _ _ (qi_nodup _ _ _ Hk) Hla) as Hnd. cbv beta in Hnd.
    apply list_elem_of_lookup in Hx as [i Hix], Hx' as [j Hjx]. unfold inodes in Hnd.
    assert (i = j) as ->; [|congruence]. eapply NoDup_lookup; [exact Hnd| |];
      rewrite list_lookup_fmap; [by rewrite Hix|]. rewrite Hjx. cbn. congruence. }
  apply check_response_wp; [done|..|done].
  - intros la' Hla' Hno. simplify_eq. destruct Hno. apply list_elem_of_fmap. by exists x.
  - intros la' x' w' Hla' Hx' Hn' Hlast Hat. simplify_eq. rewrite (Huniq x' Hx' Hn') in *.
    destruct Hlast as [|[|Hlast]]; [done|done|]. rewrite Hlast, Nat.eqb_refl.
    replace (r =? 0) with false by lia. split_and!; [done| | |apply Hat].
    + eapply answered_not_act; [exact Hi|exact Hla|exact Hx|done|apply Hat].
    + rewrite (at_ents _ _ _ _ Hat). unfold refiled. rewrite Hlast, Nat.eqb_refl.
      replace (r =? 0) with false by lia. replace (r =? 1) with false by lia. apply lookup_insert_eq.
  - intros la' x' l' w' Hla' Hx' Hn' _ _ Hnl Hl' Ht. simplify_eq. rewrite (Huniq x' Hx' Hn') in *.
    replace (m_state x =? q_countq w)%nat with false by (symmetry; by apply Nat.eqb_neq).
    destruct (answered_ok _ _ _ la x r Hd Hk Hla Hx) as [Hd' Hk'].
    destruct (qi_act _ _ _ Hk la x Hla Hx) as (Hq & _).
    split_and!; [done| | |].
    + eapply answered_not_act; [exact Hi|exact Hla|exact Hx|done|apply Ht].
    + assert (q_list w' !! (m_state x + 1)%nat = Some (elem_add l' (elem_new (m_inode x) timeval_none (m_state x + 1))).1) as Hq'.
      { rewrite (td_list _ _ _ _ _ Ht). unfold answered.
        replace (r =? 0) with false by lia. replace (r =? 1) with false by lia.
        replace (m_state x =? q_countq w)%nat with false by (symmetry; by apply Nat.eqb_neq).
        unfold added. apply (alter_look (fun l => (elem_add l _).1)).
        unfold gone. rewrite !list_lookup_alter_ne by (unfold ACT; lia). done. }
      pose proof (Forall_lookup_1 _ _ _ _ (qi_ok _ _ _ Hk) Hl') as Hok.
      destruct (elem_add_ok l' (elem_new (m_inode x) timeval_none (m_state x + 1)) Hok) as (_ & Em & _).
      eexists. split_and!; [exact Hq'| |].
      * unfold inodes. rewrite Em, map_app. apply elem_of_app. right. by apply list_elem_of_singleton.
      * rewrite (td_ents _ _ _ _ _ Ht). rewrite (td_list _ _ _ _ _ Ht) in Hq'.
        eapply (qi_files _ _ _ Hk' (m_state x + 1)%nat); [lia|exact Hq'|].
        unfold inodes. rewrite Em, map_app. apply elem_of_app. right. by apply list_elem_of_singleton.
    + exists l'. split; [done|]. apply Ht.
Qed.

(** ** Timers and large inode numbers *)
Lemma truncated_differs n : 2147483648 <= n < 9223372036854775808 -> u64 (i32 n) <> n.
Proof.
  intros Hn. unfold u64, i32. set (a := (n + 2147483648) mod 4294967296).
  pose proof (Z.mod_pos_bound (n + 2147483648) 4294967296 ltac:(lia)) as Ha. fold a in Ha.
  destruct (Z.le_gt_cases 0 (a - 2147483648)) as [H|H].
  - rewrite Z.mod_small by lia. lia.
  - replace ((a - 2147483648) mod 18446744073709551616) with (a - 2147483648 + 18446744073709551616).
    + lia.
    + symmetry. rewrite <- (Z.mod_add _ 1) by lia. apply Z.mod_small. lia.
Qed.

(** The timer of a message whose inode number does not fit an [int]
    never sends it: when the timer expires the truncated number is looked up,
    not found, and the timer is thrown away, leaving the message in its queue
    without one. *)
Theorem large_inode_timer_dropped n m l w :
  hinv w -> timer_known w -> 0 <= q_wait w ->
  heap_min (q_heap w) = Some m -> hinode m = i32 n -> 2147483648 <= n < 9223372036854775808 ->
  q_list w !! Z.to_nat (indque m) = Some l -> inodes l = [n] ->
  exists w', on_timeout w = (Done tt, w') /\ q_sent w' = q_sent w /\ q_list w' = q_list w /\
    heap_elems (q_heap w) ≡ₚ m :: heap_elems (q_heap w').
Proof.
  intros Hh Ht Hw Hm Hn Hr Hl Hin. destruct (Ht Hw) as [Hmin Hc]. pose proof (qv_heap _ (hv_q _ Hh)) as Hok.
  pose proof (heap_min_least _ Hok) as Hleast. rewrite Hm in Hleast. destruct Hleast as (Em & _).
  unfold heap_min in Hm. replace (nodecount (q_heap w) =? 0)%nat with false in Hm by (symmetry; apply Nat.eqb_neq; lia).
  pose proof (heap_extract_wp (q_heap w) Hok Hc) as Hx.
  apply wp_done in Hx as (m' & h & E & _ & Hp & _ & Em').
  unfold on_timeout, mbind, pr_bind, pgets. rewrite Hmin. cbn [negb]. unfold on_heap, hget. rewrite Hm.
  unfold pmodify, que. cbn -[Z.to_nat elem_find heap_extract_min]. rewrite Hl.
  assert (elem_find l (u64 (hinode m)) = -1) as ->.
  { destruct (elem_find_spec l (u64 (hinode m))) as [[? _]|(_ & x & Hx & Hxn)]; [done|].
    exfalso. apply (truncated_differs n Hr). rewrite <- Hn, <- Hxn.
    apply list_elem_of_singleton. rewrite <- Hin. apply list_elem_of_fmap. exists x. split; [done|].
    by eapply list_elem_of_lookup_2. }
  cbn -[heap_extract_min]. rewrite E. eexists. split; [reflexivity|]. cbn. split_and!; [done|done|].
  rewrite Hp, Em', Em. done.
Qed.

(** ** Shutdown *)

(** The handler of SIGTERM starts at index [total] of the array of
    messages in [act], one past the last: once a message has ever been sent,
    it reads outside the array's contents. *)
Theorem sig_term_reads_past_end w la :
  q_list w !! ACT = Some la -> ml_ok la -> 0 <= l_total la ->
  sig_term w = (Faulted OutOfBounds, w).
Proof.
  intros Hla Hok Ht. pose proof (total_msgs la Hok) as Hlen.
  unfold sig_term, mbind, pr_bind, que. rewrite Hla. replace (0 <=? l_total la) with true by lia. cbn [pwhen].
  assert (msgs la !! Z.to_nat (l_total la) = None) as E by (apply lookup_ge_None; lia).
  destruct (Z.to_nat (l_total la)); unfold unlink_act, mbind, pr_bind, que; by rewrite Hla, E.
Qed.
