(* ===== verification/Spool.v ===== *)
(** * A sample spool

    A queue manager with one message at the sender, one deferred message with
    its timer and, in [drop], one new message and the temporary file of one
    being written: a state on which the theorems about
    the queue manager apply, and the start-up of an empty spool under two
    sorting functions. *)

From S2P Require Import Prelude Heap Posix Utils QueControl Quemngr QueProps QueSend QueMain QueClaims.

#[local] Open Scope Z_scope.

Definition df1 : string := "./df/00h01m00s".
Definition big : ino := 2147483653.

Definition spool_ents : gmap path ino :=
  <[("./in/", "5")%string := 5]> (<[("./act/", "5")%string := 5]>
    (<[("./drop/", "9")%string := 9]> (<[("./drop/", "dropmsg.Xa81bC")%string := 14]>
      (<[(df1, "2147483653"%string) := big]> ∅)))).

Definition spool_os : os :=
  Build_os {[act_dir; in_dir_name; drop_dir; fail_dir; df_dir; df1]} spool_ents ∅ [Build_timespec 1000 2500] [].

Definition big_timer : heapnode := Build_heapnode (Build_timeval 60 0) 2 (i32 big).

Definition spool_list : list msglist :=
  [Build_msglist (Some [Build_msg 5 timeval_none 1]) 4 1 0 0 act_dir 0;
   Build_msglist (Some [Build_msg 5 (Build_timeval 1 0) 1]) 4 1 0 1 in_dir_name 0;
   Build_msglist (Some [Build_msg big timeval_none 2]) 4 1 0 0 df1 60].

Definition spool : qm :=
  Build_qm spool_os spool_list 3 2
    (Build_heap 16 1 (heapnode_zero :: big_timer :: replicate 15 heapnode_zero))
    [5] [] [] [] 77 [] true 0 true false true true (None, None).

Ltac map_entry H :=
  repeat (apply lookup_insert_Some in H as [[? ?]|[_ H]]; [simplify_eq|]);
  try (by rewrite lookup_empty in H).
Ltac spool_entry H := unfold spool_ents in H; map_entry H.

Lemma spool_disk : disk_ok spool_ents.
Proof.
  split.
  - intros d nm i Hd Hd' H. spool_entry H; done || by vm_compute.
  - intros nm i H E. spool_entry H; vm_compute in E |- *; done.
  - intros p p' i H H' Ha Ha'. spool_entry H; spool_entry H'; try done.
  - intros p i H. spool_entry H; by vm_compute.
Qed.

(** Queue [q] of the sample. *)
Ltac spool_queue H :=
  match type of H with spool_list !! ?q = Some _ =>
    destruct q as [|[|[|q]]]; cbn in H; [injection H as <-..|done]
  end.

Lemma spool_queues : queues_ok 2 spool_list spool_ents.
Proof.
  split.
  - done.
  - lia.
  - repeat (apply Forall_cons; split; [by split_and!|]). constructor.
  - repeat (apply Forall_cons; split; [by apply (bool_decide_unpack _)|]). constructor.
  - intros la H. by injection H as <-.
  - by apply (bool_decide_unpack _).
  - by apply (bool_decide_unpack _).
  - intros la x H Hx. injection H as <-. apply list_elem_of_singleton in Hx as ->.
    split; [done|]. eexists. split; [reflexivity|]. by apply (bool_decide_unpack _).
  - intros la q l H Hq Hl. injection H as <-. spool_queue Hl; done || lia.
  - intros q l n Hq Hl Hn. spool_queue Hl; [lia|..]; apply list_elem_of_singleton in Hn as ->; by vm_compute.
  - intros la n H Hn. injection H as <-. apply list_elem_of_singleton in Hn as ->. by eexists.
Qed.

Lemma spool_qinv : qinv spool.
Proof.
  split; [apply spool_disk|apply spool_queues| |].
  - split; cbn; [lia..|]. intros j Hj. lia.
  - repeat constructor; cbn; lia.
Qed.

Lemma spool_hinv : hinv spool.
Proof. split; [apply spool_qinv|cbn; lia|done]. Qed.

Lemma spool_timer : timer_known spool.
Proof. intros _. split; [done|cbn; lia]. Qed.

(** Directories listed in the order of the map. *)
Definition plain_readdir : Readdir := {| listing l := l; listing_perm l := reflexivity l |}.

Lemma check_response_safe_witness :
  pwp (check_response 5 2)
    (fun k w' => qinv w' /\
       keeps_stored (os_ents (q_os spool)) (os_ents (q_os w')) (fun i => 2 = 0 /\ i = 5 /\ k = 1))
    (fun c w' => c = 2 /\ survives spool w' (fun i => 2 = 0 /\ i = 5))
    no_fault spool.
Proof. exact (check_response_safe 5 2 spool spool_qinv). Defined.

Definition spool_act : msglist := Build_msglist (Some [Build_msg 5 timeval_none 1]) 4 1 0 0 act_dir 0.

Lemma check_response_defers_witness :
  pwp (check_response 5 2)
    (fun k w' => k = 0 /\ (forall la', q_list w' !! ACT = Some la' -> 5 ∉ inodes la') /\
       (queued_in 2 5 w' /\
        exists l', q_list spool !! 2%nat = Some l' /\
          heap_elems (q_heap w') ≡ₚ
            Build_heapnode (Build_timeval (1000 + l_timeout l') 2) 2 (i32 5)
              :: heap_elems (q_heap spool)))
    (fun c w' => c = 2) no_fault spool.
Proof.
  refine (check_response_defers 5 2 spool (Build_msg 5 timeval_none 1) spool_act spool_qinv eq_refl _ eq_refl _ _);
    [apply list_elem_of_singleton; reflexivity|discriminate|discriminate].
Defined.

Lemma stale_act_link_exits_witness :
  is_Some (os_ents (q_os spool) !! msg_path act_dir 5) /\
  exists w', send_message 1 5 spool = (Exited 2, w').
Proof.
  assert (is_Some (os_ents (q_os spool) !! msg_path act_dir 5)) as H by (by eexists).
  split; [exact H|]. refine (stale_act_link_exits spool 1 5 _ spool_qinv _ eq_refl _ H); [lia|].
  apply list_elem_of_singleton. reflexivity.
Defined.

Lemma scan_drop_takes_witness :
  pwp (@scan_drop plain_readdir merge_Qsort)
    (fun _ w' => qinv w' /\
       keeps_stored (os_ents (q_os spool)) (os_ents (q_os w')) (fun _ => False) /\
       exists l l', q_list spool !! IN = Some l /\ q_list w' !! IN = Some l' /\
         forall nm i, os_ents (q_os spool) !! (drop_dir, nm) = Some i ->
           if strtoul (codes nm) =? i
           then os_ents (q_os w') !! (l_dir l, nm) = Some i /\ i ∈ inodes l'
           else os_ents (q_os w') !! (drop_dir, nm) = Some i)
    (fun c w' => c = 2 /\ survives spool w' (fun _ => False))
    no_fault spool /\
  os_ents (q_os spool) !! (drop_dir, "9"%string) = Some 9 /\ strtoul (codes "9") = 9 /\
  os_ents (q_os spool) !! (drop_dir, "dropmsg.Xa81bC"%string) = Some 14 /\ strtoul (codes "dropmsg.Xa81bC") <> 14.
Proof.
  split; [exact (@scan_drop_takes plain_readdir merge_Qsort spool spool_qinv)|].
  split; [reflexivity|]. split; [reflexivity|]. split; [reflexivity|discriminate].
Defined.

Lemma flush_spins_without_answer_witness :
  exists w', flush_one 1000 1 (None, None) 0 spool = (Faulted OutOfFuel, w').
Proof. refine (flush_spins_without_answer 1000 1 (None, None) 0 spool _ eq_refl _ _ eq_refl eq_refl); cbn; lia. Defined.

Lemma main_step_safe_witness :
  minv spool /\
  pwp (@main_step plain_readdir merge_Qsort 10 (PollReady true true true))
    (fun _ w' => minv w' /\ (well_fed spool -> well_fed w')) exits_2
    (fun f => f = OutOfFuel \/ ((f = Uninitialised \/ f = OutOfBounds) /\ ~ well_fed spool)) spool.
Proof.
  assert (minv spool) as H by (split; [apply spool_hinv|intros _; apply spool_timer]).
  split; [exact H|]. exact (@main_step_safe plain_readdir merge_Qsort 10 (PollReady true true true) spool H).
Defined.

Lemma large_inode_timer_dropped_witness :
  exists w', on_timeout spool = (Done tt, w') /\ q_sent w' = q_sent spool /\ q_list w' = q_list spool /\
    heap_elems (q_heap spool) ≡ₚ big_timer :: heap_elems (q_heap w').
Proof.
  refine (large_inode_timer_dropped big big_timer _ spool spool_hinv spool_timer _ eq_refl eq_refl _ eq_refl eq_refl);
    [cbn; lia|unfold big; lia].
Defined.

Lemma sig_term_reads_past_end_witness : sig_term spool = (Faulted OutOfBounds, spool).
Proof. refine (sig_term_reads_past_end spool spool_act eq_refl _ _); [by split_and!|cbn; lia]. Defined.

(** ** Start-up *)
Definition empty_spool : qm :=
  Build_qm (Build_os {[act_dir; in_dir_name; drop_dir; fail_dir; df_dir]} ∅ ∅ [] []) [] 0 0
    (heap_create 1) [] [] [] [] 0 [] false 0 false false false false (None, None).

(** The directories of the queues after [initqueue]. *)
Definition init_dirs (QS : Qsort) : option (list string) :=
  match @initqueue plain_readdir QS empty_spool with
  | (Done _, w) => Some (map l_dir (q_list w))
  | _ => None
  end.

(** Start-up relies on what [qsort] does not promise: the queues [act] and
    [in] compare equal, and sorting functions that meet the specification of
    [qsort] disagree on which of them becomes queue 0, which the rest of the
    program takes to be [act]. *)
Theorem init_depends_on_qsort :
  init_dirs merge_Qsort = Some [act_dir; in_dir_name] /\
  init_dirs reversing_Qsort = Some [in_dir_name; act_dir].
Proof. by vm_compute. Qed.
