(* ===== verification/Init.v ===== *)
(** * The queue manager: start-up

    [initqueue] finds the deferred queues, orders the queues by delay, reads
    back the messages every queue directory holds and takes what is in
    [drop]: the state it leaves is the one the main loop relies on, and no
    message that was on disk is forgotten. *)

From S2P Require Import Prelude Heap Posix Utils QueControl Quemngr QueProps QueSend QueMain Spool.
From stdpp Require Import sorting.

#[local] Open Scope Z_scope.

(** ** Finding the queues *)
Section starting.
Context {RD : Readdir} {QS : Qsort}.

(** What outlives the process, and the messages it has handed over. *)
Definition disk_view (w : qm) := (os_ents (q_os w), q_sent w).

Definition inputs (w : qm) := (q_sent w, q_in w, q_feed w, q_sigs w).

(** [w] is [w0] with the queues [ql] set up. *)
Record set_up (w0 : qm) (ql : list msglist) (w : qm) : Prop := {
  su_list : q_list w = ql;
  su_count : q_count w = Z.of_nat (length ql);
  su_countq : q_countq w = pred (length ql);
  su_heap : q_heap w = q_heap w0;
  su_os : same_os (q_os w0) (q_os w);
  su_inputs : inputs w = inputs w0;
}.

Lemma queue_add_wp w0 ql w (Q : nat -> qm -> Prop) R F :
  set_up w0 ql w -> Z.of_nat (length ql) < 32767 ->
  (forall w', set_up w0 (ql ++ [msglist_zero]) w' -> Q (length ql) w') ->
  pwp queue_add_q Q R F w.
Proof.
  intros [El Ec _ Hh Ho Hi] Hlt HQ. unfold pwp, queue_add_q, queue_add. rewrite El, Ec.
  assert (i16 (Z.of_nat (length ql) + 1) = Z.of_nat (length (ql ++ [msglist_zero]))) as E.
  { rewrite length_app. cbn. rewrite i16_small by lia. lia. }
  destruct ql as [|x ql].
  - apply HQ. by split.
  - rewrite E. replace (0 <? _) with true by (symmetry; apply Z.ltb_lt; cbn; lia).
    assert (Z.to_nat (Z.of_nat (length ((x :: ql) ++ [msglist_zero])) - 1) = length (x :: ql)) as Er
      by (rewrite length_app; cbn; lia).
    cbn [fst snd]. rewrite Er. apply HQ. split; cbn; try done. rewrite length_app. cbn. lia.
Qed.

Lemma set_up_que_set w0 ql x t f w (Q : unit -> qm -> Prop) R F :
  set_up w0 (ql ++ x :: t) w -> (forall w', set_up w0 (ql ++ f x :: t) w' -> Q tt w') ->
  pwp (que_set (length ql) f) Q R F w.
Proof.
  intros [El Ec Eq Hh Ho Hi] HQ. unfold pwp, que_set. rewrite El, list_lookup_middle by done.
  apply HQ. split; cbn; try done.
  - by rewrite insert_app_r_alt, Nat.sub_diag by lia.
  - by rewrite Ec, !length_app.
  - by rewrite Eq, !length_app.
Qed.

Lemma set_up_que w0 ql x t w (Q : msglist -> qm -> Prop) R F :
  set_up w0 (ql ++ x :: t) w -> Q x w -> pwp (que (length ql)) Q R F w.
Proof. intros Hw HQ. unfold pwp, que. by rewrite (su_list _ _ _ Hw), list_lookup_middle. Qed.

Lemma set_up_os w0 ql w o : set_up w0 ql w -> same_os (q_os w) o -> set_up w0 ql (w <| q_os := o |>).
Proof. intros [] Ho. split; try done. by etrans. Qed.

(** The queue of a directory of [df]. *)
Definition deferred (name : string) : msglist :=
  msglist_zero <| l_dir := String.append df_dir name |> <| l_timeout := calctimeout (codes name) |>.

Definition defers (dirs : gset string) (name : string) : Prop :=
  is_dot name = false /\ String.append df_dir name ∈ dirs /\ 0 < calctimeout (codes name).

#[export] Instance defers_dec dirs name : Decision (defers dirs name).
Proof. unfold defers. apply _. Defined.

Definition deferred_queues (dirs : gset string) (es : list (string * ino)) : list msglist :=
  map deferred (filter (defers dirs) es.*1).

Lemma df_entries_wp w0 es ql w F :
  set_up w0 ql w -> Z.of_nat (length ql + length es) <= 32767 ->
  pwp (df_entries es) (fun _ w' => set_up w0 (ql ++ deferred_queues (os_dirs (q_os w0)) es) w')
    (fun c w' => c = 2 /\ same_os (q_os w0) (q_os w')) F w.
Proof.
  revert ql w. induction es as [|[nm i] es IH]; intros ql w Hw Hlen; cbn [df_entries].
  { pwp_steps. unfold deferred_queues. by rewrite app_nil_r. }
  fold (is_dot nm). cbn [length] in Hlen.
  unfold deferred_queues. cbn [fmap list_fmap fst]. rewrite filter_cons. fold (deferred_queues (os_dirs (q_os w0)) es).
  destruct (is_dot nm) eqn:Hdot.
  { rewrite decide_False by (intros [E _]; congruence). apply IH; [done|lia]. }
  apply pwp_bind, pwp_lift, stat_wp.
  2: { intros o' Ho. cbn. pwp_steps. split; [done|]. cbn. etrans; [apply Hw|exact Ho]. }
  intros o' j ts Ho _. cbv beta. set (w1 := w <| q_os := o' |>).
  assert (set_up w0 ql w1) as Hw1 by (by apply set_up_os).
  assert (os_dirs (q_os w1) = os_dirs (q_os w0)) as Hdirs by apply Hw1.
  pwp_steps. rewrite Hdirs.
  destruct (decide (defers _ _)) as [(_ & Hd & Ht)|Hn].
  - rewrite bool_decide_true by done. rewrite (proj2 (Z.ltb_lt _ _) Ht). cbn [andb pwhen]. apply pwp_bind.
    eapply queue_add_wp; [done|lia|]. intros w2 Hw2. eapply set_up_que_set; [done|]. intros w3 Hw3.
    eapply pwp_mono; [apply (IH _ w3 Hw3); rewrite length_app; cbn; lia| |done].
    intros [] w4. by rewrite <- app_assoc.
  - replace (_ && _) with false; [by apply IH; [|lia]|]. symmetry. apply andb_false_iff.
    unfold defers in Hn. destruct (Z.ltb_spec 0 (calctimeout (codes nm))); [left|by right].
    apply bool_decide_false. tauto.
Qed.

(** ** Ordering the queues *)
Definition act_queue : msglist := msglist_zero <| l_dir := act_dir |> <| l_timeout := 0 |> <| l_total := -1 |>.
Definition in_queue : msglist := msglist_zero <| l_dir := in_dir_name |> <| l_timeout := 0 |>.

Lemma deferred_timeouts dirs es : Forall (fun l => 0 < l_timeout l) (deferred_queues dirs es).
Proof.
  apply Forall_forall. intros l (nm & -> & Hin)%list_elem_of_fmap.
  by apply list_elem_of_filter in Hin as [(_ & _ & ?) _].
Qed.

Lemma qsort_timeouts l : StronglySorted (fun a b => l_timeout a <= l_timeout b) (qsort queue_comp l).
Proof.
  pose proof (qsort_sorted _ queue_comp l queue_comp_comparison) as Hs. revert Hs. generalize (qsort queue_comp l).
  clear. intros s. induction 1 as [|x t Ht IH Hx]; constructor; [done|]. eapply Forall_impl; [exact Hx|].
  intros y. unfold queue_comp. rewrite sign_of_le. lia.
Qed.

Lemma sorted_timeouts ql ql' :
  map l_timeout ql' = map l_timeout ql ->
  StronglySorted (fun a b => l_timeout a <= l_timeout b) ql -> StronglySorted Z.le (map l_timeout ql').
Proof.
  intros ->. induction 1 as [|x t Ht IH Hx]; cbn; constructor; [done|]. by apply Forall_map.
Qed.

(** [act] and [in] have the same delay, and [initqueue] takes them to be the
    first two queues after sorting.  [qsort] leaves open which of two elements
    that compare equal comes first: it is one of these two. *)
Lemma first_queue ds :
  Forall (fun l => 0 < l_timeout l) ds ->
  head (qsort queue_comp (act_queue :: in_queue :: ds)) = Some act_queue \/
  head (qsort queue_comp (act_queue :: in_queue :: ds)) = Some in_queue.
Proof.
  intros Hds. pose proof (qsort_timeouts (act_queue :: in_queue :: ds)) as Hs.
  pose proof (qsort_perm _ queue_comp (act_queue :: in_queue :: ds)) as Hp.
  destruct (qsort _ _) as [|y t]; [by apply Permutation_nil_cons in Hp|]. cbn [head].
  assert (y ∈ act_queue :: in_queue :: ds) as Hy by (rewrite <- Hp; by left).
  apply elem_of_cons in Hy as [->|Hy]; [by left|]. apply elem_of_cons in Hy as [->|Hy]; [by right|].
  assert (l_timeout y <= l_timeout act_queue); [|eapply Forall_forall in Hds; [|exact Hy]; cbn in *; lia].
  assert (act_queue ∈ y :: t) as Ha by (rewrite Hp; by left).
  apply StronglySorted_inv in Hs as [_ Hs]. apply elem_of_cons in Ha as [<-|Ha]; [done|]. by eapply Forall_forall in Hs.
Qed.

(** With [act] first, [in] is second. *)
Lemma sort_queues ds :
  Forall (fun l => 0 < l_timeout l) ds -> head (qsort queue_comp (act_queue :: in_queue :: ds)) = Some act_queue ->
  exists ds', qsort queue_comp (act_queue :: in_queue :: ds) = act_queue :: in_queue :: ds' /\ ds' ≡ₚ ds.
Proof.
  intros Hds Hh. pose proof (qsort_timeouts (act_queue :: in_queue :: ds)) as Hs.
  pose proof (qsort_perm _ queue_comp (act_queue :: in_queue :: ds)) as Hp.
  destruct (qsort _ _) as [|x t]; [done|]. injection Hh as ->.
  apply (inj (cons act_queue)) in Hp. apply StronglySorted_inv in Hs as [Hs _].
  destruct t as [|y t]; [by apply Permutation_nil_cons in Hp|].
  assert (y = in_queue) as ->.
  { assert (y ∈ in_queue :: ds) as [->|Hy]%elem_of_cons by (rewrite <- Hp; by left); [done|].
    assert (l_timeout y <= l_timeout in_queue); [|eapply Forall_forall in Hds; [|exact Hy]; cbn in *; lia].
    assert (in_queue ∈ y :: t) as Ha by (rewrite Hp; by left).
    apply StronglySorted_inv in Hs as [_ Hs]. apply elem_of_cons in Ha as [<-|Ha]; [done|]. by eapply Forall_forall in Hs. }
  exists t. split; [done|]. by apply (inj (cons in_queue)).
Qed.

(** The queues start-up finds on files [o], and that its sorting function puts
    [act] before [in]. *)
Definition found_queues (o : os) : list msglist :=
  act_queue :: in_queue :: deferred_queues (os_dirs o) (dir_listing df_dir (os_ents o)).
Definition act_first (o : os) : Prop := head (qsort queue_comp (found_queues o)) = Some act_queue.

(** ** Reading the messages back *)

(** Queue [l'] is queue [l] with the messages its directory holds. *)
Record restored (m : gmap path ino) (l l' : msglist) : Prop := {
  rs_ok : ml_ok l';
  rs_nodup : NoDup (inodes l');
  rs_files : forall n, n ∈ inodes l' <-> m !! msg_path (l_dir l) n = Some n;
  rs_rest : (l_dir l', l_timeout l', l_send l', l_conf l') = (l_dir l, l_timeout l, l_send l, l_conf l);
}.

(** The messages of a listing. *)
Definition listed (es : list (string * ino)) : list ino := (filter (fun e => is_dot e.1 = false) es).*2.

Lemma restore_entries_wp q es l o F :
  ml_ok l -> (forall nm i, (nm, i) ∈ es -> is_dot nm = false -> os_ents o !! (l_dir l, nm) = Some i) ->
  pwp (restore_entries q es l)
    (fun l' o' => same_os o o' /\ ml_ok l' /\ inodes l' = inodes l ++ listed es /\
       (l_dir l', l_timeout l', l_send l', l_conf l') = (l_dir l, l_timeout l, l_send l, l_conf l))
    (fun c o' => c = 2 /\ same_os o o') F o.
Proof.
  revert l o. induction es as [|[nm i] es IH]; intros l o Hk Hes; cbn [restore_entries].
  { pwp_steps. by rewrite app_nil_r. }
  fold (is_dot nm). unfold listed. rewrite filter_cons. cbn [fst]. fold (listed es).
  destruct (is_dot nm) eqn:Hdot.
  { rewrite decide_False by done. apply IH; [done|]. intros nm' i' Hin. apply Hes. by right. }
  rewrite decide_True by done. apply pwp_bind, stat_wp; [|intros o' Ho; by pwp_steps].
  intros o' j ts Ho Hj. cbv beta zeta. set (e := elem_new j _ q).
  destruct (elem_add_ok l e Hk) as (Hk' & Em & _ & Ec & Es & Ed & Et).
  rewrite (Hes nm i (list_elem_of_here _ _) Hdot) in Hj. injection Hj as <-.
  eapply pwp_mono; [apply IH; [done|]| |].
  - intros nm' i' Hin Hd. rewrite Ed. destruct (Ho) as (_ & -> & _). apply Hes; [by right|done].
  - intros l' o2 (Ho2 & Hk2 & Ei & Er). split_and!; [by etrans|done| |congruence].
    rewrite Ei. unfold inodes. rewrite Em, map_app, <- app_assoc. done.
  - intros c o2 [-> Ho2]. split; [done|by etrans].
Qed.

Lemma listed_files d m n :
  disk_ok m -> d <> df_dir -> d <> drop_dir -> n ∈ listed (dir_listing d m) <-> m !! msg_path d n = Some n.
Proof.
  intros Hd Hdf Hdr. unfold listed. rewrite list_elem_of_fmap. split.
  - intros ([nm j] & -> & [Hdot Hin]%list_elem_of_filter). cbn in *. apply listing_lookup in Hin; [|done].
    by rewrite (dk_named _ Hd _ _ _ Hdf Hdr Hin) in Hin.
  - intros Hn. exists (ino_name n, n). split; [done|]. pose proof (dk_dot _ Hd _ _ Hn) as Hdot.
    apply list_elem_of_filter. split; [done|]. by apply listing_lookup.
Qed.

Lemma listed_nodup d m : disk_ok m -> d <> df_dir -> d <> drop_dir -> NoDup (listed (dir_listing d m)).
Proof.
  intros Hd Hdf Hdr. unfold listed. apply NoDup_fmap_2_strong.
  - intros [nm i] [nm' i'] [H1 H2]%list_elem_of_filter [H1' H2']%list_elem_of_filter E. cbn in *. subst i'.
    apply listing_lookup in H2, H2'; [|done..].
    by rewrite (dk_named _ Hd _ _ _ Hdf Hdr H2), (dk_named _ Hd _ _ _ Hdf Hdr H2').
  - apply NoDup_filter. eapply NoDup_fmap_1. by apply listing_nodup.
Qed.

(** The one fault: [opendir] has failed, and its result is used. *)
Definition unopened (o : os) (d : string) (f : fault) : Prop := f = NullDeref /\ (faulty o \/ d ∉ os_dirs o).

Lemma unopened_before o o' d d' f :
  same_os o o' -> d ∈ os_dirs o \/ d = d' -> unopened o' d f -> unopened o d' f.
Proof.
  intros Ho Hd [-> Hf]. split; [done|]. destruct Hf as [Hf|Hf]; [left; by eapply same_os_faulty|].
  rewrite (proj1 Ho) in Hf. destruct Hd as [?| ->]; [done|by right].
Qed.

Lemma queue_restore_wp q l o :
  disk_ok (os_ents o) -> l_dir l <> df_dir -> l_dir l <> drop_dir -> l_msg l = None -> l_total l <= 0 ->
  pwp (queue_restore l q)
    (fun l' o' => same_os o o' /\ restored (os_ents o) l (queue_sort l'))
    (fun c o' => c = 2 /\ same_os o o') (unopened o (l_dir l)) o.
Proof.
  intros Hd Hdf Hdr Hmsg Ht. unfold queue_restore. apply pwp_bind, readdir_wp; [|by split].
  assert (ml_ok l /\ inodes l = []) as [Hk E0] by (unfold ml_ok, inodes, msgs; by rewrite Hmsg).
  intros o' Ho. assert (os_ents o' = os_ents o) as He by apply Ho.
  eapply pwp_mono; [apply restore_entries_wp; [done|]| |].
  - intros nm i Hin Hdot. rewrite He. by apply listing_lookup in Hin.
  - intros l' o2 (Ho2 & Hk2 & Ei & Er). split; [by etrans|].
    destruct (queue_sort_ok l' Hk2) as (Hk3 & _ & Hm).
    assert (inodes (queue_sort l') ≡ₚ listed (dir_listing (l_dir l) (os_ents o))) as Hp.
    { change (listed ?x) with ([] ++ listed x). rewrite <- E0, <- Ei. unfold inodes. by rewrite Hm. }
    split; [done|..].
    + rewrite Hp. by apply listed_nodup.
    + intros n. rewrite Hp. by apply listed_files.
    + rewrite <- Er. unfold queue_sort. by destruct (l_msg l').
  - intros c o2 [-> Ho2]. split; [done|by etrans].
Qed.

(** A queue that has been found and not been read. *)
Definition unread (dirs : gset string) (l : msglist) : Prop :=
  l_msg l = None /\ l_total l <= 0 /\ l_send l = 0 /\ l_dir l <> df_dir /\ l_dir l <> drop_dir /\
  (l_dir l ∈ dirs \/ l_dir l = in_dir_name).

Lemma restore_queues_wp w0 ql todo w :
  disk_ok (os_ents (q_os w0)) -> set_up w0 (ql ++ todo) w -> Forall (unread (os_dirs (q_os w0))) todo ->
  pwp (restore_queues (seq (length ql) (length todo)))
    (fun _ w' => exists read, set_up w0 (ql ++ read) w' /\ Forall2 (restored (os_ents (q_os w0))) todo read)
    (fun c w' => c = 2 /\ same_os (q_os w0) (q_os w')) (unopened (q_os w0) in_dir_name) w.
Proof.
  intros Hd. revert ql w. induction todo as [|l todo IH]; intros ql w Hw Hu; cbn [length seq restore_queues].
  { pwp_steps. exists []. by split. }
  apply Forall_cons in Hu as [(U1 & U2 & U3 & U4 & U5 & U6) Hu].
  apply pwp_bind. eapply set_up_que; [exact Hw|].
  assert (os_ents (q_os w) = os_ents (q_os w0)) as He by apply Hw.
  apply pwp_bind, pwp_lift. eapply pwp_mono.
  { eapply pwp_faults; [apply queue_restore_wp; [by rewrite He|done..]|].
    intros f. apply unopened_before; [apply Hw|done]. }
  2: { intros c o [-> Ho']. split; [done|]. cbn. etrans; [apply Hw|done]. }
  intros l' o [Ho' Hr]. cbv beta. apply pwp_bind.
  eapply set_up_que_set; [by apply set_up_os|]. intros w1 Hw1.
  change (ql ++ queue_sort l' :: todo) with (ql ++ [queue_sort l'] ++ todo) in Hw1. rewrite app_assoc in Hw1.
  replace (S (length ql)) with (length (ql ++ [queue_sort l'])) by (rewrite length_app; cbn; lia).
  eapply pwp_mono; [by apply IH| |done]. intros [] w2 (read & Hw2 & Hr2). exists (queue_sort l' :: read).
  rewrite <- app_assoc in Hw2. split; [done|]. constructor; [by rewrite <- He|done].
Qed.

(** ** The queues found *)
Lemma deferred_dirs_inj nm nm' : String.append df_dir nm = String.append df_dir nm' -> nm = nm'.
Proof. by intros [= ]. Qed.

(** The directories of the queues differ, from each other and from the rest. *)
Lemma found_dirs dirs es :
  NoDup es.*1 ->
  let ql := act_queue :: in_queue :: deferred_queues dirs es in
  NoDup (map l_dir ql) /\ Forall (fun l => l_dir l ∉ [fail_dir; drop_dir; df_dir]) ql.
Proof.
  intros Hn. cbn [map]. unfold deferred_queues.
  assert (forall l, l ∈ map deferred (filter (defers dirs) es.*1) ->
    l_dir l ∉ [act_dir; in_dir_name; fail_dir; drop_dir; df_dir]) as Hd.
  { intros l (nm & -> & Hin)%list_elem_of_fmap. apply list_elem_of_filter in Hin as [(_ & _ & Ht) _].
    destruct nm as [|c nm]; [done|]. cbn. rewrite !not_elem_of_cons. split_and!; try discriminate. apply not_elem_of_nil. }
  split.
  - rewrite !NoDup_cons. split_and!.
    + intros [E|(l & E & Hl)%list_elem_of_fmap]%elem_of_cons; [done|]. apply (Hd l Hl). rewrite <- E. by left.
    + intros (l & E & Hl)%list_elem_of_fmap. apply (Hd l Hl). rewrite <- E. by right; left.
    + change (NoDup (map l_dir (map deferred (filter (defers dirs) es.*1)))). rewrite map_map. cbn.
      apply NoDup_fmap_2_strong; [|by apply NoDup_filter]. intros x y _ _. apply deferred_dirs_inj.
  - do 2 (apply Forall_cons_2; [by apply (bool_decide_unpack _)|]).
    apply Forall_forall. intros l Hl Hin. apply (Hd l Hl). by right; right.
Qed.

Lemma found_unread dirs es :
  NoDup es.*1 -> Forall (unread dirs) (in_queue :: deferred_queues dirs es).
Proof.
  intros Hn. destruct (found_dirs dirs es Hn) as [_ Hd]. apply Forall_cons in Hd as [_ Hd].
  apply Forall_forall. intros l Hl. eapply Forall_forall in Hd; [|exact Hl].
  assert (l_msg l = None /\ l_total l <= 0 /\ l_send l = 0 /\ (l_dir l ∈ dirs \/ l_dir l = in_dir_name)) as (? & ? & ? & ?).
  { apply elem_of_cons in Hl as [->|(nm & -> & [(_ & ? & _) _]%list_elem_of_filter)%list_elem_of_fmap];
      cbn; split_and!; (lia || auto). }
  split_and!; [done..| | |done]; intros E; apply Hd; rewrite E; set_solver.
Qed.

Lemma restored_places m todo read :
  Forall2 (restored m) todo read ->
  map l_dir read = map l_dir todo /\ map l_timeout read = map l_timeout todo.
Proof.
  induction 1 as [|l l' todo read Hl _ [E1 E2]]; [done|]. cbn. pose proof (rs_rest _ _ _ Hl) as E.
  injection E as -> -> _ _. by rewrite E1, E2.
Qed.

(** Queues read back agree with the files. *)
Lemma queues_restored dirs m todo read :
  (1 <= length todo)%nat -> NoDup (map l_dir (act_queue :: todo)) ->
  Forall (fun l => l_dir l ∉ [fail_dir; drop_dir; df_dir]) (act_queue :: todo) ->
  Forall (unread dirs) todo -> Forall2 (restored m) todo read ->
  queues_ok (length todo) (act_queue :: read) m.
Proof.
  intros H1 Hn Ho Hu Hr.
  destruct (restored_places _ _ _ Hr) as [Ed _].
  assert (forall q l', (act_queue :: read) !! S q = Some l' -> exists l, l ∈ todo /\ restored m l l' /\ unread dirs l) as Hget.
  { intros q l' Hl'. cbn in Hl'. destruct (Forall2_lookup_r _ _ _ _ _ Hr Hl') as (l & Hl & Hrl).
    exists l. apply list_elem_of_lookup_2 in Hl as Hin. split_and!; [done..|]. by eapply Forall_forall in Hu. }
  assert (forall (P : msglist -> Prop), P act_queue -> (forall l l', restored m l l' -> P l') -> Forall P (act_queue :: read)) as Hall.
  { intros P Ha HP. constructor; [done|]. clear -Hr HP. induction Hr; constructor; eauto. }
  split.
  - cbn. by rewrite <- (Forall2_length _ _ _ Hr).
  - done.
  - apply Hall; [unfold ml_ok; cbn; lia|]. by intros ? ? [].
  - apply Hall; [constructor|]. by intros ? ? [].
  - by intros la [= <-].
  - cbn [map] in *. by rewrite Ed.
  - apply Forall_cons in Ho as [? Ho]. constructor; [done|]. rewrite <- (Forall_map l_dir (fun d => d ∉ _)) in *. by rewrite Ed.
  - intros la x [= <-] []%not_elem_of_nil.
  - intros la [|q] l' [= <-] Hq Hl'; [lia|]. destruct (Hget _ _ Hl') as (l & _ & [_ _ _ Er] & (_ & _ & Es & _)).
    injection Er as _ _ -> _. by rewrite Es.
  - intros [|q] l' n Hq Hl' Hin; [lia|]. destruct (Hget _ _ Hl') as (l & _ & [_ _ Hf Er] & _).
    injection Er as -> _ _ _. by apply Hf.
  - intros la n [= <-] []%not_elem_of_nil.
Qed.

(** ** Start-up *)

(** The process before [initqueue]. *)
Record before_init (w : qm) : Prop := {
  bi_queues : (q_list w, q_count w, q_countq w) = ([], 0, 0%nat);
  bi_disk : disk_ok (os_ents (q_os w));
  (* the queues can be counted in a short *)
  bi_room : Z.of_nat (length (in_dir df_dir (os_ents (q_os w)))) <= 32763;
}.

(** The directories that hold waiting messages. *)
Definition queue_dir (o : os) (d : string) : Prop :=
  d = in_dir_name \/
  exists nm, d = String.append df_dir nm /\ is_Some (os_ents o !! (df_dir, nm)) /\ d ∈ os_dirs o /\
    0 < calctimeout (codes nm).

Definition waiting_in (d : string) (n : ino) (w : qm) : Prop :=
  exists q l, (1 <= q)%nat /\ q_list w !! q = Some l /\ l_dir l = d /\ n ∈ inodes l.

Lemma queue_dir_found o d m (es := dir_listing df_dir (os_ents o)) :
  os_ents o = m -> disk_ok m -> queue_dir o d -> exists l, l ∈ in_queue :: deferred_queues (os_dirs o) es /\ l_dir l = d.
Proof.
  intros Em Hd [->|(nm & -> & [i Hi] & Ho & Ht)]; [by exists in_queue; split; [left|]|].
  exists (deferred nm). split; [|done]. right. apply list_elem_of_fmap. exists nm. split; [done|].
  rewrite Em in Hi. pose proof (dk_dot _ Hd _ _ Hi) as Hdot. cbn in Hdot. apply list_elem_of_filter. split; [done|].
  apply list_elem_of_fmap. exists (nm, i). split; [done|]. apply listing_lookup; [done|]. by rewrite Em.
Qed.

(** What [initqueue] has before it looks into [drop]. *)
Record recovered (w0 w : qm) : Prop := {
  rc_inv : qinv w;
  rc_os : same_os (q_os w0) (q_os w);
  rc_inputs : inputs w = inputs w0;
  rc_in : exists l, q_list w !! IN = Some l /\ l_dir l = in_dir_name;
  rc_act : exists la, q_list w !! ACT = Some la /\ msgs la = [];
  rc_sorted : StronglySorted Z.le (map l_timeout (q_list w));
  rc_waiting : forall d n, queue_dir (q_os w0) d -> os_ents (q_os w0) !! msg_path d n = Some n -> waiting_in d n w;
}.

Lemma restored_recovered w0 w1 ds read w
    (ds0 := deferred_queues (os_dirs (q_os w0)) (dir_listing df_dir (os_ents (q_os w0)))) :
  disk_ok (os_ents (q_os w0)) -> same_os (q_os w0) (q_os w1) -> inputs w1 = inputs w0 -> q_heap w1 = heap_create TIMERHEAPSIZE ->
  qsort queue_comp (act_queue :: in_queue :: ds0) = act_queue :: in_queue :: ds -> ds ≡ₚ ds0 ->
  set_up w1 (act_queue :: read) w -> Forall2 (restored (os_ents (q_os w0))) (in_queue :: ds) read ->
  recovered w0 w.
Proof.
  intros Hd Ho1 Hi1 Hh1 Hs Hp Hw Hr.
  pose proof (listing_nodup df_dir _ Hd) as Hnd. destruct (found_dirs (os_dirs (q_os w0)) _ Hnd) as [Hn Hf].
  pose proof (found_unread (os_dirs (q_os w0)) _ Hnd) as Hu. fold ds0 in Hn, Hf, Hu.
  assert (act_queue :: in_queue :: ds ≡ₚ act_queue :: in_queue :: ds0) as Hpa by (by rewrite Hp).
  rewrite <- Hp in Hu. rewrite <- Hpa in Hn, Hf.
  pose proof (queues_restored _ _ (in_queue :: ds) read ltac:(cbn; lia) Hn Hf Hu Hr) as Hk.
  assert (same_os (q_os w0) (q_os w)) as Ho by (etrans; [done|apply Hw]).
  assert (os_ents (q_os w) = os_ents (q_os w0)) as He by apply Ho.
  assert (q_heap w = heap_create TIMERHEAPSIZE) as Hh by (rewrite (su_heap _ _ _ Hw); done).
  pose proof (su_list _ _ _ Hw) as El. split.
  - split; rewrite ?He, ?El, ?Hh.
    + done.
    + rewrite (su_countq _ _ _ Hw). cbn [length pred]. by rewrite <- (Forall2_length _ _ _ Hr).
    + apply heap_create_ok. unfold TIMERHEAPSIZE. lia.
    + constructor.
  - done.
  - rewrite (su_inputs _ _ _ Hw). done.
  - rewrite El. inversion Hr as [|? l' ? ? Hl' ?]; subst. exists l'. split; [done|].
    pose proof (rs_rest _ _ _ Hl') as E. by injection E as -> _.
  - rewrite El. by exists act_queue.
  - rewrite El. eapply sorted_timeouts; [|apply (qsort_timeouts (act_queue :: in_queue :: ds0))]. rewrite Hs. cbn [map]. f_equal.
    by destruct (restored_places _ _ _ Hr) as [_ ->].
  - intros d n Hq Hm. destruct (queue_dir_found _ d _ eq_refl Hd Hq) as (l & Hl & Ed). fold ds0 in Hl.
    rewrite <- Hp in Hl. apply list_elem_of_lookup_1 in Hl as [q Hl].
    destruct (Forall2_lookup_l _ _ _ _ _ Hr Hl) as (l' & Hl' & Hres). exists (S q), l'. rewrite El.
    pose proof (rs_rest _ _ _ Hres) as E. injection E as E _ _ _. split_and!; [lia|done|congruence|].
    apply Hres. by rewrite Ed.
Qed.

(** *** Loading the queues changes no file, however it ends *)
Definition reads {A} (m : QM A) : Prop := forall w,
  ends m (fun _ w' => disk_view w' = disk_view w) (fun w' => disk_view w' = disk_view w) w.

Lemma reads_ret {A} (a : A) : reads (mret a).
Proof. done. Qed.

Lemma reads_bind {A B} (m : QM A) (k : A -> QM B) : reads m -> (forall a, reads (k a)) -> reads (m ≫= k).
Proof.
  intros Hm Hk w. apply ends_bind. eapply ends_mono; [apply Hm| |done]. intros a w1 E.
  eapply ends_mono; [apply Hk|..]; intros; congruence.
Qed.

Lemma reads_fun {A} (m : QM A) : (forall w, disk_view (m w).2 = disk_view w) -> reads m.
Proof. intros Hm w. specialize (Hm w). unfold ends. by destruct (m w) as [[] w']. Qed.

Lemma reads_os {A} (m : PR os A) : (forall o, os_ents (m o).2 = os_ents o) -> reads (on_os m).
Proof.
  intros Hm. apply reads_fun. intros w. unfold on_os, plift, disk_view. specialize (Hm (q_os w)).
  destruct (m (q_os w)) as [r o]. cbn in *. by rewrite Hm.
Qed.

Lemma reads_que_set i f : reads (que_set i f).
Proof. apply reads_fun. intros w. unfold que_set. by destruct (q_list w !! i). Qed.

Lemma reads_queue_add : reads queue_add_q.
Proof. apply reads_fun. intros w. unfold queue_add_q. by destruct (queue_add _) as [[l c] r]. Qed.

Lemma stat_ents p o : os_ents (stat_file p o).2 = os_ents o.
Proof. unfold stat_file, mbind, pr_bind, fails. by destruct (os_faults o). Qed.

Lemma readdir_ents d o : os_ents (readdir d o).2 = os_ents o.
Proof.
  unfold readdir, open_dir, syscall, mbind, pr_bind, fails, pgets.
  destruct (os_faults o) as [|[] fs]; cbn; try done; by destruct (bool_decide _).
Qed.

Lemma restore_ents q l o : os_ents (queue_restore l q o).2 = os_ents o.
Proof.
  unfold queue_restore, mbind, pr_bind. pose proof (readdir_ents (l_dir l) o) as E.
  destruct (readdir (l_dir l) o) as [[[es|]|f|c] o1]; cbn in *; try done. rewrite <- E. clear E.
  revert l o1. induction es as [|[nm i] es IH]; intros l o1; [done|]. cbn [restore_entries].
  destruct (bool_decide _ || _); [apply IH|]. unfold mbind, pr_bind.
  pose proof (stat_ents (l_dir l, nm) o1) as E. destruct (stat_file (l_dir l, nm) o1) as [[[[j ts]|]|f|c] o2];
    cbn in *; try done. rewrite <- E. apply IH.
Qed.

Lemma load_queues_reads : reads load_queues.
Proof.
  assert (forall es, reads (df_entries es)) as Hdf.
  { induction es as [|[nm i] es IH]; [done|]. cbn [df_entries]. destruct (_ || _); [done|].
    apply reads_bind; [apply reads_os, stat_ents|intros [e|]; [|done]].
    apply reads_bind; [done|intros dir]. apply reads_bind; [|done].
    destruct (_ && _); [|done]. apply reads_bind; [apply reads_queue_add|intros c]. apply reads_que_set. }
  assert (forall ixs, reads (restore_queues ixs)) as Hrs.
  { induction ixs as [|i ixs IH]; [done|]. cbn [restore_queues].
    apply reads_bind; [apply reads_fun; intros w; unfold que; by destruct (q_list w !! i)|intros l].
    apply reads_bind; [apply reads_os, restore_ents|intros l']. apply reads_bind; [apply reads_que_set|done]. }
  unfold load_queues. repeat (apply reads_bind; [first [apply reads_queue_add|apply reads_que_set|apply reads_os, readdir_ents|done]|intros ?]).
  case_match; [|done]. apply reads_bind; [apply Hdf|intros _]. apply reads_bind; [done|intros n].
  apply reads_bind; [done|intros _]. apply Hrs.
Qed.

Lemma load_queues_wp w :
  before_init w -> act_first (q_os w) ->
  pwp load_queues (fun _ w' => recovered w w') exits_2 (unopened (q_os w) in_dir_name) w.
Proof.
  intros [Hq Hd Hroom] Hfirst. unfold act_first, found_queues in Hfirst. injection Hq as E1 E2 E3. unfold load_queues.
  assert (set_up w [] w) as Hw by by split.
  apply pwp_bind. eapply (queue_add_wp w []); [done|cbn; lia|]. intros w1 Hw1.
  apply pwp_bind. eapply (set_up_que_set w []); [exact Hw1|]. intros w2 Hw2. fold act_queue in Hw2.
  apply pwp_bind. eapply (queue_add_wp w [_]); [exact Hw2|cbn; lia|]. intros w3 Hw3.
  apply pwp_bind. eapply (set_up_que_set w [_]); [exact Hw3|]. intros w4 Hw4. fold in_queue in Hw4. cbn [app] in Hw4.
  assert (os_ents (q_os w4) = os_ents (q_os w)) as He4 by apply Hw4.
  apply pwp_bind, pwp_lift, readdir_wp.
  2: { intros o Ho _. cbn. by pwp_steps. }
  intros o Ho. cbv beta iota. rewrite He4. set (es := dir_listing _ _).
  pose proof (set_up_os _ _ _ _ Hw4 Ho) as Hw5.
  apply pwp_bind. eapply pwp_mono; [eapply df_entries_wp; [exact Hw5|]| |].
  { unfold es, dir_listing. rewrite (Permutation_length (listing_perm _)), length_app. cbn. lia. }
  2: { by intros c w6 [-> _]. }
  intros [] w6 Hw6. fold es in Hw6, Hfirst. cbn [app] in Hw6.
  destruct (sort_queues _ (deferred_timeouts (os_dirs (q_os w)) es) Hfirst) as (ds & Hs & Hp).
  pwp_steps. rewrite (su_countq _ _ _ Hw6), (su_list _ _ _ Hw6). cbn [length pred].
  rewrite take_ge, drop_ge, app_nil_r, Hs by (cbn; lia).
  set (w7 := _ <| q_heap := _ |>).
  assert (set_up w7 ([act_queue] ++ in_queue :: ds) w7) as Hw7.
  { split; try done; cbn; [rewrite (su_count _ _ _ Hw6)|rewrite (su_countq _ _ _ Hw6)]; cbn; by rewrite Hp. }
  assert (same_os (q_os w) (q_os w7) /\ inputs w7 = inputs w) as [Ho7 Hi7] by (by destruct Hw6).
  assert (os_ents (q_os w7) = os_ents (q_os w)) as He7 by apply Ho7.
  replace (S (length _)) with (length (in_queue :: ds)) by (cbn; by rewrite Hp).
  eapply pwp_mono.
  { eapply pwp_faults; [apply (restore_queues_wp w7 [act_queue] (in_queue :: ds) w7); [by rewrite He7|done|]|].
    - rewrite Hp, (proj1 Ho7). apply found_unread. by apply listing_nodup.
    - intros f. apply unopened_before; [done|by right]. }
  2: { by intros c w8 [-> _]. }
  intros [] w8 (read & Hw8 & Hr). rewrite He7 in Hr. eapply (restored_recovered w w7 ds read); done.
Qed.

Lemma waiting_grew d n w w' :
  Forall2 grew (q_list w) (q_list w') -> waiting_in d n w -> waiting_in d n w'.
Proof.
  intros Hg (q & l & Hq & Hl & Hd & Hn). destruct (Forall2_lookup_l _ _ _ _ _ Hg Hl) as (l' & Hl' & Ed & _ & Hs).
  exists q, l'. split_and!; [done|done|congruence|by apply Hs].
Qed.

Lemma start_minv w : qinv w -> minv (main_start w).
Proof. intros []. split; [|done]. split; [by split|cbn; lia|cbn; lia]. Qed.

(** What a process leaves behind that was told of no delivery. *)
Definition keeps_all (w0 w : qm) : Prop := survives w0 w (fun _ => False).

Lemma disk_view_keeps w w' : disk_ok (os_ents (q_os w)) -> disk_view w' = disk_view w -> keeps_all w w'.
Proof. intros Hd [= Ee Es]. split; [by rewrite Ee|done|]. rewrite Ee. apply keeps_stored_refl. Qed.

(** What start-up achieves. *)
Record started (w w' : qm) : Prop := {
  st_loop : minv (main_start w');
  st_stored : keeps_all w w';
  st_sorted : StronglySorted Z.le (map l_timeout (q_list w'));
  st_waiting : forall d n, queue_dir (q_os w) d -> os_ents (q_os w) !! msg_path d n = Some n -> waiting_in d n w';
  st_dropped : forall nm n, os_ents (q_os w) !! (drop_dir, nm) = Some n -> strtoul (codes nm) = n ->
    waiting_in in_dir_name n w';
  st_act : exists la, q_list w' !! ACT = Some la /\ msgs la = [];
  st_links : forall nm, os_ents (q_os w') !! (act_dir, nm) = os_ents (q_os w) !! (act_dir, nm);
}.

Lemma scan_recovered w w1 :
  before_init w -> recovered w w1 ->
  pwp scan_drop (fun _ w' => started w w') (fun c w' => c = 2 /\ keeps_all w w') no_fault w1.
Proof.
  intros Hb [Hi Ho Hin (lin & Hlin & Edin) Hact Hs Hwait].
  assert (os_ents (q_os w1) = os_ents (q_os w)) as He by apply Ho.
  assert (q_sent w1 = q_sent w) as Esent by (unfold inputs in Hin; by injection Hin).
  eapply pwp_mono; [by apply scan_drop_wp| |].
  - intros _ w2 ([Hi2 Hf2 Hs2] & Hg & [Ha Hlk] & l & Hl & Ht). rewrite Hlin in Hl. injection Hl as <-. rewrite He in Hs2, Ht.
    split; [by apply start_minv| | | | |by rewrite Ha|by intros nm; rewrite Hlk, He].
    + split; [apply Hi2| |done]. pose proof (f_equal (fun p => p.1.1) Hf2) as E. unfold frame in E. cbn in E.
      injection E as _ E _ _ _ _ _ _. congruence.
    + replace (map l_timeout (q_list w2)) with (map l_timeout (q_list w1)); [done|]. clear -Hg.
      induction Hg as [|x y ? ? (_ & E & _) _ IH]; [done|]. cbn. by rewrite E, IH.
    + intros d n Hq Hm. eapply waiting_grew; [done|]. by apply Hwait.
    + intros nm n Hm Hstr. specialize (Ht nm n Hm). unfold taken in Ht. rewrite Hstr, Z.eqb_refl in Ht.
      destruct Ht as (_ & l2 & Hl2 & Hn). exists IN, l2. split_and!; [unfold IN; lia|done| |done].
      destruct (Forall2_lookup_l _ _ _ _ _ Hg Hlin) as (l3 & Hl3 & Ed & _). simplify_eq. congruence.
  - intros c w2 [-> [D1 D2 D3]]. rewrite He in D3. split; [done|]. split; [done|congruence|done].
Qed.

(** However it ends: the process is ready, or the files are as they were,
    but for those it has moved. *)
Lemma initqueue_ends w :
  before_init w -> act_first (q_os w) -> ends initqueue (fun _ w' => started w w') (keeps_all w) w.
Proof.
  intros Hb Hfirst. unfold initqueue. apply ends_bind. pose proof (load_queues_reads w) as Hr.
  pose proof (load_queues_wp w Hb Hfirst) as Hl. unfold ends at 1. unfold ends in Hr. unfold pwp in Hl.
  destruct (load_queues w) as [[[]|f|c] w1]; [|by apply disk_view_keeps; [apply Hb|]..].
  apply ends_bind. eapply ends_mono; [apply ends_pwp|intros z w2 H; exact H|done].
  eapply pwp_mono; [by apply scan_recovered|done|by intros c w2 [_ ?]].
Qed.

Lemma initqueue_ok w :
  before_init w -> act_first (q_os w) ->
  pwp initqueue (fun _ w' => started w w') (fun c w' => c = 2 /\ keeps_all w w') (unopened (q_os w) in_dir_name) w.
Proof.
  intros Hb Hfirst. eapply pwp_mono; [eapply (pwp_ends _ (fun _ _ => True) _ exits_2); [|by apply initqueue_ends]|..].
  - apply pwp_bind. eapply pwp_mono; [by apply load_queues_wp| |done]. intros [] w1 Hw1. apply pwp_bind.
    eapply pwp_faults; [eapply pwp_mono; [by apply scan_recovered|done|by intros c w2 [-> _]]|done].
  - by intros a w' [_ ?].
  - by intros c w' [-> ?].
Qed.

(** C12: Start-up and crash recovery: from any consistent set of message files
    [initqueue] establishes the invariant the main loop starts from, with the
    queues in order of delay; every message found in a queue directory is in
    that queue again and every message found in [drop] under its number is in
    the incoming queue, so nothing that was waiting is forgotten and no file is
    lost, also when a call fails and the process exits with status 2.  The one
    fault is the use of a queue directory that could not be opened, and it
    happens only if some call fails or [in] does not exist.  The hypotheses:
    the files are consistent ([disk_ok]: message files outside [drop] are named
    by their inode), [df] has at most 32763 entries, and [qsort], which may put either of the queues [act] and [in]
    first, puts [act] first. *)
Theorem initqueue_recovers w :
  before_init w -> act_first (q_os w) ->
  pwp initqueue
    (fun _ w' =>
       minv (main_start w') /\ keeps_all w w' /\ StronglySorted Z.le (map l_timeout (q_list w')) /\
       (forall d n, queue_dir (q_os w) d -> os_ents (q_os w) !! msg_path d n = Some n -> waiting_in d n w') /\
       (forall nm n, os_ents (q_os w) !! (drop_dir, nm) = Some n -> strtoul (codes nm) = n -> waiting_in in_dir_name n w'))
    (fun c w' => c = 2 /\ keeps_all w w')
    (fun f => f = NullDeref /\ (faulty (q_os w) \/ in_dir_name ∉ os_dirs (q_os w))) w.
Proof.
  intros Hb Hfirst. eapply pwp_mono; [by apply initqueue_ok| |done]. by intros z w' [].
Qed.
End starting.

(** ** A spool found after a restart *)
Definition crashed_ents : gmap path ino :=
  <[("./in/", "7")%string := 7]> (<[("./df/", "00h01m00s")%string := 90]>
    (<[(df1, "5"%string) := 5]> (<[("./drop/", "12")%string := 12]>
      (<[("./drop/", "dropmsg.Xa81bC")%string := 14]> ∅)))).

Definition crashed : qm :=
  Build_qm (Build_os {[act_dir; in_dir_name; drop_dir; fail_dir; df_dir; df1]} crashed_ents ∅ [] []) [] 0 0
    (heap_create 1) [] [] [] [] 0 [] false 0 false false false false (None, None).

Lemma crashed_before : before_init crashed.
Proof.
  split; [done| |by vm_compute].
  change (disk_ok crashed_ents). split.
  - intros d nm i Hd Hd' H. unfold crashed_ents in H. map_entry H; first [by vm_compute|by destruct Hd|by destruct Hd'].
  - intros nm i H E. unfold crashed_ents in H. map_entry H; vm_compute in E |- *; done.
  - intros p p' i H H' Ha Ha'. unfold crashed_ents in H, H'. map_entry H; map_entry H'; done.
  - intros p i H. unfold crashed_ents in H. map_entry H; by vm_compute.
Qed.

Lemma initqueue_recovers_witness :
  pwp (@initqueue plain_readdir merge_Qsort)
    (fun _ w' =>
       minv (main_start w') /\ keeps_all crashed w' /\ StronglySorted Z.le (map l_timeout (q_list w')) /\
       (forall d n, queue_dir (q_os crashed) d -> os_ents (q_os crashed) !! msg_path d n = Some n -> waiting_in d n w') /\
       (forall nm n, os_ents (q_os crashed) !! (drop_dir, nm) = Some n -> strtoul (codes nm) = n -> waiting_in in_dir_name n w'))
    (fun c w' => c = 2 /\ keeps_all crashed w')
    (fun f => f = NullDeref /\ (faulty (q_os crashed) \/ in_dir_name ∉ os_dirs (q_os crashed))) crashed.
Proof.
  refine (@initqueue_recovers plain_readdir merge_Qsort crashed crashed_before _). vm_compute. reflexivity.
Defined.

(** Run on it, the messages are back in three queues. *)
Definition recovered_queues : option (list (string * list ino)) :=
  match @initqueue plain_readdir merge_Qsort crashed with
  | (Done _, w) => Some (map (fun l => (l_dir l, inodes l)) (q_list w))
  | _ => None
  end.

Lemma crashed_recovers :
  recovered_queues = Some [(act_dir, []); (in_dir_name, [7; 12]); (df1, [5])].
Proof. by vm_compute. Qed.
