(* ===== verification/Flush.v ===== *)
(** * The queue manager: flushing ends when the sender answers

    [flush_queue] polls the sender without waiting.  If the sender, after any
    number of empty polls, accepts each message it is sent and later reports
    its outcome, the loops end: every queue is sent from its first message to
    its last, the deferred queues with the longest delay first. *)

From S2P Require Import Prelude Heap Posix Utils QueControl Quemngr QueProps QueSend QueMain Spool.

#[local] Open Scope Z_scope.

(** ** What the sender writes *)

(** A line that is read as number [n] and code [r]. *)
Definition answer_line (n : ino) (r : Z) (b : bytes) : Prop :=
  exists dlen rest, scan_response b = Scanned (Some n) (Some r) dlen rest /\
    (dlen < DESCMAX)%nat /\ skip_space rest = [].

(** How a message is answered: polls that find nothing, the line that accepts
    it (code 1), more such polls, the line with the outcome. *)
Record reply := {
  rp_wait : nat;
  rp_accept : bytes;
  rp_busy : nat;
  rp_outcome : bytes;
  rp_code : Z;
}.

Definition answers (n : ino) (p : reply) : Prop :=
  answer_line n 1 (rp_accept p) /\ answer_line n (rp_code p) (rp_outcome p) /\ rp_code p <> 1.

(** What the reads find; each line is followed by a read that finds nothing. *)
Definition reads (p : reply) : list bytes :=
  replicate (rp_wait p) [] ++ [rp_accept p; []] ++ replicate (rp_busy p) [] ++ [rp_outcome p; []].
Definition rounds (p : reply) : nat := rp_wait p + S (rp_busy p + 1).
Definition confirmed (p : reply) : Z := if rp_code p =? 0 then 1 else 0.

(** ** The state while a queue is flushed *)

(** Queue [q] holds [ms], of which the sender has [act]; the queues before it
    are those of [w0]. *)
Record flushing (w0 : qm) (q : nat) (act ms : list msg) (conf : Z) (w : qm) : Prop := {
  fl_inv : qinv w;
  fl_act : exists la, q_list w !! ACT = Some la /\ msgs la = act;
  fl_queue : exists l, q_list w !! q = Some l /\ msgs l = ms /\ l_conf l = conf;
  fl_before : forall i, (1 <= i < q)%nat -> q_list w !! i = q_list w0 !! i;
  fl_countq : q_countq w = q_countq w0;
}.

(** Input and output. *)
Definition stream (w : qm) := (q_in w, q_feed w, q_sent w).

Lemma frame_stream w w' : frame w' = frame w -> stream w' = stream w /\ q_countq w' = q_countq w.
Proof. unfold frame, stream. by intros [= -> -> -> -> _ _ _ _]. Qed.

Lemma flushing_input w0 q act ms c w i f :
  flushing w0 q act ms c w -> flushing w0 q act ms c (w <| q_in := i |> <| q_feed := f |>).
Proof. intros [[] ? ? ? ?]. by split. Qed.

Lemma added_look q e ql l : ql !! q = Some l -> added q e ql !! q = Some (elem_add l e).1.
Proof. exact (alter_look (fun l => (elem_add l e).1) q ql l). Qed.

Section flushing.
Context (w0 : qm) (q : nat) (Hq : (1 <= q)%nat).

Lemma flushing_send act ms c w l :
  flushing w0 q act ms c w -> q_list w !! q = Some l ->
  l_send l = Z.of_nat (sending_from q act) /\ Z.max 0 (l_total l) = Z.of_nat (length ms) /\ msgs l = ms /\ l_conf l = c.
Proof using Hq.
  intros [[_ Hk _ _] (la & Hla & <-) (l' & Hl' & <- & <-) _ _] Hl. simplify_eq.
  split_and!; [by eapply qi_send| |done|done].
  apply total_msgs. by eapply (Forall_lookup_1 _ _ _ _ (qi_ok _ _ _ Hk)).
Qed.

(** The next message goes to the sender. *)
Lemma flushing_next x ms w F :
  flushing w0 q [] (x :: ms) 0 w ->
  pwp (i ← GETFILENAME q; send_message q i)
    (fun _ w' => flushing w0 q [elem_new (m_inode x) timeval_none q] (x :: ms) 0 w' /\
       stream w' = stream (wrote (m_inode x) w)) exits_2 F w.
Proof using Hq.
  intros Hfl. destruct (Hfl) as [Hi (la & Hla & Ea) (l & Hl & Em & Ec) Hb Hc].
  destruct (flushing_send _ _ _ _ _ Hfl Hl) as (Es & _). cbn in Es.
  assert (m_inode x ∈ inodes l) as Hn by (unfold inodes; rewrite Em; by left).
  apply pwp_bind. unfold GETFILENAME. apply pwp_bind. eapply at_que; [apply at_refl|exact Hl|].
  rewrite Em, Es. cbn. pwp_steps. eapply send_message_wp; [done..| |done].
  intros w' Hfree Hat. destruct (Hi) as [Hd Hk _ _]. destruct (Hat) as [El _ _ _ Hf].
  split; [|by apply frame_stream]. split.
  - eapply at_qinv; [|exact Hat| |by eapply queues_handed]; [by destruct Hi|].
    eapply disk_link; [done|]. by eapply qi_files.
  - rewrite El. unfold handed. rewrite list_lookup_alter_ne by (unfold ACT; lia).
    exists (elem_add la (elem_new (m_inode x) timeval_none q)).1. split; [by apply added_look|].
    destruct (elem_add_ok la (elem_new (m_inode x) timeval_none q)) as (_ & -> & _).
    { by eapply (Forall_lookup_1 _ _ _ _ (qi_ok _ _ _ Hk)). }
    by rewrite Ea.
  - rewrite El. exists (l <| l_send := l_send l + 1 |>). split; [|by split].
    unfold handed. apply (alter_look (fun l => l <| l_send := l_send l + 1 |>)).
    unfold added. by rewrite list_lookup_alter_ne by (unfold ACT; lia).
  - intros i Hlt. rewrite El. unfold handed, added. rewrite !list_lookup_alter_ne by (unfold ACT; lia). by apply Hb.
  - by rewrite (proj2 (frame_stream _ _ Hf)).
Qed.

(** A response to the message in flight. *)
Lemma gone_act n la ql :
  ql !! ACT = Some la -> gone q n ql !! ACT = Some (elem_del la n).1.
Proof using Hq.
  intros Hla. unfold gone. rewrite !list_lookup_alter_ne by (unfold ACT; lia).
  exact (alter_look (fun l => (elem_del l n).1) ACT ql la Hla).
Qed.

Lemma gone_queue n l ql (l1 := (elem_del l n).1) :
  ql !! q = Some l -> gone q n ql !! q = Some (l1 <| l_conf := l_conf l1 - 1 |> <| l_send := l_send l1 - 1 |>).
Proof using Hq.
  intros Hl. unfold gone. apply (alter_look (fun l => l <| l_conf := l_conf l - 1 |> <| l_send := l_send l - 1 |>)).
  apply (alter_look (fun l => (elem_del l n).1)). by rewrite list_lookup_alter_ne by (unfold ACT; lia).
Qed.

Lemma gone_before n ql i : (1 <= i < q)%nat -> gone q n ql !! i = ql !! i.
Proof. intros Hi. unfold gone. by rewrite !list_lookup_alter_ne by (unfold ACT; lia). Qed.

(** Everything [flushing] says of the queues, after the final response. *)
Lemma flushing_gone n x x0 ms w :
  flushing w0 q [x] (x0 :: ms) 1 w -> m_inode x = n -> m_inode x0 = n ->
  let ql := gone q n (q_list w) in
  (exists la, ql !! ACT = Some la /\ msgs la = []) /\
  (exists l, ql !! q = Some l /\ msgs l = ms /\ l_conf l = 0) /\
  (forall i, (1 <= i < q)%nat -> ql !! i = q_list w0 !! i).
Proof using Hq.
  intros [[_ Hk _ _] (la & Hla & Ea) (l & Hl & Em & Ec) Hb _] Hx Hx0 ql.
  assert (forall i l1, q_list w !! i = Some l1 -> ml_ok l1 /\ NoDup (inodes l1)) as Hok.
  { intros i l1 H1. split; [by eapply (Forall_lookup_1 _ _ _ _ (qi_ok _ _ _ Hk))|].
    by eapply (Forall_lookup_1 _ _ _ _ (qi_nodup _ _ _ Hk)). }
  split_and!.
  - eexists. split; [by apply gone_act|]. destruct (Hok _ _ Hla) as [H1 H2].
    destruct (elem_del_without la n H1 H2) as (_ & -> & _). rewrite Ea. unfold without. by rewrite filter_cons_False by tauto.
  - eexists. split; [by apply gone_queue|]. destruct (Hok _ _ Hl) as [H1 H2].
    destruct (elem_del_without l n H1 H2) as (Hk' & Em' & Ec' & _). split.
    + transitivity (msgs (elem_del l n).1); [done|]. rewrite Em', Em. unfold without.
      rewrite filter_cons_False by tauto. apply filter_all. unfold inodes in H2. rewrite Em in H2. cbn in H2.
      apply NoDup_cons in H2 as [H2 _]. apply Forall_forall. intros y Hy E. apply H2. rewrite Hx0, <- E.
      apply list_elem_of_fmap. by exists y.
    + cbn. rewrite Ec', Ec. done.
  - intros i Hi. unfold ql. rewrite gone_before by done. by apply Hb.
Qed.

Lemma flushing_accept x ms w F :
  flushing w0 q [x] ms 0 w -> m_state x = q ->
  pwp (check_response (m_inode x) 1)
    (fun k w' => k = 0 /\ flushing w0 q [x] ms 1 w' /\ frame w' = frame w) exits_2 F w.
Proof using Hq.
  intros Hfl Hx. destruct (Hfl) as [Hi (la & Hla & Ea) (l & Hl & Em & Ec) Hb Hc].
  assert (forall la', q_list w !! ACT = Some la' -> msgs la' = [x]) as Hact by (intros la' ?; by simplify_eq).
  apply check_response_wp; [done|..|done].
  - intros la' Hla' []. unfold inodes. rewrite (Hact _ Hla'). by left.
  - intros la' x' w' Hla' Hx' _ _ Hat. pose proof Hx' as Hxin. rewrite (Hact _ Hla') in Hx'.
    apply list_elem_of_singleton in Hx' as ->. destruct (Hi) as [Hd Hk _ _].
    destruct (answered_ok _ _ _ la' x 1 Hd Hk Hla' Hxin) as [Hd' Hk'].
    destruct (Hat) as [El _ _ _ Hf]. unfold answered in El. rewrite Hx in El. cbn [Z.eqb Pos.eqb] in El.
    split_and!; [done| |done]. split; [by eapply at_qinv|..].
    + exists la. rewrite El, list_lookup_alter_ne by (unfold ACT; lia). done.
    + exists (l <| l_conf := l_conf l + 1 |>). rewrite El. split; [|by rewrite <- Em; cbn; rewrite Ec].
      by apply (alter_look (fun l => l <| l_conf := l_conf l + 1 |>)).
    + intros i Hlt. rewrite El, list_lookup_alter_ne by lia. by apply Hb.
    + by rewrite (proj2 (frame_stream _ _ Hf)).
  - by intros.
Qed.

(** The same places in the queues after the message has gone to the next. *)
Lemma answered_same x r cq ql i :
  m_state x = q -> r <> 1 -> (i <= q)%nat -> answered cq x r ql !! i = gone q (m_inode x) ql !! i.
Proof.
  intros Hx Hr Hi. unfold answered. rewrite Hx. destruct (r =? 0); [done|].
  destruct (Z.eqb_spec r 1); [done|]. destruct (q =? cq)%nat; [done|].
  unfold added. by rewrite list_lookup_alter_ne by lia.
Qed.

Lemma flushing_outcome x x0 ms r w F :
  flushing w0 q [x] (x0 :: ms) 1 w -> m_state x = q -> m_inode x0 = m_inode x -> r <> 1 ->
  pwp (check_response (m_inode x) r)
    (fun k w' => k = (if r =? 0 then 1 else 0) /\ flushing w0 q [] ms 0 w' /\ frame w' = frame w) exits_2 F w.
Proof using Hq.
  intros Hfl Hx Hx0 Hr. destruct (Hfl) as [Hi (la & Hla & Ea) _ _ Hc].
  destruct (flushing_gone _ _ _ _ _ Hfl eq_refl Hx0) as ((la1 & Hla1 & Ea1) & (l1 & Hl1 & El1) & Hb1).
  assert (forall la', q_list w !! ACT = Some la' -> msgs la' = [x]) as Hact by (intros la' ?; by simplify_eq).
  assert (forall w', qinv w' -> q_list w' = answered (q_countq w) x r (q_list w) -> frame w' = frame w ->
            flushing w0 q [] ms 0 w') as Hend.
  { intros w' Hi' El Hf. split; [done|rewrite El..|].
    - exists la1. by rewrite answered_same by (unfold ACT; lia || done).
    - exists l1. by rewrite answered_same.
    - intros i Hlt. rewrite answered_same by (done || lia). by apply Hb1.
    - by rewrite (proj2 (frame_stream _ _ Hf)). }
  destruct (Hi) as [Hd Hk _ _].
  apply check_response_wp; [done|..|done].
  - intros la' Hla' []. unfold inodes. rewrite (Hact _ Hla'). by left.
  - intros la' x' w' Hla' Hx' _ _ Hat. pose proof Hx' as Hxin. rewrite (Hact _ Hla') in Hx'.
    apply list_elem_of_singleton in Hx' as ->. destruct (answered_ok _ _ _ la' x r Hd Hk Hla' Hxin) as [Hd' Hk'].
    split_and!; [done| |apply Hat]. apply Hend; [by eapply at_qinv|apply Hat..].
  - intros la' x' l' w' Hla' Hx' _ Hr0 _ Hlast _ Ht. pose proof Hx' as Hxin. rewrite (Hact _ Hla') in Hx'.
    apply list_elem_of_singleton in Hx' as ->. destruct (answered_ok _ _ _ la' x r Hd Hk Hla' Hxin) as [Hd' Hk'].
    destruct (act_entry _ _ _ _ _ Hk Hla' Hxin) as (_ & Hq' & _).
    split_and!; [by rewrite (proj2 (Z.eqb_neq _ _) Hr0)| |apply Ht].
    apply Hend; [|apply Ht..]. eapply timed_qinv; [exact Hi|exact Ht|done..|cbn; lia].
Qed.
End flushing.

(** ** Rounds *)
Definition fed (i : bytes) (fs : list bytes) (w : qm) : qm := w <| q_in := i |> <| q_feed := fs |>.

(** A read that finds nothing new ends the response loop. *)
Lemma blank_read fuel v n w fs :
  skip_space (q_in w) = [] -> q_feed w = [] :: fs ->
  response_loop fuel v n w = (Done (n, v), fed [] fs w).
Proof.
  intros Hi Hf. assert (scan_response (q_in w) = ScanEOF []) as E by (unfold scan_response; by rewrite Hi).
  destruct fuel; cbn [response_loop]; unfold mbind, pr_bind, fscanf_response; rewrite Hf; cbn [hd tl];
    by rewrite app_nil_r, E.
Qed.

Lemma silent_round {v n w fs} (Q : Z * (option Z * option Z) -> qm -> Prop) R F :
  q_in w = [] -> q_feed w = [] :: fs -> Q (n, v) (fed [] fs w) -> pwp (read_responses v n) Q R F w.
Proof. intros Hi Hf HQ. unfold read_responses. pwp_steps. unfold pwp. by rewrite (blank_read _ _ _ _ fs) by (done || by rewrite Hi). Qed.

Lemma answer_round {v n i r b w fs} (Q : Z * (option Z * option Z) -> qm -> Prop) R F :
  q_in w = [] -> q_feed w = b :: [] :: fs -> answer_line i r b ->
  (forall rest, skip_space rest = [] ->
     pwp (check_response i r)
       (fun k w' => frame w' = frame (fed rest ([] :: fs) w) /\
          Q (if 0 <? k then n + 1 else n, (Some i, Some r)) (fed [] fs w')) R F (fed rest ([] :: fs) w)) ->
  pwp (read_responses v n) Q R F w.
Proof.
  intros Hi Hf (dlen & rest & Hb & Hd & Hr) Hc. unfold read_responses. pwp_steps.
  assert (exists fuel, feed_size w = S fuel) as [fuel ->].
  { unfold feed_size. rewrite Hf. cbn. eexists. rewrite Nat.add_succ_r. done. }
  cbn [response_loop]. apply pwp_bind. unfold pwp at 1, fscanf_response. rewrite Hi, Hf. cbn [hd tl app]. rewrite Hb.
  replace (DESCMAX <=? dlen)%nat with false by (symmetry; by apply Nat.leb_gt). cbn [fst snd].
  apply pwp_bind. eapply pwp_mono; [by apply (Hc rest)| |done]. intros k w' [Hfr HQ].
  unfold frame, fed in Hfr. cbn in Hfr. injection Hfr as _ _ Ei Ef _ _ _ _.
  unfold pwp. rewrite (blank_read _ _ _ _ fs); [done|by rewrite Ei|done].
Qed.

Section rounds.
Context (w0 : qm) (q : nat) (Hq : (1 <= q)%nat) (x0 : msg) (ms : list msg).
Let x := elem_new (m_inode x0) timeval_none q.

(** A round while the message is with the sender: nothing is sent. *)
Lemma flush_round {fuel v n c w} (Q : Z * (option Z * option Z) -> qm -> Prop) R F :
  flushing w0 q [x] (x0 :: ms) c w -> 0 <= c ->
  pwp (read_responses v n) (fun r w' => pwp (flush_one fuel q r.2 r.1) Q R F w') R F w ->
  pwp (flush_one (S fuel) q v n) Q R F w.
Proof using Hq.
  intros Hfl Hc HQ. destruct (fl_queue _ _ _ _ _ _ Hfl) as (l & Hl & _).
  destruct (flushing_send w0 q Hq _ _ _ _ l Hfl Hl) as (Es & Et & _). cbn [length] in Et.
  assert (sending_from q [x] = 1%nat) as E1 by (unfold sending_from; by rewrite filter_cons_True).
  cbn [flush_one]. apply pwp_bind. eapply at_que; [apply at_refl|exact Hl|].
  replace (0 <? l_total l) with true by (symmetry; apply Z.ltb_lt; lia).
  replace (may_send WINSIZE l) with false; [|symmetry; unfold may_send, WINSIZE; rewrite Es, E1; done].
  cbn [pwhen]. apply pwp_bind. pwp_steps. apply HQ.
Qed.

(** The first round sends the message and goes on as the later ones. *)
Lemma flush_first {fuel v n w} (Q : Z * (option Z * option Z) -> qm -> Prop) F :
  flushing w0 q [] (x0 :: ms) 0 w ->
  (forall w', flushing w0 q [x] (x0 :: ms) 0 w' -> stream w' = stream (wrote (m_inode x0) w) ->
     pwp (read_responses v n) (fun r w' => pwp (flush_one fuel q r.2 r.1) Q exits_2 F w') exits_2 F w') ->
  pwp (flush_one (S fuel) q v n) Q exits_2 F w.
Proof using Hq.
  intros Hfl HQ. destruct (fl_queue _ _ _ _ _ _ Hfl) as (l & Hl & _).
  destruct (flushing_send w0 q Hq _ _ _ _ l Hfl Hl) as (Es & Et & _ & Ec). cbn [length] in Et. cbn in Es.
  cbn [flush_one]. apply pwp_bind. eapply at_que; [apply at_refl|exact Hl|].
  replace (0 <? l_total l) with true by (symmetry; apply Z.ltb_lt; lia).
  replace (may_send WINSIZE l) with true; [|symmetry; unfold may_send, WINSIZE; rewrite Es, Ec; cbn; rewrite andb_true_r; apply Z.ltb_lt; lia].
  cbn [pwhen]. apply pwp_bind. eapply pwp_mono; [by apply flushing_next| |done].
  intros [] w1 [H1 H2]. apply pwp_bind. by apply HQ.
Qed.

(** A round from its read on. *)
Definition reading (fuel : nat) v n (Q : Z * (option Z * option Z) -> qm -> Prop) F (w : qm) : Prop :=
  pwp (read_responses v n) (fun r w' => pwp (flush_one fuel q r.2 r.1) Q exits_2 F w') exits_2 F w.

Lemma wait_reads k fuel v n c w fs Q F :
  flushing w0 q [x] (x0 :: ms) c w -> 0 <= c -> stream w = ([], replicate k [] ++ fs, q_sent w) ->
  (forall w', flushing w0 q [x] (x0 :: ms) c w' -> stream w' = ([], fs, q_sent w) -> reading fuel v n Q F w') ->
  reading (k + fuel) v n Q F w.
Proof using Hq.
  revert w. induction k as [|k IH]; intros w Hfl Hc Hs HQ; [by apply HQ|].
  injection Hs as Hi Hf. cbn [replicate app] in Hf. unfold reading.
  eapply silent_round; [done..|]. cbn [fst snd Nat.add].
  apply (flush_round (c := c)); [by apply flushing_input|done|]. apply IH; [by apply flushing_input|done|done|].
  intros w' H1 H2. by apply HQ.
Qed.

Lemma flush_message fuel v n w p fs Q F :
  flushing w0 q [] (x0 :: ms) 0 w -> stream w = ([], reads p ++ fs, q_sent w) -> answers (m_inode x0) p ->
  (forall v' w', flushing w0 q [] ms 0 w' -> stream w' = ([], fs, q_sent w ++ [m_inode x0]) ->
     pwp (flush_one fuel q v' (n + confirmed p)) Q exits_2 F w') ->
  pwp (flush_one (rounds p + fuel) q v n) Q exits_2 F w.
Proof using Hq.
  intros Hfl Hs (Ha & Ho & Hc) HQ. injection Hs as Hi Hf.
  replace (rounds p + fuel)%nat with (S (rp_wait p + S (rp_busy p + fuel))) by (unfold rounds; lia).
  apply flush_first; [done|]. intros w1 H1 Hs1. unfold stream in Hs1. cbn in Hs1. rewrite Hi, Hf in Hs1.
  apply (wait_reads _ _ _ _ 0 w1 ([rp_accept p; []] ++ replicate (rp_busy p) [] ++ [rp_outcome p; []] ++ fs)); [done|done| |].
  { unfold stream. injection Hs1 as -> -> ->. unfold reads. by rewrite <- !app_assoc. }
  injection Hs1 as _ _ Hs1. rewrite Hs1. intros w2 H2 Hs2. injection Hs2 as Hi2 Hf2 Hs2.
  unfold reading. eapply answer_round; [done|done|exact Ha|]. intros rest Hr.
  eapply pwp_mono; [apply (flushing_accept w0 q Hq x); [by apply flushing_input|done]| |done].
  intros k w3 (-> & H3 & Hf3). split; [done|]. cbn [fst snd]. change (if 0 <? 0 then n + 1 else n) with n.
  destruct (frame_stream _ _ Hf3) as [Hs3 _]. unfold stream in Hs3. cbn in Hs3. injection Hs3 as _ _ Hs3.
  apply (flush_round (c := 1)); [by apply flushing_input|lia|].
  eapply (wait_reads _ _ _ _ 1); [by apply flushing_input|lia|done|].
  intros w4 H4 Hs4. cbn in Hs4. rewrite Hs3, Hs2 in Hs4. injection Hs4 as Hi4 Hf4 Hs4. unfold reading.
  eapply answer_round; [done|done|exact Ho|]. intros rest' Hr'.
  eapply pwp_mono; [apply (flushing_outcome w0 q Hq x x0 ms); [by apply flushing_input|done..]| |done].
  intros k w5 (-> & H5 & Hf5). split; [done|]. cbn [fst snd].
  destruct (frame_stream _ _ Hf5) as [Hs5 _]. unfold stream in Hs5. cbn in Hs5. injection Hs5 as _ _ Hs5.
  replace (if 0 <? (if rp_code p =? 0 then 1 else 0) then n + 1 else n) with (n + confirmed p).
  - apply HQ; [by apply flushing_input|]. unfold stream. cbn. by rewrite Hs5, Hs4.
  - unfold confirmed. destruct (rp_code p =? 0); cbn; lia.
Qed.
End rounds.

(** ** Queues *)
Definition all_rounds (ps : list reply) : nat := sum_list (rounds <$> ps).
Definition confirmations (ps : list reply) : Z := foldr (fun p z => confirmed p + z) 0 ps.
Definition all_reads (ps : list reply) : list bytes := concat (reads <$> ps).

Lemma all_rounds_app ps ps' : all_rounds (ps ++ ps') = (all_rounds ps + all_rounds ps')%nat.
Proof. unfold all_rounds. induction ps as [|p ps IH]; cbn in *; lia. Qed.

Lemma confirmations_app ps ps' : confirmations (ps ++ ps') = confirmations ps + confirmations ps'.
Proof. unfold confirmations. induction ps as [|p ps IH]; cbn in *; lia. Qed.

Lemma flush_one_ends w0 q ms ps fuel v n w fs :
  (1 <= q)%nat -> flushing w0 q [] ms 0 w -> stream w = ([], all_reads ps ++ fs, q_sent w) ->
  Forall2 answers (map m_inode ms) ps -> (all_rounds ps <= fuel)%nat ->
  pwp (flush_one fuel q v n)
    (fun r w' => flushing w0 q [] [] 0 w' /\ stream w' = ([], fs, q_sent w ++ map m_inode ms) /\
       r.1 = n + confirmations ps) exits_2 no_fault w.
Proof.
  intros Hq. revert ps fuel v n w. induction ms as [|x0 ms IH]; intros ps fuel v n w Hfl Hs Ha Hfuel.
  - inversion Ha; subst. destruct (fl_queue _ _ _ _ _ _ Hfl) as (l & Hl & _).
    destruct (flushing_send w0 q Hq _ _ _ _ l Hfl Hl) as (_ & Et & _). cbn [length] in Et.
    destruct fuel; cbn [flush_one]; apply pwp_bind; (eapply at_que; [apply at_refl|exact Hl|]);
      (replace (0 <? l_total l) with false by (symmetry; apply Z.ltb_ge; lia)); pwp_steps;
      (split_and!; [done|by rewrite app_nil_r|cbn; lia]).
  - inversion Ha as [|? p ? ps' Hp Hps]; subst.
    change (all_rounds (p :: ps')) with (rounds p + all_rounds ps')%nat in Hfuel.
    replace fuel with (rounds p + (fuel - rounds p))%nat by lia.
    eapply flush_message; [done|exact Hfl|rewrite Hs; unfold all_reads; cbn; by rewrite <- app_assoc|exact Hp|].
    intros v' w' Hfl' Hs'. injection Hs' as Hi' Hf' Hs'.
    eapply pwp_mono; [apply (IH ps'); [done|unfold stream; by rewrite Hi', Hf'|done|lia]| |done].
    intros r w2 (? & Hs2 & Hr). split_and!; [done| |change (confirmations (p :: ps')) with (confirmed p + confirmations ps'); lia]. rewrite Hs2, Hs', <- app_assoc. done.
Qed.

(** The messages of the queues from [q] down to the first. *)
Fixpoint flush_order (q : nat) (ql : list msglist) : list ino :=
  match q with
  | O => []
  | S q' => default [] (inodes <$> ql !! q) ++ flush_order q' ql
  end.

Lemma flush_order_ext q ql ql' :
  (forall i, (1 <= i <= q)%nat -> ql' !! i = ql !! i) -> flush_order q ql' = flush_order q ql.
Proof.
  induction q as [|q IH]; intros H; [done|]. cbn [flush_order]. rewrite H by lia. rewrite IH; [done|].
  intros i Hi. apply H. lia.
Qed.

(** No message is with the sender. *)
Record resting (q : nat) (w : qm) : Prop := {
  rt_inv : qinv w;
  rt_act : exists la, q_list w !! ACT = Some la /\ msgs la = [];
  rt_conf : forall i l, (1 <= i <= q)%nat -> q_list w !! i = Some l -> l_conf l = 0;
}.

Lemma flush_from_ends q fuel ps v n w fs :
  resting q w -> (q <= q_countq w)%nat -> stream w = ([], all_reads ps ++ fs, q_sent w) ->
  Forall2 answers (flush_order q (q_list w)) ps -> (all_rounds ps <= fuel)%nat ->
  pwp (flush_from fuel q v n)
    (fun r w' => resting 0 w' /\ stream w' = ([], fs, q_sent w ++ flush_order q (q_list w)) /\
       r = n + confirmations ps /\
       match q with O => q_list w' = q_list w | S _ => exists l, q_list w' !! IN = Some l /\ msgs l = [] end) exits_2 no_fault w.
Proof.
  revert ps v n w. induction q as [|q IH]; intros ps v n w Hr Hq Hs Ha Hfuel; cbn [flush_from flush_order].
  { inversion Ha; subst. pwp_steps. split_and!; [done|by rewrite app_nil_r|cbn; lia|done]. }
  destruct (que_at (S q) w (rt_inv _ _ Hr)) as [l Hl]; [lia|].
  cbn [flush_order] in Ha. rewrite Hl in Ha |- *. cbn [fmap option_fmap option_map default] in *.
  apply Forall2_app_inv_l in Ha as (ps1 & ps2 & Ha1 & Ha2 & ->).
  assert (all_rounds ps1 + all_rounds ps2 <= fuel)%nat as Hf2.
  { by rewrite all_rounds_app in Hfuel. }
  apply pwp_bind. eapply pwp_mono; [apply (flush_one_ends w (S q) (msgs l) ps1 _ _ _ _ (all_reads ps2 ++ fs)); [lia| | |done|lia]| |done].
  - destruct Hr as [Hi Hact Hc]. split; [done|done| |done|done]. exists l. split_and!; [done|done|]. eapply Hc; [|done]. lia.
  - rewrite Hs. unfold all_reads. by rewrite fmap_app, concat_app, <- app_assoc.
  - intros r w1 (Hfl & Hs1 & Hr1).
    assert (forall i, (1 <= i <= q)%nat -> q_list w1 !! i = q_list w !! i) as Hsame
      by (intros i Hi; apply (fl_before _ _ _ _ _ _ Hfl); lia).
    eapply pwp_mono; [apply (IH ps2); [| | | |lia]| |done].
    + destruct Hfl as [H1 H2 _ _ _]. split; [done|done|]. intros i l1 Hi Hl1. rewrite Hsame in Hl1 by done.
      eapply (rt_conf _ _ Hr); [|done]. lia.
    + rewrite (fl_countq _ _ _ _ _ _ Hfl). lia.
    + injection Hs1 as H1 H2 H3. unfold stream. by rewrite H1, H2.
    + by rewrite (flush_order_ext q (q_list w)).
    + intros r2 w2 (H1 & H2 & H3 & H4). injection Hs1 as _ _ Hs1. split_and!; [done| | |].
      * rewrite H2, Hs1, (flush_order_ext q (q_list w)), <- app_assoc by done. done.
      * rewrite H3, Hr1, confirmations_app. lia.
      * destruct q as [|q]; [|exact H4]. rewrite H4. destruct Hfl as [_ _ (l1 & ? & ? & _) _ _]. by exists l1.
Qed.

(** C13: Flushing ends when the sender answers: from a state in which no message
    is with the sender and no queue counts a confirmation ([resting]: [act] is
    empty and every [conf] is 0), if every message that is waiting
    gets, after any number of polls that find nothing, the line that accepts
    it and later, again after any number of polls, its outcome (delivered, or
    any error), then as many rounds as there are polls suffice for
    [flush_queue] to return: every message has been sent once, the longest
    delay first and in the order of its queue, the result counts the
    confirmed ones, no message is left with the sender and the incoming queue
    is empty; a failing system call ends the process with status 2 instead. *)
Theorem flush_queue_terminates fuel ps w :
  resting (q_countq w) w -> q_in w = [] -> q_feed w = all_reads ps ->
  Forall2 answers (flush_order (q_countq w) (q_list w)) ps -> (all_rounds ps <= fuel)%nat ->
  pwp (flush_queue fuel)
    (fun r w' => resting 0 w' /\ q_sent w' = q_sent w ++ flush_order (q_countq w) (q_list w) /\
       q_feed w' = [] /\ r = confirmations ps /\ exists l, q_list w' !! IN = Some l /\ msgs l = [])
    exits_2 no_fault w.
Proof.
  intros Hr Hi Hf Ha Hfuel. unfold flush_queue. pwp_steps.
  pose proof (qi_two _ _ _ (qv_queues _ (rt_inv _ _ Hr))) as H2.
  eapply pwp_mono; [apply (flush_from_ends _ fuel ps _ _ _ []); [done|done| |done|done]| |done].
  - unfold stream. by rewrite Hi, Hf, app_nil_r.
  - intros r w' (H1 & Hs & -> & H3). injection Hs as _ -> ->. split_and!; [done|done|done|lia|].
    destruct (q_countq w); [lia|done].
Qed.

(** ** A spool with two messages, the second refused *)
Definition waiting_ents : gmap path ino :=
  <[("./in/", "5")%string := 5]> (<[("./in/", "9")%string := 9]> ∅).

Definition waiting_replies : list reply :=
  [Build_reply 2 (codes "5 1 sending" ++ [10]) 1 (codes "5 0 ok" ++ [10]) 0;
   Build_reply 0 (codes "9 1 sending" ++ [10]) 3 (codes "9 2 refused" ++ [10]) 2].

Definition waiting_list : list msglist :=
  [Build_msglist None 0 (-1) 0 0 act_dir 0;
   Build_msglist (Some [Build_msg 5 (Build_timeval 1 0) 1; Build_msg 9 (Build_timeval 2 0) 1]) 4 2 0 0 in_dir_name 0;
   Build_msglist None 0 0 0 0 df1 60].

Definition waiting : qm :=
  Build_qm (Build_os {[act_dir; in_dir_name; drop_dir; fail_dir; df_dir; df1]} waiting_ents ∅ [] [])
    waiting_list 3 2 (heap_create 16) [] [] (all_reads waiting_replies) [] 77 [] true 0 false false false false (None, None).

Ltac waiting_queue H :=
  match type of H with waiting_list !! ?q = Some _ =>
    destruct q as [|[|[|q]]]; cbn in H; [injection H as <-..|done]
  end.

Lemma waiting_queues : queues_ok 2 waiting_list waiting_ents.
Proof.
  split.
  - done.
  - lia.
  - repeat (apply Forall_cons; split; [unfold ml_ok; cbn; lia|]). constructor.
  - repeat (apply Forall_cons; split; [by apply (bool_decide_unpack _)|]). constructor.
  - intros la H. by injection H as <-.
  - by apply (bool_decide_unpack _).
  - by apply (bool_decide_unpack _).
  - intros la x H Hx. injection H as <-. by apply elem_of_nil in Hx.
  - intros la q l H Hq Hl. injection H as <-. waiting_queue Hl; done || lia.
  - intros q l n Hq Hl Hn. waiting_queue Hl; [lia|..].
    + repeat (apply elem_of_cons in Hn as [->|Hn]; [by vm_compute|]). by apply elem_of_nil in Hn.
    + by apply elem_of_nil in Hn.
  - intros la n H Hn. injection H as <-. by apply elem_of_nil in Hn.
Qed.

Lemma waiting_resting : resting 2 waiting.
Proof.
  split; [split; [|apply waiting_queues|split; cbn; [lia..|intros j Hj; lia]|constructor]| |].
  - change (disk_ok waiting_ents). split; unfold waiting_ents.
    + intros d nm i Hd Hd' H. map_entry H; by vm_compute.
    + intros nm i H E. map_entry H; by vm_compute.
    + intros p p' i H H' Ha Ha'. map_entry H; map_entry H'; done.
    + intros p i H. map_entry H; by vm_compute.
  - by eexists.
  - intros i l Hi Hl. change (waiting_list !! i = Some l) in Hl. by waiting_queue Hl.
Qed.

Lemma waiting_answers : Forall2 answers [5; 9] waiting_replies.
Proof.
  constructor; [|constructor; [|constructor]]; (split_and!; [do 2 eexists..|done]);
    (split_and!; [vm_compute; reflexivity|apply Nat.ltb_lt; vm_compute; reflexivity|reflexivity]).
Qed.

Lemma flush_queue_terminates_witness :
  pwp (flush_queue 10)
    (fun r w' => resting 0 w' /\ q_sent w' = [] ++ [5; 9] /\
       q_feed w' = [] /\ r = confirmations waiting_replies /\ exists l, q_list w' !! IN = Some l /\ msgs l = [])
    exits_2 no_fault waiting.
Proof.
  apply (flush_queue_terminates 10 waiting_replies waiting);
    [exact waiting_resting|reflexivity|reflexivity|exact waiting_answers|vm_compute; lia].
Defined.

(** Run: one delivered, one deferred. *)
Lemma waiting_flushed :
  match flush_queue 10 waiting with
  | (Done r, w) => (r, map inodes (q_list w), nodecount (q_heap w)) = (1, [[]; []; [9]], 1%nat)
  | _ => False
  end.
Proof. by vm_compute. Qed.
