(* ===== verification/StartQue.v ===== *)
(** * The queue manager: from [main] to its loop

    quemngr/quemngr.c, [main] up to [for (;;)]: options, the working
    directory, [initqueue], the pipes, the sender as a child, the trigger. *)

From S2P Require Import Prelude Heap Posix Process Utils QueControl Quemngr QueProps QueSend QueMain Spool Init.
From stdpp Require Import sorting.

#[local] Open Scope Z_scope.

(** The queue manager's data and its process. *)
Record boot := { b_q : qm; b_p : proc }.

#[export] Instance boot_rebuild : Rebuild boot := fun b => Build_boot (b_q b) (b_p b).
#[export] Instance upd_b_q : Updater b_q. Proof. solve_updater. Defined.
#[export] Instance upd_b_p : Updater b_p. Proof. solve_updater. Defined.

Definition on_q {A} (m : QM A) : PR boot A := plift b_q (fun q b => b <| b_q := q |>) m.
Definition on_p {A} (m : PC A) : PR boot A := plift b_p (fun p b => b <| b_p := p |>) m.

Definition quemngr_opts : bytes := codes "nwtsd".
Definition opt_n : Z := 110.
Definition opt_w : Z := 119.
Definition opt_t : Z := 116.
Definition opt_s : Z := 115.

Section setup.
Context {RD : Readdir} {QS : Qsort}.

(** [mkfifo] may also find the trigger there; installing signal handlers does
    not fail. *)
Definition quemngr_setup (argv : list bytes) : PR boot unit :=
  let o := getopt quemngr_opts argv in
  assigned (optarg opt_w o) (fun workdir =>
    on_p pc_must;;                                   (* chdir *)
    on_q initqueue;;
    on_p pc_pipe;;                                   (* signalpipe *)
    s ← on_p (spawn (assigned (optarg opt_s o) (fun sender =>
                     assigned (optarg opt_n o) (fun cts_name => execlp [sender; sender; cts_name]))));
    on_q (pmodify (fun w => w <| q_childpid := s.1.1 |>));;
    assigned (optarg opt_t o) (fun trigger =>
      on_p pc_must;;                                 (* mkfifo *)
      on_p (pc_must;; pc_add (Opened trigger));;     (* open *)
      on_p (pc_must;; pc_must;; pc_must);;           (* fcntl, fcntl, fdopen *)
      on_q (pmodify main_start))).

Lemma minv_childpid w z : minv (main_start w) -> minv (main_start (w <| q_childpid := z |>)).
Proof. intros [[[] ? ?] ?]. by split. Qed.

(** C14: Start-up ends in the state the main loop is safe from: with the options
    it needs, standard input and output open, a consistent spool and [qsort]
    putting the queue [act] before [in], [main]
    reaches its loop with the invariant established and every waiting message
    queued, and the sender runs with the numbers of messages on its standard
    input and its responses on its standard output, each pipe held only by
    its two users; or it exits with status 2, no message file lost; or it
    dereferences a null pointer, which it does only if a call on the files
    fails or the directory [in] does not exist. *)
Theorem quemngr_starts argv workdir trigger sender cts_name b :
  let o := getopt quemngr_opts argv in
  optarg opt_w o = Some workdir -> optarg opt_t o = Some trigger ->
  optarg opt_s o = Some sender -> optarg opt_n o = Some cts_name ->
  before_init (b_q b) -> act_first (q_os (b_q b)) -> is_Some (pr_fds (b_p b) !! 0) -> is_Some (pr_fds (b_p b) !! 1) ->
  pipes_below (pr_pipes (b_p b)) (pr_fds (b_p b)) -> 0 < pr_newpid (b_p b) ->
  pwp (quemngr_setup argv)
    (fun _ b' =>
       minv (b_q b') /\ keeps_all (b_q b) (b_q b') /\ q_childpid (b_q b') = pr_newpid (b_p b) /\
       (forall d n, queue_dir (q_os (b_q b)) d -> os_ents (q_os (b_q b)) !! msg_path d n = Some n ->
          waiting_in d n (b_q b')) /\
       exists c w1 r2 n, pr_children (b_p b') = pr_children (b_p b) ++ [c] /\
         wired n (pr_fds (b_p b')) (c_fds c) w1 r2 /\
         runs [sender; sender; cts_name] c)
    (fun c b' => c = 2 /\ keeps_all (b_q b) (b_q b'))
    (fun f => f = NullDeref /\ (faulty (q_os (b_q b)) \/ in_dir_name ∉ os_dirs (q_os (b_q b)))) b.
Proof.
  intros o Hw Ht Hs Hn Hb Hfirst H0 H1 Hp Hpid. unfold quemngr_setup. fold o. rewrite Hw, Ht, Hs, Hn. cbn [assigned].
  apply pwp_bind, pwp_lift, pc_must_wp.
  2: { intros fl. split; [done|]. by apply disk_view_keeps; [apply Hb|]. }
  intros fl. apply pwp_bind, pwp_lift. eapply pwp_mono; [by apply initqueue_ok| |].
  2: { intros c w [-> Hk]. by split. }
  intros z w Hst. destruct (Hst) as [Hm Hk _ Hwait _ _]. cbn.
  apply pwp_bind, pwp_lift, pc_pipe_wp; [|by intros]. cbn [pr_fds pr_pipes].
  intros rs ws fl2 Hrs Hws Hne. change (pr_fds (b_p b) !! rs = None) in Hrs. change (pr_fds (b_p b) !! ws = None) in Hws.
  set (p2 := _ <| pr_pipes := _ |>). destruct H0 as [d0 E0], H1 as [d1 E1].
  apply pwp_bind, pwp_lift. eapply spawn_wp; [| | |apply execlp_replaces| |].
  { cbn. rewrite !lookup_insert_ne by congruence. by rewrite E0. }
  { cbn. rewrite !lookup_insert_ne by congruence. by rewrite E1. }
  { done. }
  2: { intros p'. by split. }
  intros w1 r2 p3 Hsp. destruct (spawned_wired _ _ _ _ _ Hsp) as (c & Hc & Hwi & Hend).
  { by apply pipes_below_pipe. }
  apply pwp_bind, pwp_lift, pwp_modify. cbn [fst snd].
  apply pwp_bind, pwp_lift, pc_must_wp; [|by intros; split; [|destruct Hk]]. intros fl3.
  apply pwp_bind, pwp_lift, pwp_bind, pc_must_wp; [|by intros; split; [|destruct Hk]]. intros fl4.
  unfold pwp at 1, pc_add. destruct (new_fd_fresh (pr_fds p3)) as [Hfd _].
  apply pwp_bind, pwp_lift, pwp_bind, pc_must_wp; [|by intros; split; [|destruct Hk]]. intros fl5.
  apply pwp_bind, pc_must_wp; [|by intros; split; [|destruct Hk]]. intros fl6.
  apply pc_must_wp; [|by intros; split; [|destruct Hk]]. intros fl7.
  apply pwp_lift, pwp_modify. cbn. split_and!; [by apply minv_childpid|by destruct Hk|done|done|].
  exists c, w1, r2, (S (pr_pipes (b_p b))). split_and!; [done| |done].
  apply wired_open; [exact Hwi|exact Hfd].
Qed.
End setup.

(** ** A start *)
Definition sample_argv : list bytes :=
  [codes "-n"; codes "cts1"; codes "-w/var/spool/iec"; codes "-t"; codes "trigger"; codes "-s"; codes "sender"; codes "-d2"].

Definition sample_proc : proc :=
  Build_proc {[0 := Inherited; 1 := Inherited; 2 := Inherited]} 0 [] 4711 [] [].

Definition sample_boot : boot := Build_boot crashed sample_proc.

Lemma sample_pipes : pipes_below (pr_pipes sample_proc) (pr_fds sample_proc).
Proof.
  intros fd k. cbn. intros [H|H]; repeat (apply lookup_insert_Some in H as [[_ E]|[_ H]]; [done|]);
    by apply lookup_singleton_Some in H as [_ E].
Qed.

Lemma quemngr_starts_witness :
  pwp (@quemngr_setup plain_readdir merge_Qsort sample_argv)
    (fun _ b' =>
       minv (b_q b') /\ keeps_all (b_q sample_boot) (b_q b') /\ q_childpid (b_q b') = pr_newpid (b_p sample_boot) /\
       (forall d n, queue_dir (q_os (b_q sample_boot)) d -> os_ents (q_os (b_q sample_boot)) !! msg_path d n = Some n ->
          waiting_in d n (b_q b')) /\
       exists c w1 r2 n, pr_children (b_p b') = pr_children (b_p sample_boot) ++ [c] /\
         wired n (pr_fds (b_p b')) (c_fds c) w1 r2 /\
         runs [codes "sender"; codes "sender"; codes "cts1"] c)
    (fun c b' => c = 2 /\ keeps_all (b_q sample_boot) (b_q b')) 
    (fun f => f = NullDeref /\ (faulty (q_os (b_q sample_boot)) \/ in_dir_name ∉ os_dirs (q_os (b_q sample_boot)))) sample_boot.
Proof.
  apply (@quemngr_starts plain_readdir merge_Qsort sample_argv
           (codes "/var/spool/iec") (codes "trigger") (codes "sender") (codes "cts1") sample_boot);
    [reflexivity..|exact crashed_before|vm_compute; reflexivity|by eexists|by eexists|exact sample_pipes|reflexivity].
Defined.

(** Run: the sender's descriptors. *)
Lemma sample_started :
  match @quemngr_setup plain_readdir merge_Qsort sample_argv sample_boot with
  | (Done _, b) => map (fun c => (c_fds c !! 0, c_fds c !! 1)) (pr_children (b_p b)) = [(Some (PipeRead 1), Some (PipeWrite 2))]
  | _ => False
  end.
Proof. by vm_compute. Qed.
