(* ===== verification/QueRun.v ===== *)
(** * The queue manager: runs

    Any sequence of passes of the main loop, of SIGHUP and SIGUSR1, and of files
    created or renamed in [drop]:
    the invariant holds throughout, and a message file only disappears after
    its number has been written to the sender. *)

From S2P Require Import Prelude Heap Posix Utils QueControl Quemngr QueProps QueSend QueMain QueClaims Spool Init.

#[local] Open Scope Z_scope.

(** ** Messages are not lost before they are sent *)

(** The messages with the sender have been written to it. *)
Definition act_sent (w : qm) : Prop := forall la, q_list w !! ACT = Some la -> inodes la ⊆ q_sent w.

(** Every message that had a file has it still, or has been sent. *)
Record kept (w w' : qm) : Prop := {
  kt_sent : q_sent w ⊆ q_sent w';
  kt_stored : keeps_stored (os_ents (q_os w)) (os_ents (q_os w')) (fun i => i ∈ q_sent w');
}.

#[export] Instance kept_preorder : PreOrder kept.
Proof.
  split.
  - intros w. split; [done|apply keeps_stored_refl].
  - intros w1 w2 w3 [S1 K1] [S2 K2]. split; [by etrans|]. intros i Hi.
    destruct (K1 i Hi) as [H|H]; [by apply K2|right; by apply S2].
Qed.

(** Where a program may stand between two operations, and what it may leave
    behind when it ends in the middle of one. *)
Record sound (w w' : qm) : Prop := { sd_inv : qinv w'; sd_act : act_sent w'; sd_kept : kept w w' }.
Record left_over (w w' : qm) : Prop := { lo_disk : disk_ok (os_ents (q_os w')); lo_kept : kept w w' }.

Lemma sound_left w w' : sound w w' -> left_over w w'.
Proof. intros [[Hd _ _ _] _ Hk]. by split. Qed.

Lemma sound_refl w : qinv w -> act_sent w -> sound w w.
Proof. by split. Qed.

Lemma sound_trans w w1 w2 : sound w w1 -> sound w1 w2 -> sound w w2.
Proof. intros [_ _ K1] [? ? K2]. split; [done|done|by etrans]. Qed.

Lemma left_trans w w1 w2 : sound w w1 -> left_over w1 w2 -> left_over w w2.
Proof. intros [_ _ K1] [? K2]. split; [done|by etrans]. Qed.

Lemma survives_left w w' : survives w w' (fun i => i ∈ q_sent w) -> left_over w w'.
Proof. intros [Hd Hn Hs]. split; [done|]. split; rewrite Hn; done. Qed.

Lemma survives_all_left w w' : survives w w' (fun _ => False) -> left_over w w'.
Proof. intros Hs. by eapply survives_left, survives_weaken. Qed.

(** [m] keeps the messages, whether it returns or not. *)
Definition keeps_from {A} (w : qm) (m : QM A) : Prop := ends m (fun _ w' => sound w w') (left_over w) w.
Definition careful {A} (m : QM A) : Prop := forall w, qinv w -> act_sent w -> keeps_from w m.

Lemma keeps_from_bind {A B} (m : QM A) (k : A -> QM B) w :
  keeps_from w m ->
  (forall a w', m w = (Done a, w') -> sound w w' -> keeps_from w' (k a)) -> keeps_from w (m ≫= k).
Proof.
  intros Hm Hk. unfold keeps_from, ends, mbind, pr_bind in *. destruct (m w) as [[a|f|c] w1] eqn:E; [|done..].
  specialize (Hk a w1 eq_refl Hm). unfold keeps_from, ends in Hk.
  destruct (k a w1) as [[b|f|c] w2]; [by eapply sound_trans|by eapply left_trans..].
Qed.

Lemma careful_ret {A} (a : A) : careful (mret a).
Proof. by split. Qed.

Lemma careful_bind {A B} (m : QM A) (k : A -> QM B) : careful m -> (forall a, careful (k a)) -> careful (m ≫= k).
Proof.
  intros Hm Hk w Hi Ha. apply keeps_from_bind; [by apply Hm|]. intros a w1 _ [? ? _]. by apply Hk.
Qed.

Lemma careful_gets {A} (f : qm -> A) : careful (pgets f).
Proof. by split. Qed.

Lemma careful_when b m : careful m -> careful (pwhen b m).
Proof. destruct b; [done|]. intros _. apply careful_ret. Qed.

Lemma careful_fault {A} f : careful (pfault f : QM A).
Proof. intros w Hi Ha. by apply sound_left, sound_refl. Qed.
Lemma careful_exit {A} c : careful (pexit c : QM A).
Proof. intros w Hi Ha. by apply sound_left, sound_refl. Qed.

(** What the messages depend on. *)
Definition matter (w : qm) := (q_os w, q_list w, q_countq w, q_heap w, q_sent w).

Lemma matter_careful w w' : matter w' = matter w -> qinv w -> act_sent w -> sound w w'.
Proof.
  intros [= Eo El Ec Eh Es] [Hd Hk Hh Ht] Ha. split.
  - split; by rewrite ?Eo, ?El, ?Ec, ?Eh.
  - intros la. rewrite El, Es. apply Ha.
  - split; [by rewrite Es|]. rewrite Eo. apply keeps_stored_refl.
Qed.

Lemma careful_modify f : (forall w, matter (f w) = matter w) -> careful (pmodify f).
Proof. intros Hf w Hi Ha. by apply matter_careful. Qed.

Lemma careful_que i : careful (que i).
Proof.
  intros w Hi Ha. unfold keeps_from, ends, que.
  destruct (q_list w !! i); [by apply sound_refl|by apply sound_left, sound_refl].
Qed.

(** Calls that leave the files alone. *)
Lemma careful_os {A} (m : PR os A) :
  (forall o, os_ents (m o).2 = os_ents o) -> careful (on_os m).
Proof.
  intros Hm w Hi Ha. specialize (Hm (q_os w)). unfold keeps_from, ends, on_os, plift.
  destruct (m (q_os w)) as [r o]. cbn in Hm. assert (sound w (w <| q_os := o |>)) as Hs.
  { split; [by apply qinv_os|done|]. split; [done|]. cbn. rewrite Hm. apply keeps_stored_refl. }
  destruct r; [done|by apply sound_left..].
Qed.

Lemma fails_ents o : os_ents (fails o).2 = os_ents o.
Proof. unfold fails. by destruct (os_faults o). Qed.

Lemma careful_fails : careful (on_os fails).
Proof. apply careful_os, fails_ents. Qed.

Lemma careful_must : careful must_succeed.
Proof. apply careful_bind; [apply careful_fails|intros f]. apply careful_when, careful_exit. Qed.

Lemma careful_now : careful (on_os getmonotime).
Proof.
  apply careful_os. intros o. unfold getmonotime, clock_gettime, mbind, pr_bind, fails.
  destruct (os_faults o) as [|[] fs]; cbn; try done; by destruct (os_clock o) as [|? [|]].
Qed.

(** ** The operations *)
Lemma answered_act cq x r ql la la' :
  ql !! ACT = Some la -> (1 <= m_state x)%nat -> ml_ok la -> NoDup (inodes la) ->
  answered cq x r ql !! ACT = Some la' -> inodes la' ⊆ inodes la.
Proof.
  intros Hla Hx Hk Hn Hla'. unfold answered in Hla'.
  assert (gone (m_state x) (m_inode x) ql !! ACT = Some la' -> inodes la' ⊆ inodes la) as Hgone.
  { intros Hg. unfold gone in Hg. rewrite !list_lookup_alter_ne in Hg by (unfold ACT; lia).
    rewrite (alter_look (fun l => (elem_del l (m_inode x)).1) ACT ql la Hla) in Hg. injection Hg as <-.
    destruct (elem_del_without la (m_inode x) Hk Hn) as (_ & Em & _). intros i. unfold inodes. rewrite Em.
    by intros [? _]%without_inodes. }
  destruct (r =? 0); [by apply Hgone|]. destruct (r =? 1).
  { rewrite list_lookup_alter_ne in Hla' by (unfold ACT; lia). by simplify_eq. }
  destruct (_ =? _)%nat; [by apply Hgone|]. apply Hgone. unfold added in Hla'.
  by rewrite list_lookup_alter_ne in Hla' by (unfold ACT; lia).
Qed.

Lemma careful_response n r : careful (check_response n r).
Proof.
  intros w Hi Ha. destruct (Hi) as [Hd Hk Hh _]. apply ends_pwp, check_response_wp; [done|..].
  - intros la Hla Hn. by apply sound_refl.
  - intros la x w' Hla Hx Hxn Hr Hat. destruct (answered_ok _ _ _ la x r Hd Hk Hla Hx) as [Hd' Hk'].
    pose proof (answered_stored _ _ _ la x r Hd Hk Hla Hx) as Hs.
    destruct (act_entry _ _ _ _ _ Hk Hla Hx) as (_ & Hq & _).
    destruct (Hat) as [El He _ _ Hf _]. assert (q_sent w' = q_sent w) as Es by (unfold frame in Hf; by injection Hf).
    assert (m_inode x ∈ q_sent w) as Hsent.
    { apply (Ha la Hla). apply list_elem_of_fmap. by exists x. }
    split; [by eapply at_qinv| |].
    + intros la'. rewrite El, Es. intros Hla'. etrans; [|by apply (Ha la)]. eapply (answered_act _ x r); [done|lia| | |done].
      * by eapply (Forall_lookup_1 _ _ _ _ (qi_ok _ _ _ Hk)).
      * by eapply (Forall_lookup_1 _ _ _ _ (qi_nodup _ _ _ Hk)).
    + split; [by rewrite Es|]. rewrite He, Es. intros i Hin. destruct (Hs i Hin) as [?|[_ ->]]; auto.
  - intros la x l' w' Hla Hx Hxn Hr0 Hr1 Hlast Hl' Ht. destruct (answered_ok _ _ _ la x r Hd Hk Hla Hx) as [Hd' Hk'].
    pose proof (answered_stored _ _ _ la x r Hd Hk Hla Hx) as Hs.
    destruct (act_entry _ _ _ _ _ Hk Hla Hx) as (_ & Hq & _).
    destruct (Ht) as [El He _ _ Hf]. assert (q_sent w' = q_sent w) as Es by (unfold frame in Hf; by injection Hf).
    split; [eapply timed_qinv; [exact Hi|exact Ht|done..|cbn; lia]| |].
    + intros la'. rewrite El, Es. intros Hla'. etrans; [|by apply (Ha la)]. eapply (answered_act _ x r); [done|lia| | |done].
      * by eapply (Forall_lookup_1 _ _ _ _ (qi_ok _ _ _ Hk)).
      * by eapply (Forall_lookup_1 _ _ _ _ (qi_nodup _ _ _ Hk)).
    + split; [by rewrite Es|]. rewrite He, Es. intros i Hin. destruct (Hs i Hin) as [?|[? _]]; [by left|done].
  - intros la x w' Hla Hx Hxn Hs. apply survives_left. eapply survives_weaken; [exact Hs|]. intros i [_ ->].
    apply (Ha la Hla). rewrite <- Hxn. apply list_elem_of_fmap. by exists x.
Qed.

Lemma send_careful w q n l :
  qinv w -> act_sent w -> (1 <= q)%nat -> q_list w !! q = Some l -> n ∈ inodes l ->
  keeps_from w (send_message q n).
Proof.
  intros Hi Ha Hq Hl Hn. destruct (Hi) as [Hd Hk Hh Ht]. destruct (act_lookup _ _ _ Hk) as [la Hla].
  eapply ends_pwp, send_message_wp; [done..| |by intros; apply survives_all_left]. intros w' Hfree Hat. destruct (Hat) as [El He Hh' _ Hf].
  assert (q_sent w' = q_sent w ++ [n]) as Es by (unfold frame in Hf; cbn in Hf; by injection Hf).
  assert (q_countq w' = q_countq w) as Ec by (unfold frame in Hf; cbn in Hf; by injection Hf).
  split.
  - eapply at_qinv; [|exact Hat| |by eapply queues_handed]; [by split|]. eapply disk_link; [done|]. by eapply qi_files.
  - intros la'. rewrite El, Es. intros Hla'. destruct (handed_view _ _ _ _ _ _ _ Hk Hla') as (la0 & Hla0 & _ & _ & _ & Em).
    rewrite Hla in Hla0. injection Hla0 as <-. rewrite decide_True in Em by done. unfold inodes. rewrite Em, map_app.
    apply list_subseteq_app_iff_l. specialize (Ha la Hla). unfold inodes in Ha. set_solver.
  - split; [rewrite Es; set_solver|]. rewrite He. intros i Hin. left. by apply stored_link.
Qed.

Lemma send_next_careful win w q l :
  qinv w -> act_sent w -> (1 <= q)%nat -> q_list w !! q = Some l -> may_send win l = true ->
  keeps_from w (i ← GETFILENAME q; send_message q i).
Proof.
  intros Hi Ha Hq Hl Hm. unfold may_send in Hm. bool_hyps.
  destruct (next_message w q l Hi Hq Hl) as (n & Hn & E); [done|].
  apply ends_bind. unfold ends at 1. rewrite E. by apply (send_careful w q n l).
Qed.

Lemma careful_scan {RD : Readdir} {QS : Qsort} : careful scan_drop.
Proof.
  intros w Hi Ha. eapply ends_pwp, pwp_mono; [by apply scan_drop_wp| |by intros c w' [_ ?]; apply survives_all_left].
  intros k w' ([Hi' Hf Hs] & _ & [Eact _] & _).
  assert (q_sent w' = q_sent w) as Es.
  { pose proof (f_equal (fun p => p.1.1) Hf) as E. unfold frame in E. cbn in E. by injection E. }
  split; [done|intros la; rewrite Eact, Es; apply Ha|]. split; [by rewrite Es|].
  intros i Hin. destruct (Hs i Hin) as [?|[]]. by left.
Qed.

Lemma careful_extract : careful (on_heap heap_extract_min).
Proof.
  intros w Hi Ha. destruct (Hi) as [Hd Hk Hok Ht]. unfold keeps_from, ends, on_heap.
  destruct (decide (nodecount (q_heap w) = 0%nat)) as [E0|Hn].
  - unfold heap_extract_min, mbind, st_bind, gets. rewrite E0. cbn. apply matter_careful; [|done|done]. by destruct w.
  - pose proof (heap_extract_wp (q_heap w) Hok ltac:(lia)) as He. apply wp_done in He as (m & h & E & Hok' & Hp & _ & _).
    rewrite E. split; [|exact Ha|by split; [|apply keeps_stored_refl]].
    split; cbn; try done. rewrite Hp in Ht. by inversion_clear Ht.
Qed.

Lemma careful_fscanf : careful fscanf_response.
Proof. intros w Hi Ha. by apply matter_careful. Qed.

Lemma careful_responses fuel v n : careful (response_loop fuel v n).
Proof.
  revert v n. induction fuel as [|fuel IH]; intros v n; cbn [response_loop];
    (apply careful_bind; [apply careful_fscanf|]); intros [r|si sc dlen r]; try apply careful_ret;
    destruct (DESCMAX <=? dlen)%nat; try apply careful_fault;
    destruct (match si with Some i => Some i | None => v.1 end); try apply careful_fault;
    destruct (match sc with Some i => Some i | None => v.2 end); try apply careful_fault;
    (apply careful_bind; [apply careful_response|intros k]); [apply careful_fault|apply IH].
Qed.

Lemma careful_read v n : careful (read_responses v n).
Proof. apply careful_bind; [apply careful_gets|intros fuel]. apply careful_responses. Qed.

Lemma keeps_from_when (b : bool) (m : QM unit) w :
  qinv w -> act_sent w -> (b = true -> keeps_from w m) -> keeps_from w (pwhen b m).
Proof. intros Hi Ha Hm. destruct b; [by apply Hm|by apply careful_ret]. Qed.

(** An operation on a queue that was looked up. *)
Lemma careful_que_bind {A} q (k : msglist -> QM A) :
  (forall w l, qinv w -> act_sent w -> q_list w !! q = Some l -> keeps_from w (k l)) -> careful (que q ≫= k).
Proof.
  intros Hk w Hi Ha. apply ends_bind. unfold ends at 1, que.
  destruct (q_list w !! q) as [l|] eqn:Hl; [by apply Hk|by apply sound_left, sound_refl].
Qed.

(** One followed by careful ones. *)
Lemma keeps_from_careful {A B} (m : QM A) (k : A -> QM B) w :
  keeps_from w m -> (forall a, careful (k a)) -> keeps_from w (m ≫= k).
Proof. intros Hm Hk. apply keeps_from_bind; [done|]. intros a w1 _ [? ? _]. by apply Hk. Qed.

Lemma careful_flush_one fuel q v n : (1 <= q)%nat -> careful (flush_one fuel q v n).
Proof.
  intros Hq. revert v n. induction fuel as [|fuel IH]; intros v n; cbn [flush_one];
    apply careful_que_bind; intros w l Hi Ha Hl; (destruct (0 <? l_total l); [|by apply careful_ret]);
    (apply keeps_from_careful; [apply keeps_from_when; [done|done|intros Hm; by eapply send_next_careful]|intros []]);
    (apply careful_bind; [apply careful_read|intros r]); [apply careful_fault|apply IH].
Qed.

Lemma careful_flush fuel : careful (flush_queue fuel).
Proof.
  apply careful_bind; [apply careful_gets|intros q]. generalize (None : option Z, None : option Z) 0.
  induction q as [|q IH]; intros v n; cbn [flush_from]; [apply careful_ret|].
  apply careful_bind; [apply careful_flush_one; lia|intros r]. apply IH.
Qed.

Ltac careful_steps :=
  repeat first
    [ apply careful_ret | apply careful_gets | apply careful_fault | apply careful_exit | apply careful_now
    | apply careful_must | apply careful_extract | apply careful_scan | apply careful_flush | apply careful_read
    | apply careful_modify; by intros [] | apply careful_when | apply careful_que | apply careful_bind; [|intros ?]
    | case_match ].

Lemma careful_min_key : careful min_key.
Proof. unfold min_key. careful_steps. Qed.

Lemma careful_loop_head : careful loop_head.
Proof.
  unfold loop_head. apply careful_bind; [apply careful_gets|intros conn]. apply careful_when.
  apply careful_que_bind. intros w l Hi Ha Hl. apply keeps_from_careful.
  - destruct (may_send WINSIZE l) eqn:Hm.
    + apply keeps_from_bind; [by apply matter_careful|]. intros [] w1 [= <-] [Hi1 Ha1 _].
      by apply (send_next_careful WINSIZE _ IN l); [| |unfold IN; lia| |].
    + assert (careful (pwhen (l_total l =? l_send l) (pmodify (fun w => w <| q_fd0 := true |>)))) as H by careful_steps.
      by apply H.
  - intros _. pose proof careful_min_key. repeat first [apply careful_min_key|progress careful_steps].
Qed.

(** The timer that has expired is one of a queue other than [act]. *)
Lemma on_timeout_careful w :
  qinv w -> act_sent w -> q_minnode w = true -> (0 < nodecount (q_heap w))%nat -> keeps_from w on_timeout.
Proof.
  intros Hi Ha Hmin Hn. destruct (Hi) as [Hd Hk Hok Ht]. unfold on_timeout. apply ends_bind.
  unfold ends at 1, pgets. rewrite Hmin. cbn [negb]. apply ends_bind. unfold ends at 1, on_heap at 1.
  pose proof (heap_min_least _ Hok) as Hleast. unfold heap_min in Hleast.
  destruct (Nat.eqb_spec (nodecount (q_heap w)) 0); [lia|]. unfold hget.
  destruct (nodes (q_heap w) !! 1%nat) as [m|] eqn:E1; [|by apply sound_left, sound_refl]. destruct Hleast as (_ & Hin & _).
  pose proof (proj1 (Forall_forall _ _) Ht m Hin) as [Hq _].
  assert (w <| q_heap := q_heap w |> = w) as -> by by destruct w.
  apply keeps_from_bind; [by apply matter_careful|]. intros [] w1 [= <-] [Hi1 Ha1 _].
  assert (careful (on_heap heap_extract_min;; pskip)) as Hex by careful_steps.
  apply careful_que_bind; [|done..]. clear w Hi Ha Hmin Hn Hd Hk Hok Ht n E1 Hin Hi1 Ha1. intros w l Hi Ha Hl.
  destruct (elem_find_spec l (u64 (hinode m))) as [[E _]|(Hge & x & Hx & Hxn)].
  { rewrite E. cbn [Z.ltb Z.compare]. by apply Hex. }
  destruct (Z.ltb_spec (elem_find l (u64 (hinode m))) 0); [lia|]. apply keeps_from_when; [done|done|intros Hm].
  apply keeps_from_careful; [|by intros []]. eapply (send_careful w _ _ l); [done|done|lia|done|].
  rewrite <- Hxn. apply list_elem_of_fmap. exists x. split; [done|]. by eapply list_elem_of_lookup_2.
Qed.

Section runs.
Context {RD : Readdir} {QS : Qsort}.

Lemma careful_signal fuel c : careful (on_signal fuel c).
Proof. unfold on_signal, kill. careful_steps. Qed.

Lemma careful_signals fuel n : careful (read_signals fuel n).
Proof.
  induction n as [|n IH]; cbn [read_signals]; [apply careful_ret|].
  apply careful_bind; [apply careful_must|intros _]. apply careful_bind; [apply careful_gets|intros [|c s]]; [apply careful_fault|].
  apply careful_bind; [by apply careful_modify; intros []|intros _].
  apply careful_bind; [apply careful_signal|intros _]. apply IH.
Qed.

Lemma careful_ready fuel t r s : careful (on_ready fuel t r s).
Proof.
  unfold on_ready, on_trigger. repeat first [apply careful_signals|progress careful_steps].
Qed.

(** A pass keeps the messages and leaves consistent files, however it ends. *)
Lemma main_step_careful fuel p w : minv w -> act_sent w -> keeps_from w (main_step fuel p).
Proof.
  intros [Hh Hpoll] Ha. unfold main_step. apply ends_bind. unfold ends at 1, pgets.
  apply keeps_from_bind.
  { apply keeps_from_when; [apply Hh|done|]. intros _. by apply careful_loop_head; [apply Hh|]. }
  intros [] w1 E [Hi1 Ha1 K1].
  assert (hinv w1 /\ timer_known w1) as [Hh1 Ht1].
  { destruct (q_polling w) eqn:Hp; cbn [negb pwhen] in E; [injection E as <-; split; [done|by apply Hpoll]|].
    pose proof (loop_head_wp w no_fault Hh) as H1. unfold pwp in H1. rewrite E in H1. by destruct H1 as (? & _ & ? & _). }
  apply ends_bind. unfold ends at 1, pgets.
  destruct p as [| | |t r s]; [by apply careful_exit|by apply matter_careful| |].
  - unfold id. destruct (Z.ltb_spec (q_wait w1) 0); [by apply matter_careful|].
    apply keeps_from_bind; [by apply matter_careful|]. intros [] w2 [= <-] [Hi2 Ha2 K2]. destruct (Ht1 ltac:(done)) as [Hm Hn].
    by apply on_timeout_careful.
  - apply keeps_from_careful; [by apply matter_careful|intros []]. apply careful_ready.
Qed.

(** ** Runs *)
Inductive event := Poll (fuel : nat) (p : pollres) | Hup | Usr1 | NewFile (nm : string) (n : ino) | Renamed (nm nm' : string).

(** A name a file may have in [drop]: any, but if the queue manager would take
    it for the file's number it is that number. *)
Definition drop_name (nm : string) (n : ino) : Prop :=
  is_dot nm = false /\ (strtoul (codes nm) = n -> nm = ino_name n).

(** What [putqueue] does to the files: it creates [dropmsg.XXXXXX] in [drop],
    and then calls it by its number. *)
Definition dropped (nm : string) (n : ino) (m : gmap path ino) : gmap path ino := <[(drop_dir, nm) := n]> m.
Definition renamed (nm nm' : string) (n : ino) (m : gmap path ino) : gmap path ino :=
  <[(drop_dir, nm') := n]> (delete (drop_dir, nm) m).

(** What happens to the queue manager: a pass of its loop that ends, a signal
    SIGHUP or SIGUSR1 between two passes, a file that some process puts into
    [drop] or renames there. *)
Inductive step : event -> qm -> qm -> Prop :=
  | step_poll fuel p w w' : main_step fuel p w = (Done tt, w') -> step (Poll fuel p) w w'
  | step_hup w w' : sig_hup w = (Done tt, w') -> step Hup w w'
  | step_usr1 w w' : sig_usr1 w = (Done tt, w') -> step Usr1 w w'
  | step_file nm n w : (forall p, os_ents (q_os w) !! p <> Some n) -> os_ents (q_os w) !! (drop_dir, nm) = None ->
      drop_name nm n ->
      step (NewFile nm n) w (w <| q_os := (q_os w) <| os_ents := dropped nm n (os_ents (q_os w)) |> |>)
  | step_renamed nm nm' n w : os_ents (q_os w) !! (drop_dir, nm) = Some n -> os_ents (q_os w) !! (drop_dir, nm') = None ->
      drop_name nm' n ->
      step (Renamed nm nm') w (w <| q_os := (q_os w) <| os_ents := renamed nm nm' n (os_ents (q_os w)) |> |>).

Inductive run : list event -> qm -> qm -> Prop :=
  | run_nil w : run [] w w
  | run_cons e es w1 w2 w3 : step e w1 w2 -> run es w2 w3 -> run (e :: es) w1 w3.

Record safe (w : qm) : Prop := { sf_loop : minv w; sf_sent : act_sent w }.

Lemma ino_name_not_dot n : is_dot (ino_name n) = false.
Proof.
  unfold is_dot. apply orb_false_iff. split; apply bool_decide_eq_false; intros E;
    pose proof (pretty_codes n) as H; fold (ino_name n) in H; rewrite E in H; apply Forall_cons in H as [H _]; cbn in H; lia.
Qed.

Lemma own_drop_name n : drop_name (ino_name n) n.
Proof. split; [apply ino_name_not_dot|done]. Qed.

Lemma dropped_disk nm n m :
  disk_ok m -> (forall p, m !! p = Some n -> p.1 = act_dir) -> drop_name nm n -> disk_ok (dropped nm n m).
Proof.
  intros [H1 H0 H2 H3] Hn [Hdot Hnm]. unfold dropped. split.
  - intros d nm' i Hd Hd' [[E ->]|[_ H]]%lookup_insert_Some; [|by apply (H1 d)]. by simplify_eq.
  - intros nm' i [[E ->]|[_ H]]%lookup_insert_Some; [|by apply H0]. by simplify_eq.
  - intros p p' i [[<- <-]|[_ H]]%lookup_insert_Some [[<- E]|[_ H']]%lookup_insert_Some Hp Hp'; try done.
    + by destruct Hp'; apply Hn.
    + subst. by destruct Hp; apply Hn.
    + by apply (H2 p p' i).
  - intros p i [[<- <-]|[_ H]]%lookup_insert_Some; [done|by eapply H3].
Qed.

Lemma renamed_disk nm nm' n m :
  disk_ok m -> m !! (drop_dir, nm) = Some n -> drop_name nm' n -> disk_ok (renamed nm nm' n m).
Proof.
  intros Hd Hm Hn. apply dropped_disk; [by apply disk_delete| |done].
  intros p [Hne Hp]%lookup_delete_Some. destruct (decide (p.1 = act_dir)) as [?|Ha]; [done|].
  destruct Hne. by apply (dk_single _ Hd _ _ n).
Qed.

(** What happens in [drop] makes no difference to the queues. *)
Lemma drop_queues cq ql m m' :
  queues_ok cq ql m -> (forall d nm, d <> drop_dir -> m' !! (d, nm) = m !! (d, nm)) -> queues_ok cq ql m'.
Proof.
  intros Hk Hm. destruct (Hk) as [H1 H2 H3 H4 H5 H6 H7 H8 H9 H10 H11]. split; try done.
  - intros q l k Hq Hl Hin. unfold msg_path. rewrite Hm; [by eapply H10|].
    pose proof (Forall_lookup_1 _ _ _ _ H7 Hl) as Ho. cbv beta in Ho. clear -Ho. set_solver.
  - intros la k Hla Hin. unfold msg_path. rewrite Hm; [by eapply H11|done].
Qed.

Lemma dropped_other nm n m d nm' : d <> drop_dir -> dropped nm n m !! (d, nm') = m !! (d, nm').
Proof. intros Hd. apply lookup_insert_ne. congruence. Qed.

Lemma renamed_other nm nm' n m d nm2 : d <> drop_dir -> renamed nm nm' n m !! (d, nm2) = m !! (d, nm2).
Proof. intros Hd. unfold renamed. rewrite lookup_insert_ne, lookup_delete_ne; congruence. Qed.

Lemma dropped_stored nm n m : m !! (drop_dir, nm) = None -> keeps_stored m (dropped nm n m) (fun _ => False).
Proof.
  intros Hm i (p & Hp & Ha). left. exists p. split; [|done]. unfold dropped. rewrite lookup_insert_ne; [done|].
  intros <-. by rewrite Hm in Hp.
Qed.

Lemma renamed_stored nm nm' n m :
  m !! (drop_dir, nm) = Some n -> m !! (drop_dir, nm') = None -> keeps_stored m (renamed nm nm' n m) (fun _ => False).
Proof.
  intros Hm Hm' i (p & Hp & Ha). left. destruct (decide (p = (drop_dir, nm))) as [->|Hne].
  - exists (drop_dir, nm'). split; [|done]. unfold renamed. rewrite lookup_insert_eq. congruence.
  - exists p. split; [|done]. unfold renamed. rewrite lookup_insert_ne; [by rewrite lookup_delete_ne|].
    intros <-. by rewrite Hm' in Hp.
Qed.

Lemma signal_safe c w w' : safe w -> flag_signal c w = (Done tt, w') -> safe w' /\ kept w w'.
Proof.
  intros [[[Hi Hw Hc] Hp] Ha] E. unfold flag_signal, mbind, pr_bind in E.
  destruct (on_os fails w) as [[f|f|z] w1] eqn:E1; try discriminate E. destruct f; [discriminate E|].
  unfold pmodify in E. injection E as <-.
  assert (exists o, w1 = w <| q_os := o |> /\ os_ents o = os_ents (q_os w)) as (o & -> & Eo).
  { unfold on_os, plift, fails in E1. destruct (os_faults (q_os w)); simplify_eq; by eexists. }
  pose proof (qinv_os w o Hi Eo) as [Q1 Q2 Q3 Q4]. split; [split; [split; [split|]|]|]; try done.
  split; [done|]. cbn. rewrite Eo. apply keeps_stored_refl.
Qed.

(** Something happens in [drop]. *)
Lemma drop_safe w m :
  safe w -> disk_ok m -> (forall d nm, d <> drop_dir -> m !! (d, nm) = os_ents (q_os w) !! (d, nm)) ->
  keeps_stored (os_ents (q_os w)) m (fun _ => False) ->
  safe (w <| q_os := (q_os w) <| os_ents := m |> |>) /\ kept w (w <| q_os := (q_os w) <| os_ents := m |> |>).
Proof.
  intros [[[[Q1 Q2 Q3 Q4] Hw Hc] Hp] Ha] Hd Hm Hs. split.
  - split; [|done]. split; [|done]. split; [|done..]. split; cbn; try done. by eapply drop_queues.
  - split; [done|]. intros i Hi. destruct (Hs i Hi) as [?|[]]. by left.
Qed.

Lemma step_safe e w w' : step e w w' -> safe w -> safe w' /\ kept w w'.
Proof.
  intros [fuel p w1 w2 E|w1 w2 E|w1 w2 E|nm n w1 Hn Hd Hnm|nm nm' n w1 Hm Hm' Hnm] Hs.
  - destruct Hs as [Hm Ha]. pose proof (main_step_ok fuel p w1 Hm) as H1.
    pose proof (main_step_careful fuel p w1 Hm Ha) as H2. unfold pwp in H1. unfold keeps_from, ends in H2.
    rewrite E in H1, H2. destruct H2 as [_ ? ?], H1 as [? _]. by split.
  - by apply (signal_safe ch_H).
  - by apply (signal_safe ch_U).
  - apply drop_safe; [done| |intros; by apply dropped_other|by apply dropped_stored].
    apply dropped_disk; [by destruct Hs as [[[[]]]]| |done]. intros p Hp. by destruct (Hn p).
  - apply drop_safe; [done| |intros; by apply renamed_other|by apply renamed_stored].
    apply renamed_disk; [by destruct Hs as [[[[]]]]|done..].
Qed.

Lemma run_safe es w w' : run es w w' -> safe w -> safe w' /\ kept w w'.
Proof.
  intros Hr. induction Hr as [w|e es w1 w2 w3 He Hr IH]; intros Hs; [by split|].
  destruct (step_safe _ _ _ He Hs) as [Hs2 K2]. destruct (IH Hs2) as [? ?]. split; [done|by etrans].
Qed.

(** C8: No message is lost: over any run of the queue manager from a state that
    satisfies the invariant of the loop and in which every message in [act] has
    been written to the sender ([safe]): passes of the loop that return,
    whatever [poll] reports, whatever the sender writes and whichever calls
    fail, with SIGHUP and SIGUSR1 and files created or renamed in [drop]
    between the passes.  The invariant holds at every point, and
    every message that had a file at some time has one at every later time,
    unless its number has been written to the sender. *)
Theorem no_message_lost es w w' :
  run es w w' -> safe w -> safe w' /\
  forall i, stored (os_ents (q_os w)) i -> stored (os_ents (q_os w')) i \/ i ∈ q_sent w'.
Proof.
  intros Hr Hs. by destruct (run_safe _ _ _ Hr Hs) as [? [_ ?]].
Qed.

(** The state start-up leaves is safe. *)
Lemma started_safe w w' : started w w' -> safe (main_start w').
Proof.
  intros [Hm _ _ _ _ (la & Hla & Ea)]. split; [done|]. intros la' Hla'. change (q_list w' !! ACT = Some la') in Hla'.
  simplify_eq. unfold inodes. rewrite Ea. cbn. apply list_subseteq_nil.
Qed.
End runs.

(** ** A run of the sample spool *)
Lemma spool_safe : safe spool.
Proof.
  split; [split; [exact spool_hinv|intros _; exact spool_timer]|].
  intros la H. injection H as <-. by apply (bool_decide_unpack _).
Qed.

Definition spool_fed_file : qm :=
  spool <| q_os := spool_os <| os_ents := dropped "dropmsg.q2XY7z" 11 spool_ents |> |>.
Definition spool_renamed_file : qm :=
  spool_fed_file <| q_os := spool_os <| os_ents := renamed "dropmsg.q2XY7z" "11" 11 (os_ents (q_os spool_fed_file)) |> |>.

Definition poll_responses : event := Poll 0 (PollReady false true false).
Definition spool_after (w : qm) : qm :=
  (@main_step plain_readdir merge_Qsort 0 (PollReady false true false) w).2.
Definition spool_end : qm := spool_after spool_renamed_file.
Definition spool_events : list event := [NewFile "dropmsg.q2XY7z" 11; Renamed "dropmsg.q2XY7z" "11"; poll_responses].

Lemma spool_run : @run plain_readdir merge_Qsort spool_events spool spool_end.
Proof.
  apply (run_cons _ _ spool spool_fed_file).
  { apply (step_file "dropmsg.q2XY7z" 11 spool); [|by vm_compute|by split; vm_compute].
    intros p H. change (spool_ents !! p = Some 11) in H. spool_entry H. }
  apply (run_cons _ _ spool_fed_file spool_renamed_file).
  { apply (step_renamed "dropmsg.q2XY7z" "11" 11 spool_fed_file); by vm_compute. }
  apply (run_cons _ _ spool_renamed_file spool_end); [|apply run_nil]. apply step_poll.
  rewrite (surjective_pairing (main_step _ _ _)). by f_equal; vm_compute.
Qed.

Lemma no_message_lost_witness :
  safe spool_end /\ forall i, stored (os_ents (q_os spool)) i -> stored (os_ents (q_os spool_end)) i \/ i ∈ q_sent spool_end.
Proof. exact (@no_message_lost plain_readdir merge_Qsort spool_events spool spool_end spool_run spool_safe). Defined.
