(* ===== verification/Restart.v ===== *)
(** * The queue manager: restarts

    A process that starts on the files another one has left, works, and ends:
    killed between two passes, by [exit] when a system call fails, by a fault,
    or by SIGTERM.  Over any number of such lives the files stay consistent and no message is lost that has
    not been handed to the sender. *)

From S2P Require Import Prelude Heap Posix Utils QueControl Quemngr QueProps QueSend QueMain QueClaims Spool Init QueRun.

#[local] Open Scope Z_scope.

(** ** The signals that end the process *)

Lemma unlink_act_leaves n w :
  qinv w -> act_sent w -> ends (unlink_act n) (fun _ => left_over w) (left_over w) w.
Proof.
  intros Hi Ha. assert (left_over w w) as H0 by (by apply sound_left, sound_refl). clear Hi Ha.
  assert (forall w1, left_over w w1 -> ends (unlink_act n) (fun _ => left_over w) (left_over w) w1) as H; [|by apply H].
  clear H0. induction n as [|n IH]; intros w1 H1; cbn [unlink_act];
    apply ends_bind; unfold ends at 1, que; (destruct (q_list w1 !! ACT) as [la|]; [|done]);
    (destruct (msgs la !! _) as [x|]; [|done]); apply ends_bind, ends_pwp, pwp_lift, pwp_syscall;
    intros o (_ & He & _); try intros _; (assert (left_over w (w1 <| q_os := o |>)) as H2;
      [destruct H1 as [Hd [Hs Hk]]; split; [cbn; by rewrite He|split; [done|cbn; by rewrite He]]|]); auto; cbn [id].
  all: assert (left_over w (w1 <| q_os := o <| os_ents := delete (msg_path act_dir (m_inode x)) (os_ents o) |> |>)) as H3;
    [destruct H2 as [Hd [Hs Hk]]; split; [by apply disk_delete|split; [done|]]; cbn in *;
     intros i Hi; destruct (Hk i Hi); [left; by apply stored_delete_act|by right]|].
  - exact H3.
  - by apply IH.
Qed.

(** SIGTERM, and the end of the sender, remove the links in [act]. *)
Lemma sig_term_leaves w : qinv w -> act_sent w -> ends sig_term (fun _ => left_over w) (left_over w) w.
Proof.
  intros Hi Ha. unfold sig_term. apply ends_bind. unfold ends at 1, que.
  assert (left_over w w) as H0 by (by apply sound_left, sound_refl).
  destruct (q_list w !! ACT) as [la|]; [|done]. apply ends_bind.
  apply (ends_mono _ (fun _ => left_over w) _ (left_over w)); [|intros [] w1 H1|done].
  - destruct (_ <=? _); cbn [pwhen]; [by apply unlink_act_leaves|exact H0].
  - apply ends_bind. unfold ends at 1, pgets. destruct H1 as [? [? ?]]. by destruct (_ <? _); split; [|split| |split].
Qed.

(** ** Lives *)
Section lives.
Context {RD : Readdir} {QS : Qsort}.

(** A process that is about to start on files [m]. *)
Record boots (m : gmap path ino) (w : qm) : Prop := {
  bt_files : os_ents (q_os w) = m;
  bt_sent : q_sent w = [];
  bt_queues : (q_list w, q_count w, q_countq w) = ([], 0, 0%nat);
  bt_room : Z.of_nat (length (in_dir df_dir m)) <= 32763;
  bt_first : act_first (q_os w);
}.

Definition not_done {A} (r : outcome A) : Prop := match r with Done _ => False | _ => True end.

(** One life: the files it starts on, the messages it has handed to the
    sender, and the files it leaves. *)
Inductive life (m : gmap path ino) : list ino -> gmap path ino -> Prop :=
  | life_no_start w r w' : boots m w -> initqueue w = (r, w') -> not_done r ->
      life m (q_sent w') (os_ents (q_os w'))
  | life_killed w z w1 es w2 : boots m w -> initqueue w = (Done z, w1) -> run es (main_start w1) w2 ->
      life m (q_sent w2) (os_ents (q_os w2))
  | life_ended w z w1 es w2 fuel p r w3 : boots m w -> initqueue w = (Done z, w1) -> run es (main_start w1) w2 ->
      main_step fuel p w2 = (r, w3) -> not_done r ->
      life m (q_sent w3) (os_ents (q_os w3))
  | life_terminated w z w1 es w2 r w3 : boots m w -> initqueue w = (Done z, w1) -> run es (main_start w1) w2 ->
      sig_term w2 = (r, w3) ->
      life m (q_sent w3) (os_ents (q_os w3)).

(** Lives one after the other; files may arrive in [drop], and be renamed
    there, in between. *)
Inductive lives : gmap path ino -> list ino -> gmap path ino -> Prop :=
  | lives_nil m : lives m [] m
  | lives_life m s m1 s' m2 : life m s m1 -> lives m1 s' m2 -> lives m (s ++ s') m2
  | lives_file m nm n s m2 : (forall p, m !! p <> Some n) -> m !! (drop_dir, nm) = None -> drop_name nm n ->
      lives (dropped nm n m) s m2 -> lives m s m2
  | lives_renamed m nm nm' n s m2 : m !! (drop_dir, nm) = Some n -> m !! (drop_dir, nm') = None -> drop_name nm' n ->
      lives (renamed nm nm' n m) s m2 -> lives m s m2.

Lemma boots_before m w : boots m w -> disk_ok m -> before_init w.
Proof. intros [Em _ Hq Hr _] Hd. split; rewrite ?Em; done. Qed.

Lemma boots_ends m w : boots m w -> disk_ok m -> ends initqueue (fun _ w' => started w w') (keeps_all w) w.
Proof. intros Hb Hd. apply initqueue_ends; [by eapply boots_before|apply Hb]. Qed.

(** What a life guarantees. *)
Definition keeps_messages (m : gmap path ino) (s : list ino) (m' : gmap path ino) : Prop :=
  disk_ok m' /\ keeps_stored m m' (fun i => i ∈ s).

Lemma started_run m w z w1 es w2 :
  disk_ok m -> boots m w -> initqueue w = (Done z, w1) -> run es (main_start w1) w2 ->
  safe w2 /\ kept w w2.
Proof.
  intros Hd Hb E Hr. pose proof (boots_ends m w Hb Hd) as He. unfold ends in He. rewrite E in He.
  destruct (run_safe _ _ _ Hr (started_safe _ _ He)) as [Hs2 K2]. split; [done|]. etrans; [|exact K2].
  destruct (st_stored _ _ He) as [_ Hn Hs]. split; [by cbn; rewrite Hn|]. intros i Hi. destruct (Hs i Hi) as [?|[]]. by left.
Qed.

Lemma kept_messages m w w' : os_ents (q_os w) = m -> left_over w w' -> keeps_messages m (q_sent w') (os_ents (q_os w')).
Proof. intros <- [Hd [_ Hk]]. by split. Qed.

Lemma life_keeps m s m' : disk_ok m -> life m s m' -> keeps_messages m s m'.
Proof.
  intros Hd Hl. destruct Hl as [w r w' Hb E Hr|w z w1 es w2 Hb E Hr|w z w1 es w2 fuel p r w3 Hb E Hr Es Hn|w z w1 es w2 r w3 Hb E Hr Es];
    (apply (kept_messages m w); [apply Hb|]).
  - pose proof (boots_ends m w Hb Hd) as He. unfold ends in He. rewrite E in He.
    assert (keeps_all w w') as Hs by by destruct r. by apply survives_all_left.
  - destruct (started_run m w z w1 es w2 Hd Hb E Hr) as [[[[[Hd2 _ _ _] _ _] _] _] K]. by split.
  - destruct (started_run m w z w1 es w2 Hd Hb E Hr) as [[Hm Ha] K].
    pose proof (main_step_careful fuel p w2 Hm Ha) as He. unfold keeps_from, ends in He. rewrite Es in He.
    assert (left_over w2 w3) as [Hd3 K3] by by destruct r. split; [done|by etrans].
  - destruct (started_run m w z w1 es w2 Hd Hb E Hr) as [[[[Hi _ _] _] Ha] K].
    pose proof (sig_term_leaves w2 Hi Ha) as He. unfold ends in He. rewrite Es in He.
    assert (left_over w2 w3) as [Hd3 K3] by by destruct r. split; [done|by etrans].
Qed.

Lemma lives_keep m s m' : lives m s m' -> disk_ok m -> keeps_messages m s m'.
Proof.
  induction 1 as [m|m s m1 s' m2 Hl Hr IH|m nm n s m2 Hn Hdrop Hnm Hr IH|m nm nm' n s m2 Hm Hm' Hnm Hr IH]; intros Hd.
  - split; [done|apply keeps_stored_refl].
  - destruct (life_keeps _ _ _ Hd Hl) as [Hd1 K1]. destruct (IH Hd1) as [Hd2 K2]. split; [done|].
    intros i Hi. destruct (K1 i Hi) as [H1|H1]; [destruct (K2 i H1)|]; rewrite elem_of_app; auto.
  - destruct IH as [Hd2 K2]; [apply dropped_disk; [done|intros p Hp; by destruct (Hn p)|done]|]. split; [done|].
    intros i Hi. destruct (dropped_stored nm n m Hdrop i Hi) as [?|[]]. by apply K2.
  - destruct IH as [Hd2 K2]; [by apply renamed_disk|]. split; [done|].
    intros i Hi. destruct (renamed_stored nm nm' n m Hm Hm' i Hi) as [?|[]]. by apply K2.
Qed.

(** C9: Across restarts: over any number of lives of the queue manager, each
    ending in one of these ways (a start-up that exits or faults, a process
    killed between two passes of its loop, a pass that ends in [exit] or in a
    fault, a SIGTERM between two passes), with files arriving in [drop] and
    being renamed there in between, the files stay consistent and every
    message that had a file still has one, unless its number was written to
    the sender.  So the next start that succeeds has every message in a queue
    directory, and every message in [drop] under its number, queued.  At every
    start [df] has at most 32763 entries and [qsort], which may put either of
    the queues [act] and [in] first, puts [act] first; a file in [drop] may
    have any name as long as a name that reads as its number is that number. *)
Theorem restarts_lose_nothing m s m' :
  disk_ok m -> lives m s m' ->
  disk_ok m' /\
  (forall i, stored m i -> stored m' i \/ i ∈ s) /\
  (forall w z w1, boots m' w -> initqueue w = (Done z, w1) ->
     safe (main_start w1) /\
     (forall d n, queue_dir (q_os w) d -> m' !! msg_path d n = Some n -> waiting_in d n w1) /\
     (forall nm n, m' !! (drop_dir, nm) = Some n -> strtoul (codes nm) = n -> waiting_in in_dir_name n w1)).
Proof.
  intros Hd Hl. destruct (lives_keep _ _ _ Hl Hd) as [Hd' K]. split_and!; [done|done|].
  intros w z w1 Hb E. pose proof (boots_ends m' w Hb Hd') as He. unfold ends in He. rewrite E in He.
  destruct (He) as [_ _ _ Hw Hdr _ _]. rewrite (bt_files _ _ Hb) in Hw, Hdr.
  split_and!; [by eapply started_safe|done|done].
Qed.

(** C40: A process killed, between two passes of its loop, while a message is
    with the sender cannot be restarted into a working one: if the next one
    starts ([boots]: among other things [qsort] puts [act] before [in]), the
    message is queued again, but its link is still in [act], which start-up
    does not clean, and the first attempt to send it ends the process with
    status 2. *)
Theorem killed_while_sending_stuck w la x lx w0 z w1 :
  safe w -> q_list w !! ACT = Some la -> x ∈ msgs la -> q_list w !! m_state x = Some lx ->
  boots (os_ents (q_os w)) w0 -> queue_dir (q_os w0) (l_dir lx) -> initqueue w0 = (Done z, w1) ->
  exists q l w2, q_list w1 !! q = Some l /\ m_inode x ∈ inodes l /\ send_message q (m_inode x) w1 = (Exited 2, w2).
Proof.
  intros [[[[Hd Hk _ _] _ _] _] _] Hla Hx Hlx Hb Hdir E.
  destruct (act_entry _ _ _ _ _ Hk Hla Hx) as (l0 & Hq0 & Hl0 & _ & _ & _ & Hfile). rewrite Hlx in Hl0. injection Hl0 as <-.
  destruct (qi_act_files _ _ _ Hk la (m_inode x) Hla) as [j Hj]; [apply list_elem_of_fmap; by exists x|].
  pose proof (boots_ends _ w0 Hb Hd) as He. unfold ends in He. rewrite E in He.
  destruct (He) as [[[Hi _ _] _] _ _ Hw _ _ Hlk]. rewrite (bt_files _ _ Hb) in Hw, Hlk.
  destruct (Hw _ _ Hdir Hfile) as (q & l & Hq & Hl & _ & Hn). exists q, l.
  assert (qinv w1) as Hi1 by (by destruct Hi).
  assert (is_Some (os_ents (q_os w1) !! msg_path act_dir (m_inode x))) as [i Ei].
  { unfold msg_path. rewrite Hlk. unfold msg_path in Hj. by rewrite Hj. }
  destruct (stale_act_link_exits w1 q (m_inode x) l Hi1 Hq Hl Hn) as [w2 E2]; [by rewrite Ei|]. by exists w2.
Qed.
End lives.

(** ** Restarts of the sample spool *)

(** A process about to start on the files of [spool]. *)
Definition rebooted : qm :=
  Build_qm spool_os [] 0 0 (heap_create 1) [] [] [] [] 0 [] false 0 false false false false (None, None).

Definition restarted : qm := (@initqueue plain_readdir merge_Qsort rebooted).2.

Lemma rebooted_boots : @boots plain_readdir merge_Qsort spool_ents rebooted.
Proof. split; [done..|by vm_compute|by vm_compute]. Qed.

Lemma restarted_eq : @initqueue plain_readdir merge_Qsort rebooted = (Done 0, restarted).
Proof. unfold restarted. rewrite (surjective_pairing (initqueue _)) at 1. by f_equal; vm_compute. Qed.

Lemma killed_while_sending_stuck_witness :
  exists q l w2, q_list restarted !! q = Some l /\ 5 ∈ inodes l /\ send_message q 5 restarted = (Exited 2, w2).
Proof.
  refine (@killed_while_sending_stuck plain_readdir merge_Qsort
    spool _ (Build_msg 5 timeval_none 1) _ rebooted 0 restarted spool_safe eq_refl _ eq_refl rebooted_boots _ restarted_eq).
  - by apply list_elem_of_singleton.
  - by left.
Defined.

(** The sender reconnects: the flush tries to send message 5 and the process
    exits; the next process is killed after it has started. *)
Definition woken : qm := (sig_usr1 (main_start restarted)).2.
Definition exited : qm := (@main_step plain_readdir merge_Qsort 3 (PollReady false false true) woken).2.
Definition rebooted2 : qm := rebooted <| q_os := q_os exited |>.
Definition restarted2 : qm := (@initqueue plain_readdir merge_Qsort rebooted2).2.

Lemma sample_lives :
  @lives plain_readdir merge_Qsort spool_ents ((q_sent exited) ++ (q_sent (main_start restarted2)) ++ [])
    (os_ents (q_os restarted2)).
Proof.
  apply (lives_life _ _ (os_ents (q_os exited))).
  - eapply (life_ended _ rebooted 0 restarted [Usr1] woken 3 (PollReady false false true) (Exited 2) exited);
      [apply rebooted_boots|apply restarted_eq| | |done].
    + apply (run_cons _ _ _ woken); [|apply run_nil]. apply step_usr1.
      unfold woken. rewrite (surjective_pairing (sig_usr1 _)) at 1. f_equal.
    + unfold exited. rewrite (surjective_pairing (main_step _ _ _)) at 1. by f_equal; vm_compute.
  - apply (lives_life _ _ (os_ents (q_os (main_start restarted2)))); [|apply lives_nil].
    apply (life_killed _ rebooted2 0 restarted2 []); [| |apply run_nil].
    + split; [done..|by vm_compute|by vm_compute].
    + unfold restarted2. rewrite (surjective_pairing (initqueue _)) at 1. by f_equal; vm_compute.
Qed.

Lemma restarts_lose_nothing_witness :
  disk_ok (os_ents (q_os restarted2)) /\
  (forall i, stored spool_ents i ->
     stored (os_ents (q_os restarted2)) i \/ i ∈ (q_sent exited) ++ (q_sent (main_start restarted2)) ++ []).
Proof.
  pose proof (@restarts_lose_nothing plain_readdir merge_Qsort _ _ _ spool_disk sample_lives)
    as (Hd & Hk & _). split; [exact Hd|exact Hk].
Defined.

(** In the sample nothing had been sent, and message 5 is still there. *)
Lemma sample_kept :
  q_sent exited = [] /\ os_ents (q_os restarted2) !! ("./in/", "5")%string = Some 5 /\
  os_ents (q_os restarted2) !! ("./in/", "9")%string = Some 9.
Proof. by vm_compute. Qed.
