(* ===== verification/Syslog.v ===== *)
(** * syslogclient: forwarding log lines

    quemngr/syslogclient/syslogclient.c: a program that reads log lines from a
    FIFO and sends each over a TCP connection of its own; while the server
    cannot be reached the lines wait in a ring buffer.  What the network does
    with a line's connection is an [attempt]. *)

From S2P Require Import Prelude.

Open Scope Z_scope.

Definition SIZERINGBUF : Z := 50.
Definition MAXBUF : nat := 2048.

(** A pointer of the array: null, to a string, or to a freed string. *)
Inductive slot := Null | Live (m : bytes) | Freed.

Record ringbuf := { rb_msg : list slot; rb_head : Z; rb_tail : Z; rb_size : Z }.

#[export] Instance ringbuf_rebuild : Rebuild ringbuf := fun r =>
  Build_ringbuf (rb_msg r) (rb_head r) (rb_tail r) (rb_size r).
#[export] Instance upd_rb_msg : Updater rb_msg. Proof. solve_updater. Defined.
#[export] Instance upd_rb_head : Updater rb_head. Proof. solve_updater. Defined.
#[export] Instance upd_rb_tail : Updater rb_tail. Proof. solve_updater. Defined.
#[export] Instance upd_rb_size : Updater rb_size. Proof. solve_updater. Defined.

(** Static storage: all zero. *)
Definition store0 : ringbuf := Build_ringbuf (replicate 50 Null) 0 0 0.

(** ** The ring buffer *)
Definition slot_get (i : Z) : ST ringbuf slot := fun r =>
  if 0 <=? i then match rb_msg r !! Z.to_nat i with Some s => Done (s, r) | None => Faulted OutOfBounds end
  else Faulted OutOfBounds.

Definition slot_set (i : Z) (s : slot) : ST ringbuf unit :=
  slot_get i;; modify (fun r => r <| rb_msg := <[Z.to_nat i := s]> (rb_msg r) |>).

(** [free(st->msg[i])] *)
Definition slot_free (i : Z) : ST ringbuf unit :=
  s ← slot_get i;
  match s with
  | Null => skip
  | Live _ => slot_set i Freed
  | Freed => stop UseAfterFree
  end.

Definition pushmsg (msg : bytes) : ST ringbuf Z :=
  st ← get;
  let next := i16 (rb_head st + 1) in
  let next := if SIZERINGBUF <=? next then 0 else next in
  when (next =? rb_tail st)
    (slot_free (rb_tail st);;
     modify (fun r => r <| rb_tail := i16 (rb_tail r + 1) |>);;
     modify (fun r => r <| rb_size := i16 (rb_size r - 1) |>));;
  slot_set (rb_head st) (Live (cstr msg));;
  modify (fun r => r <| rb_head := next |>);;
  modify (fun r => r <| rb_size := i16 (rb_size r + 1) |>);;
  mret 0.

Definition readtail : ST ringbuf slot :=
  st ← get;
  if rb_head st =? rb_tail st then mret Null else slot_get (rb_tail st).

Definition deltail : ST ringbuf Z :=
  st ← get;
  if rb_head st =? rb_tail st then mret (-1)
  else
    let next := i16 (rb_tail st + 1) in
    let next := if SIZERINGBUF <=? next then 0 else next in
    slot_free (rb_tail st);;
    modify (fun r => r <| rb_tail := next |>);;
    modify (fun r => r <| rb_size := i16 (rb_size r - 1) |>);;
    mret 0.

(** ** Connections *)
Inductive connres := ConnOk | ConnInProgress | ConnFail.
Inductive pollout := TimedOut | PollError (eintr : bool) | PollEvents (inout : bool).

(** What happens to one line's connection: the result of [connect], of [poll],
    of [getsockopt] with the pending error it stores, and how many bytes each
    [write] takes, [None] for an error. *)
Record attempt := {
  a_connect : connres;
  a_poll : pollout;
  a_sockopt : option Z;
  a_writes : list (option nat)
}.

Definition connectnb (a : attempt) : Z :=
  match a_connect a with
  | ConnFail => -1
  | ConnOk => 0
  | ConnInProgress =>
      match a_poll a with
      | TimedOut => -1
      | PollError eintr => if eintr then 0 else -1
      | PollEvents inout => if inout then match a_sockopt a with None => -1 | Some _ => 0 end else 0
      end
  end.

(** ** Lines *)
Record slog := { s_store : ringbuf; s_sent : bytes; s_writes : list (option nat) }.

#[export] Instance slog_rebuild : Rebuild slog := fun w =>
  Build_slog (s_store w) (s_sent w) (s_writes w).
#[export] Instance upd_s_store : Updater s_store. Proof. solve_updater. Defined.
#[export] Instance upd_s_sent : Updater s_sent. Proof. solve_updater. Defined.
#[export] Instance upd_s_writes : Updater s_writes. Proof. solve_updater. Defined.

Definition on_store {A} (m : ST ringbuf A) : ST slog A := fun w =>
  match m (s_store w) with
  | Done (a, r) => Done (a, w <| s_store := r |>)
  | Faulted f => Faulted f
  | Exited c => Exited c
  end.

(** [write(sfd, ...) >= 0]: the bytes taken reach the server. *)
Definition write (m : bytes) : ST slog bool :=
  ws ← gets s_writes;
  match ws with
  | Some n :: ws' =>
      modify (fun w => w <| s_sent := s_sent w ++ take n m |> <| s_writes := ws' |>);; mret true
  | None :: ws' => modify (fun w => w <| s_writes := ws' |>);; mret false
  | [] => mret false
  end.

(** [while (store.size > 0)]; [deltail] lowers the size, so that [size] rounds
    are enough. *)
Fixpoint send_store (fuel : nat) : ST slog unit :=
  size ← gets (fun w => rb_size (s_store w));
  if 0 <? size then
    message ← on_store readtail;
    match message with
    | Null => stop NullDeref
    | Freed => stop UseAfterFree
    | Live m =>
        ok ← write m;
        if ok : bool then
          on_store deltail;;
          match fuel with O => stop OutOfFuel | S fuel' => send_store fuel' end
        else skip
    end
  else skip.

(** The body of the loop over lines. *)
Definition log_line (a : attempt) (buf : bytes) : ST slog unit :=
  if connectnb a <? 0 then on_store (pushmsg buf);; skip
  else
    modify (fun w => w <| s_writes := a_writes a |>);;
    size ← gets (fun w => rb_size (s_store w));
    send_store (Z.to_nat size);;
    ok ← write (cstr buf);
    if ok : bool then skip else on_store (pushmsg buf);; skip.

(** [fgets(buf, MAXBUF, logstream)]: at most [n] bytes, up to and with a
    newline; nothing while the line is incomplete, for the program holds the
    writing end of its FIFO open and never sees the end of the file. *)
Fixpoint fgets (n : nat) (l : bytes) : option (bytes * bytes) :=
  match n, l with
  | O, _ => Some ([], l)
  | S _, [] => None
  | S n', c :: l' =>
      if c =? 10 then Some ([c], l')
      else match fgets n' l' with Some (b, r) => Some (c :: b, r) | None => None end
  end.

(** What the program does with the text in its FIFO, given the fate of each
    connection; it stops to wait for more. *)
Fixpoint serve (attempts : list attempt) (text : bytes) : ST slog bytes :=
  match attempts, fgets (MAXBUF - 1) text with
  | a :: attempts', Some (buf, rest) => log_line a buf;; serve attempts' rest
  | _, _ => mret text
  end.

(** ** The abstract queue

    At most 49 lines, oldest first; a line added to a full queue pushes out
    the oldest. *)
Definition capacity : nat := 49.
Definition keep_last (q : list bytes) : list bytes := drop (length q - capacity) q.

(** The array index of the [i]-th waiting line. *)
Definition pos (r : ringbuf) (i : nat) : nat := Z.to_nat ((rb_tail r + Z.of_nat i) mod SIZERINGBUF).

(** [r] holds the lines [q]; no other slot owns a string. *)
Record rb_ok (q : list bytes) (r : ringbuf) : Prop := {
  ro_len : length (rb_msg r) = 50%nat;
  ro_tail : 0 <= rb_tail r < SIZERINGBUF;
  ro_cap : (length q <= capacity)%nat;
  ro_head : rb_head r = (rb_tail r + Z.of_nat (length q)) mod SIZERINGBUF;
  ro_size : rb_size r = Z.of_nat (length q);
  ro_live : forall i m, q !! i = Some m -> rb_msg r !! pos r i = Some (Live m);
  ro_idle : forall i m, (length q <= i < 50)%nat -> rb_msg r !! pos r i <> Some (Live m)
}.

Lemma store0_ok : rb_ok [] store0.
Proof.
  split; try done; [unfold capacity; cbn; lia|]. intros i m Hi E. cbn [rb_msg store0] in E. apply lookup_replicate in E as [? _]. done.
Qed.

#[local] Ltac Zify.zify_post_hook ::= Z.to_euclidean_division_equations.

Section rules.
Implicit Types (q : list bytes) (r : ringbuf).

Lemma pos_lt r i : (pos r i < 50)%nat.
Proof. unfold pos, SIZERINGBUF. lia. Qed.

Lemma pos_inj r i j : (i < 50)%nat -> (j < 50)%nat -> pos r i = pos r j -> i = j.
Proof. unfold pos, SIZERINGBUF. lia. Qed.

Lemma pos_0 q r : rb_ok q r -> pos r 0 = Z.to_nat (rb_tail r).
Proof. intros []. unfold pos, SIZERINGBUF in *. lia. Qed.

Lemma pos_head q r : rb_ok q r -> pos r (length q) = Z.to_nat (rb_head r).
Proof. intros []. unfold pos, SIZERINGBUF in *. by rewrite ro_head0. Qed.

Lemma head_bounds q r : rb_ok q r -> 0 <= rb_head r < SIZERINGBUF.
Proof. intros []. unfold SIZERINGBUF in *. lia. Qed.

Lemma slot_get_wp i s (Q : slot -> ringbuf -> Prop) r :
  0 <= i -> rb_msg r !! Z.to_nat i = Some s -> Q s r -> wp (slot_get i) Q r.
Proof. intros Hi E H. unfold wp, slot_get. replace (0 <=? i) with true by lia. by rewrite E. Qed.

Lemma slot_set_wp i s (Q : unit -> ringbuf -> Prop) r :
  0 <= i < Z.of_nat (length (rb_msg r)) ->
  Q tt (r <| rb_msg := <[Z.to_nat i := s]> (rb_msg r) |>) -> wp (slot_set i s) Q r.
Proof.
  intros Hi H. destruct (lookup_lt_is_Some_2 (rb_msg r) (Z.to_nat i)) as [s0 E]; [lia|].
  unfold slot_set. wp_steps. eapply slot_get_wp; [lia|done|]. by wp_steps.
Qed.

Lemma slot_free_wp i m (Q : unit -> ringbuf -> Prop) r :
  0 <= i -> rb_msg r !! Z.to_nat i = Some (Live m) ->
  Q tt (r <| rb_msg := <[Z.to_nat i := Freed]> (rb_msg r) |>) -> wp (slot_free i) Q r.
Proof.
  intros Hi E H. unfold slot_free. wp_steps. eapply slot_get_wp; [done..|]. cbn.
  apply slot_set_wp; [|done]. apply lookup_lt_Some in E. lia.
Qed.

(** The whole ring is determined by its slots, in order from the tail. *)
Lemma rb_ok_tail m q r : rb_ok (m :: q) r -> rb_msg r !! Z.to_nat (rb_tail r) = Some (Live m).
Proof. intros H. rewrite <- (pos_0 _ _ H). by apply (ro_live _ _ H). Qed.

Lemma pos_next r r' i : rb_tail r' = (rb_tail r + 1) mod SIZERINGBUF -> pos r' i = pos r (S i).
Proof. intros E. unfold pos. rewrite E. unfold SIZERINGBUF. f_equal. lia. Qed.

(** Freeing the slot at the tail and moving it on removes the oldest line. *)
Lemma rb_ok_drop m q r r' :
  rb_ok (m :: q) r ->
  rb_msg r' = <[Z.to_nat (rb_tail r) := Freed]> (rb_msg r) ->
  rb_tail r' = (rb_tail r + 1) mod SIZERINGBUF ->
  rb_head r' = rb_head r -> rb_size r' = rb_size r - 1 -> rb_ok q r'.
Proof.
  intros H Em Et Eh Es. pose proof (pos_0 _ _ H) as E0. destruct H as [Hl Ht Hc Hh Hs Hlive Hidle].
  unfold capacity, SIZERINGBUF in *. cbn [length] in *.
  split; unfold capacity, SIZERINGBUF; try lia.
  - rewrite Em, length_insert. done.
  - intros i m' Hi. rewrite (pos_next r r' i) by done. rewrite Em, <- E0.
    pose proof (lookup_lt_Some _ _ _ Hi). rewrite list_lookup_insert_ne by (intros ?%pos_inj; lia). by apply Hlive.
  - intros i m' Hi. rewrite (pos_next r r' i) by done. rewrite Em, <- E0.
    destruct (decide (i = 49%nat)) as [->|].
    + assert (pos r 50 = pos r 0) as -> by (unfold pos, SIZERINGBUF; lia).
      rewrite list_lookup_insert_eq by (rewrite Hl; apply pos_lt). done.
    + rewrite list_lookup_insert_ne by (intros ?%pos_inj; lia). apply Hidle. lia.
Qed.

(** Writing the slot at the head and moving it on appends a line. *)
Lemma rb_ok_add m q r r' :
  rb_ok q r -> (length q < capacity)%nat ->
  rb_msg r' = <[Z.to_nat (rb_head r) := Live m]> (rb_msg r) ->
  rb_head r' = (rb_head r + 1) mod SIZERINGBUF ->
  rb_tail r' = rb_tail r -> rb_size r' = rb_size r + 1 -> rb_ok (q ++ [m]) r'.
Proof.
  intros H Hcap Em Eh Et Es. pose proof (pos_head _ _ H) as E0. destruct H as [Hl Ht Hc Hh Hs Hlive Hidle].
  assert (forall i, pos r' i = pos r i) as Ep by (intros i; unfold pos; by rewrite Et).
  unfold capacity, SIZERINGBUF in *.
  split; unfold capacity, SIZERINGBUF; rewrite ?length_app; cbn [length]; try lia.
  - rewrite Em, length_insert. done.
  - intros i m' Hi. rewrite Ep, Em, <- E0.
    apply lookup_app_Some in Hi as [Hi|[Hge Hi]].
    + pose proof (lookup_lt_Some _ _ _ Hi). rewrite list_lookup_insert_ne by (intros ?%pos_inj; lia). by apply Hlive.
    + apply list_lookup_singleton_Some in Hi as [? <-]. replace i with (length q) by lia.
      apply list_lookup_insert_eq. rewrite Hl. apply pos_lt.
  - intros i m' Hi. rewrite Ep, Em, <- E0.
    rewrite list_lookup_insert_ne by (intros ?%pos_inj; lia). apply Hidle. lia.
Qed.

Lemma next_mod i : 0 <= i < SIZERINGBUF ->
  (if SIZERINGBUF <=? i16 (i + 1) then 0 else i16 (i + 1)) = (i + 1) mod SIZERINGBUF.
Proof. intros Hi. unfold SIZERINGBUF in *. rewrite i16_small by lia. destruct (50 <=? i + 1) eqn:?; lia. Qed.

Lemma keep_last_short q : (length q <= capacity)%nat -> keep_last q = q.
Proof. intros H. unfold keep_last. by replace (length q - capacity)%nat with 0%nat by lia. Qed.

Lemma keep_last_full m q : length q = capacity -> keep_last (m :: q) = q.
Proof. intros H. unfold keep_last. cbn [length]. by replace (S (length q) - capacity)%nat with 1%nat by lia. Qed.

(** The slot written: the second half of [pushmsg]. *)
Lemma push_slot_wp m q r n :
  rb_ok q r -> (length q < capacity)%nat -> n = (rb_head r + 1) mod SIZERINGBUF ->
  wp (slot_set (rb_head r) (Live m);; modify (fun r => r <| rb_head := n |>);;
      modify (fun r => r <| rb_size := i16 (rb_size r + 1) |>);; mret 0)
    (fun k r' => k = 0 /\ rb_ok (q ++ [m]) r' /\ rb_tail r' = rb_tail r) r.
Proof.
  intros H Hq ->. pose proof (head_bounds _ _ H) as Hb. pose proof H as [Hl _ _ _ Hs _ _].
  unfold capacity, SIZERINGBUF in *. apply wp_bind, slot_set_wp; [lia|]. wp_steps. cbn. split_and!; [done| |done].
  eapply rb_ok_add; [done|done|reflexivity..|]. cbn. rewrite i16_small; lia.
Qed.

Lemma pushmsg_wp msg q r :
  rb_ok q r -> ~ (length q = capacity /\ rb_tail r = 49) ->
  wp (pushmsg msg)
    (fun k r' => k = 0 /\ rb_ok (keep_last (q ++ [cstr msg])) r' /\
       rb_tail r' = rb_tail r + (if (length q <? capacity)%nat then 0 else 1)) r.
Proof.
  intros H Hn. pose proof (head_bounds _ _ H) as Hb. pose proof H as [Hl Ht Hc Hh Hs _ _].
  unfold pushmsg. wp_steps. rewrite next_mod by done. apply wp_when; intros Hw; bool_hyps.
  - assert (length q = capacity) as Hq by (unfold capacity, SIZERINGBUF in *; lia).
    destruct q as [|m q]; [done|]. apply wp_bind. eapply slot_free_wp; [lia|by eapply rb_ok_tail|].
    apply wp_bind, wp_modify, wp_modify. cbv beta.
    match goal with |- wp _ _ ?r' => set (r1 := r') end.
    assert (rb_ok q r1) as H1.
    { eapply rb_ok_drop; [done|reflexivity| |reflexivity|]; unfold r1; cbn; cbn [length] in *;
        unfold capacity, SIZERINGBUF in *; rewrite i16_small; lia. }
    change (rb_head r) with (rb_head r1). eapply wp_mono; [apply push_slot_wp; [done| |done]|].
    + cbn [length] in *. unfold capacity in *. lia.
    + intros k r' (-> & Hr' & Ht'). rewrite (proj2 (Nat.ltb_ge _ _)) by lia. cbn [length app] in *. split; [done|]. rewrite keep_last_full by (rewrite length_app; cbn; lia).
      split; [done|]. rewrite Ht'. unfold r1. cbn. unfold capacity, SIZERINGBUF in *. rewrite i16_small; lia.
  - assert (length q < capacity)%nat as Hq by (unfold capacity, SIZERINGBUF in *; lia).
    eapply wp_mono; [by apply (push_slot_wp _ q)|]. intros k r' (-> & Hr' & Ht').
    rewrite keep_last_short by (rewrite length_app; cbn; lia).
    replace (length q <? capacity)%nat with true by (symmetry; by apply Nat.ltb_lt). split_and!; [done|done|lia].
Qed.

Lemma head_tail q r : rb_ok q r -> (rb_head r =? rb_tail r) = match q with [] => true | _ => false end.
Proof.
  intros [Hl Ht Hc Hh Hs _ _]. unfold capacity, SIZERINGBUF in *.
  destruct q; cbn [length] in *; [apply Z.eqb_eq|apply Z.eqb_neq]; lia.
Qed.

Lemma readtail_wp q r :
  rb_ok q r ->
  wp readtail (fun s r' => r' = r /\ s = match q with [] => Null | m :: _ => Live m end) r.
Proof.
  intros H. unfold readtail. wp_steps. rewrite (head_tail _ _ H). destruct q; [by wp_steps|].
  eapply slot_get_wp; [apply (ro_tail _ _ H)|by eapply rb_ok_tail|done].
Qed.

Lemma deltail_wp q r :
  rb_ok q r ->
  wp deltail (fun k r' => rb_ok (tl q) r' /\ k = match q with [] => -1 | _ => 0 end) r.
Proof.
  intros H. unfold deltail. wp_steps. rewrite (head_tail _ _ H). destruct q as [|m q]; [by wp_steps|].
  pose proof (ro_tail _ _ H) as Ht. pose proof (ro_size _ _ H) as Hs. pose proof (ro_cap _ _ H) as Hc.
  rewrite next_mod by done. wp_steps. eapply slot_free_wp; [lia|by eapply rb_ok_tail|]. wp_steps. split; [|done].
  eapply rb_ok_drop; [done|reflexivity..|]. cbn. unfold capacity in *. cbn [length] in *. rewrite i16_small; lia.
Qed.
End rules.

(** ** Claims *)
Inductive ring_op := Push (msg : bytes) | Read | Del.

(** C28: The ring buffer is a bounded queue: [pushmsg] appends a line, pushing
    out the oldest of 49, [readtail] returns the oldest line and [deltail]
    removes it, or they report that there is none; strings are freed exactly
    when their line leaves and no other slot owns one.  The one exception is
    [pushmsg] on a full buffer whose tail is at the last slot. *)
Theorem ring_refines_queue (op : ring_op) (q : list bytes) (r : ringbuf) :
  rb_ok q r ->
  match op with
  | Push msg => ~ (length q = capacity /\ rb_tail r = 49) ->
      wp (pushmsg msg) (fun k r' => k = 0 /\ rb_ok (keep_last (q ++ [cstr msg])) r') r
  | Read => wp readtail (fun s r' => r' = r /\ s = match q with [] => Null | m :: _ => Live m end) r
  | Del => wp deltail (fun k r' => rb_ok (tl q) r' /\ k = match q with [] => -1 | _ => 0 end) r
  end.
Proof.
  intros H. destruct op as [msg| |]; [intros Hn|by apply readtail_wp|by apply deltail_wp].
  eapply wp_mono; [by apply pushmsg_wp|]. by intros k r' (? & ? & _).
Qed.

Lemma ring_refines_queue_witness :
  wp (pushmsg [104; 105; 10]) (fun k r' => k = 0 /\ rb_ok (keep_last ([] ++ [cstr [104; 105; 10]])) r') store0.
Proof.
  apply (ring_refines_queue (Push [104; 105; 10]) [] store0); [exact store0_ok|]. by intros [? _].
Defined.

(** ** An outage *)

(** A log line: a newline at its end and nowhere else, no zero byte, short
    enough for one [fgets]. *)
Definition is_line (m : bytes) : Prop :=
  exists b, m = b ++ [10] /\ Forall (fun c => c <> 10 /\ c <> 0) b /\ (length b < MAXBUF - 1)%nat.

Definition refused (a : attempt) : Prop := connectnb a < 0.

(** The connection comes up and takes [n] lines. *)
Definition accepts (n : nat) (a : attempt) : Prop :=
  0 <= connectnb a /\ a_writes a = replicate n (Some MAXBUF).

Definition slog0 : slog := Build_slog store0 [] [].

Section outage.
Implicit Types (q ms : list bytes) (r : ringbuf) (w : slog).

Lemma fgets_line n m l : (length m < n)%nat -> Forall (fun c => c <> 10 /\ c <> 0) m ->
  fgets n (m ++ [10] ++ l) = Some (m ++ [10], l).
Proof.
  revert n. induction m as [|c m IH]; intros [|n] Hn Hm; cbn [length] in *; try lia; cbn; [done|].
  inversion Hm as [|? ? [? _] Hm']; subst. rewrite (proj2 (Z.eqb_neq c 10)) by done.
  setoid_rewrite IH; [done|lia|done].
Qed.

Lemma line_read m l : is_line m -> fgets (MAXBUF - 1) (m ++ l) = Some (m, l).
Proof. intros (b & -> & Hb & Hl). rewrite <- app_assoc. by apply fgets_line. Qed.

Lemma cstr_line m : is_line m -> cstr m = m.
Proof.
  intros (b & -> & Hb & _). induction Hb as [|c b [_ Hc] Hb IH]; [done|]. cbn.
  rewrite (proj2 (Z.eqb_neq c 0)) by done. by rewrite IH.
Qed.

Lemma line_length m : is_line m -> (length m <= MAXBUF)%nat.
Proof. intros (b & -> & _ & Hl). rewrite length_app. cbn. unfold MAXBUF in *. lia. Qed.

Lemma keep_last_app q ms : keep_last (keep_last q ++ ms) = keep_last (q ++ ms).
Proof.
  unfold keep_last. rewrite !length_app, length_drop.
  destruct (decide (length q <= capacity)%nat).
  { by replace (length q - capacity)%nat with 0%nat by lia; rewrite drop_0, Nat.sub_0_r. }
  rewrite <- drop_app_le by lia. rewrite drop_drop. f_equal. lia.
Qed.

Lemma keep_last_length q : length (keep_last q) = (length q `min` capacity)%nat.
Proof. unfold keep_last. rewrite length_drop. lia. Qed.

(** A line whose connection is refused is stored. *)
Lemma log_line_refused a m w : refused a ->
  log_line a m w = (on_store (pushmsg m);; skip) w.
Proof. unfold refused, log_line. intros H. by replace (connectnb a <? 0) with true by lia. Qed.

Lemma on_store_push w m r' k : pushmsg m (s_store w) = Done (k, r') ->
  (on_store (pushmsg m);; skip) w = Done (tt, w <| s_store := r' |>).
Proof. intros E. unfold mbind, st_bind, on_store. by rewrite E. Qed.

Lemma serve_refused a ats m text w k r' :
  refused a -> is_line m -> pushmsg m (s_store w) = Done (k, r') ->
  serve (a :: ats) (m ++ text) w = serve ats text (w <| s_store := r' |>).
Proof.
  intros Ha Hm E. cbn [serve]. rewrite line_read by done. unfold mbind at 1, st_bind at 1.
  rewrite log_line_refused by done. by rewrite (on_store_push _ _ _ _ E).
Qed.

(** Lines that find the server unreachable wait in the ring buffer. *)
Lemma serve_down down ats ms text q w :
  length down = length ms -> Forall refused down -> Forall is_line ms -> rb_ok q (s_store w) ->
  rb_tail (s_store w) + Z.of_nat (length q + length ms - capacity) <= 49 ->
  exists r', rb_ok (keep_last (q ++ ms)) r' /\
    rb_tail r' = rb_tail (s_store w) + Z.of_nat (length q + length ms - capacity) /\
    serve (down ++ ats) (concat ms ++ text) w = serve ats text (w <| s_store := r' |>).
Proof.
  intros Hlen Hd. revert ms q w Hlen. induction Hd as [|a down Ha Hd IH]; intros [|m ms] q w Hlen Hms Hq Ht;
    try discriminate; cbn [length app concat] in *; pose proof (ro_cap _ _ Hq) as Hc.
  - exists (s_store w). rewrite app_nil_r, keep_last_short by done. split_and!; [done|unfold capacity in *; lia|by destruct w].
  - inversion Hms as [|? ? Hm Hms']; subst.
    destruct (proj1 (wp_done _ _ _) (pushmsg_wp m _ _ Hq ltac:(unfold capacity in *; lia))) as (k & r1 & E & _ & H1 & T1).
    rewrite cstr_line in H1 by done.
    assert (Z.of_nat (length (keep_last (q ++ [m])) + length ms - capacity) +
            (if (length q <? capacity)%nat then 0 else 1) = Z.of_nat (length q + S (length ms) - capacity)) as Et.
    { rewrite keep_last_length, length_app. cbn [length]. destruct (Nat.ltb_spec (length q) capacity); lia. }
    destruct (IH ms _ (w <| s_store := r1 |>) ltac:(lia) Hms' H1) as (r' & Hr' & Tr' & Es).
    { cbn. lia. }
    exists r'. split_and!.
    + by rewrite keep_last_app, <- app_assoc in Hr'.
    + cbn in Tr'. lia.
    + rewrite <- app_assoc. by rewrite (serve_refused _ _ _ _ _ _ _ Ha Hm E), Es.
Qed.

Lemma write_ok m n w : (length m <= MAXBUF)%nat -> s_writes w = replicate (S n) (Some MAXBUF) ->
  write m w = Done (true, w <| s_sent := s_sent w ++ m |> <| s_writes := replicate n (Some MAXBUF) |>).
Proof.
  intros Hm E. unfold write, mbind, st_bind, gets. rewrite E. cbn -[MAXBUF take].
  unfold modify. rewrite take_ge by done. reflexivity.
Qed.

(** A connection that takes everything empties the buffer in order. *)
Lemma send_store_wp q w n :
  rb_ok q (s_store w) -> Forall (fun m => (length m <= MAXBUF)%nat) q ->
  s_writes w = replicate (length q + n) (Some MAXBUF) ->
  wp (send_store (length q)) (fun _ w' => rb_ok [] (s_store w') /\ s_sent w' = s_sent w ++ concat q /\
       s_writes w' = replicate n (Some MAXBUF)) w.
Proof.
  revert w. induction q as [|m q IH]; intros w Hq Hl Hw; cbn [length send_store]; wp_steps;
    rewrite (ro_size _ _ Hq); cbn [length].
  - cbn. by rewrite app_nil_r.
  - rewrite (proj2 (Z.ltb_lt 0 _)) by lia. inversion Hl; subst. apply wp_bind.
    destruct (proj1 (wp_done _ _ _) (readtail_wp _ _ Hq)) as (s & r & E & -> & ->).
    eapply wp_eq; [unfold on_store; by rewrite E|]. cbn beta iota. apply wp_bind.
    eapply wp_eq; [apply write_ok; [done|exact Hw]|]. cbn beta iota. apply wp_bind.
    destruct (proj1 (wp_done _ _ _) (deltail_wp _ _ Hq)) as (k & r' & E' & H' & _).
    eapply wp_eq; [unfold on_store; cbn [s_store]; unfold upd; cbn; by rewrite E'|]. cbn beta iota.
    eapply wp_mono; [apply IH; [exact H'|done|reflexivity]|]. cbn. intros _ w' (? & -> & ?).
    by rewrite <- app_assoc.
Qed.
End outage.

(** C29: After an outage nothing recent is missing: with lines [q] waiting in
    the buffer, lines that arrive while the server cannot be reached are sent
    by the first connection that works, after those, the last 49 of them all
    in order, followed by the current line, and the buffer is empty again;
    provided that the index of the tail and the lines waiting and arriving are
    at most 98 together.  From a fresh start, with the tail at 0, these are 98
    lines; where the tail stands after earlier outages it may be as few as
    49. *)
Theorem outage_delivered (down : list attempt) (up : attempt) (q ms : list bytes) (m rest : bytes) (w : slog) :
  rb_ok q (s_store w) -> Forall is_line q ->
  length down = length ms -> Forall refused down -> Forall is_line ms -> is_line m ->
  accepts (S (length (q ++ ms) `min` capacity)) up ->
  rb_tail (s_store w) + Z.of_nat (length (q ++ ms)) <= 98 ->
  wp (serve (down ++ [up]) (concat ms ++ m ++ rest))
    (fun text w' => text = rest /\ rb_ok [] (s_store w') /\
       s_sent w' = s_sent w ++ concat (keep_last (q ++ ms)) ++ m) w.
Proof.
  intros Hq Hqs Hlen Hd Hms Hm [Hup Hw] Hn. pose proof (ro_tail _ _ Hq) as Ht. rewrite length_app in Hn.
  destruct (serve_down down [up] ms (m ++ rest) q w Hlen Hd Hms Hq) as (r & Hr & _ & E).
  { unfold capacity, SIZERINGBUF in *. lia. }
  unfold wp. rewrite E. clear E. pose proof (keep_last_length (q ++ ms)) as Hk.
  cbn [serve]. rewrite line_read by done. change (wp (log_line up m;; mret rest) (fun text w' => text = rest /\
    rb_ok [] (s_store w') /\ s_sent w' = s_sent w ++ concat (keep_last (q ++ ms)) ++ m) (w <| s_store := r |>)).
  unfold log_line. replace (connectnb up <? 0) with false by lia. wp_steps. cbn.
  rewrite (ro_size _ _ Hr), Nat2Z.id.
  eapply wp_mono; [eapply (send_store_wp (keep_last (q ++ ms))); cbn; [done| |]|].
  - apply Forall_drop. apply (Forall_impl is_line); [by apply Forall_app|]. apply line_length.
  - by rewrite Hw, Hk, Nat.add_1_r.
  - intros [] w' (Hw' & Es & Ew). wp_steps. eapply wp_eq.
    { apply write_ok; [|exact Ew]. rewrite cstr_line by done. by apply line_length. }
    cbn. rewrite Es. by rewrite cstr_line, app_assoc.
Qed.

(** *** A longer outage *)

(** The tail has run past the array, [n] lines counted. *)
Record rb_past (n : Z) (r : ringbuf) : Prop := {
  rp_len : length (rb_msg r) = 50%nat;
  rp_tail : rb_tail r = 50;
  rp_head : 0 <= rb_head r < SIZERINGBUF;
  rp_size : rb_size r = n
}.

(** [pushmsg] on a full buffer with its tail at the last slot moves the tail
    past the array, where it stays. *)
Lemma pushmsg_full_past msg q r :
  rb_ok q r -> length q = capacity -> rb_tail r = 49 ->
  wp (pushmsg msg) (fun k r' => rb_past 49 r') r.
Proof.
  intros H Hq Ht. pose proof (head_bounds _ _ H) as Hb. pose proof H as [Hl _ _ Hh Hs _ _].
  unfold pushmsg. wp_steps. rewrite next_mod by done. destruct q as [|m q]; [done|].
  unfold capacity, SIZERINGBUF in *. rewrite Hh, Ht, Hq. cbn [Z.of_nat]. apply wp_when; intros Hw; [|done].
  apply wp_bind. eapply slot_free_wp; [lia|rewrite <- Ht; by eapply rb_ok_tail|].
  apply wp_bind, wp_modify, wp_modify. cbv beta. apply wp_bind, slot_set_wp; [cbn; rewrite length_insert; lia|].
  wp_steps. split; cbn -[i16 length]; rewrite ?length_insert, ?Ht, ?Hs, ?Hq; done.
Qed.

Lemma pushmsg_past msg n r :
  rb_past n r -> 0 <= n < 32767 -> wp (pushmsg msg) (fun k r' => rb_past (n + 1) r') r.
Proof.
  intros [Hl Ht Hh Hs] Hn. unfold pushmsg. wp_steps. rewrite next_mod by done. rewrite Ht.
  unfold SIZERINGBUF in *. apply wp_when; intros Hw; bool_hyps; [lia|].
  apply wp_bind, slot_set_wp; [lia|]. wp_steps.
  split; cbn -[i16 length]; [by rewrite length_insert|done|unfold SIZERINGBUF; lia|rewrite Hs, i16_small; lia].
Qed.

Lemma serve_past down ats ms text n w :
  length down = length ms -> Forall refused down -> Forall is_line ms ->
  rb_past n (s_store w) -> 0 <= n -> n + Z.of_nat (length ms) <= 32767 ->
  exists r', rb_past (n + Z.of_nat (length ms)) r' /\
    serve (down ++ ats) (concat ms ++ text) w = serve ats text (w <| s_store := r' |>).
Proof.
  intros Hlen Hd. revert ms n w Hlen. induction Hd as [|a down Ha Hd IH]; intros [|m ms] n w Hlen Hms Hq H0 Hn;
    try discriminate; cbn [length app concat] in *.
  - exists (s_store w). rewrite Z.add_0_r. split; [done|by destruct w].
  - inversion Hms as [|? ? Hm Hms']; subst.
    destruct (proj1 (wp_done _ _ _) (pushmsg_past m _ _ Hq ltac:(lia))) as (k & r1 & E & H1).
    destruct (IH ms _ (w <| s_store := r1 |>) ltac:(lia) Hms' H1 ltac:(lia) ltac:(lia)) as (r' & Hr' & Es).
    exists r'. split; [by replace (n + Z.of_nat (S (length ms))) with (n + 1 + Z.of_nat (length ms)) by lia|].
    rewrite <- app_assoc. by rewrite (serve_refused _ _ _ _ _ _ _ Ha Hm E), Es.
Qed.

(** With the tail past the array, a working connection reads the array out
    of bounds. *)
Lemma send_store_past n fuel w : rb_past n (s_store w) -> 0 < n -> send_store fuel w = Faulted OutOfBounds.
Proof.
  intros [Hl Ht Hh Hs] Hn. unfold SIZERINGBUF in *.
  assert (readtail (s_store w) = Faulted OutOfBounds) as E.
  { unfold readtail, mbind, st_bind, get. rewrite Ht. replace (rb_head (s_store w) =? 50) with false by lia.
    unfold slot_get. cbn [Z.leb Z.compare]. by rewrite lookup_ge_None_2 by (rewrite Hl; cbn; lia). }
  destruct fuel; cbn [send_store]; unfold mbind at 1, st_bind at 1, gets; rewrite Hs;
    replace (0 <? n) with true by lia; apply bind_faults_l; unfold on_store; by rewrite E.
Qed.

Lemma log_line_past n a m w : rb_past n (s_store w) -> 0 < n -> 0 <= connectnb a ->
  log_line a m w = Faulted OutOfBounds.
Proof.
  intros H Hn Ha. unfold log_line. replace (connectnb a <? 0) with false by lia.
  apply bind_eq, wp_modify, bind_eq, wp_gets, bind_faults_l. by eapply send_store_past.
Qed.

(** C38: A longer outage breaks the program: [pushmsg] does not wrap the tail
    around, so that once the index of the tail and the lines waiting and
    arriving during an outage are 99 or more together, and at most 32817 (the
    range of the counter), the tail points past the array, and the first
    connection that works makes the program read a message pointer from
    outside it.  From a fresh start these are 99 to 32817 lines. *)
Theorem outage_overflows (down : list attempt) (up : attempt) (q ms : list bytes) (m rest : bytes) (w : slog) :
  rb_ok q (s_store w) ->
  length down = length ms -> Forall refused down -> Forall is_line ms -> is_line m ->
  0 <= connectnb up -> 99 <= rb_tail (s_store w) + Z.of_nat (length (q ++ ms)) <= 32817 ->
  serve (down ++ [up]) (concat ms ++ m ++ rest) w = Faulted OutOfBounds.
Proof.
  intros Hq Hlen Hd Hms Hm Hup Hn. pose proof (ro_tail _ _ Hq) as Ht. pose proof (ro_cap _ _ Hq) as Hc.
  unfold capacity, SIZERINGBUF in Ht, Hc. rewrite length_app in Hn.
  set (k := (98 - Z.to_nat (rb_tail (s_store w)) - length q)%nat).
  rewrite <- (take_drop k ms) in Hms |- *. rewrite <- (take_drop k down) in Hd |- *.
  rewrite concat_app, <- !app_assoc.
  apply Forall_app in Hd as [Hd1 Hd2]. apply Forall_app in Hms as [Hm1 Hm2].
  assert (length (take k ms) = k) as Hk by (rewrite length_take; lia).
  destruct (serve_down (take k down) (drop k down ++ [up]) (take k ms) (concat (drop k ms) ++ m ++ rest) q w)
    as (r & Hr & Tr & ->); [rewrite !length_take; lia|done|done|done|rewrite Hk; unfold capacity; lia|].
  rewrite Hk in Tr. unfold capacity in Tr.
  assert (length (drop k down) = length (drop k ms)) as Hlen2 by (rewrite !length_drop; lia).
  pose proof (length_drop ms k) as Hn2.
  destruct (drop k ms) as [|m1 ms2], (drop k down) as [|a down2]; cbn [length] in Hlen2, Hn2; try lia.
  inversion Hd2 as [|? ? Ha Hd2']; subst. inversion Hm2 as [|? ? Hm1' Hm2']; subst.
  destruct (proj1 (wp_done _ _ _) (pushmsg_full_past m1 _ r Hr
    ltac:(rewrite keep_last_length, length_app, Hk; unfold capacity; lia) ltac:(lia))) as (z & r1 & E & H1).
  cbn [concat app]. rewrite <- app_assoc. rewrite (serve_refused _ _ _ _ _ z r1 Ha Hm1') by exact E.
  destruct (serve_past down2 [up] ms2 (m ++ rest) 49 ((w <| s_store := r |>) <| s_store := r1 |>)
    ltac:(lia) Hd2' Hm2' H1 ltac:(lia) ltac:(lia)) as (r2 & H2 & ->).
  cbn [serve]. rewrite line_read by done. apply bind_faults_l. eapply log_line_past; [exact H2|lia|done].
Qed.

(** ** Witnesses *)
Definition line_hi : bytes := [104; 105; 10].
Definition refuses : attempt := Build_attempt ConnFail TimedOut None [].
Definition connects (n : nat) : attempt := Build_attempt ConnOk TimedOut None (replicate n (Some MAXBUF)).

Lemma line_hi_line : is_line line_hi.
Proof. exists [104; 105]. split_and!; [done|by repeat constructor|unfold MAXBUF; cbn; lia]. Qed.

Lemma outage_delivered_witness :
  wp (serve (replicate 60 refuses ++ [connects 50]) (concat (replicate 60 line_hi) ++ line_hi ++ []))
    (fun text w => text = [] /\ rb_ok [] (s_store w) /\
       s_sent w = [] ++ concat (keep_last ([] ++ replicate 60 line_hi)) ++ line_hi) slog0.
Proof.
  apply (outage_delivered (replicate 60 refuses) (connects 50) [] (replicate 60 line_hi) line_hi [] slog0).
  - exact store0_ok.
  - constructor.
  - reflexivity.
  - by apply Forall_replicate.
  - apply Forall_replicate, line_hi_line.
  - apply line_hi_line.
  - split; reflexivity.
  - by vm_compute.
Defined.

Lemma outage_overflows_witness :
  serve (replicate 99 refuses ++ [connects 1]) (concat (replicate 99 line_hi) ++ line_hi ++ []) slog0
  = Faulted OutOfBounds.
Proof.
  apply (outage_overflows (replicate 99 refuses) (connects 1) [] (replicate 99 line_hi) line_hi [] slog0).
  - exact store0_ok.
  - reflexivity.
  - by apply Forall_replicate.
  - apply Forall_replicate, line_hi_line.
  - apply line_hi_line.
  - done.
  - vm_compute. by split.
Defined.

(** A second outage of 70 lines after one of 30 that has been delivered: the
    tail stands at 30. *)
Lemma second_outage :
  serve (replicate 30 refuses ++ [connects 31] ++ replicate 70 refuses ++ [connects 71])
    (concat (replicate 30 line_hi) ++ line_hi ++ concat (replicate 70 line_hi) ++ line_hi) slog0 = Faulted OutOfBounds.
Proof. by vm_compute. Qed.
