(* ===== verification/StartSyslog.v ===== *)
(** * The syslog client: from [main] to its loop

    quemngr/syslogclient/syslogclient.c, [main] up to [for (;;)]: options,
    the FIFO the log lines come from, the server's address.  What follows the
    [main] loop itself is in [Syslog]. *)

From S2P Require Import Prelude Posix Process Libevent Session Utils Quemngr.

#[local] Open Scope Z_scope.

Definition syslog_opts : bytes := codes "unp".
Definition opt_addr : Z := 110.    (* n *)
Definition opt_portno : Z := 112.  (* p *)
Definition EXIT_FAILURE : Z := 1.

(** [atoi]. *)
Definition atoi_text (l : bytes) : Z := match scan_int l with (Some v, _) => i32 v | (None, _) => 0 end.

(** [htons(atoi(port))]: the conversion to 16 bits comes first. *)
Definition port_of (text : bytes) : Z := htons (atoi_text text mod 65536).

(** [open(...) < 0] exits. *)
Definition fifo_open (name : bytes) : PC Z :=
  f ← pc_fails; if f : bool then pexit EXIT_FAILURE else pc_add (Opened name).

(** The descriptor polled, and the server: port in network order and the
    address as text, or nothing, in which case [remotelog] stays
    uninitialised. *)
Definition syslog_setup (argv : list bytes) (fifolog : option bytes) : PC (Z * option (Z * bytes)) :=
  let o := getopt syslog_opts argv in
  match fifolog with
  | None => pexit EXIT_FAILURE
  | Some fifo =>
      logrfd ← fifo_open fifo;
      fifo_open fifo;;
      f ← pc_fails;                                  (* fdopen *)
      if f : bool then pexit EXIT_FAILURE
      else
        mret (logrfd, match optarg opt_addr o, optarg opt_portno o with
                      | Some servaddr, Some port => Some (port_of port, servaddr)
                      | _, _ => None
                      end)
  end.

Lemma fifo_open_wp name (Q : Z -> proc -> Prop) (R : Z -> proc -> Prop) F p :
  (forall fd fl, pr_fds p !! fd = None ->
     Q fd (p <| pr_faults := fl |> <| pr_fds := <[fd := Opened name]> (pr_fds p) |>)) ->
  (forall p', R EXIT_FAILURE p') -> pwp (fifo_open name) Q R F p.
Proof.
  intros HQ HR. unfold fifo_open. apply pwp_bind, pc_fails_wp. intros [] fl; [apply HR|].
  unfold pwp, pc_add. destruct (new_fd_fresh (pr_fds p)) as [Hfd _]. by apply (HQ _ fl).
Qed.

(** The client keeps a writer of its own on the FIFO it reads, so that it
    never sees its end; it exits with status 1 on any error. *)
Lemma syslog_keeps_writer argv fifo p F :
  pwp (syslog_setup argv (Some fifo))
    (fun r p' => exists w, w <> r.1 /\ pr_fds p' !! r.1 = Some (Opened fifo) /\ pr_fds p' !! w = Some (Opened fifo))
    (fun c _ => c = EXIT_FAILURE) F p.
Proof.
  unfold syslog_setup. apply pwp_bind, fifo_open_wp; [|done]. intros r fl Hr.
  apply pwp_bind, fifo_open_wp; [|done]. intros w fl2. cbn. intros [Hw Hne]%lookup_insert_None.
  apply pwp_bind, pc_fails_wp. intros [] fl3; pwp_steps; [done|]. exists w. cbn. split_and!; [done| |].
  - rewrite lookup_insert_ne, lookup_insert_eq by done. done.
  - by rewrite lookup_insert_eq.
Qed.

(** Without [-n] or [-p] the address of the server is never set. *)
Lemma syslog_address_unset argv fifo p :
  optarg opt_addr (getopt syslog_opts argv) = None -> pr_faults p = [] ->
  exists r p', syslog_setup argv (Some fifo) p = (Done (r, None), p').
Proof.
  intros Ha Hf. unfold syslog_setup, fifo_open, pc_fails, mbind, pr_bind. rewrite Ha, Hf. cbn. by do 2 eexists.
Qed.
