(* ===== verification/Iecproxy.v ===== *)
(** * iecproxy: between the queue and the link

    iecproxy/iecproxy.c: the process that starts ieclink, reads the lines it
    prints, answers general interrogations, and passes messages from sockwrite
    clients, who connect through a local socket, on to ieclink and the
    confirmation back.

    The state holds the descriptors of the poll set, the open descriptors, and
    what has been written to whom.  Lists of read results stand for what
    ieclink and the clients send; [poll] reports any combination of events the
    descriptors allow.  A descriptor used after it was closed is a fault.
    Log messages are not modelled. *)

From S2P Require Import Prelude Posix Process.

Open Scope Z_scope.

Definition BUF_SIZE : nat := 512.

Definition END_INIT : bytes := codes "46010400000000000000".
Definition GI_ACT : bytes := codes "64010600FFFF00000014".
Definition GI_CON : bytes := codes "64010700FFFF00000014".
Definition GI_END : bytes := codes "64010A00FFFF00000014".

(** ** State *)

(** Results of reading one byte from ieclink, and of reading a client. *)
Inductive rbyte := RByte (c : Z) | REof | RIntr | RErr.
Inductive rchunk := RChunk (b : bytes) | RCEof | RCReset | RCErr.

Record revents := { in0 : bool; in1 : bool; in2 : bool; hup2 : bool }.

Record px := {
  p_fd1 : Z;                   (* fdread[1].fd: the listening socket *)
  p_fd2 : Z;                   (* fdread[2].fd: the client *)
  p_ev2 : bool;                (* fdread[2].events is POLLIN *)
  p_rev : revents;             (* the revents poll left *)
  p_open : gset Z;             (* open descriptors *)
  p_new_connect : bool;
  p_new_sockfd : Z;
  p_childpid : Z;
  p_kills : list (Z * Z);
  p_pid : option string;       (* PID_NOTIFY *)
  p_cmds : list string;        (* commands run *)
  p_sock : bool;               (* the local socket's file exists *)
  p_faults : list bool;        (* which of the next calls of new_usocket fail *)
  p_scripts : list (option bytes); (* output of the interrogation script, None: popen fails *)
  p_link : list rbyte;         (* from ieclink *)
  p_reads : list rchunk;       (* from the client *)
  p_out : bytes;               (* to ieclink *)
  p_replies : list (Z * Z)     (* to clients: descriptor, byte *)
}.

#[export] Instance px_rebuild : Rebuild px := fun w =>
  Build_px (p_fd1 w) (p_fd2 w) (p_ev2 w) (p_rev w) (p_open w) (p_new_connect w) (p_new_sockfd w)
    (p_childpid w) (p_kills w) (p_pid w) (p_cmds w) (p_sock w) (p_faults w) (p_scripts w) (p_link w)
    (p_reads w) (p_out w) (p_replies w).
#[export] Instance upd_p_fd1 : Updater p_fd1. Proof. solve_updater. Defined.
#[export] Instance upd_p_fd2 : Updater p_fd2. Proof. solve_updater. Defined.
#[export] Instance upd_p_ev2 : Updater p_ev2. Proof. solve_updater. Defined.
#[export] Instance upd_p_rev : Updater p_rev. Proof. solve_updater. Defined.
#[export] Instance upd_p_open : Updater p_open. Proof. solve_updater. Defined.
#[export] Instance upd_p_new_connect : Updater p_new_connect. Proof. solve_updater. Defined.
#[export] Instance upd_p_new_sockfd : Updater p_new_sockfd. Proof. solve_updater. Defined.
#[export] Instance upd_p_childpid : Updater p_childpid. Proof. solve_updater. Defined.
#[export] Instance upd_p_kills : Updater p_kills. Proof. solve_updater. Defined.
#[export] Instance upd_p_pid : Updater p_pid. Proof. solve_updater. Defined.
#[export] Instance upd_p_cmds : Updater p_cmds. Proof. solve_updater. Defined.
#[export] Instance upd_p_sock : Updater p_sock. Proof. solve_updater. Defined.
#[export] Instance upd_p_faults : Updater p_faults. Proof. solve_updater. Defined.
#[export] Instance upd_p_scripts : Updater p_scripts. Proof. solve_updater. Defined.
#[export] Instance upd_p_link : Updater p_link. Proof. solve_updater. Defined.
#[export] Instance upd_p_reads : Updater p_reads. Proof. solve_updater. Defined.
#[export] Instance upd_p_out : Updater p_out. Proof. solve_updater. Defined.
#[export] Instance upd_p_replies : Updater p_replies. Proof. solve_updater. Defined.

Abbreviation PX := (PR px).

(** ** Descriptors *)

Definition fd_open : PX Z := fun w =>
  let fd := new_fd (p_open w) in (Done fd, w <| p_open := {[fd]} ∪ p_open w |>).

(** [close], [write]: on -1 they only fail. *)
Definition fd_close (fd : Z) : PX unit := fun w =>
  if fd <? 0 then (Done tt, w)
  else if bool_decide (fd ∈ p_open w) then (Done tt, w <| p_open := p_open w ∖ {[fd]} |>)
  else (Faulted UseAfterFree, w).

Definition fd_reply (fd c : Z) : PX unit := fun w =>
  if fd <? 0 then (Done tt, w)
  else if bool_decide (fd ∈ p_open w) then (Done tt, w <| p_replies := p_replies w ++ [(fd, c)] |>)
  else (Faulted UseAfterFree, w).

(** One byte for the client; closing the client and the listening socket. *)
Definition answer_client (c : Z) : PX unit := fd2 ← pgets p_fd2; fd_reply fd2 c.
Definition close_client : PX unit :=
  fd2 ← pgets p_fd2; fd_close fd2;; pmodify (fun w => w <| p_fd2 := -1 |>).
Definition close_listener : PX unit :=
  fd1 ← pgets p_fd1; fd_close fd1;; pmodify (fun w => w <| p_fd1 := -1 |>).

(** [dprintf(pipefd1[1], ...)] *)
Definition to_link (b : bytes) : PX unit := pmodify (fun w => w <| p_out := p_out w ++ b |>).

(** Whether the next call fails. *)
Definition call_fails : PX bool := fun w =>
  (Done (hd false (p_faults w)), w <| p_faults := tl (p_faults w) |>).

(** A call whose failure ends the process. *)
Definition must : PX unit := f ← call_fails; pwhen f ERR_SYS.

(** ** Operations *)
Definition read_byte : PX rbyte := fun w =>
  match p_link w with
  | [] => (Faulted Blocked, w)            (* nothing to read *)
  | r :: l => (Done r, w <| p_link := l |>)
  end.

(** [again:] one byte, whatever number of signals interrupts the call. *)
Fixpoint read_again (fuel : nat) : PX rbyte :=
  r ← read_byte;
  match r with
  | RIntr => match fuel with O => pfault OutOfFuel | S fuel' => read_again fuel' end
  | _ => mret r
  end.

(** [for (n = 1; n < maxlen; n++)]: [k] rounds are left, [acc] has been
    stored. *)
Fixpoint read_line_loop (k : nat) (n : Z) (acc : bytes) : PX (Z * bytes) :=
  match k with
  | O => mret (n, acc)
  | S k' =>
      fuel ← pgets (fun w => length (p_link w));
      r ← read_again fuel;
      match r with
      | RByte c => if c =? 10 then mret (n, acc ++ [c]) else read_line_loop k' (n + 1) (acc ++ [c])
      | REof => if n =? 1 then mret (0, acc) else mret (n, acc)
      | _ => mret (-1, acc)
      end
  end.

Definition readline : PX (Z * bytes) := read_line_loop (BUF_SIZE - 1) 1 [].

Definition new_usocket : PX Z :=
  must;;                                          (* socket *)
  sockfd ← fd_open;
  must;;                                          (* unlink *)
  pmodify (fun w => w <| p_sock := false |>);;
  must;;                                          (* bind *)
  pmodify (fun w => w <| p_sock := true |>);;
  must;;                                          (* listen *)
  mret sockfd.

(** [fgets(asdu, BUF_SIZE, fp)] up to the end of the file: the pieces read. *)
Fixpoint fgets_piece (n : nat) (l : bytes) : bytes * bytes :=
  match n, l with
  | S n', c :: l' =>
      if c =? 10 then ([c], l') else let '(b, r) := fgets_piece n' l' in (c :: b, r)
  | _, _ => ([], l)
  end.

Fixpoint interrog_loop (fuel : nat) (l : bytes) : PX unit :=
  match l, fuel with
  | [], _ => pskip
  | _, O => pfault OutOfFuel
  | _, S fuel' =>
      let '(asdu, rest) := fgets_piece (BUF_SIZE - 1) l in
      to_link (cstr asdu);; interrog_loop fuel' rest
  end.

Definition ginterrog : PX unit :=
  s ← pgets (fun w => hd (Some []) (p_scripts w));
  pmodify (fun w => w <| p_scripts := tl (p_scripts w) |>);;
  match s with
  | None => pfault NullDeref
  | Some text => interrog_loop (length text) text
  end.

Definition SIGTERM : Z := 15.

Definition sig_term : PX unit :=
  pid ← pgets p_childpid;
  pwhen (0 <? pid) (pmodify (fun w => w <| p_kills := p_kills w ++ [(pid, SIGTERM)] |>));;
  pwhen (pid =? 0) (pexit 0).

(** [pid]: what [waitpid] returns. *)
Definition sig_chld (pid : Z) : PX unit :=
  c ← pgets p_childpid;
  pwhen (pid =? c) (pmodify (fun w => w <| p_childpid := 0 |>);; sig_term).

(** [system] of the command, cut to the size of its buffer. *)
Definition run_hook (name : string) : PX unit :=
  pid ← pgets p_pid;
  match pid with
  | None => pskip
  | Some p =>
      pmodify (fun w => w <| p_cmds := p_cmds w ++
        [String.substring 0 (BUF_SIZE - 1) (String.append name (String.append " " p))] |>)
  end.
Definition hook_connect : PX unit := run_hook "hook_connect".
Definition hook_disconnect : PX unit := run_hook "hook_disconnect".

(** ** The loop *)
Definition nl (b : bytes) : bytes := b ++ [10].
Definition ch_plus : Z := 43.
Definition ch_minus : Z := 45.
Definition ch_less : Z := 60.
Definition ch_greater : Z := 62.
Definition ch_caret : Z := 94.

(** [strncmp(a, b, n) == 0] *)
Definition strncmp0 (a b : bytes) (n : Z) : bool :=
  bool_decide (take (Z.to_nat n) (cstr a) = take (Z.to_nat n) (cstr b)).

(** [buf[strlen(buf)-1] = 0] *)
Definition chop (buf : bytes) : PX unit :=
  match cstr buf with [] => pfault OutOfBounds | _ => pskip end.

Definition on_gi_act : PX unit :=
  new ← pgets p_new_connect;
  if new : bool then
    pmodify (fun w => w <| p_fd1 := p_new_sockfd w |>);;
    hook_connect;;
    to_link (nl GI_CON);;
    pmodify (fun w => w <| p_new_connect := false |>)
  else
    to_link (nl GI_CON);; ginterrog;; to_link (nl GI_END);; to_link (nl [ch_greater]).

Definition on_mark (c : Z) : PX unit :=
  if c =? ch_plus then
    fd ← new_usocket;
    pmodify (fun w => w <| p_new_sockfd := fd |> <| p_new_connect := true |>)
  else if c =? ch_minus then
    fd2 ← pgets p_fd2;
    pwhen (0 <? fd2) (answer_client c;; close_client);;
    close_listener;;
    pmodify (fun w => w <| p_sock := false |>);;
    hook_disconnect
  else if c =? ch_less then
    fd2 ← pgets p_fd2;
    if fd2 <? 0 then pskip else answer_client c;; close_client
  else pskip.

(** A line from ieclink; the result tells whether [continue] is executed. *)
Definition on_line : PX bool :=
  r ← readline;
  let '(n, buf) := r in
  if 0 <? n then
    if strncmp0 END_INIT buf 8 then chop buf;; mret true
    else if strncmp0 GI_ACT buf (n - 1) then chop buf;; on_gi_act;; mret false
    else on_mark (hd 0 buf);; mret false
  else mret false.

Definition on_accept : PX unit :=
  fd1 ← pgets p_fd1;
  f ← call_fails;
  if (fd1 <? 0) || f then pmodify (fun w => w <| p_fd2 := -1 |> <| p_ev2 := true |>)
  else fd ← fd_open; pmodify (fun w => w <| p_fd2 := fd |> <| p_ev2 := true |>).

(** [read(fdread[2].fd, buf, BUF_SIZE)] *)
Definition read_chunk : PX rchunk := fun w =>
  if p_fd2 w <? 0 then (Done RCErr, w)
  else if bool_decide (p_fd2 w ∈ p_open w) then
    match p_reads w with
    | [] => (Faulted Blocked, w)          (* nothing to read *)
    | r :: l => (Done (match r with RChunk b => match take BUF_SIZE b with [] => RCEof | b' => RChunk b' end | _ => r end),
                 w <| p_reads := match r with RChunk b => match drop BUF_SIZE b with [] => l | b' => RChunk b' :: l end | _ => l end |>)
    end
  else (Faulted UseAfterFree, w).

(** The loop that reads a client, with what ended it. *)
Fixpoint client_loop (fuel : nat) : PX rchunk :=
  r ← read_chunk;
  match r with
  | RChunk buf =>
      (if hd 0 buf =? ch_caret then
         answer_client ch_caret;; close_client;;
         ginterrog;; to_link (nl GI_END)
       else to_link buf);;
      match fuel with O => pfault OutOfFuel | S fuel' => client_loop fuel' end
  | _ => mret r
  end.

(** Reads to come: chunks longer than the buffer take several. *)
Definition chunk_size (r : rchunk) : nat := match r with RChunk b => S (length b) | _ => 1 end.
Definition reads_size (w : px) : nat := sum_list_with chunk_size (p_reads w).

Definition on_client : PX unit :=
  fuel ← pgets reads_size;
  r ← client_loop fuel;
  match r with
  | RCReset => close_client
  | _ => pskip
  end;;
  to_link (nl [ch_greater]);;
  pmodify (fun w => w <| p_ev2 := false |>).

(** What [poll] returns: it reports only what it was asked for, hangup apart;
    when it fails the old [revents] stay. *)
Inductive polled := Polled (r : revents) | PollIntr.

Definition masked (w : px) (r : revents) : revents :=
  Build_revents (in0 r) (in1 r && (0 <=? p_fd1 w)) (in2 r && (0 <=? p_fd2 w) && p_ev2 w) (hup2 r && (0 <=? p_fd2 w)).

Definition nready (r : revents) : Z := Z.b2z (in0 r) + Z.b2z (in1 r) + Z.b2z (in2 r || hup2 r).

(** One pass.  [nready] goes down with each event; [continue] skips the
    rest. *)
Definition proxy_step (p : polled) : PX unit :=
  w ← pgets id;
  let rev := match p with Polled r => masked w r | PollIntr => p_rev w end in
  let n := match p with Polled _ => nready rev | PollIntr => -1 end in
  pmodify (fun w => w <| p_rev := rev |>);;
  c ← (if in0 rev then c ← on_line; mret (c || (n - 1 <=? 0)) else mret false);
  let n := if in0 rev then n - 1 else n in
  if c : bool then pskip
  else
    pwhen (in1 rev) on_accept;;
    let n := if in1 rev then n - 1 else n in
    if in1 rev && (n <=? 0) then pskip
    else pwhen (in2 rev) on_client.

(** The state in which the loop starts. *)
Definition proxy_start (w : px) : px :=
  w <| p_fd1 := -1 |> <| p_fd2 := -1 |> <| p_new_connect := false |> <| p_new_sockfd := -1 |>.
