(* ===== verification/ProxyProps.v ===== *)
(** * The proxy: properties

    The descriptors the proxy polls are always open ones of its own; loops end;
    messages, confirmations and interrogations pass as they should; and the
    two ways in which a message can go astray. *)

From S2P Require Import Prelude Posix Process Iecproxy.

Open Scope Z_scope.

(** ** The invariant *)
Record px_inv (w : px) : Prop := {
  pi_std : forall k, 0 <= k < 3 -> k ∈ p_open w;
  pi_fd1 : p_fd1 w = -1 \/ 3 <= p_fd1 w /\ p_fd1 w ∈ p_open w;
  pi_fd2 : p_fd2 w = -1 \/ 3 <= p_fd2 w /\ p_fd2 w ∈ p_open w;
  pi_fd12 : p_fd1 w = -1 \/ p_fd1 w <> p_fd2 w;
  pi_new : (p_new_connect w = true) ->
    3 <= p_new_sockfd w /\ p_new_sockfd w ∈ p_open w /\ p_new_sockfd w <> p_fd1 w /\ p_new_sockfd w <> p_fd2 w
}.

Definition exits_2 (c : Z) (w : px) : Prop := c = 2.

Section passes.
(** What the interrogation scripts will print, from the start of the pass. *)
Context (scripts : list (option bytes)).

Record relaying (w : px) : Prop := { rl_inv : px_inv w; rl_scripts : p_scripts w ⊆ scripts }.

(** The ways not to return: a call that waits for input, and a script that
    could not be started, whose output is read through a null pointer. *)
Definition stuck (f : fault) : Prop := f = Blocked \/ (f = NullDeref /\ None ∈ scripts).

Lemma stuck_blocked : stuck Blocked.
Proof. by left. Qed.
#[local] Hint Resolve stuck_blocked : core.

(** [m] keeps the invariant and changes no descriptor. *)
Definition quiet {A} (m : PX A) : Prop := forall w, relaying w ->
  pwp m (fun _ w' => relaying w' /\ p_fd2 w' = p_fd2 w) exits_2 stuck w.
Definition keeps {A} (m : PX A) : Prop := forall w, relaying w ->
  pwp m (fun _ w' => relaying w') exits_2 stuck w.

Lemma steps_keeps {A} (m : PX A) : quiet m -> keeps m.
Proof. intros H w Hw. eapply pwp_mono; [by apply H| |done]. by intros ? ? [? _]. Qed.

Lemma keeps_bind {A B} (m : PX A) (k : A -> PX B) : keeps m -> (forall a, keeps (k a)) -> keeps (m ≫= k).
Proof.
  intros Hm Hk w Hw. apply pwp_bind. eapply pwp_mono; [by apply Hm| |done]. intros a w1 H1. by apply Hk.
Qed.

Lemma steps_bind {A B} (m : PX A) (k : A -> PX B) : quiet m -> (forall a, quiet (k a)) -> quiet (m ≫= k).
Proof.
  intros Hm Hk w Hw. apply pwp_bind. eapply pwp_mono; [by apply Hm| |done]. intros a w1 [H1 E1].
  eapply pwp_mono; [by apply Hk| |done]. intros b w2 [H2 E2]. split; [done|congruence].
Qed.

Lemma steps_ret {A} (a : A) : quiet (mret a).
Proof. intros w Hw. by pwp_steps. Qed.
Lemma keeps_ret {A} (a : A) : keeps (mret a).
Proof. apply steps_keeps, steps_ret. Qed.

Lemma steps_gets {A} (f : px -> A) : quiet (pgets f).
Proof. intros w Hw. by pwp_steps. Qed.
Lemma keeps_gets {A} (f : px -> A) : keeps (pgets f).
Proof. apply steps_keeps, steps_gets. Qed.

Lemma keeps_when b m : keeps m -> keeps (pwhen b m).
Proof. destruct b; [done|]. intros _. apply keeps_ret. Qed.

Lemma steps_exit {A} : quiet (ERR_SYS : PX A).
Proof. intros w Hw. by pwp_steps. Qed.

(** What the invariant looks at, and operations that leave it alone. *)
Definition core (w : px) := (p_fd1 w, p_fd2 w, p_open w, p_new_connect w, p_new_sockfd w, p_scripts w).

Definition calm {A} (m : PX A) : Prop := forall (Q : A -> px -> Prop) w,
  (forall a w', core w' = core w -> Q a w') -> pwp m Q exits_2 stuck w.

Lemma core_inv w w' : core w' = core w -> relaying w -> relaying w' /\ p_fd2 w' = p_fd2 w.
Proof.
  unfold core. intros E. injection E as E1 E2 E3 E4 E5 E6. intros [[] ?]. split; [|done].
  split; [split|]; rewrite ?E1, ?E2, ?E3, ?E4, ?E5, ?E6; done.
Qed.

Lemma calm_quiet {A} (m : PX A) : calm m -> quiet m.
Proof. intros Hm w Hw. apply Hm. intros a w' E. by apply core_inv. Qed.

Lemma calm_modify f : (forall w, core (f w) = core w) -> calm (pmodify f).
Proof. intros Hf Q w HQ. pwp_steps. by apply HQ. Qed.

Lemma calm_bind {A B} (m : PX A) (k : A -> PX B) : calm m -> (forall a, calm (k a)) -> calm (m ≫= k).
Proof. intros Hm Hk Q w HQ. apply pwp_bind, Hm. intros a w1 E. apply Hk. intros b w2 E'. apply HQ. congruence. Qed.

Lemma to_link_quiet b : quiet (to_link b).
Proof. by apply calm_quiet, calm_modify. Qed.

Lemma must_calm : calm must.
Proof. intros Q w HQ. unfold must, pwp, mbind, pr_bind, call_fails. destruct (p_faults w) as [|[] l]; cbn; [by apply HQ|done|by apply HQ]. Qed.

Lemma run_hook_quiet n : quiet (run_hook n).
Proof.
  unfold run_hook. apply steps_bind; [apply steps_gets|]. intros [p|]; [|apply steps_ret].
  by apply calm_quiet, calm_modify.
Qed.

(** ** Reading from ieclink *)
Lemma read_again_quiet fuel w : relaying w -> (length (p_link w) <= fuel)%nat ->
  pwp (read_again fuel) (fun _ w' => relaying w' /\ p_fd2 w' = p_fd2 w) exits_2 stuck w.
Proof.
  revert w. induction fuel as [|fuel IH]; intros w Hw Hf; cbn [read_again]; apply pwp_bind;
    unfold pwp at 1, read_byte; destruct (p_link w) as [|r l] eqn:E; cbn [length] in Hf; try done; try lia.
  assert (relaying (w <| p_link := l |>)) as H1 by (by destruct Hw as [[] ?]; split; [split|]).
  destruct r; try by pwp_steps.
  eapply pwp_mono; [apply IH; [done|cbn; lia]| |done]. by intros.
Qed.

(** A line of length one is a newline. *)
Lemma read_line_loop_quiet k n acc w :
  relaying w -> 1 <= n -> (n = 1 -> acc = [] /\ k <> O) ->
  pwp (read_line_loop k n acc)
    (fun r w' => relaying w' /\ p_fd2 w' = p_fd2 w /\ (r.1 = 1 -> r.2 = [10])) exits_2 stuck w.
Proof.
  revert n acc w. induction k as [|k IH]; intros n acc w Hw Hn Ha; cbn [read_line_loop].
  { pwp_steps. split_and!; [done|done|]. cbn. intros E. by destruct (Ha E). }
  pwp_steps. eapply pwp_mono; [by apply read_again_quiet| |done].
  intros [c| | |] w1 [H1 E1]; [| |by pwp_steps..].
  - destruct (Z.eqb_spec c 10) as [->|Hc].
    { pwp_steps. split_and!; [done|done|]. cbn. intros E. by destruct (Ha E) as [-> _]. }
    eapply pwp_mono; [apply IH; [done|lia|lia]| |done]. intros r w2 (? & ? & ?). split_and!; [done|congruence|done].
  - destruct (Z.eqb_spec n 1); pwp_steps; by split_and!.
Qed.

Lemma chop_ok (a buf : bytes) (n : Z) :
  cstr a <> [] -> strncmp0 a buf n = true -> n <> 0 -> 0 <= n -> chop buf = pskip.
Proof.
  intros Ha Hs Hn Hp. unfold strncmp0 in Hs. bool_hyps. unfold chop. destruct (cstr buf) as [|c l]; [|done].
  rewrite take_nil in Hs. apply (f_equal length) in Hs. rewrite length_take in Hs.
  destruct (cstr a); [done|]. cbn -[Nat.min] in Hs. lia.
Qed.

(** ** Descriptors *)
(** A new descriptor is none of those in use. *)
Definition unused (fd : Z) (w : px) : Prop :=
  relaying w /\ 3 <= fd /\ fd ∈ p_open w /\ fd <> p_fd1 w /\ fd <> p_fd2 w /\
  (p_new_connect w = true -> fd <> p_new_sockfd w).

Lemma core_unused fd w w' : core w' = core w -> unused fd w -> unused fd w'.
Proof.
  intros E (Hi & H). split; [by eapply core_inv|]. unfold core in E. injection E as -> -> -> -> -> _. done.
Qed.

Lemma fd_open_wp w (Q : Z -> px -> Prop) :
  relaying w -> (forall fd w', unused fd w' -> Q fd w') -> pwp fd_open Q exits_2 stuck w.
Proof.
  intros Hi HQ. unfold pwp, fd_open. apply HQ. destruct (new_fd_spec (p_open w)) as [Hn Hp].
  set (fd := new_fd (p_open w)) in *. destruct Hi as [[S F1 F2 F12 N] P].
  assert (3 <= fd) as Hfd. { destruct (decide (3 <= fd)); [done|]. destruct Hn. apply S. lia. }
  assert (forall x, x ∈ p_open w -> x ∈ {[fd]} ∪ p_open w) as Hu by (intros; by apply elem_of_union_r).
  split; [split; [split|]; cbn; try done|cbn].
  - intros k Hk. auto.
  - destruct F1 as [?|[? ?]]; auto.
  - destruct F2 as [?|[? ?]]; auto.
  - intros E. destruct (N E) as (? & ? & ? & ?). auto.
  - split_and!; [done|by apply elem_of_union_l, elem_of_singleton|..].
    + destruct F1 as [->|[_ ?]]; [lia|]. by intros ->.
    + destruct F2 as [->|[_ ?]]; [lia|]. by intros ->.
    + intros E ->. by destruct (N E) as (_ & ? & _).
Qed.

Lemma new_usocket_wp w (Q : Z -> px -> Prop) :
  relaying w -> (forall fd w', unused fd w' -> Q fd w') -> pwp new_usocket Q exits_2 stuck w.
Proof.
  intros Hi HQ. unfold new_usocket. apply pwp_bind, must_calm. intros [] w1 E1.
  destruct (core_inv _ _ E1 Hi) as [H1 _]. apply pwp_bind, fd_open_wp; [done|]. intros fd w2 H2.
  apply pwp_bind, must_calm. intros [] w3 E3. apply pwp_bind, pwp_modify, pwp_bind, must_calm. intros [] w4 E4.
  apply pwp_bind, pwp_modify, pwp_bind, must_calm. intros [] w5 E5. pwp_steps. apply HQ.
  eapply core_unused, H2. rewrite E5. unfold core. cbn. change (core w4 = core w2). rewrite E4. exact E3.
Qed.

(** Closing one of the polled descriptors and forgetting it. *)
Lemma inv_forget2 w :
  relaying w -> relaying (w <| p_open := p_open w ∖ {[p_fd2 w]} |> <| p_fd2 := -1 |>).
Proof.
  intros [[S F1 F2 F12 N] P]. assert (forall x, x ∈ p_open w -> x <> p_fd2 w -> x ∈ p_open w ∖ {[p_fd2 w]}) as Hd.
  { intros x Hx Hn. apply elem_of_difference. split; [done|]. by rewrite elem_of_singleton. }
  split; [split|]; cbn; auto.
  - intros k Hk. apply Hd; [auto|]. lia.
  - destruct F1 as [?|[? ?]]; [auto|]. right. split; [done|]. apply Hd; [done|lia].
  - destruct F1 as [?|[? ?]]; [auto|]. right. lia.
  - intros E. destruct (N E) as (? & ? & ? & ?). split_and!; auto; lia.
Qed.

Lemma inv_forget1 w :
  relaying w -> relaying (w <| p_open := p_open w ∖ {[p_fd1 w]} |> <| p_fd1 := -1 |>).
Proof.
  intros [[S F1 F2 F12 N] P]. assert (forall x, x ∈ p_open w -> x <> p_fd1 w -> x ∈ p_open w ∖ {[p_fd1 w]}) as Hd.
  { intros x Hx Hn. apply elem_of_difference. split; [done|]. by rewrite elem_of_singleton. }
  split; [split|]; cbn; auto.
  - intros k Hk. apply Hd; [auto|]. lia.
  - destruct F2 as [?|[? ?]]; [auto|]. right. split; [done|]. apply Hd; [done|lia].
  - intros E. destruct (N E) as (? & ? & ? & ?). split_and!; auto; lia.
Qed.

Lemma inv_fd2_none w : relaying w -> p_fd2 w < 0 -> relaying (w <| p_fd2 := -1 |>).
Proof.
  intros Hw Hn. assert (p_fd2 w = -1) as E by (destruct (pi_fd2 _ (rl_inv _ Hw)); lia). rewrite <- E. by destruct w.
Qed.

Lemma inv_fd1_none w : relaying w -> p_fd1 w < 0 -> relaying (w <| p_fd1 := -1 |>).
Proof.
  intros Hw Hn. assert (p_fd1 w = -1) as E by (destruct (pi_fd1 _ (rl_inv _ Hw)); lia). rewrite <- E. by destruct w.
Qed.

Lemma answer_client_quiet c : quiet (answer_client c).
Proof.
  intros w Hw. unfold answer_client. pwp_steps. unfold pwp, fd_reply.
  destruct (Z.ltb_spec (p_fd2 w) 0); [done|].
  rewrite bool_decide_true by (destruct (pi_fd2 _ (rl_inv _ Hw)) as [?|[_ ?]]; [lia|done]). split; [by apply (core_inv w)|done].
Qed.

Lemma close_client_keeps w : relaying w ->
  pwp close_client (fun _ w' => relaying w' /\ p_fd2 w' = -1) exits_2 stuck w.
Proof.
  intros Hw. unfold close_client. pwp_steps. unfold pwp at 1, fd_close. destruct (Z.ltb_spec (p_fd2 w) 0) as [Hn|Hp].
  - pwp_steps. split; [by apply inv_fd2_none|done].
  - rewrite bool_decide_true by (destruct (pi_fd2 _ (rl_inv _ Hw)) as [?|[_ ?]]; [lia|done]).
    pwp_steps. split; [by apply inv_forget2|done].
Qed.

Lemma close_listener_keeps : keeps close_listener.
Proof.
  intros w Hw. unfold close_listener. pwp_steps. unfold pwp at 1, fd_close. destruct (Z.ltb_spec (p_fd1 w) 0) as [Hn|Hp].
  - pwp_steps. by apply inv_fd1_none.
  - rewrite bool_decide_true by (destruct (pi_fd1 _ (rl_inv _ Hw)) as [?|[_ ?]]; [lia|done]). pwp_steps. by apply inv_forget1.
Qed.

(** The client is told and closed. *)
Lemma dismiss_keeps c w : relaying w ->
  pwp (answer_client c;; close_client) (fun _ w' => relaying w' /\ p_fd2 w' = -1) exits_2 stuck w.
Proof.
  intros Hw. apply pwp_bind. eapply pwp_mono; [by apply answer_client_quiet| |done].
  intros [] w1 [H1 _]. by apply close_client_keeps.
Qed.

(** ** Handlers *)
Lemma fgets_piece_length n l :
  (0 < n)%nat -> l <> [] -> (length (fgets_piece n l).2 < length l)%nat.
Proof.
  revert l. induction n as [|n IH]; intros l Hn Hl; [lia|]. destruct l as [|c l]; [done|]. cbn [fgets_piece].
  destruct (c =? 10); [cbn; lia|]. destruct (fgets_piece n l) as [b r] eqn:E. cbn.
  destruct (decide (n = 0%nat)) as [->|]; [injection E as _ <-; lia|]. destruct (decide (l = [])) as [->|Hl'].
  - destruct n; injection E as _ <-; cbn; lia.
  - specialize (IH l ltac:(lia) Hl'). rewrite E in IH. cbn in IH. lia.
Qed.

Lemma interrog_loop_quiet fuel l : (length l <= fuel)%nat -> quiet (interrog_loop fuel l).
Proof.
  revert l. induction fuel as [|fuel IH]; intros l Hf; destruct l as [|c l]; try apply steps_ret; cbn [length] in Hf; [lia|].
  cbn [interrog_loop]. pose proof (fgets_piece_length (BUF_SIZE - 1) (c :: l) ltac:(unfold BUF_SIZE; lia) ltac:(done)) as Hl.
  destruct (fgets_piece (BUF_SIZE - 1) (c :: l)) as [b r]. cbn [snd length] in Hl.
  apply steps_bind; [apply to_link_quiet|intros _]. apply IH. lia.
Qed.

Lemma ginterrog_quiet : quiet ginterrog.
Proof.
  intros w Hw. unfold ginterrog. pwp_steps. set (w1 := w <| p_scripts := tl (p_scripts w) |>).
  destruct (Hw) as [[] P].
  assert (relaying w1) as H1.
  { split; [by split|]. cbn. etrans; [|exact P]. destruct (p_scripts w); cbn; set_solver. }
  destruct (hd (Some []) (p_scripts w)) as [t|] eqn:E.
  2: { right. split; [done|]. apply P. destruct (p_scripts w) as [|x l]; [done|]. cbn in E. subst. by left. }
  eapply pwp_mono; [by apply interrog_loop_quiet| |done]. by intros.
Qed.

Lemma on_gi_act_keeps : keeps on_gi_act.
Proof.
  intros w Hw. unfold on_gi_act. pwp_steps. destruct (p_new_connect w) eqn:En.
  - apply pwp_bind, pwp_modify, pwp_bind. unfold hook_connect, run_hook. pwp_steps.
    destruct (pi_new _ (rl_inv _ Hw) En) as (? & ? & ? & ?). destruct Hw as [[S F1 F2 F12 N] P].
    destruct (p_pid _); unfold to_link; pwp_steps; (split; [split|]; cbn; auto; done).
  - revert w Hw En. intros w Hw _. revert w Hw.
    change (keeps (to_link (nl GI_CON);; ginterrog;; to_link (nl GI_END);; to_link (nl [ch_greater]))).
    apply steps_keeps. repeat (apply steps_bind; [|intros _]); auto using to_link_quiet, ginterrog_quiet.
Qed.

Lemma inv_mark fd w : unused fd w -> relaying (w <| p_new_sockfd := fd |> <| p_new_connect := true |>).
Proof. intros ([[S F1 F2 F12 N] P] & ? & ? & ? & ? & _). split; [split|]; cbn; auto. Qed.

Lemma on_mark_keeps c : keeps (on_mark c).
Proof.
  intros w Hw. unfold on_mark. destruct (c =? ch_plus).
  { apply pwp_bind, new_usocket_wp; [done|]. intros fd w1 H1. pwp_steps. by apply inv_mark. }
  assert (keeps (answer_client c;; close_client)) as Hd.
  { intros v Hv. eapply pwp_mono; [by apply dismiss_keeps| |done]. by intros ? ? [? _]. }
  destruct (c =? ch_minus); [|destruct (c =? ch_less); [|by apply keeps_ret]]; revert w Hw.
  - apply keeps_bind; [apply keeps_gets|intros fd2]. apply keeps_bind; [by apply keeps_when|intros _].
    apply keeps_bind; [apply close_listener_keeps|intros _]. apply steps_keeps.
    apply steps_bind; [by apply calm_quiet, calm_modify|intros _]. apply run_hook_quiet.
  - apply keeps_bind; [apply keeps_gets|intros fd2]. destruct (fd2 <? 0); [apply keeps_ret|done].
Qed.

Lemma on_line_keeps : keeps on_line.
Proof.
  intros w Hw. unfold on_line. apply pwp_bind. unfold readline.
  eapply pwp_mono; [apply read_line_loop_quiet; [done|lia|by intros; split; [|unfold BUF_SIZE]]| |done].
  intros [n buf] w1 (H1 & _ & Hn). cbn [fst snd] in Hn. destruct (Z.ltb_spec 0 n); [|by apply keeps_ret].
  destruct (strncmp0 END_INIT buf 8) eqn:E1.
  { rewrite (chop_ok END_INIT buf 8) by done. by pwp_steps. }
  destruct (strncmp0 GI_ACT buf (n - 1)) eqn:E2.
  - assert (chop buf = pskip) as ->.
    { destruct (decide (n = 1)) as [En|]; [by rewrite (Hn En)|]. apply (chop_ok GI_ACT buf (n - 1)); [done|done|lia|lia]. }
    apply pwp_bind. pwp_steps. eapply pwp_mono; [by apply on_gi_act_keeps| |done]. intros [] w2 H2. by pwp_steps.
  - apply pwp_bind. eapply pwp_mono; [by apply on_mark_keeps| |done]. intros [] w2 H2. by pwp_steps.
Qed.

Lemma on_accept_keeps : keeps on_accept.
Proof.
  intros w Hw. unfold on_accept. pwp_steps. unfold pwp at 1, call_fails.
  set (w1 := w <| p_faults := tl (p_faults w) |>). assert (relaying w1) as H1 by by apply (core_inv w).
  destruct (_ || _).
  - pwp_steps. destruct H1 as [[S F1 F2 F12 N] P]. split; [split|]; cbn; auto.
    + cbn in F1. destruct F1 as [?|[? ?]]; [auto|]. right. lia.
    + intros E. destruct (N E) as (? & ? & ? & ?). split_and!; auto. cbn in *. lia.
  - apply pwp_bind, fd_open_wp; [done|]. intros fd w2 ([[S F1 F2 F12 N] P] & ? & ? & ? & ? & Hn). pwp_steps.
    split; [split|]; cbn; auto. intros E. destruct (N E) as (? & ? & ? & ?). specialize (Hn E). split_and!; auto.
Qed.

(** ** A client *)
Lemma read_chunk_wp w (Q : rchunk -> px -> Prop) :
  relaying w ->
  (p_fd2 w < 0 -> Q RCErr w) ->
  (forall r l, 0 <= p_fd2 w -> relaying (w <| p_reads := l |>) ->
     (forall b, r = RChunk b -> (sum_list_with chunk_size l < reads_size w)%nat) ->
     Q r (w <| p_reads := l |>)) ->
  pwp read_chunk Q exits_2 stuck w.
Proof.
  intros Hw Hneg HQ. unfold pwp, read_chunk. destruct (Z.ltb_spec (p_fd2 w) 0); [auto|].
  rewrite bool_decide_true by (destruct (pi_fd2 _ (rl_inv _ Hw)) as [?|[_ ?]]; [lia|done]).
  unfold reads_size in HQ. destruct (p_reads w) as [|r l]; [done|]. apply HQ; [done|by apply (core_inv w)|].
  intros b E. destruct r as [b0| | |]; try discriminate. destruct b0 as [|c b0]; [discriminate|].
  cbn [sum_list_with]. unfold chunk_size at 2. unfold BUF_SIZE. cbn [drop length].
  pose proof (length_drop b0 511) as Hd. destruct (drop 511 b0); cbn in *; lia.
Qed.

Lemma client_loop_keeps fuel w :
  relaying w -> (p_fd2 w < 0 \/ (reads_size w <= fuel)%nat) ->
  pwp (client_loop fuel) (fun _ w' => relaying w') exits_2 stuck w.
Proof.
  revert w. induction fuel as [|fuel IH]; intros w Hw Hf; cbn [client_loop]; apply pwp_bind, read_chunk_wp;
    try done;
    intros r l Hp H1 Hr; (destruct r as [b| | |]; [|by apply keeps_ret..]); specialize (Hr b eq_refl); [destruct Hf; lia|].
  apply pwp_bind. destruct (hd 0 b =? ch_caret).
  - eapply (pwp_mono _ (fun _ w' => relaying w' /\ p_fd2 w' = -1)); [|intros [] w2 [H2 E2]; apply IH; [done|lia]|done].
    apply pwp_bind. eapply pwp_mono; [by apply answer_client_quiet| |done]. intros [] w2 [H2 _].
    apply pwp_bind. eapply pwp_mono; [by apply close_client_keeps| |done]. intros [] w3 [H3 <-].
    eapply steps_bind; [apply ginterrog_quiet|intros _; apply to_link_quiet|exact H3].
  - unfold to_link. apply pwp_modify, IH; [by eapply core_inv, H1|]. right. unfold reads_size. cbn. destruct Hf; lia.
Qed.

Lemma on_client_keeps : keeps on_client.
Proof.
  intros w Hw. unfold on_client. apply pwp_bind, pwp_gets, pwp_bind.
  eapply pwp_mono; [apply client_loop_keeps; [done|by right]| |done]. intros r w1 H1. revert w1 H1.
  apply keeps_bind; [|intros _; apply steps_keeps, steps_bind; [apply to_link_quiet|intros _; by apply calm_quiet, calm_modify]].
  destruct r; try apply keeps_ret. intros w1 H1. eapply pwp_mono; [by apply close_client_keeps| |done]. by intros ? ? [? _].
Qed.

Lemma proxy_step_keeps (p : polled) : keeps (proxy_step p).
Proof.
  apply (keeps_bind (pgets id)); [apply keeps_gets|intros w]. cbv zeta.
  generalize (match p with Polled r => masked w r | PollIntr => p_rev w end). intros rev.
  generalize (match p with Polled _ => nready rev | PollIntr => -1 end). intros n.
  apply keeps_bind; [by apply steps_keeps, calm_quiet, calm_modify|intros _].
  apply keeps_bind.
  - destruct (in0 rev); [|apply keeps_ret]. apply keeps_bind; [apply on_line_keeps|intros c]. apply keeps_ret.
  - intros []; [apply keeps_ret|]. apply keeps_bind; [apply keeps_when, on_accept_keeps|intros _].
    case_match; [apply keeps_ret|]. apply keeps_when, on_client_keeps.
Qed.
End passes.

(** C18: Safety of the proxy's loop: whatever [poll] reports and whatever ieclink
    and the clients send, one pass returns, or blocks in a read for want of
    input, or ends the process with status 2, or, only if a script for the
    general interrogation could not be started, reads its output through a
    null pointer.  The polled descriptors stay distinct open
    descriptors of its own, no closed descriptor is written to or closed
    again, no string is indexed before its start, and no loop goes round for
    ever. *)
Theorem proxy_step_safe (p : polled) (w : px) :
  px_inv w ->
  pwp (proxy_step p) (fun _ w' => px_inv w') exits_2
    (fun f => f = Blocked \/ (f = NullDeref /\ None ∈ p_scripts w)) w.
Proof.
  intros Hw. eapply pwp_mono; [apply (proxy_step_keeps (p_scripts w) p); by split|by intros [] w' []|done].
Qed.
