(* ===== verification/StartProxy.v ===== *)
(** * The proxy: from [main] to its loop

    iecproxy/iecproxy.c, [main] up to [for (;;)]: options, the log file, the
    pipes and ieclink as a child. *)

From S2P Require Import Prelude Posix Process Iecproxy ProxyProps.

#[local] Open Scope Z_scope.

Record pboot := { pb_x : px; pb_p : proc }.

#[export] Instance pboot_rebuild : Rebuild pboot := fun b => Build_pboot (pb_x b) (pb_p b).
#[export] Instance upd_pb_x : Updater pb_x. Proof. solve_updater. Defined.
#[export] Instance upd_pb_p : Updater pb_p. Proof. solve_updater. Defined.

Definition on_proc {A} (m : PC A) : PR pboot A := plift pb_p (fun p b => b <| pb_p := p |>) m.

Definition iecproxy_opts : bytes := codes "uspcgld".
Definition opt_srv : Z := 115.     (* s *)
Definition opt_port : Z := 112.    (* p *)
Definition opt_child : Z := 99.    (* c *)
Definition opt_logdir : Z := 108.  (* l *)

(** [fopen(logfile, "a")]; the result is not checked. *)
Definition fopen_log (name : bytes) : PC bool :=
  f ← pc_fails;
  if f : bool then mret false else pc_add (Opened name);; mret true.

(** [ERR_SYS] prints to the log stream before it exits. *)
Definition logged {W A} (log : bool) (m : PR W A) : PR W A := fun w =>
  match m w with
  | (Exited c, w') => if log then (Exited c, w') else (Faulted NullDeref, w')
  | r => r
  end.

Definition iecproxy_setup (argv : list bytes) (pid_notify : option string) : PR pboot unit :=
  let o := getopt iecproxy_opts argv in
  match optarg opt_logdir o with
  | None => pfault NullDeref                         (* strlen(NULL) *)
  | Some logdir =>
      log ← on_proc (fopen_log (logdir ++ codes "iecproxy.log"));
      s ← on_proc (logged log (spawn (
            assigned (optarg opt_child o) (fun ieclink =>
            assigned (optarg opt_srv o) (fun iecserver =>
            assigned (optarg opt_port o) (fun iecport =>
              logged log (execlp [ieclink; ieclink; iecserver; iecport; logdir])))))));
      pmodify (fun b => b <| pb_x := proxy_start ((pb_x b) <| p_pid := pid_notify |> <| p_childpid := s.1.1 |>
                                                    <| p_open := dom (pr_fds (pb_p b)) |>) |>)
  end.

Lemma logged_wp {W A} log (m : PR W A) (Q : A -> W -> Prop) (R : Z -> W -> Prop) (F : fault -> Prop) w :
  pwp m Q R F w -> (log = false -> F NullDeref) -> pwp (logged log m) Q R F w.
Proof. unfold pwp, logged. destruct (m w) as [[a|f|c] w'], log; auto. Qed.

(** [fopen] of the log file, the first call, fails. *)
Definition unlogged (p : proc) : Prop := hd false (pr_faults p) = true.

(** The log file takes a descriptor and changes nothing else. *)
Lemma fopen_log_wp name p F :
  (forall k, 0 <= k < 3 -> is_Some (pr_fds p !! k)) -> pipes_below (pr_pipes p) (pr_fds p) ->
  pwp (fopen_log name)
    (fun log p' => (log = false -> unlogged p) /\ (forall k, 0 <= k < 3 -> is_Some (pr_fds p' !! k)) /\ pipes_below (pr_pipes p') (pr_fds p') /\
       pr_children p' = pr_children p /\ pr_newpid p' = pr_newpid p) (fun _ _ => False) F p.
Proof.
  intros Hstd Hpipes. unfold fopen_log. apply pwp_bind. unfold unlogged.
  unfold pwp at 1, pc_fails. destruct (hd false (pr_faults p)); pwp_steps; [by cbn|].
  unfold pwp, pc_add. destruct (new_fd_fresh (pr_fds p)) as [Hfd _]. cbn. split_and!; [done| | |done|done].
  - intros k Hk. destruct (Hstd k Hk) as [d Ed]. rewrite lookup_insert_ne by congruence. by rewrite Ed.
  - intros fd k H. apply (Hpipes fd). rewrite !lookup_insert_Some in H.
    by destruct H as [[[_ ?]|[_ ?]]|[[_ ?]|[_ ?]]]; auto.
Qed.

(** Runs the program, or could not and failed to log it. *)
Definition runs_or_ends (log : bool) (args : list bytes) (c : child) : Prop :=
  runs args c \/ (log = false /\ c_end c = Faulted NullDeref).

Lemma logged_replaces log args : replaces (logged log (execlp args)) (runs_or_ends log args).
Proof.
  intros p. pose proof (execlp_replaces args p) as H. unfold logged.
  destruct (execlp args p) as [[[]|f|c] p']; cbn in H; destruct H as [E H].
  - split; [done|by left].
  - split; [done|by left].
  - destruct log; (split; [done|]); [by left|by right].
Qed.

(** C15: The proxy starts ieclink between two pipes and enters its loop in a
    state the loop is safe from: with the options it needs and the standard
    descriptors open, [main] reaches the loop with the invariant of the poll
    set, ieclink runs with the server, port and log directory as arguments,
    reads what the proxy writes and is read by the proxy, each pipe held only
    by its two users; or the process exits with status 2.  Only if the log
    file could not be opened may [main], or the child that could not run
    ieclink, dereference a null pointer instead, when it reports the failure
    of a later call. *)
Theorem iecproxy_starts argv pid_notify ieclink iecserver iecport logdir b :
  let o := getopt iecproxy_opts argv in
  optarg opt_child o = Some ieclink -> optarg opt_srv o = Some iecserver ->
  optarg opt_port o = Some iecport -> optarg opt_logdir o = Some logdir ->
  (forall k, 0 <= k < 3 -> is_Some (pr_fds (pb_p b) !! k)) ->
  pipes_below (pr_pipes (pb_p b)) (pr_fds (pb_p b)) -> 0 < pr_newpid (pb_p b) ->
  pwp (iecproxy_setup argv pid_notify)
    (fun _ b' =>
       px_inv (pb_x b') /\ p_childpid (pb_x b') = pr_newpid (pb_p b) /\ p_pid (pb_x b') = pid_notify /\
       exists c w1 r2 n, pr_children (pb_p b') = pr_children (pb_p b) ++ [c] /\
         wired n (pr_fds (pb_p b')) (c_fds c) w1 r2 /\
         (runs [ieclink; ieclink; iecserver; iecport; logdir] c \/
          (c_end c = Faulted NullDeref /\ unlogged (pb_p b))))
    (fun c _ => c = 2) (fun f => f = NullDeref /\ unlogged (pb_p b)) b.
Proof.
  intros o Hc Hs Hp Hl Hstd Hpipes Hpid. unfold iecproxy_setup. fold o. rewrite Hc, Hs, Hp, Hl. cbn [assigned].
  apply pwp_bind, pwp_lift. eapply pwp_mono; [by apply (fopen_log_wp _ (pb_p b))| |done].
  intros log p (Hlog & Hstd1 & Hpipes1 & Hch & Hpid1). apply pwp_bind, pwp_lift, logged_wp; [|by split; [|apply Hlog]].
  eapply spawn_wp; [apply Hstd1; lia|apply Hstd1; lia|cbn; lia|apply logged_replaces| |done].
  intros w1 r2 p' Hsp. destruct (spawned_wired _ _ _ _ _ Hsp Hpipes1) as (c & Hc' & Hwi & Hend).
  pwp_steps. cbn. split_and!; [|by rewrite <- Hpid1|done|].
  - split; cbn; try (by left); [|done]. intros k Hk. apply elem_of_dom. rewrite (sp_parent _ _ _ _ _ Hsp).
    rewrite !lookup_insert_is_Some.
    destruct (decide (w1 = k)); [by left|right]. split; [done|]. destruct (decide (r2 = k)); [by left|right]. split; [done|by apply Hstd1].
  - exists c, w1, r2, (pr_pipes p). split_and!; [rewrite Hc'; by f_equal|done|].
    destruct Hend as [?|[? ?]]; [by left|right]. split; [done|by apply Hlog].
Qed.

(** ** A start *)
Definition proxy_argv : list bytes :=
  [codes "-u"; codes "/tmp/iec.sock"; codes "-s"; codes "10.0.0.1"; codes "-p2404"; codes "-c"; codes "ieclink";
   codes "-g"; codes "gi.sh"; codes "-l"; codes "/var/log/"].

Definition proxy_proc : proc :=
  Build_proc {[0 := Inherited; 1 := Inherited; 2 := Inherited]} 0 [] 4711 [] [].

Definition proxy_px : px :=
  Build_px 0 0 false (Build_revents false false false false) ∅ false 0 0 [] None [] false [] [] [] [] [] [].

Definition proxy_boot : pboot := Build_pboot proxy_px proxy_proc.

Lemma iecproxy_starts_witness :
  pwp (iecproxy_setup proxy_argv (Some "99"%string))
    (fun _ b' =>
       px_inv (pb_x b') /\ p_childpid (pb_x b') = pr_newpid (pb_p proxy_boot) /\ p_pid (pb_x b') = Some "99"%string /\
       exists c w1 r2 n, pr_children (pb_p b') = pr_children (pb_p proxy_boot) ++ [c] /\
         wired n (pr_fds (pb_p b')) (c_fds c) w1 r2 /\
         (runs [codes "ieclink"; codes "ieclink"; codes "10.0.0.1"; codes "2404"; codes "/var/log/"] c \/
          (c_end c = Faulted NullDeref /\ unlogged (pb_p proxy_boot))))
    (fun c _ => c = 2) (fun f => f = NullDeref /\ unlogged (pb_p proxy_boot)) proxy_boot.
Proof.
  apply (iecproxy_starts proxy_argv (Some "99"%string) (codes "ieclink") (codes "10.0.0.1") (codes "2404")
           (codes "/var/log/") proxy_boot); [reflexivity..| | |reflexivity].
  - intros k Hk. assert (k = 0 \/ k = 1 \/ k = 2) as [->|[->| ->]] by lia; by eexists.
  - intros fd k. cbn. intros [H|H]; repeat (apply lookup_insert_Some in H as [[_ E]|[_ H]]; [done|]);
      by apply lookup_singleton_Some in H as [_ E].
Defined.
