(* ===== verification/Sockwrite.v ===== *)
(** * sockwrite: handing a message to the proxy

    sockwrite/sockwrite.c: copies its standard input to the proxy's local
    socket, waits for one answer and turns it into an exit status.  The
    environment supplies the result of each system call; [errno] values are
    part of it. *)

From S2P Require Import Prelude Posix.

Open Scope Z_scope.

Definition BUF_SIZE : nat := 512.
Definition RESPONSE_SIZE : nat := 32.

(** An option as [getopt] returns it. *)
Inductive option_arg := OptS (path : string) | OptD (level : Z) | OptOther.

(** The result of a read: data (none at the end of the input), or an error. *)
Inductive rdres := RData (b : bytes) | RError (errno : Z).

Record sw := {
  w_socket : option Z;         (* errno if the call fails *)
  w_connect : option Z;
  w_stdin : list rdres;        (* results of reading standard input *)
  w_writes : list (Z + nat);   (* errno, or the number of bytes taken *)
  w_answer : rdres;            (* result of reading the answer *)
  w_sent : bytes               (* what the proxy has been given *)
}.

#[export] Instance sw_rebuild : Rebuild sw := fun w =>
  Build_sw (w_socket w) (w_connect w) (w_stdin w) (w_writes w) (w_answer w) (w_sent w).
#[export] Instance upd_w_stdin : Updater w_stdin. Proof. solve_updater. Defined.
#[export] Instance upd_w_writes : Updater w_writes. Proof. solve_updater. Defined.
#[export] Instance upd_w_sent : Updater w_sent. Proof. solve_updater. Defined.

Fixpoint options (args : list option_arg) (sockpath : option string) : PR sw (option string) :=
  match args with
  | [] => mret sockpath
  | OptS p :: args' => options args' (Some p)
  | OptD _ :: args' => options args' sockpath
  | OptOther :: _ => pexit 4
  end.

(** [read(STDIN_FILENO, buf, BUF_SIZE)]: a longer piece of input takes several
    reads. *)
Definition read_stdin : PR sw rdres := fun w =>
  match w_stdin w with
  | [] => (Done (RData []), w)
  | RData b :: l =>
      (Done (RData (take BUF_SIZE b)),
       w <| w_stdin := match drop BUF_SIZE b with [] => l | b' => RData b' :: l end |>)
  | RError e :: l => (Done (RError e), w <| w_stdin := l |>)
  end.

(** [write(sockfd, buf, n)]: the error if it fails.  Bytes not taken are not
    written again. *)
Definition write_sock (b : bytes) : PR sw (option Z) := fun w =>
  match w_writes w with
  | inl e :: l => (Done (Some e), w <| w_writes := l |>)
  | inr n :: l => (Done None, w <| w_writes := l |> <| w_sent := w_sent w ++ take n b |>)
  | [] => (Done None, w <| w_sent := w_sent w ++ b |>)
  end.

(** The copying loop: the error of a failed write.  An error on standard
    input ends it like the end of the input. *)
Fixpoint copy_loop (fuel : nat) : PR sw (option Z) :=
  r ← read_stdin;
  match r with
  | RData (c :: b) =>
      e ← write_sock (c :: b);
      match e with
      | Some e => mret (Some e)
      | None => match fuel with O => pfault OutOfFuel | S fuel' => copy_loop fuel' end
      end
  | _ => mret None
  end.

(** Reads to come. *)
Definition stdin_size (w : sw) : nat :=
  sum_list_with (fun r => match r with RData b => S (length b) | RError _ => 1%nat end) (w_stdin w).

(** The status for an answer. *)
Definition answer_status (r : rdres) : Z :=
  match r with
  | RData (c :: _) => if c =? 60 then 0 else if c =? 45 then 2 else if c =? 94 then 3 else 0
  | RData [] => 0
  | RError e => e
  end.

Definition main (args : list option_arg) : PR sw Z :=
  sockpath ← options args None;
  w ← pgets id;
  match w_socket w with
  | Some e => mret e
  | None =>
      match sockpath with
      | None => pfault NullDeref         (* strncpy from a null pointer *)
      | Some _ =>
          match w_connect w with
          | Some e => mret e
          | None =>
              e ← copy_loop (stdin_size w);
              match e with
              | Some e => mret e
              | None => r ← pgets w_answer; mret (answer_status r)
              end
          end
      end
  end.

(** ** Properties *)

(** Standard input as a sequence of non-empty pieces. *)
Definition pieces (l : list bytes) : list rdres := map RData l.

Lemma copy_loop_all fuel l w :
  w_stdin w = pieces l -> Forall (fun b => b <> []) l -> w_writes w = [] -> (stdin_size w <= fuel)%nat ->
  exists w', copy_loop fuel w = (Done None, w') /\ w_sent w' = w_sent w ++ concat l /\ w_answer w' = w_answer w.
Proof.
  revert l w. induction fuel as [|fuel IH]; intros l w Hin Hl Hw Hsz;
    (destruct l as [|b l];
     [exists w; cbn [copy_loop]; unfold mbind, pr_bind, read_stdin; rewrite Hin; cbn;
      by rewrite app_nil_r|]);
    inversion Hl as [|? ? Hb Hl']; subst; destruct b as [|c b]; try done.
  { unfold stdin_size in Hsz. rewrite Hin in Hsz. cbn in Hsz. lia. }
  cbn [copy_loop]. unfold mbind at 1, pr_bind at 1, read_stdin. rewrite Hin. cbn [pieces map].
  change (take BUF_SIZE (c :: b)) with (c :: take 511 b). change (drop BUF_SIZE (c :: b)) with (drop 511 b).
  pose proof (take_drop 511 b) as Eb. generalize dependent (drop 511 b). generalize (take 511 b). intros b1 b2 Eb.
  unfold mbind, pr_bind, write_sock. cbn. rewrite Hw.
  edestruct (IH (match b2 with [] => l | _ => b2 :: l end)) as (w' & E & Es & Ea).
  5: { exists w'. split_and!; [exact E| |by rewrite Ea].
       rewrite Es. cbn. rewrite <- app_assoc, <- Eb. destruct b2; cbn; by rewrite <- ?app_assoc, ?app_nil_r. }
  - cbn. by destruct b2.
  - destruct b2; [done|]. by constructor.
  - cbn. done.
  - unfold stdin_size in *. rewrite Hin in Hsz. cbn in *. apply (f_equal length) in Eb.
    rewrite length_app in Eb. destruct b2; cbn in *; lia.
Qed.
