(* ===== verification/Relay.v ===== *)
(** * Messages through the proxy

    sockwrite hands a message to the proxy, the proxy passes it to ieclink and
    ieclink's answer back: what reaches ieclink, and what sockwrite reports. *)

From S2P Require Import Prelude Posix Process Iecproxy ProxyProps.
From S2P Require Import Sockwrite.

Open Scope Z_scope.

(** [m] returns, and satisfies [Q]. *)
Abbreviation returns m Q w := (pwp m Q (fun _ _ => False) no_fault w).

Fixpoint proxy_run (ps : list polled) : PR px unit :=
  match ps with [] => pskip | p :: ps' => proxy_step p;; proxy_run ps' end.

(** A line from ieclink, a client that connects, a client with data. *)
Definition ev_line : polled := Polled (Build_revents true false false false).
Definition ev_accept : polled := Polled (Build_revents false true false false).
Definition ev_client : polled := Polled (Build_revents false false true false).

(** ** One event at a time *)
Lemma step_line w (Q : unit -> px -> Prop) :
  returns on_line (fun _ w' => Q tt w') (w <| p_rev := masked w (Build_revents true false false false) |>) ->
  returns (proxy_step ev_line) Q w.
Proof.
  intros H. unfold proxy_step. pwp_steps. cbn -[on_line]. apply pwp_bind. eapply pwp_mono; [exact H| |done].
  intros c w1 HQ. pwp_steps. match goal with |- context [c || ?b] => change (c || b) with (c || true) end.
  rewrite orb_true_r. by pwp_steps.
Qed.

Lemma step_accept w (Q : unit -> px -> Prop) :
  0 <= p_fd1 w ->
  returns on_accept Q (w <| p_rev := masked w (Build_revents false true false false) |>) ->
  returns (proxy_step ev_accept) Q w.
Proof.
  intros Hf H. unfold proxy_step. pwp_steps. cbn -[on_accept on_client].
  rewrite (proj2 (Z.leb_le 0 (p_fd1 w)) Hf). cbn -[on_accept on_client]. pwp_steps.
  eapply pwp_mono; [exact H| |done]. intros [] w1 HQ. by case_match; pwp_steps.
Qed.

Lemma step_client w (Q : unit -> px -> Prop) :
  0 <= p_fd2 w -> p_ev2 w = true ->
  returns on_client Q (w <| p_rev := masked w (Build_revents false false true false) |>) ->
  returns (proxy_step ev_client) Q w.
Proof.
  intros Hf He H. unfold proxy_step. pwp_steps. cbn -[on_accept on_client].
  rewrite (proj2 (Z.leb_le 0 (p_fd2 w)) Hf), He. cbn -[on_accept on_client]. pwp_steps.
  eapply pwp_mono; [exact H| |done]. by intros [] w1 HQ.
Qed.

(** ** Parts of the conversation *)
Lemma on_accept_new w (Q : unit -> px -> Prop) :
  0 <= p_fd1 w -> p_faults w = [] ->
  Q tt (w <| p_faults := [] |> <| p_open := {[new_fd (p_open w)]} ∪ p_open w |>
          <| p_fd2 := new_fd (p_open w) |> <| p_ev2 := true |>) ->
  returns on_accept Q w.
Proof.
  intros Hf He HQ. unfold on_accept. pwp_steps. unfold pwp at 1, call_fails. rewrite He. cbn [hd tl].
  replace (p_fd1 w <? 0) with false by lia. cbn [orb]. apply pwp_bind. unfold pwp at 1, fd_open. by pwp_steps.
Qed.

(** A message without the mark of an empty queue. *)
Definition plain (b : bytes) : Prop := b <> [] /\ Forall (fun c => c <> ch_caret) b.

Lemma client_loop_relays fuel chunks rest w (Q : rchunk -> px -> Prop) :
  0 <= p_fd2 w -> p_fd2 w ∈ p_open w -> Forall plain chunks ->
  p_reads w = map RChunk chunks ++ RCEof :: rest ->
  (sum_list_with chunk_size (map RChunk chunks) <= fuel)%nat ->
  (Q RCEof (w <| p_reads := rest |> <| p_out := p_out w ++ concat chunks |>)) ->
  returns (client_loop fuel) Q w.
Proof.
  intros Hf Ho Hc Hr Hfuel HQ.
  revert chunks w Hf Ho Hc Hr Hfuel HQ. induction fuel as [|fuel IH]; intros chunks w Hf Ho Hc Hr Hfuel HQ;
    (destruct chunks as [|b chunks];
     [cbn [client_loop]; apply pwp_bind; unfold pwp at 1, read_chunk;
      replace (p_fd2 w <? 0) with false by lia; rewrite bool_decide_true, Hr by done; cbn; pwp_steps;
      cbn [concat] in HQ; rewrite app_nil_r in HQ; by destruct w|]);
    inversion Hc as [|? ? [Hb Hn] Hc']; subst; destruct b as [|c b]; try done; cbn in Hfuel; [lia|].
  cbn [client_loop]. apply pwp_bind. unfold pwp at 1, read_chunk.
  replace (p_fd2 w <? 0) with false by lia. rewrite bool_decide_true, Hr by done. cbn [map app].
  change (take Iecproxy.BUF_SIZE (c :: b)) with (c :: take 511 b). change (drop Iecproxy.BUF_SIZE (c :: b)) with (drop 511 b).
  pose proof (take_drop 511 b) as Eb. revert Eb. generalize (drop 511 b) (take 511 b). intros b2 b1 Eb.
  apply pwp_bind. cbn [hd]. replace (c =? ch_caret) with false by (inversion Hn; symmetry; by apply Z.eqb_neq).
  unfold to_link. apply pwp_modify.
  apply (IH (match b2 with [] => chunks | _ => b2 :: chunks end)); [done|done| |by destruct b2| |].
  - destruct b2 as [|c2 b2]; [done|]. constructor; [|done]. split; [done|].
    inversion Hn as [|? ? _ Hn']; subst. by apply Forall_app in Hn' as [_ ?].
  - apply (f_equal length) in Eb. rewrite length_app in Eb. destruct b2; cbn in *; lia.
  - cbn. rewrite <- app_assoc. replace ((c :: b1) ++ concat (match b2 with [] => chunks | _ => b2 :: chunks end))
      with (concat ((c :: b) :: chunks)); [exact HQ|].
    cbn. rewrite <- Eb. destruct b2; cbn; by rewrite ?app_nil_r, <- ?app_assoc.
Qed.

Lemma on_client_relays chunks rest w (Q : unit -> px -> Prop) :
  0 <= p_fd2 w -> p_fd2 w ∈ p_open w -> Forall plain chunks ->
  p_reads w = map RChunk chunks ++ RCEof :: rest ->
  Q tt (w <| p_reads := rest |> <| p_out := (p_out w ++ concat chunks) ++ nl [ch_greater] |> <| p_ev2 := false |>) ->
  returns on_client Q w.
Proof.
  intros Hf Ho Hc Hr HQ. unfold on_client. apply pwp_bind, pwp_gets, pwp_bind.
  eapply (client_loop_relays _ chunks rest); [done|done|done|done| |].
  - unfold reads_size. rewrite Hr. rewrite sum_list_with_app. lia.
  - unfold to_link. pwp_steps. exact HQ.
Qed.

Lemma read_again_byte fuel c l w :
  p_link w = RByte c :: l -> read_again fuel w = (Done (RByte c), w <| p_link := l |>).
Proof. intros E. destruct fuel; cbn [read_again]; unfold mbind, pr_bind, read_byte; by rewrite E. Qed.

(** A line that fits the buffer is read whole. *)
Lemma read_line_loop_line m : forall k n acc more w (Q : Z * bytes -> px -> Prop),
  (length m < k)%nat -> Forall (fun c => c <> 10) m -> p_link w = map RByte (nl m) ++ more ->
  Q (n + Z.of_nat (length m), acc ++ nl m) (w <| p_link := more |>) -> returns (read_line_loop k n acc) Q w.
Proof.
  induction m as [|c m IH]; intros k n acc more w Q Hk Hm E HQ; (destruct k as [|k]; [cbn in Hk; lia|]);
    cbn [read_line_loop]; apply pwp_bind, pwp_gets, pwp_bind; unfold pwp at 1.
  - rewrite (read_again_byte _ 10 more) by done. change (10 =? 10) with true. cbn beta iota. pwp_steps.
    cbn in HQ. by rewrite Z.add_0_r in HQ.
  - rewrite (read_again_byte _ c (map RByte (nl m) ++ more)) by done. inversion Hm; subst.
    rewrite (proj2 (Z.eqb_neq c 10)) by done. apply (IH _ _ _ more); [cbn in Hk; lia|done|done|].
    cbn. rewrite <- app_assoc. cbn [length] in HQ.
    by replace (n + 1 + Z.of_nat (length m)) with (n + Z.of_nat (S (length m))) by lia.
Qed.

(** A mark: one character and a newline. *)
Lemma readline_mark c more w (Q : Z * bytes -> px -> Prop) :
  c <> 10 -> p_link w = RByte c :: RByte 10 :: more ->
  Q (2, [c; 10]) (w <| p_link := more |>) -> returns readline Q w.
Proof.
  intros Hc E HQ. apply (read_line_loop_line [c] _ _ _ more); [unfold Iecproxy.BUF_SIZE; cbn [length]; lia| |done|done].
  by repeat constructor.
Qed.

Lemma answer_open c w (Q : unit -> px -> Prop) :
  0 <= p_fd2 w -> p_fd2 w ∈ p_open w ->
  Q tt (w <| p_replies := p_replies w ++ [(p_fd2 w, c)] |>) -> returns (answer_client c) Q w.
Proof.
  intros Hf Ho HQ. unfold answer_client. pwp_steps. unfold pwp, fd_reply.
  replace (p_fd2 w <? 0) with false by lia. by rewrite bool_decide_true.
Qed.

Lemma close_open w (Q : unit -> px -> Prop) :
  0 <= p_fd2 w -> p_fd2 w ∈ p_open w ->
  Q tt (w <| p_open := p_open w ∖ {[p_fd2 w]} |> <| p_fd2 := -1 |>) -> returns close_client Q w.
Proof.
  intros Hf Ho HQ. unfold close_client. pwp_steps. unfold pwp at 1, fd_close.
  replace (p_fd2 w <? 0) with false by lia. rewrite bool_decide_true by done. by pwp_steps.
Qed.

Lemma dismiss_client c w (Q : unit -> px -> Prop) :
  0 <= p_fd2 w -> p_fd2 w ∈ p_open w ->
  Q tt (w <| p_replies := p_replies w ++ [(p_fd2 w, c)] |> <| p_open := p_open w ∖ {[p_fd2 w]} |> <| p_fd2 := -1 |>) ->
  returns (answer_client c;; close_client) Q w.
Proof. intros Hf Ho HQ. apply pwp_bind, answer_open; [done|done|]. by apply close_open. Qed.

(** The descriptors that stay open once the client has been answered. *)
Definition after_mark (c : Z) (w : px) : gset Z :=
  if c =? ch_less then p_open w else p_open w ∖ {[p_fd1 w]}.

Lemma on_line_mark c more w (Q : bool -> px -> Prop) :
  c = ch_less \/ c = ch_minus -> p_link w = RByte c :: RByte 10 :: more ->
  0 < p_fd2 w -> p_fd2 w ∈ p_open w -> p_fd1 w ∈ p_open w -> 0 <= p_fd1 w -> p_fd1 w <> p_fd2 w ->
  (forall w', p_out w' = p_out w -> p_replies w' = p_replies w ++ [(p_fd2 w, c)] -> p_fd2 w' = -1 ->
     p_open w' = after_mark c w ∖ {[p_fd2 w]} -> p_link w' = more -> p_reads w' = p_reads w -> Q false w') ->
  returns on_line Q w.
Proof.
  intros Hc E Hf Ho Ho1 Hf1 Hne HQ. unfold on_line. apply pwp_bind.
  apply (readline_mark c more); [by destruct Hc as [-> | ->]|done|].
  set (w1 := w <| p_link := more |>). change (0 <? 2) with true. cbn beta iota.
  replace (strncmp0 END_INIT [c; 10] 8) with false by (destruct Hc as [-> | ->]; vm_compute; done).
  replace (strncmp0 GI_ACT [c; 10] (2 - 1)) with false by (destruct Hc as [-> | ->]; vm_compute; done).
  cbn [hd]. apply pwp_bind. unfold on_mark, after_mark in *. destruct Hc as [-> | ->]; cbn -[answer_client close_client close_listener] in *.
  - apply pwp_bind, pwp_gets. replace (p_fd2 w1 <? 0) with false by (cbn; lia).
    apply dismiss_client; [cbn; lia|done|]. pwp_steps. by apply HQ.
  - apply pwp_bind, pwp_gets, pwp_bind. replace (0 <? p_fd2 w1) with true by (cbn; lia). unfold pwhen.
    apply dismiss_client; [cbn; lia|done|]. apply pwp_bind. unfold close_listener. apply pwp_bind, pwp_gets, pwp_bind.
    unfold pwp at 1, fd_close. replace (p_fd1 _ <? 0) with false by (cbn; lia).
    rewrite bool_decide_true by (cbn; apply elem_of_difference; split; [done|by rewrite elem_of_singleton]).
    apply pwp_modify, pwp_bind, pwp_modify. unfold hook_disconnect, run_hook. apply pwp_bind, pwp_gets.
    assert ((p_open w ∖ {[p_fd2 w]}) ∖ {[p_fd1 w]} = (p_open w ∖ {[p_fd1 w]}) ∖ {[p_fd2 w]}) as Ec.
    { apply leibniz_equiv. intros x. rewrite !elem_of_difference. tauto. }
    cbn [p_pid]. destruct (p_pid _); pwp_steps; apply HQ; try done; exact Ec.
Qed.

(** ** Interrogations *)
Lemma fgets_piece_app n l : (fgets_piece n l).1 ++ (fgets_piece n l).2 = l.
Proof.
  revert l. induction n as [|n IH]; intros [|c l]; [done..|]. cbn [fgets_piece].
  destruct (c =? 10); [done|]. specialize (IH l). destruct (fgets_piece n l). cbn in *. by rewrite IH.
Qed.

Lemma cstr_nonzero l : Forall (fun c => c <> 0) l -> cstr l = l.
Proof.
  induction 1 as [|c l Hc _ IH]; [done|]. cbn. rewrite (proj2 (Z.eqb_neq c 0)) by done. by rewrite IH.
Qed.

Lemma interrog_text fuel text w (Q : unit -> px -> Prop) :
  (length text <= fuel)%nat -> Forall (fun c => c <> 0) text ->
  Q tt (w <| p_out := p_out w ++ text |>) -> returns (interrog_loop fuel text) Q w.
Proof.
  revert text w. induction fuel as [|fuel IH]; intros text w Hf Ht HQ; destruct text as [|c text];
    try (cbn [interrog_loop]; pwp_steps; rewrite app_nil_r in HQ; by destruct w); cbn [length] in Hf; [lia|].
  cbn [interrog_loop].
  pose proof (fgets_piece_length (Iecproxy.BUF_SIZE - 1) (c :: text) ltac:(unfold Iecproxy.BUF_SIZE; lia) ltac:(done)) as Hl.
  pose proof (fgets_piece_app (Iecproxy.BUF_SIZE - 1) (c :: text)) as Ha.
  destruct (fgets_piece (Iecproxy.BUF_SIZE - 1) (c :: text)) as [b r]. cbn [fst snd length] in Hl, Ha.
  rewrite <- Ha in Ht. apply Forall_app in Ht as [Hb Hr]. unfold to_link. apply pwp_bind, pwp_modify.
  apply IH; [lia|done|]. rewrite cstr_nonzero by done. cbn. by rewrite <- app_assoc, Ha.
Qed.

Lemma ginterrog_text text scripts w (Q : unit -> px -> Prop) :
  p_scripts w = Some text :: scripts -> Forall (fun c => c <> 0) text ->
  Q tt (w <| p_scripts := scripts |> <| p_out := p_out w ++ text |>) -> returns ginterrog Q w.
Proof.
  intros E Ht HQ. unfold ginterrog. apply pwp_bind, pwp_gets, pwp_bind, pwp_modify. rewrite E. cbn [hd tl].
  apply interrog_text; [done|done|]. exact HQ.
Qed.

(** The line that asks for an interrogation. *)
Lemma on_line_gi more w (Q : bool -> px -> Prop) :
  p_link w = map RByte (nl GI_ACT) ++ more ->
  returns on_gi_act (fun _ => Q false) (w <| p_link := more |>) -> returns on_line Q w.
Proof.
  intros E H. unfold on_line. apply pwp_bind. unfold readline.
  apply (read_line_loop_line GI_ACT _ _ _ more); [unfold Iecproxy.BUF_SIZE; cbn; lia| |done|].
  { repeat (constructor; [done|]). constructor. }
  replace (0 <? 1 + Z.of_nat (length GI_ACT)) with true by done. cbn [app].
  change (strncmp0 END_INIT (nl GI_ACT) 8) with false.
  change (strncmp0 GI_ACT (nl GI_ACT) (1 + Z.of_nat (length GI_ACT) - 1)) with true. cbn beta iota.
  apply pwp_bind. change (chop (nl GI_ACT)) with (pskip : PR px unit). apply pwp_ret, pwp_bind.
  eapply pwp_mono; [exact H| |done]. intros [] w1 HQ. by pwp_steps.
Qed.

(** A client that reports the queue empty. *)
Lemma on_client_caret text scripts rest w (Q : unit -> px -> Prop) :
  0 <= p_fd2 w -> p_fd2 w ∈ p_open w -> p_reads w = RChunk [ch_caret] :: rest ->
  p_scripts w = Some text :: scripts -> Forall (fun c => c <> 0) text ->
  (forall w', p_out w' = p_out w ++ text ++ nl GI_END ++ nl [ch_greater] -> p_cmds w' = p_cmds w ->
     p_fd1 w' = p_fd1 w -> p_replies w' = p_replies w ++ [(p_fd2 w, ch_caret)] -> Q tt w') ->
  returns on_client Q w.
Proof.
  intros Hf Ho Hr Hs Ht HQ. unfold on_client. apply pwp_bind, pwp_gets, pwp_bind.
  assert (reads_size w = S (S (sum_list_with chunk_size rest))) as -> by (unfold reads_size; by rewrite Hr).
  cbn [client_loop]. apply pwp_bind. unfold pwp at 1, read_chunk.
  replace (p_fd2 w <? 0) with false by lia. rewrite bool_decide_true, Hr by done.
  change (take Iecproxy.BUF_SIZE [ch_caret]) with [ch_caret]. cbn beta iota. apply pwp_bind.
  change (hd 0 [ch_caret] =? ch_caret) with true. cbn beta iota.
  apply pwp_bind, answer_open; [done|done|]. apply pwp_bind, close_open; [done|done|].
  apply pwp_bind. apply (ginterrog_text text scripts); [done|done|]. unfold to_link. apply pwp_modify.
  apply pwp_bind. unfold pwp at 1, read_chunk. cbn -[client_loop app]. pwp_steps. apply HQ; try done.
  cbn. by rewrite <- !app_assoc.
Qed.

(** ** Claims *)

(** A message gets through: when sockwrite sends the text of a message,
    however the reads and the stream cut it, the proxy writes exactly that text
    and the end mark to ieclink; ieclink's answer reaches this client, whose
    connection is closed; and sockwrite ends with status 0 if the answer is
    the confirmation and 2 if the connection was lost. *)
Theorem message_relayed (w : px) (chunks pieces0 : list bytes) (rest : list rchunk) (more : list rbyte)
    (c : Z) (s : sw) (sock : string) :
  px_inv w -> 0 <= p_fd1 w -> p_fd2 w = -1 -> p_faults w = [] ->
  c = ch_less \/ c = ch_minus -> p_link w = RByte c :: RByte 10 :: more ->
  w_socket s = None -> w_connect s = None -> w_writes s = [] -> w_sent s = [] ->
  w_stdin s = pieces pieces0 -> Forall (fun b => b <> []) pieces0 ->
  Forall plain chunks -> concat chunks = concat pieces0 ->
  p_reads w = map RChunk chunks ++ RCEof :: rest -> w_answer s = RData [c] ->
  (exists s', Sockwrite.main [OptS sock] s = (Done (if c =? ch_less then 0 else 2), s') /\
     w_sent s' = concat pieces0) /\
  returns (proxy_run [ev_accept; ev_client; ev_line])
    (fun _ w' => p_out w' = p_out w ++ concat pieces0 ++ nl [ch_greater] /\
       p_replies w' = p_replies w ++ [(new_fd (p_open w), c)] /\
       p_fd2 w' = -1 /\ p_open w' = after_mark c w /\ p_link w' = more /\ p_reads w' = rest) w.
Proof.
  intros Hi Hf1 Hf2 Hfl Hc Hl Es Ec Ew Et Hin Hne Hp Ecat Hr Ea. split.
  - destruct (copy_loop_all (stdin_size s) pieces0 s) as (s' & E & Ht & Ha); [done..|].
    exists s'. split; [|by rewrite Ht, Et]. unfold Sockwrite.main, mbind, pr_bind, options, pgets, mret, pr_ret.
    cbn [id]. rewrite Es, Ec, E, Ha, Ea. by destruct Hc as [-> | ->].
  - destruct (new_fd_spec (p_open w)) as [Hn Hpos]. destruct (pi_fd1 _ Hi) as [?|[H3 Ho1]]; [lia|].
    assert (3 <= new_fd (p_open w)) as Hn3.
    { destruct (decide (3 <= new_fd (p_open w))); [done|]. destruct Hn. apply (pi_std _ Hi). lia. }
    cbn [proxy_run]. apply pwp_bind, step_accept; [done|]. apply on_accept_new; [done|done|].
    set (fd := new_fd (p_open w)) in *.
    apply pwp_bind, step_client; [done|done|].
    apply (on_client_relays chunks rest); [done|by apply elem_of_union_l, elem_of_singleton|done|done|].
    apply pwp_bind, step_line. apply (on_line_mark c more); [done|done|cbn; lia| | |done|cbn; intros E; apply Hn; unfold fd in *; by rewrite <- E|].
    { by apply elem_of_union_l, elem_of_singleton. }
    { by apply elem_of_union_r. }
    cbn. intros w' -> -> -> -> -> ->. rewrite Ecat, app_assoc. split_and!; try done.
    apply leibniz_equiv. unfold after_mark. cbn. intros x.
    destruct (c =? ch_less); rewrite !elem_of_difference, ?elem_of_union, !elem_of_singleton;
      destruct (decide (x = fd)) as [->|]; tauto.
Qed.

(** A client that connects while another waits for its answer takes its
    place: the first connection stays open, is polled no more and never gets
    an answer, for the answer goes to the second. *)
Theorem second_client_displaces (w : px) (c : Z) (more : list rbyte) :
  px_inv w -> 0 <= p_fd1 w -> 0 <= p_fd2 w -> p_faults w = [] ->
  c = ch_less \/ c = ch_minus -> p_link w = RByte c :: RByte 10 :: more ->
  returns (proxy_run [ev_accept; ev_line])
    (fun _ w' => p_fd2 w <> new_fd (p_open w) /\ p_fd2 w ∈ p_open w' /\ p_fd2 w' = -1 /\
       p_replies w' = p_replies w ++ [(new_fd (p_open w), c)]) w.
Proof.
  intros Hi Hf1 Hf2 Hfl Hc Hl. destruct (new_fd_spec (p_open w)) as [Hn Hpos].
  destruct (pi_fd1 _ Hi) as [?|[H3 Ho1]]; [lia|]. destruct (pi_fd2 _ Hi) as [?|[H3' Ho2]]; [lia|].
  assert (3 <= new_fd (p_open w)) as Hn3.
  { destruct (decide (3 <= new_fd (p_open w))); [done|]. destruct Hn. apply (pi_std _ Hi). lia. }
  cbn [proxy_run]. apply pwp_bind, step_accept; [done|]. apply on_accept_new; [done|done|].
  set (fd := new_fd (p_open w)) in *. assert (p_fd2 w <> fd) as Hne by (intros E; apply Hn; unfold fd in *; by rewrite <- E).
  apply pwp_bind, step_line. apply (on_line_mark c more); [done|done|cbn; lia| | |done|cbn; intros E; apply Hn; unfold fd in *; by rewrite <- E|].
  { by apply elem_of_union_l, elem_of_singleton. }
  { by apply elem_of_union_r. }
  cbn. intros w' _ -> -> -> _ _. split_and!; try done. unfold after_mark. cbn.
  destruct (pi_fd12 _ Hi); [lia|].
  destruct (c =? ch_less); rewrite !elem_of_difference, ?elem_of_union, !elem_of_singleton; split_and?; auto.
Qed.

(** A connection closed without an answer, as it is when the proxy dies, is
    reported as a delivery: sockwrite ends with the status of a confirmation. *)
Theorem no_answer_reports_success (s : sw) (pieces0 : list bytes) (sock : string) :
  w_socket s = None -> w_connect s = None -> w_writes s = [] ->
  w_stdin s = pieces pieces0 -> Forall (fun b => b <> []) pieces0 -> w_answer s = RData [] ->
  exists s', Sockwrite.main [OptS sock] s = (Done 0, s').
Proof.
  intros Es Ec Ew Hin Hne Ea. destruct (copy_loop_all (stdin_size s) pieces0 s) as (s' & E & Ht & Ha); [done..|].
  exists s'. unfold Sockwrite.main, mbind, pr_bind, options, pgets, mret, pr_ret. cbn [id]. by rewrite Es, Ec, E, Ha, Ea.
Qed.

(** C19: General interrogation: a request from the control station is confirmed at
    once.  The first one after a connection also opens the local socket to
    clients and runs the hook that starts the queue, and it is answered once a
    client reports the queue empty; a later one is answered at once.  The
    answer is the output of the script, the termination and the end mark. *)
Theorem interrogation_answered (w : px) (text : bytes) (scripts : list (option bytes)) (more : list rbyte) :
  px_inv w -> p_scripts w = Some text :: scripts -> Forall (fun c => c <> 0) text ->
  p_link w = map RByte (nl GI_ACT) ++ more ->
  (p_new_connect w = false ->
   returns (proxy_run [ev_line])
     (fun _ w' => p_out w' = p_out w ++ nl GI_CON ++ text ++ nl GI_END ++ nl [ch_greater]) w) /\
  (forall pid rest, p_new_connect w = true -> p_pid w = Some pid -> p_faults w = [] ->
   p_reads w = RChunk [ch_caret] :: rest ->
   returns (proxy_run [ev_line; ev_accept; ev_client])
     (fun _ w' => p_out w' = p_out w ++ nl GI_CON ++ text ++ nl GI_END ++ nl [ch_greater] /\
        p_cmds w' = p_cmds w ++ [String.substring 0 511 (String.append "hook_connect" (String.append " " pid))] /\
        p_fd1 w' = p_new_sockfd w /\ p_replies w' = p_replies w ++ [(new_fd (p_open w), ch_caret)]) w).
Proof.
  intros Hi Hs Ht Hl. split.
  - intros Hn. cbn [proxy_run]. apply pwp_bind, step_line, (on_line_gi more); [done|]. unfold on_gi_act.
    apply pwp_bind, pwp_gets. cbn [p_new_connect]. replace (p_new_connect _) with false by (cbn; done).
    apply pwp_bind, pwp_modify, pwp_bind. apply (ginterrog_text text scripts); [done|done|].
    unfold to_link. pwp_steps. cbn. by rewrite <- !app_assoc.
  - intros pid rest Hn Hpid Hfl Hr. destruct (pi_new _ Hi Hn) as (Hns & Hno & _).
    destruct (new_fd_spec (p_open w)) as [_ Hpos]. cbn [proxy_run].
    apply pwp_bind, step_line, (on_line_gi more); [done|]. unfold on_gi_act.
    apply pwp_bind, pwp_gets. replace (p_new_connect _) with true by (cbn; done).
    apply pwp_bind, pwp_modify, pwp_bind. unfold hook_connect, run_hook. apply pwp_bind, pwp_gets.
    replace (p_pid _) with (Some pid) by (cbn; done). apply pwp_modify, pwp_bind, pwp_modify, pwp_modify.
    apply pwp_bind, step_accept; [cbn; lia|]. apply on_accept_new; [cbn; lia|done|].
    apply pwp_bind, step_client; [done|done|].
    apply (on_client_caret text scripts rest); [done|by apply elem_of_union_l, elem_of_singleton|done|done|done|].
    cbn. intros w' -> -> -> ->. pwp_steps. by rewrite <- !app_assoc.
Qed.

(** ** Witnesses *)
Definition no_events : revents := Build_revents false false false false.

(** Descriptors 0 to 2, the two pipes to ieclink and the listening socket. *)
Definition sample_px (fd1 fd2 : Z) (new : bool) (link : list rbyte) (reads : list rchunk) : px :=
  Build_px fd1 fd2 true no_events (list_to_set (seqZ 0 8)) new (if new then 6 else -1) 100 [] (Some "200"%string)
    [] true [] [Some (codes "640114")] link reads [] [].

Definition sample_sw (answer : rdres) : sw :=
  Build_sw None None (pieces [codes "0102"; codes "03"]) [] answer [].

Lemma sample_px_inv fd1 fd2 new link reads :
  (fd1 = -1 \/ fd1 = 5) -> (fd2 = -1 \/ fd2 = 7) -> px_inv (sample_px fd1 fd2 new link reads).
Proof.
  intros H1 H2. assert (forall k, 0 <= k < 8 -> k ∈ (list_to_set (seqZ 0 8) : gset Z)) as Ho.
  { intros k Hk. by apply elem_of_list_to_set, elem_of_seqZ. }
  split; cbn -[seqZ list_to_set].
  - intros k Hk. apply Ho. lia.
  - destruct H1 as [-> | ->]; [by left|]. right. split; [lia|]. by apply Ho.
  - destruct H2 as [-> | ->]; [by left|]. right. split; [lia|]. by apply Ho.
  - destruct H1 as [-> | ->], H2 as [-> | ->]; lia.
  - intros ->. destruct H1 as [-> | ->], H2 as [-> | ->]; (split_and!; [lia|by apply Ho|lia|lia]).
Qed.

Lemma proxy_step_safe_witness :
  pwp (proxy_step ev_line) (fun _ w' => px_inv w') exits_2
    (fun f => f = Blocked \/ (f = NullDeref /\ None ∈ p_scripts (sample_px 5 (-1) false (map RByte (nl GI_ACT)) [])))
    (sample_px 5 (-1) false (map RByte (nl GI_ACT)) []).
Proof. apply (proxy_step_safe ev_line). apply sample_px_inv; auto. Defined.

Definition busy_px : px := sample_px 5 7 false [RByte ch_less; RByte 10] [].

Lemma second_client_displaces_witness :
  returns (proxy_run [ev_accept; ev_line])
    (fun _ w' => p_fd2 busy_px <> new_fd (p_open busy_px) /\ p_fd2 busy_px ∈ p_open w' /\ p_fd2 w' = -1 /\
       p_replies w' = p_replies busy_px ++ [(new_fd (p_open busy_px), ch_less)]) busy_px.
Proof.
  apply (second_client_displaces busy_px ch_less []).
  - apply sample_px_inv; auto.
  - done.
  - done.
  - done.
  - by left.
  - reflexivity.
Defined.

Lemma no_answer_reports_success_witness :
  exists s', Sockwrite.main [OptS "s"] (sample_sw (RData [])) = (Done 0, s').
Proof.
  apply (no_answer_reports_success (sample_sw (RData [])) [codes "0102"; codes "03"] "s"); try done.
  repeat constructor; done.
Defined.

Definition asked_px : px := sample_px 5 (-1) false (map RByte (nl GI_ACT) ++ []) [].

Lemma interrogation_answered_witness :
  returns (proxy_run [ev_line])
    (fun _ w' => p_out w' = p_out asked_px ++ nl GI_CON ++ codes "640114" ++ nl GI_END ++ nl [ch_greater]) asked_px.
Proof.
  refine (proj1 (interrogation_answered asked_px (codes "640114") [] [] _ _ _ _) _).
  - apply sample_px_inv; auto.
  - reflexivity.
  - repeat constructor; done.
  - reflexivity.
  - reflexivity.
Defined.
