(* ===== verification/Delivery.v ===== *)
(** * A message on its way to the control station

    From the text of a message on sockwrite's standard input, through the
    proxy and ieclink, to the application at the other end of the connection:
    the theorems about sockwrite and the proxy, about ieclink's standard input,
    and about two sessions, put together. *)

From S2P Require Import Prelude Bits Wire Libevent Session Iecsock Seqnum Trace Transmit Receive Stream Link.
From S2P Require Import Ieclink Client Samples Server Station Duplex.
From S2P Require Import Posix Process Iecproxy ProxyProps Sockwrite Relay.

#[local] Open Scope Z_scope.

(** ** ieclink and the other end *)
Section link.
Context {E : Type} {L : Libevent E} {LL : LibeventLaws E}.
Context {E' App' F' : Type} {L' : Libevent E'} {LL' : LibeventLaws E'}.
Context {AL' : AppLog App'} {HC' : HookCode E' App' F'} {HS' : HookSpec E' App' F'}.
Implicit Types (w : world E client fptr) (v : world E' App' F').

Lemma feeding_good past q w : feeding past q w -> good w.
Proof.
  intros [Hl Hs _ _ (l & Hr & _) _ Hu]. split; [done|done|by exists l|]. intros []; set_solver.
Qed.

(** Frames that take no bytes are none. *)
Lemma no_frames fs : Forall frame_ok fs -> [] = concat fs -> fs = [].
Proof.
  intros Hf He. destruct Hf as [|f fs Hf _]; [done|]. destruct (frame_ok_bounds f Hf) as [Hb _].
  cbn in He. symmetry in He. apply app_nil in He as [-> _]. cbn in Hb. lia.
Qed.

(** What a program that only sends writes, the other end takes: its application
    receives the data of the buffers that have gone to the acknowledge queue. *)
Lemma sent_received w w' v out :
  ready w -> ready v -> agree (w_s w) (w_s v) -> good w' -> outgoing w w' -> s_ackw_q (w_s w) = [] ->
  ev_out (ev_view (w_ev w')) = ev_out (ev_view (w_ev w)) ++ out ->
  forall e, ev_view e = (ev_view (w_ev v)) <| ev_in := out |> ->
  wp bufreadcb (fun _ v' => good v' /\ app_log (w_app v') = app_log (w_app v) ++ map bdata (s_ackw_q (w_s w')) /\
    s_vr (w_s v') = s_vs (w_s w')) (v <| w_ev := e |>).
Proof.
  intros Hw Hv Hag Hg' [Htx (fs & Hfs & Eo & Ea)] Eq0 Ho e He.
  rewrite Eq0 in Ea. cbn in Ea. rewrite Eo in Ho. apply app_inv_head in Ho as <-.
  assert (linked w v (Build_net w' v (concat fs) [])) as Hl.
  { eapply linked_step; [by apply ready_linked|].
    apply (step_a (Build_net w v [] []) [] [] w' (concat fs)); [|done|done]. by apply act_send. }
  eapply wp_mono; [by apply (linked_reads_all w v _ fs e Hag Hl)|]. intros [] v' [o Hl'].
  destruct (linked_safe w v _ Hag Hl') as (_ & _ & (read & rest & Hok & Er & Eo' & Es & Elog & Evr) & _).
  cbn [na nb to_b to_a] in *. apply Forall_app in Hok as [Hok Hok']. apply (no_frames rest Hok') in Er as ->.
  rewrite app_nil_r in *. rewrite Eo in Eo'. apply app_inv_head in Eo'.
  destruct (frames_prefix fs read []) as (hs & -> & Ehs); [done|done|by rewrite app_nil_r|].
  apply Forall_app in Hok as [_ Hok]. apply (no_frames hs Hok) in Ehs as ->. rewrite app_nil_r in *.
  destruct Hl' as (ta & tb & p & q & _ & Hsb & _). destruct Hag as [Eag _].
  split_and!; [apply Hsb|by rewrite Elog, Ea|by rewrite Evr, Es, Eag].
Qed.

(** What becomes of the message [ds]: the first part [sent] is received at the
    other end, the rest is queued at ieclink behind it or not yet read.  ASDUs
    are queued only when the send window is full, and left unread only when
    moreover [limlistsize] ASDUs wait. *)
Definition passed_on (ds : list bytes) w (_ : unit) w' : Prop :=
  exists sent queued unread out, ds = sent ++ queued ++ unread /\
    ev_out (ev_view (w_ev w')) = ev_out (ev_view (w_ev w)) ++ out /\
    (queued = [] \/ outstanding (w_s w') = s_k (w_s w')) /\
    ((unread = [] /\ pending_text w' = [] /\ a_endmsg (w_app w') = true) \/
     (outstanding (w_s w') = s_k (w_s w') /\ pending_text w' = enc_all unread ++ end_mark /\
      exists l, list_rep (w_app w') l /\ Z.of_nat (length l) = limlistsize)) /\
    forall v e, ready v -> agree (w_s w) (w_s v) -> ev_view e = (ev_view (w_ev v)) <| ev_in := out |> ->
      wp bufreadcb (fun _ v' => good v' /\ app_log (w_app v') = app_log (w_app v) ++ sent /\
                                s_vr (w_s v') = s_vs (w_s w')) (v <| w_ev := e |>).

Lemma text_passed_on ds w :
  ready w -> feeding 0 [] w -> Client.reading w -> Forall asdu_ok ds -> pending_text w = enc_all ds ++ end_mark ->
  wp stdin_read (passed_on ds w) w.
Proof.
  intros Hw Hf Hr Hds Ht. eapply wp_mono; [apply (stdin_read_wp 0 [] ds end_mark w Hf Hr Hds (or_intror eq_refl) Ht)|].
  intros [] w' (ds1 & unread & -> & Hf' & Ho & Hend). cbn [app] in Hf'.
  destruct (fd_list _ _ _ Hf) as (l0 & _ & _ & _ & E0 & _). apply app_nil in E0 as [E0 _].
  unfold txq in E0. apply map_eq_nil, app_nil in E0 as [E0 _].
  destruct (Hf') as [_ Hs' _ _ (l & Hl' & _ & Hroom & Eq & Hz) Hfl _]. unfold txq in Eq. rewrite map_app, <- app_assoc in Eq.
  destruct (Ho) as [Htx (fs & _ & Eo & _)].
  exists (map bdata (s_ackw_q (w_s w'))), (map bdata (s_write_q (w_s w')) ++ l.*2), unread, (concat fs).
  split_and!; [by rewrite <- Eq, <- app_assoc|done| | |].
  - assert (bool_decide (s_type (w_s w') = IEC_SLAVE) && s_stopdt (w_s w') = false) as Hact.
    { rewrite <- (rd_active _ Hw). unfold inactive. destruct (tx_keeps _ _ Htx) as [Hk _].
      destruct (link_fields _ _ (tx_link _ _ Htx)) as (_ & _ & _ & Esd & _). by rewrite (keeps_type _ _ Hk), Esd. }
    pose proof (inv_window _ Hs'). pose proof (outstanding_nonneg (w_s w')). specialize (Hfl Hact). unfold room in *.
    destruct Hfl as [Ew|Er]; [|right; lia]. rewrite Ew. destruct Hroom as [-> |]; [by left|right; lia].
  - destruct Hend as [[Hp Hl]|(-> & _ & Hp & He)]; [|by left]. destruct Hl as [Hl|[_ Hl]]; [right|done].
    rewrite Hl in Hz. unfold limlistsize in *. destruct Hroom as [-> |Hroom]; [cbn in Hz; lia|].
    pose proof (inv_window _ Hs'). split_and!; [unfold room in Hroom; lia|done|]. exists l. split; [done|lia].
  - intros v e Hv Hag He. eapply sent_received; [done|done|done|by eapply feeding_good|done|done|done|done].
Qed.
End link.

(** ** Claims *)
Section claims.
Context {E : Type} {L : Libevent E} {LL : LibeventLaws E}.
Context {E' App' F' : Type} {L' : Libevent E'} {LL' : LibeventLaws E'}.
Context {AL' : AppLog App'} {HC' : HookCode E' App' F'} {HS' : HookSpec E' App' F'}.

End claims.

(** ** A sample message *)
Definition sample_message : list bytes := [asdu1; asdu2; asdu3].
Definition cut (n : nat) (b : bytes) : list bytes := [take n b; drop n b].

Definition writer : sw :=
  Build_sw None None (pieces (cut 20 (enc_all sample_message))) [] (RData [ch_less]) [].
Definition relay : px :=
  sample_px 5 (-1) false [RByte ch_less; RByte 10] (map RChunk (cut 9 (enc_all sample_message)) ++ [RCEof]).
Definition reader : world evview client fptr := sample_world [] [] reading_client.

Lemma plain_okb b : match b with [] => false | _ => forallb (fun c => negb (c =? ch_caret)) b end = true -> plain b.
Proof.
  intros H. split; [by destruct b|]. destruct b as [|c b]; [done|]. rewrite forallb_forall in H.
  apply Forall_forall. intros x Hx%list_elem_of_In ->. apply H in Hx. by rewrite Z.eqb_refl in Hx.
Qed.

