(* ===== verification/Wakeup.v ===== *)
(** * The acknowledgement of everything that has been sent

    ieclink's wake-up hook on the path on which it is called: a frame that
    acknowledges all that is outstanding arrives, and the hook finds room for
    the whole waiting list.  Lemmas about a frame that arrives alone, and about
    what the program prints. *)

From S2P Require Import Prelude Bits Wire Libevent Session Iecsock Seqnum Trace Transmit Receive Stream Link.
From S2P Require Import Ieclink Client.

#[local] Arguments take : simpl never.
#[local] Arguments drop : simpl never.
#[local] Arguments hdr_of_bytes : simpl never.
#[local] Arguments hdr_bytes : simpl never.

(** ** One frame at a time *)
Section one_frame.
Context {E App F : Type} {L : Libevent E} {LL : LibeventLaws E}.
Context {AL : AppLog App} {HC : HookCode E App F} {HS : HookSpec E App F}.
Implicit Types w : world E App F.

(** A frame that arrives alone is handed to [iecsock_frame_recv]. *)
Lemma bufreadcb_one f w Q :
  sound w -> s_left (w_s w) = 0 -> frame_ok f -> ev_in (ev_view (w_ev w)) = f ->
  (forall e z, ev_view e = (ev_view (w_ev w)) <| ev_in := [] |> <| ev_wm := z |> ->
     wp iecsock_frame_recv (fun r w' => r = 0 /\ w_live w' = true /\ ev_in (ev_view (w_ev w')) = [] /\
                                        Q tt (rx_reset w')) (load f e w)) ->
  wp bufreadcb Q w.
Proof.
  intros [Hl Hs Ha] Hleft Hf Hin HQ. unfold bufreadcb. apply wp_bind, wp_evq; [done|].
  destruct (read_loop_frame iecsock_frame_recv f [] (evbuffer_length (w_ev w)) w)
    as (e & z & fuel & finish & He & _ & Hfin & Heq);
    [done|done|apply Hs|by rewrite app_nil_r|done|by rewrite app_nil_r, length_view, Hin|].
  unfold wp. rewrite Heq. match goal with |- match ?m ?x with _ => _ end => change (wp m Q x) end.
  sess_step. eapply wp_mono; [by apply (HQ e z)|]. intros r w' (-> & Hl' & Hin' & HQ'). sess_step.
  apply (finish_accepted finish); [done|done|].
  destruct fuel; cbn [read_loop]; sess_step; (apply wp_evq; [done|]);
    rewrite length_view; cbn; rewrite view_setwatermark; cbn; rewrite Hin'; cbn; by apply wp_ret.
Qed.

(** The handler runs on a copy of the frame. *)
Lemma frame_recv_start f e w Q :
  sound w -> w_mem w = [] -> frame_ok f ->
  (forall w1, sound w1 -> w_mem w1 = [] -> w_s w1 = w_s (load f e w) -> w_app w1 = w_app w ->
     ev_view (w_ev w1) = (ev_view e) <| ev_armed := <[EvT3 := Some (s_t3 (w_s w))]> (ev_armed (ev_view e)) |> ->
     wp (frame_handler (hdr_of_bytes f) (Build_iec_buf 0 (hdr_of_bytes f) (drop 6 f))) Q w1) ->
  wp iecsock_frame_recv Q (load f e w).
Proof.
  intros Hg Hm Hf HQ. destruct (load_has_frame f e w ltac:(apply Hg) Hf) as [Hhf Hdata].
  apply (frame_recv_dispatch _ _ _ (load_sound f e w Hg Hf) Hm Hhf). rewrite Hdata.
  intros w1 []. by apply HQ.
Qed.
End one_frame.

(** ** What is printed *)

(** The client after it has printed [o]. *)
Definition printed (o : list outline) (a : client) : client := a <| a_stdout := a_stdout a ++ o |>.

Lemma printed_printed o o' a : printed o' (printed o a) = printed (o ++ o') a.
Proof. unfold printed. cbn. by rewrite <- app_assoc. Qed.

Lemma list_rep_printed o a l : list_rep a l -> list_rep (printed o a) l.
Proof. intros []. by split. Qed.

(** ** The wake-up with room for everything *)
Section drain.
Context {E : Type} {L : Libevent E} {LL : LibeventLaws E}.
Implicit Types w : world E client fptr.

(** A session that sends at once. *)
Record sending w : Prop := {
  sn_live : w_live w = true;
  sn_sess : sess_inv (w_s w);
  sn_mem : w_mem w = [];
  sn_active : inactive (w_s w) = false;
  sn_q : s_write_q (w_s w) = [];
  sn_user : EvUser ∈ s_set (w_s w);
}.

Lemma sess_inv_queued s d :
  sess_inv s -> asdu_ok d ->
  sess_inv (F:=fptr) (s <| s_write_q := s_write_q s ++
    [iecsock_prepare_iframe (Build_iec_buf (u8 (Z.of_nat (length d))) zero_hdr d)] |>).
Proof.
  intros Hs [Hd Hl]. unfold sizeof_asdubuf in Hl. rewrite u8_small by lia.
  apply sess_inv_push; [done|]. apply prepare_buf_ok; [done|unfold IEC104_ASDU_MAX; lia].
Qed.

Lemma asdu_sent_wp d w :
  sending w -> asdu_ok d -> (0 < room (w_s w))%nat ->
  wp (iec_asdu_send d) (fun _ w' => sending w' /\ w_app w' = w_app w /\ tx_only w w' /\
    txq (w_s w') = txq (w_s w) ++ [d] /\ outstanding (w_s w') = outstanding (w_s w) + 1) w.
Proof.
  intros [Hl Hs Hm Ha Hq Hu] Hd Hr. eapply wp_mono; [apply wp_and|].
  - apply (asdu_send_wp d w (fun _ w' => sess_inv (w_s w') /\ w_app w' = w_app w /\ tx_only w w' /\
      txq (w_s w') = txq (w_s w) ++ [d])); [done..|].
    intros w' ? ? ? _ Hq'. destruct (Hq' Hm) as [? _]. by split_and!.
  - instantiate (1 := fun _ w' => s_write_q (w_s w') = [] /\ outstanding (w_s w') = outstanding (w_s w) + 1).
    unfold iec_asdu_send, calloc_buf, try_alloc. do 2 apply wp_bind. unfold wp at 1. rewrite Hm.
    sess_steps. cbn [negb]. sess_steps. apply run_write_queue_wp; [done|by apply sess_inv_queued|].
    cbn [w_s upd upd_w_s upd_w_bufs]. intros n e -> _ _.
    match goal with |- context [sends ?x] => set (s := x) end.
    assert (room s = room (w_s w)) as Er by done.
    assert (length (s_write_q s) = 1%nat) as El by (cbn; by rewrite Hq).
    assert (sends s = 1%nat) as ->.
    { unfold sends. change (bool_decide _ && _) with (inactive (w_s w)). rewrite Ha, El, Er. lia. }
    split; [cbn; by rewrite Hq|]. apply (outstanding_sent 1 s); [by apply sess_inv_queued|].
    rewrite Er. lia.
  - intros [] w' [(Hs' & Ea & Htx & Et) [Hq' Eo]]. split_and!; [|done..].
    destruct (tx_keeps _ _ Htx) as [Hk _]. destruct (link_fields _ _ (tx_link _ _ Htx)) as (_ & _ & _ & Esd & _).
    split; [by apply Hk|done|by apply Hk| |done|by apply (keeps_set _ _ Hk)]. rewrite <- Ha. unfold inactive.
    by rewrite (keeps_type _ _ Hk), Esd.
Qed.

Lemma kick_loop_drains fuel l p w :
  sending w -> chain (a_nodes (w_app w)) p l -> NoDup (l.*1) -> (length l <= fuel)%nat -> (length l <= room (w_s w))%nat ->
  wp (kick_loop fuel p) (fun p' w' => p' = None /\ sending w' /\
    outstanding (w_s w') = outstanding (w_s w) + Z.of_nat (length l)) w.
Proof.
  revert l p w. induction fuel as [|fuel IH]; intros [|[i d] l] p w Hsn Hc Hn Hf Hr; cbn [chain length] in *; try lia;
    [subst p; apply wp_ret; split_and!; [done|done|lia]..|].
  destruct Hc as (-> & Hd & nx & Hi & Hc). cbn [kick_loop]. apply NoDup_cons in Hn as [Hin Hn].
  apply wp_bind, can_send_wp; [apply Hsn..|]. replace (room (w_s w) =? 0)%nat with false by (symmetry; apply Nat.eqb_neq; lia).
  cbn [negb]. unfold geta, seta. sess_steps. rewrite Hi. cbn [n_len n_data n_next].
  rewrite Nat2Z.id, take_ge by (destruct Hd; lia). sess_step.
  eapply wp_mono; [apply asdu_sent_wp; [done|done|lia]|]. intros [] w1 (Hsn1 & Ea1 & Htx & _ & Eo1). sess_steps.
  match goal with |- wp _ _ ?x => set (w2 := x) end.
  assert (s_k (w_s w1) = s_k (w_s w)) as Ek by apply (tx_keeps _ _ Htx).
  eapply wp_mono; [apply (IH l nx w2)|]; [by destruct Hsn1| |done|lia| |].
  - cbn. rewrite Ea1. by apply chain_delete.
  - change (w_s w2) with (w_s w1). unfold room in *. lia.
  - change (w_s w2) with (w_s w1). intros p' w' (-> & Hsn' & Eo'). split_and!; [done|done|lia].
Qed.

(** What the wake-up leaves of the client's variables. *)
Definition same_text (a a' : client) : Prop :=
  a_curlistsize a' = a_curlistsize a /\ a_rbuf a' = a_rbuf a /\ a_asdubuf a' = a_asdubuf a /\ a_stdin a' = a_stdin a.

Lemma kick_drains l w :
  sending w -> list_rep (w_app w) l -> (length l <= room (w_s w))%nat ->
  wp do_kick (fun _ w' => sending w' /\ outstanding (w_s w') = outstanding (w_s w) + Z.of_nat (length l) /\
    a_list (w_app w') = None /\ a_endmsg (w_app w') = false /\ same_text (w_app w) (w_app w') /\
    ev_armed (ev_view (w_ev w')) !! EvUser = Some None) w.
Proof.
  intros Hsn [Hc Hn Hf] Hr. unfold do_kick, print, geta, seta. sess_steps.
  eapply wp_mono; [apply wp_and; [by apply (kick_loop_drains _ l); [..|by eapply chain_size|]|]|].
  { apply (kick_loop_wp _ l); [apply Hsn|apply Hsn|done|done|by eapply chain_size]. }
  intros p w1 [(-> & Hsn1 & Eo) (l1 & l2 & Hk)]. pose proof (sn_live _ Hsn1) as Hl1. pose proof (sn_user _ Hsn1) as Hu1. sess_steps.
  cbn [w_app upd upd_w_app a_endmsg upd_a_list].
  assert (same_text (w_app w) (w_app w1)) as Hst by by rewrite (kd_app _ _ _ _ _ _ Hk).
  destruct (a_endmsg (w_app w1)) eqn:He; cbn [negb]; sess_steps;
    (split_and!; [by destruct Hsn1|done|done|done|done|cbn; rewrite view_add; apply lookup_insert_eq]).
Qed.

(** All of it together. *)
Lemma kick_sends_all l w :
  sending w -> list_rep (w_app w) l -> (length l <= room (w_s w))%nat ->
  wp do_kick (fun _ w' => (sending w' /\ tx_only w w') /\ list_rep (w_app w') [] /\
    (outstanding (w_s w') = outstanding (w_s w) + Z.of_nat (length l) /\ txq (w_s w') = txq (w_s w) ++ l.*2) /\
    a_stdout (w_app w') = a_stdout (w_app w) ++ (if a_endmsg (w_app w) then [OutMark ch_lt] else []) /\
    a_endmsg (w_app w') = false /\ same_text (w_app w) (w_app w') /\
    ev_armed (ev_view (w_ev w')) !! EvUser = Some None) w.
Proof.
  intros Hsn Hr Hlen. eapply wp_mono; [apply wp_and; [by apply (kick_drains l)|by apply (kick_wp l); [apply Hsn|apply Hsn| |apply Hsn]]|].
  intros [] w' [(Hsn' & Eo & El & He & Hst & Hu) (l1 & l2 & -> & _ & Hr' & Htx & _ & Hq & _ & Eout & _)].
  assert (l2 = []) as ->.
  { destruct l2 as [|[i d] l2]; [done|]. destruct Hr' as [Hc _ _]. cbn in Hc. destruct Hc as (Hc & _). congruence. }
  cbn [bool_decide] in Eout. rewrite app_nil_r in *. rewrite bool_decide_true in Eout by done.
  split_and!; try done. by apply Hq, Hsn.
Qed.
End drain.

(** ** An acknowledgement of everything that has been sent *)
Section acked.
Context {E : Type} {L : Libevent E} {LL : LibeventLaws E}.
Implicit Types w : world E client fptr.

(** The wake-up has emptied the waiting list [l] into the link layer: all of it
    is unacknowledged.  [o] has been printed. *)
Record woken (l : list (nat * bytes)) (o : list outline) w w' : Prop := {
  wk_list : list_rep (w_app w') [];
  wk_endmsg : a_endmsg (w_app w') = false;
  wk_text : same_text (w_app w) (w_app w');
  wk_out : outstanding (w_s w') = Z.of_nat (length l);
  wk_va : s_va (w_s w') = s_vs (w_s w);
  wk_txq : l.*2 `suffix_of` txq (w_s w');
  wk_q : s_write_q (w_s w') = [];
  wk_stdout : a_stdout (w_app w') = a_stdout (w_app w) ++ o;
  wk_user : ev_armed (ev_view (w_ev w')) !! EvUser = Some None;
}.

(** What is done next to the session does not touch the send side. *)
Lemma woken_more l o o' w w1 w2 :
  woken l o w w1 -> w_app w2 = printed o' (w_app w1) ->
  s_va (w_s w2) = s_va (w_s w1) -> s_vs (w_s w2) = s_vs (w_s w1) ->
  s_write_q (w_s w2) = s_write_q (w_s w1) -> s_ackw_q (w_s w2) = s_ackw_q (w_s w1) ->
  ev_armed (ev_view (w_ev w2)) !! EvUser = ev_armed (ev_view (w_ev w1)) !! EvUser ->
  woken l (o ++ o') w w2.
Proof.
  intros [] Ea Eva Evs Ewq Eaq Eu. split; rewrite ?Ea; cbn; try done.
  - by apply list_rep_printed.
  - unfold outstanding in *. congruence.
  - congruence.
  - unfold txq in *. by rewrite Ewq, Eaq.
  - congruence.
  - rewrite app_assoc. congruence.
  - congruence.
Qed.

Lemma check_nr_all (s : iecsock fptr) : sess_inv s -> check_nr s (s_vs s) = true.
Proof. intros Hs. pose proof (inv_vs _ Hs). rewrite check_nr_spec by (done || lia). apply Z.leb_refl. Qed.

Lemma acked_inv w :
  sess_inv (w_s w) ->
  sess_inv ((w_s w) <| s_va := s_vs (w_s w) |>) /\ outstanding ((w_s w) <| s_va := s_vs (w_s w) |>) = 0.
Proof.
  intros Hs. pose proof (inv_vs _ Hs). split; [|unfold outstanding; cbn; apply sdist_refl].
  apply sess_inv_ack; [done|lia|by apply check_nr_all].
Qed.

(** The marks a wake-up prints. *)
Definition confirmation (a : client) : list outline := if a_endmsg a then [OutMark ch_lt] else [].

Lemma ack_advance_all l w :
  sending w -> s_hooks (w_s w) = no_hooks -> list_rep (w_app w) l -> Z.of_nat (length l) <= s_k (w_s w) ->
  wp (ack_advance (s_vs (w_s w))) (fun _ w' => sending w' /\ keeps_rx w w' /\ s_vr (w_s w') = s_vr (w_s w) /\
    woken l (confirmation (w_app w)) w w') w.
Proof.
  intros [Hl Hs Hm Ha Hq Hu] Hh Hr Hlen. destruct (acked_inv w Hs) as [Hs1 Eo1].
  unfold ack_advance, t1_timer_stop, call_hook, hook. sess_steps. cbn -[outstanding]. rewrite Z.eqb_refl. cbn [when].
  sess_steps. cbn -[outstanding run_hook]. rewrite Hh. cbn -[outstanding].
  match goal with |- wp _ _ ?x => set (w1 := x) end.
  assert (w_s w1 = (w_s w) <| s_va := s_vs (w_s w) |>) as Ew1 by done.
  assert (sending w1) as Hsn1 by (split; try done; by rewrite Ew1).
  assert (keeps_rx w w1) as Hk1 by (split; try done; cbn; by rewrite view_del).
  eapply wp_mono; [apply (kick_sends_all l); [done|done|]|].
  { unfold room. rewrite Ew1, Eo1. cbn. lia. }
  intros [] w' ([Hsn' Htx] & Hr' & [Eo Et] & Eout & He & Hst & Hau).
  destruct (link_fields _ _ (tx_link _ _ Htx)) as (Eva & Evr & _).
  split; [done|]. split; [etrans; [exact Hk1|apply (tx_keeps _ _ Htx)]|]. split; [by rewrite Evr|]. split; try done.
  - by rewrite Eo, Ew1, Eo1.
  - rewrite Et. by apply suffix_app_r.
  - apply Hsn'.
Qed.

Lemma woken_from l o w w0 w' :
  w_app w0 = w_app w -> s_vs (w_s w0) = s_vs (w_s w) -> woken l o w0 w' -> woken l o w w'.
Proof. intros Ea Ev []. rewrite Ea, Ev in *. by split. Qed.

Lemma printed_nil a : printed [] a = a.
Proof. unfold printed. rewrite app_nil_r. by destruct a. Qed.

(** The S-frame and the I-frame that acknowledge everything and come in turn. *)
Record acks_all w (f : bytes) : Prop := {
  aa_ok : frame_ok f;
  aa_nr : ic_nr (hdr_of_bytes f) = s_vs (w_s w);
  aa_type : type_of f = FRAME_TYPE_S \/ (type_of f = FRAME_TYPE_I /\ ic_ns (hdr_of_bytes f) = s_vr (w_s w));
}.

(** The session between two frames. *)
Record between w : Prop := {
  bt_sending : sending w;
  bt_hooks : s_hooks (w_s w) = no_hooks;
  bt_left : s_left (w_s w) = 0;
}.

Lemma sframe_wakes l b w :
  sending w -> s_hooks (w_s w) = no_hooks -> list_rep (w_app w) l -> Z.of_nat (length l) <= s_k (w_s w) ->
  ic_nr (bh b) = s_vs (w_s w) ->
  wp (iecsock_sframe_recv b) (fun r w' => r = 0 /\ woken l (confirmation (w_app w)) w w') w.
Proof.
  intros Hsn Hh Hr Hlen Hnr. destruct (Hsn) as [Hl Hs Hm Ha Hq Hu]. unfold iecsock_sframe_recv. sess_steps. rewrite Hnr.
  rewrite check_nr_all by done. cbn [negb]. sess_step. apply run_ackw_queue_wp; [done|]. match goal with |- wp _ _ ?x => set (w1 := x) end.
  assert (sending w1) as Hsn1 by (split; try done; by apply sess_inv_ackw).
  sess_step. change (s_vs (w_s w)) with (s_vs (w_s w1)). eapply wp_mono; [by apply (ack_advance_all l w1)|].
  intros [] w' (_ & _ & _ & Hw). sess_step. split; [done|by apply (woken_from l _ w w1)].
Qed.

(** Counting the frame and delivering its data. *)
Lemma counted_delivered b w Q :
  w_live w = true -> s_hooks (w_s w) = no_hooks ->
  (forall w', w_app w' = printed [OutData (take (Z.to_nat (data_len b)) (bdata b))] (w_app w) ->
     s_va (w_s w') = s_va (w_s w) -> s_vs (w_s w') = s_vs (w_s w) -> s_write_q (w_s w') = s_write_q (w_s w) ->
     s_ackw_q (w_s w') = s_ackw_q (w_s w) -> ev_armed (ev_view (w_ev w')) = ev_armed (ev_view (w_ev w)) -> Q tt w') ->
  wp count_received (fun _ w1 => wp (deliver_data b) Q w1) w.
Proof.
  intros Hl Hh HQ. unfold count_received, deliver_data, hook, iecsock_sframe_send, bump_xmit. sess_steps.
  apply wp_when; intros _; sess_steps; cbn -[ev_view]; rewrite Hh; cbn -[ev_view];
    unfold do_data_received, print, seta, free_buf; sess_steps; apply HQ; try done; cbn; by rewrite ?view_write.
Qed.

Lemma iframe_wakes l b w :
  sending w -> s_hooks (w_s w) = no_hooks -> list_rep (w_app w) l -> Z.of_nat (length l) <= s_k (w_s w) ->
  ic_nr (bh b) = s_vs (w_s w) -> ic_ns (bh b) = s_vr (w_s w) ->
  wp (iecsock_iframe_recv b) (fun r w' => r = 0 /\
    woken l (confirmation (w_app w) ++ [OutData (take (Z.to_nat (u8 (hlength (bh b) - 4))) (bdata b))]) w w') w.
Proof.
  intros Hsn Hh Hr Hlen Hnr Hns. destruct (Hsn) as [Hl Hs _ _ _ _]. unfold iecsock_iframe_recv. sess_steps.
  rewrite Hnr, check_nr_all by done. cbn [negb]. sess_step.
  eapply wp_mono; [by apply (ack_advance_all l)|]. intros [] w1 ([Hl1 Hs1 _ _ _ _] & Hk1 & Evr & Hw).
  unfold t2_timer_stop, t2_timer_start. sess_steps. cbn -[ev_view count_received deliver_data]. unfold check_ns.
  cbn -[ev_view count_received deliver_data]. rewrite Evr, Hns, Z.eqb_refl. cbn [negb]. sess_step.
  match goal with |- wp count_received (fun _ _ => wp (deliver_data ?x ≫= _) _ _) _ => set (b1 := x) end.
  eapply wp_mono; [apply (counted_delivered b1) with (Q := fun _ w' =>
    woken l (confirmation (w_app w) ++ [OutData (take (Z.to_nat (data_len b1)) (bdata b1))]) w w')|].
  - done.
  - cbn. by rewrite (keeps_hooks _ _ Hk1).
  - intros w' Ea Eva Evs Ewq Eaq Ev. eapply woken_more; [exact Hw|exact Ea|done..|]. rewrite Ev. cbn.
    rewrite view_add, view_del. cbn. rewrite lookup_insert_ne, lookup_delete_ne; done.
  - intros [] w2 H2. sess_step. eapply wp_mono; [exact H2|]. intros [] w' Hw'. sess_step. by split.
Qed.

Lemma link_after_stopdt (s : iecsock fptr) h :
  frame_type h <> FRAME_TYPE_U -> l_stopdt (link_after s h) = s_stopdt s.
Proof. intros Hu. unfold link_after. repeat (case_match; try done). Qed.

Lemma woken_reset l o w w' : woken l o w w' -> woken l o w (rx_reset w').
Proof.
  intros Hw. rewrite <- (app_nil_r o). eapply woken_more; [exact Hw|by rewrite printed_nil|done..|].
  cbn. by rewrite view_setwatermark.
Qed.

(** The handler of the frame wakes the program. *)
Lemma ack_recv_wakes l f e w :
  good w -> sending w -> s_hooks (w_s w) = no_hooks -> list_rep (w_app w) l -> Z.of_nat (length l) <= s_k (w_s w) ->
  acks_all w f ->
  wp iecsock_frame_recv (fun r w' => r = 0 /\
    woken l (confirmation (w_app w) ++ map OutData (payloads [f])) w w') (load f e w).
Proof.
  intros Hg Hsn Hh Hr Hlen [Hf Hnr Hty]. pose proof Hsn as [Hl Hs Hm Ha Hq Hu].
  apply frame_recv_start; [by apply good_sound|done..|]. intros w1 Hg1 Hm1 Es1 Ea1 _.
  assert (sending w1) as Hsn1 by (split; [apply Hg1|apply Hg1|done|by rewrite Es1..]).
  assert (list_rep (w_app w1) l) as Hr1 by by rewrite Ea1.
  assert (Z.of_nat (length l) <= s_k (w_s w1)) as Hlen1 by by rewrite Es1.
  assert (s_hooks (w_s w1) = no_hooks) as Hh1 by by rewrite Es1.
  assert (forall o w', woken l o w1 w' -> woken l o w w') as Hfrom by (intros o w'; apply woken_from; by rewrite ?Es1).
  unfold frame_handler, payloads. cbn [omap list_omap]. rewrite <- Ea1. unfold type_of in *.
  destruct Hty as [Et|[Et Hns]]; rewrite Et; cbn zeta iota.
  - sess_step. eapply wp_mono; [apply (sframe_wakes l); [done..|by rewrite Es1]|].
    intros r w' [-> Hw]. unfold free_buf. sess_steps. split; [done|]. apply Hfrom. rewrite app_nil_r.
    by destruct Hw.
  - pose proof (sn_live _ Hsn1) as Hl1. sess_steps. fold (inactive (w_s w1)). rewrite (sn_active _ Hsn1).
    eapply wp_mono; [apply (iframe_wakes l); [done..|by rewrite Es1|by rewrite Es1]|]. cbn [bh bdata].
    intros r w' [-> Hw]. split; [done|]. apply Hfrom. rewrite take_ge in Hw; [exact Hw|].
    destruct (frame_ok_bounds f Hf) as [_ Hb]. pose proof (fo_len f Hf). unfold IEC_APDU_MIN, IEC_APDU_MAX in Hb.
    rewrite u8_small, length_drop by lia. lia.
Qed.

(** Such a frame wakes the program, and the session goes on. *)
Lemma ack_frame_wakes l f w :
  between w -> list_rep (w_app w) l -> Z.of_nat (length l) <= s_k (w_s w) ->
  acks_all w f -> ev_in (ev_view (w_ev w)) = f ->
  wp bufreadcb (fun _ w' => between w' /\ woken l (confirmation (w_app w) ++ map OutData (payloads [f])) w w') w.
Proof.
  intros [Hsn Hh Hleft] Hr Hlen Haa Hin. destruct (Hsn) as [Hl Hs Hm Ha Hq Hu]. destruct (Haa) as [Hf _ Hty].
  assert (good w) as Hg by (split; [done|done|by exists l|intros []; set_solver]).
  apply (bufreadcb_one f); [by apply good_sound|done..|]. intros e z He.
  destruct (load_has_frame f e w Hs Hf) as [Hhf _]. pose proof (load_good f e w Hg Hf) as Hgl.
  eapply wp_mono; [apply wp_and; [by apply (frame_recv_wp _ (hdr_of_bytes f))|by apply ack_recv_wakes]|].
  intros r w' [(_ & Hlk & _ & _ & Hg' & Hk & _) [-> Hw]]. split; [done|]. split; [apply Hg'|].
  split; [rewrite (keeps_in _ _ Hk); cbn; by rewrite He|]. split; [|by apply woken_reset].
  assert (s_stopdt (w_s w') = s_stopdt (w_s w)) as Esd.
  { change (l_stopdt (link_of (w_s w')) = s_stopdt (w_s w)). rewrite Hlk, link_after_stopdt; [done|].
    unfold type_of in Hty. destruct Hty as [-> |[-> _]]; done. }
  split; [split|cbn; by rewrite (keeps_hooks _ _ Hk)|done].
  - apply Hg'.
  - apply rx_reset_good, Hg'.
  - cbn. by apply (keeps_mem _ _ Hk).
  - rewrite <- Ha. unfold inactive. cbn. by rewrite (keeps_type _ _ Hk), Esd.
  - apply (wk_q _ _ _ _ Hw).
  - by apply (keeps_set _ _ Hk).
Qed.
End acked.
