(* ===== verification/Lifecycle.v ===== *)
(** * The life of ieclink's connection

    What ieclink does from the moment it is connected: the handshake that
    makes the session ready for the theorems about two sessions, a message
    taken from standard input and sent, the loss of the connection and the
    new one that follows it.  The application state (waiting list, [endmsg],
    [curlistsize]) outlives the session, which is where the defects at the end
    of the file come from. *)

From S2P Require Import Prelude Bits Wire Libevent Session Iecsock Seqnum Trace Transmit Receive Stream Link.
From S2P Require Import Server Ieclink Client Samples Station Duplex Opening Delivery Wakeup.

#[local] Arguments take : simpl never.
#[local] Arguments drop : simpl never.
#[local] Arguments hdr_of_bytes : simpl never.
#[local] Arguments hdr_bytes : simpl never.

(** ** Activation *)
Definition startcon : bytes := hdr_bytes (uframe_hdr STARTCON).

Lemma startcon_ok : frame_ok startcon.
Proof. by apply frame_okb_ok. Qed.

Section client.
Context {E : Type} {L : Libevent E} {LL : LibeventLaws E}.
Implicit Types w : world E client fptr.

(** A session that has just been activated: both sequence numbers are zero,
    nothing is queued, T1 does not run, and standard input is watched. *)
Record activated w : Prop := {
  ac_ready : ready w;
  ac_hooks : s_hooks (w_s w) = no_hooks;
  ac_type : s_type (w_s w) = IEC_MASTER;
  ac_seq : s_vs (w_s w) = 0 /\ s_va (w_s w) = 0 /\ s_vr (w_s w) = 0;
  ac_k : s_k (w_s w) = DEFAULT_K;
  ac_queues : s_write_q (w_s w) = [] /\ s_ackw_q (w_s w) = [];
  ac_t1 : ev_armed (ev_view (w_ev w)) !! EvT1 = None;
  ac_user : ev_armed (ev_view (w_ev w)) !! EvUser = Some None;
}.

Lemma activation_armed e :
  let v := ev_view (event_add EvUser None (event_set EvUser (event_del EvT1 e))) in
  ev_in v = ev_in (ev_view e) /\ ev_armed v !! EvT1 = None /\ ev_armed v !! EvUser = Some None.
Proof.
  cbn zeta. rewrite view_add. destruct (view_set EvUser (event_del EvT1 e)) as (a & -> & Ha). cbn.
  rewrite view_del. split_and!; [done| |apply lookup_insert_eq].
  rewrite lookup_insert_ne, Ha, view_del by done. apply lookup_delete_eq.
Qed.

(** The handler of STARTDT con, with the client's activation hook. *)
Lemma uframe_startcon_wp b w Q :
  w_live w = true -> s_type (w_s w) = IEC_MASTER -> s_hooks (w_s w) = no_hooks -> uframe_func (bh b) = STARTCON ->
  Q 0 (w <| w_s := (w_s w) <| s_stopdt := false |> <| s_set := {[ EvUser ]} ∪ s_set (w_s w) |> |>
         <| w_ev := event_add EvUser None (event_set EvUser (event_del EvT1 (w_ev w))) |>
         <| w_app := printed [OutMark ch_plus] (w_app w) |>) ->
  wp (iecsock_uframe_recv b) Q w.
Proof.
  intros Hl Ht Hh Hf HQ. unfold iecsock_uframe_recv, t1_timer_stop, call_hook, hook. sess_steps. rewrite Hf, Ht.
  cbn [negb bool_decide decide_rel]. rewrite bool_decide_true by done. cbn [negb]. sess_steps. cbn. rewrite Hh. cbn.
  unfold do_activation, print, seta. sess_steps. exact HQ.
Qed.

Lemma startcon_activates w e l :
  opened_session w -> list_rep (w_app w) l -> ev_view e = (ev_view (w_ev w)) <| ev_in := startcon |> ->
  wp bufreadcb (fun _ w' => activated w' /\ w_app w' = printed [OutMark ch_plus] (w_app w)) (w <| w_ev := e |>).
Proof.
  intros Ho Hr He. destruct (Ho) as [Hl (fd & a & n & set & Es) _ Hi Ht Hd Hleft Hm _ _ _ _].
  assert (sound (w <| w_ev := e |>)) as Hg by (split; [done|done|by exists l]).
  apply (bufreadcb_one startcon); [done|done|apply startcon_ok|by cbn; rewrite He|]. cbn [w_ev upd upd_w_ev].
  intros e1 z He1. apply frame_recv_start; [done|done|apply startcon_ok|].
  intros w1 [Hl1 Hs1 _] Hm1 Es1 Ea1 Ev1. unfold frame_handler. change (frame_type (hdr_of_bytes startcon)) with FRAME_TYPE_U. cbn zeta iota.
  assert (s_hooks (w_s w1) = no_hooks /\ s_type (w_s w1) = IEC_MASTER /\ s_testfr (w_s w1) = false /\
    s_vs (w_s w1) = 0 /\ s_va (w_s w1) = 0 /\ s_vr (w_s w1) = 0 /\ s_k (w_s w1) = DEFAULT_K /\
    s_write_q (w_s w1) = [] /\ s_ackw_q (w_s w1) = []) as (Ek1 & Et1 & Etf & Evs & Eva & Evr & Ek & Ewq & Eaq).
  { rewrite Es1. cbn. by rewrite Es. }
  unfold free_buf. sess_step. apply uframe_startcon_wp; [done|done|done|done|]. sess_steps.
  destruct (activation_armed (w_ev w1)) as (Hin & Ht1 & Hu).
  split; [done|]. split; [done|]. split; [cbn; rewrite Hin, Ev1; cbn; by rewrite He1|].
  split; [|cbn; by rewrite Ea1].
  split; cbn -[ev_view]; rewrite ?view_setwatermark; cbn -[ev_view]; try done.
  split; cbn -[ev_view]; rewrite ?view_setwatermark; cbn -[ev_view]; try done.
  - split; [done| |exists l; cbn; rewrite Ea1; by apply list_rep_printed|intros []; cbn; set_solver].
    cbn. destruct (sess_inv_set _ EvUser Hs1). by split.
  - unfold inactive. cbn. by rewrite Et1.
  - rewrite Hin, Ev1. cbn. by rewrite He1.
  - by rewrite Eva.
Qed.

(** The first frames a peer can send that acknowledge everything: nothing. *)
Record early_ack (f : bytes) : Prop := {
  ea_ok : frame_ok f;
  ea_nr : ic_nr (hdr_of_bytes f) = 0;
  ea_type : type_of f = FRAME_TYPE_S \/ type_of f = FRAME_TYPE_I;
}.

Lemma ack_advance_unprepared w :
  w_live w = true -> s_hooks (w_s w) = no_hooks -> s_vs (w_s w) = 0 -> a_list (w_app w) = None ->
  EvUser ∉ s_set (w_s w) -> ack_advance 0 w = Faulted Uninitialised.
Proof.
  intros Hl Hh Hvs Ha Hu. unfold ack_advance, t1_timer_stop, call_hook, hook.
  do 3 (apply bind_eq; sess_step). cbn. rewrite Hvs. cbn.
  apply bind_eq, wp_ev; [done|]. apply bind_eq. sess_steps. cbn. rewrite Hh. cbn.
  by apply kick_unprepared.
Qed.

(** C32: Before STARTDT con the wake-up hook is not ready: on a session that has
    only just sent STARTDT act, with nothing waiting, any S-frame and any I-frame
    that carries N(r) = 0 makes the link layer call the hook, which schedules the
    event of standard input; [event_set] has not been called on that event, which
    only the activation hook does. *)
Theorem early_ack_unprepared f w e :
  opened_session w -> list_rep (w_app w) [] -> early_ack f -> ev_view e = (ev_view (w_ev w)) <| ev_in := f |> ->
  bufreadcb (w <| w_ev := e |>) = Faulted Uninitialised.
Proof.
  intros Ho Hr [Hf Hnr Hty] He. destruct (Ho) as [Hl (fd & a & n & set & Es) Hu Hi Ht Hd Hleft Hm _ _ _ _].
  assert (a_list (w_app w) = None) as Ha by by destruct Hr.
  unfold bufreadcb. apply bind_eq, wp_evq; [done|].
  destruct (read_loop_frame iecsock_frame_recv f [] (evbuffer_length e) (w <| w_ev := e |>))
    as (e1 & z & fuel & finish & _ & _ & _ & Heq);
    [done|done|apply Hi|by cbn; rewrite He, app_nil_r|done|by rewrite app_nil_r, length_view, He|].
  etrans; [exact Heq|]. apply bind_faults_l. clear Heq.
  set (w1 := load f e1 (w <| w_ev := e |>)).
  destruct (load_has_frame f e1 (w <| w_ev := e |>) Hi Hf) as [Hhf Hdata].
  destruct (frame_recv_eq w1 (hdr_of_bytes f)) as (w2 & [[Hl2 Hs2 _] _ Es2 Ea2 _ _] & ->);
    [by apply load_sound; [split; [done|done|by exists []]|]|done|done|].
  assert (s_hooks (w_s w2) = no_hooks /\ s_type (w_s w2) = IEC_MASTER /\ s_vs (w_s w2) = 0 /\
    EvUser ∉ s_set (w_s w2)) as (Eh & Et & Evs & Eu) by (rewrite Es2; cbn; by rewrite Es in *).
  assert (check_nr (w_s w2) 0 = true) as Hc by (rewrite <- Evs; by apply check_nr_all).
  unfold frame_handler. unfold type_of in Hty. destruct Hty as [-> | ->].
  - apply bind_faults_l. unfold iecsock_sframe_recv. cbn [bh]. rewrite Hnr. apply bind_eq, wp_rd; [done|]. rewrite Hc. cbn [negb].
    apply bind_eq, run_ackw_queue_wp; [done|]. apply bind_faults_l, ack_advance_unprepared; try done. cbn. by rewrite Ea2.
  - do 2 (apply bind_eq, wp_rd; [done|]). rewrite Et. rewrite bool_decide_false by done. cbn [andb].
    unfold iecsock_iframe_recv. cbn [bh]. rewrite Hnr. apply bind_eq, wp_rd; [done|]. rewrite Hc. cbn [negb].
    apply bind_faults_l, ack_advance_unprepared; try done. by rewrite Ea2.
Qed.

(** libevent takes an event that is not persistent off its schedule before it
    calls back. *)
Definition user_fires : ST (world E client fptr) unit := ev (event_del EvUser);; stdin_read.

(** A client that has nothing to send. *)
Record idle_client (a : client) : Prop := {
  ic_list : list_rep a [];
  ic_last : a_last a = LastHead;
  ic_asdu : a_asdubuf a = [];
  ic_size : a_curlistsize a = 0;
}.

Lemma activated_feeding w : activated w -> idle_client (w_app w) -> feeding 0 [] w.
Proof.
  intros [[[Hl Hs _ Hn] Hm _ _ _ _ _] _ _ _ _ [Hwq Haq] _ _] [Hr Hla Ha Hz]. split; try done.
  - exists []. split_and!; [done|done|by left| |done]. unfold txq. by rewrite Hwq, Haq.
  - by left.
  - specialize (Hn iec_kick_callback). cbn in Hn. set_solver.
Qed.

Lemma printed_idle o a : idle_client a -> idle_client (printed o a).
Proof. intros []. split; [by apply list_rep_printed|done|done|done]. Qed.
End client.

Section opening.
Context {E : Type} {L : Libevent E} {LL : LibeventLaws E}.
Context {E' App' F' : Type} {L' : Libevent E'} {LL' : LibeventLaws E'}.
Context {AL' : AppLog App'} {HC' : HookCode E' App' F'} {HS' : HookSpec E' App' F'}.
Implicit Types w : world E client fptr.

(** Standard input is taken off the schedule and read. *)
Lemma user_fires_passed_on ds w :
  activated w -> idle_client (w_app w) -> Client.reading w -> Forall asdu_ok ds ->
  pending_text w = enc_all ds ++ end_mark ->
  wp user_fires (passed_on (L' := L') (HS' := HS') ds w) w.
Proof.
  intros Hac Hid Hr Hds Ht. pose proof (activated_feeding w Hac Hid) as Hf. destruct (ac_ready _ Hac) as [Hg Hm Hle Hi Hin Hte Hva].
  unfold user_fires. sess_step. apply wp_ev; [apply Hf|]. set (w1 := w <| w_ev := _ |>).
  assert (ready w1) as Hrd by (destruct Hg; split; try done; cbn; by rewrite view_del).
  assert (feeding 0 [] w1) as Hf1 by by destruct Hf.
  assert (Client.reading w1) as Hr1 by by destruct Hr.
  eapply wp_mono; [by apply (text_passed_on (L' := L') (HS' := HS') ds w1)|].
  intros [] w' (sent & queued & unread & out & -> & Eo & H). exists sent, queued, unread, out.
  split; [done|]. split; [|exact H]. rewrite Eo. cbn. by rewrite view_del.
Qed.

(** C3: A session from the first event on.  When the connection is established
    ieclink sends STARTDT act; the confirmation activates the session, stops T1,
    prints "+" and starts watching standard input, both ends counting from
    zero.  Then, in a client in which no ASDU has had to wait since the program
    was started ([idle_client]: list, counter of the list's size and ASDU buffer
    are empty), the text of a message that is waiting there, cut into reads in
    any way, is read to its end or until the send window is full and twelve
    ASDUs wait, and every other end that has been activated too and counts from
    zero receives the ASDUs in order and unchanged, less those the send window
    holds back.  The counter survives a lost connection, so the condition holds
    for the first connection and for later ones before any ASDU has waited. *)
Theorem session_opens fd addr ds w :
  w_live w = true -> w_s w = fresh_session fd addr -> w_mem w = [] -> idle_client (w_app w) ->
  Client.reading w -> Forall asdu_ok ds -> pending_text w = enc_all ds ++ end_mark ->
  wp (connect_writecb false 0) (fun _ w1 => ev_out (ev_view (w_ev w1)) = startact /\
    forall e, ev_view e = (ev_view (w_ev w1)) <| ev_in := startcon |> ->
      wp bufreadcb (fun _ w2 => activated w2 /\ w_app w2 = printed [OutMark ch_plus] (w_app w) /\
        wp user_fires (passed_on (L' := L') (HS' := HS') ds w2) w2) (w1 <| w_ev := e |>)) w.
Proof.
  intros Hl Hs Hm Hid Hr Hds Ht. eapply wp_mono; [by eapply connect_opens|]. intros [] w1 [Ho Ea].
  split; [apply Ho|]. intros e He.
  eapply wp_mono; [apply (startcon_activates w1 e []); [done| |done]; rewrite Ea; apply Hid|].
  intros [] w2 [Hac Ea2]. rewrite Ea in Ea2. split_and!; [done|done|].
  apply user_fires_passed_on; [done|rewrite Ea2; by apply printed_idle| |done|].
  - destruct Hr. split; by rewrite Ea2.
  - by rewrite <- Ht; unfold pending_text; rewrite Ea2.
Qed.
End opening.

(** ** Losing the connection *)
Section lost.
Context {E : Type} {L : Libevent E} {LL : LibeventLaws E}.
Implicit Types w : world E client fptr.

(** The session has been closed: nothing it owned is left, and [again] is
    what has been registered for the next connection. *)
Record closed_for (again : list (iecsock fptr * E)) w w' : Prop := {
  cl_dead : w_live w' = false;
  cl_mem : w_mem w' = w_mem w;
  cl_bufs : w_bufs w' = balance w;
  cl_queues : s_write_q (w_s w') = [] /\ s_ackw_q (w_s w') = [];
  cl_timers : ev_armed (ev_view (w_ev w')) = ∅;
  cl_open : ev_open (ev_view (w_ev w')) = false;
  cl_sock : s_sock (w_s w) ∈ w_closed w';
  cl_spawned : w_spawned w' = w_spawned w ++ again;
}.

(** The session that is to replace one. *)
Definition next_session w : list (iecsock fptr * E) :=
  let r := hd sys_default (w_sys w) in
  if bool_decide (s_type (w_s w) = IEC_MASTER) && negb (connect_fails r)
  then [(fresh_session (r_socket r) (s_addr (w_s w)), fresh_events)] else [].

Lemma lost_wp what w :
  w_live w = true -> s_hooks (w_s w) = no_hooks ->
  wp (buferrorcb what) (fun _ w' => w_app w' = printed [OutMark ch_minus] (w_app w) /\ closed_for (next_session w) w w') w.
Proof.
  intros Hl Hh. unfold buferrorcb, hook. sess_steps. rewrite Hh. cbn -[iecsock_close].
  unfold do_disconnect, print, seta. sess_steps.
  eapply wp_mono; [by apply close_releases|]. intros [] w' H. destruct_and!. by split; [|split].
Qed.

(** C24: The connection is lost, or T1 expires: the program is told with a "-",
    every queued ASDU is dropped, all timers are cancelled, the bufferevent, the
    socket and the session are released, and one fresh session to the same
    address is registered if the system allows it.  The program's own state is
    left as it was: the waiting ASDUs, the text read so far, the end mark seen
    and the size of the list survive the session. *)
Theorem connection_lost what w :
  w_live w = true -> s_hooks (w_s w) = no_hooks ->
  wp (buferrorcb what) (fun _ w' =>
    w_app w' = printed [OutMark ch_minus] (w_app w) /\ closed_for (next_session w) w w') w /\
  wp (t1_timer_run what) (fun _ w' =>
    w_app w' = printed [OutMark ch_minus] (w_app w) /\ closed_for (next_session w) w w') w.
Proof. intros Hl Hh. by split; apply lost_wp. Qed.

(** libevent calls back for the session that was registered first. *)
Definition resumed w : world E client fptr :=
  match w_spawned w with
  | [] => w
  | (s, e) :: q => w <| w_s := s |> <| w_ev := e |> <| w_live := true |> <| w_spawned := q |>
  end.

Lemma lost_resumed what w :
  w_live w = true -> s_hooks (w_s w) = no_hooks -> s_type (w_s w) = IEC_MASTER -> w_spawned w = [] ->
  connect_fails (hd sys_default (w_sys w)) = false ->
  wp (buferrorcb what) (fun _ w' => w_live (resumed w') = true /\ w_mem (resumed w') = w_mem w /\
    w_app (resumed w') = printed [OutMark ch_minus] (w_app w) /\
    w_s (resumed w') = fresh_session (r_socket (hd sys_default (w_sys w))) (s_addr (w_s w))) w.
Proof.
  intros Hl Hh Ht Hsp Hcf. eapply wp_mono; [by apply lost_wp|]. intros [] w' [Ea [_ Hm _ _ _ _ _ Es]].
  unfold next_session in Es. rewrite Hsp, Ht, Hcf in Es. unfold resumed. rewrite Es. by split_and!.
Qed.

Lemma activated_between w : activated w -> between w.
Proof.
  intros [[[Hl Hs _ Hn] Hm Hle Hi _ _ _] Hh _ _ _ [Hq _] _ _]. split; [split|..]; try done.
  specialize (Hn iec_kick_callback). cbn in Hn. set_solver.
Qed.

(** C35: The confirmation comes too early.  A message is longer than the send
    window: its first ASDUs have been sent, the others [l] wait, and its end has
    been read.  The acknowledgement of the first ones makes ieclink send the
    others and print "<", which tells the proxy that the message has been
    delivered, while every ASDU of [l] is unacknowledged; if the connection is
    lost now they are dropped, and the "-" comes after the confirmation. *)
Theorem confirmed_unacknowledged l f what w :
  between w -> list_rep (w_app w) l -> a_endmsg (w_app w) = true -> Z.of_nat (length l) <= s_k (w_s w) ->
  acks_all w f -> ev_in (ev_view (w_ev w)) = f ->
  wp bufreadcb (fun _ w1 =>
    let out := a_stdout (w_app w) ++ OutMark ch_lt :: map OutData (payloads [f]) in
    a_stdout (w_app w1) = out /\
    outstanding (w_s w1) = Z.of_nat (length l) /\ l.*2 `suffix_of` txq (w_s w1) /\
    wp (buferrorcb what) (fun _ w2 => a_stdout (w_app w2) = out ++ [OutMark ch_minus] /\
      list_rep (w_app w2) [] /\ txq (w_s w2) = [] /\ w_bufs w2 = balance w1) w1) w.
Proof.
  intros Hbt Hr He Hlen Haa Hin. eapply wp_mono; [by apply (ack_frame_wakes l f)|].
  intros [] w1 [[Hsn Hh _] Hw]. pose proof (wk_stdout _ _ _ _ Hw) as Eo. unfold confirmation in Eo. rewrite He in Eo.
  split_and!; [done|apply Hw|apply Hw|]. eapply wp_mono; [apply lost_wp; [apply Hsn|done]|].
  intros [] w2 [Ea [_ _ Hb [Hwq Haq] _ _ _ _]]. rewrite Ea. split_and!.
  - cbn -[app]. by rewrite Eo.
  - apply list_rep_printed, Hw.
  - unfold txq. by rewrite Hwq, Haq.
  - done.
Qed.

(** C36: A lost message is confirmed.  The whole message has been read and the
    connection is lost before it is acknowledged.  The waiting ASDUs and the end
    mark survive; when the next connection has been activated the first frame
    that carries N(r) = 0, before anything at all has been acknowledged on it,
    makes ieclink send what was waiting once more and print "<", which the proxy
    takes for the delivery of whatever message it is sending by then. *)
Theorem lost_message_confirmed what l f w :
  w_live w = true -> s_hooks (w_s w) = no_hooks -> s_type (w_s w) = IEC_MASTER -> w_spawned w = [] -> w_mem w = [] ->
  connect_fails (hd sys_default (w_sys w)) = false ->
  list_rep (w_app w) l -> a_endmsg (w_app w) = true -> Z.of_nat (length l) <= DEFAULT_K ->
  frame_ok f -> ic_nr (hdr_of_bytes f) = 0 ->
  type_of f = FRAME_TYPE_S \/ (type_of f = FRAME_TYPE_I /\ ic_ns (hdr_of_bytes f) = 0) ->
  wp (buferrorcb what) (fun _ w1 =>
    wp (connect_writecb false 0) (fun _ w2 => forall e2, ev_view e2 = (ev_view (w_ev w2)) <| ev_in := startcon |> ->
      wp bufreadcb (fun _ w3 => forall e3, ev_view e3 = (ev_view (w_ev w3)) <| ev_in := f |> ->
        wp bufreadcb (fun _ w4 =>
          a_stdout (w_app w4) = a_stdout (w_app w) ++
            [OutMark ch_minus; OutMark ch_plus; OutMark ch_lt] ++ map OutData (payloads [f]) /\
          outstanding (w_s w4) = Z.of_nat (length l) /\ s_va (w_s w4) = 0 /\ l.*2 `suffix_of` txq (w_s w4))
          (w3 <| w_ev := e3 |>)) (w2 <| w_ev := e2 |>)) (resumed w1)) w.
Proof.
  intros Hl Hh Ht Hsp Hm Hcf Hr He Hlen Hf Hnr Hty. eapply wp_mono; [by apply lost_resumed|].
  intros [] w1 (Hl1 & Hm1 & Ea1 & Es1). rewrite Hm in Hm1. eapply wp_mono; [by eapply connect_opens|].
  intros [] w2 [Ho Ea2] e2 He2. rewrite Ea1 in Ea2.
  eapply wp_mono; [apply (startcon_activates w2 e2 l); [done|rewrite Ea2; by apply list_rep_printed|done]|].
  intros [] w3 [Hac Ea3] e3 He3. rewrite Ea2, printed_printed in Ea3. destruct (ac_seq _ Hac) as (Evs & Eva & Evr).
  eapply wp_mono; [apply (ack_frame_wakes l f)|].
  - destruct (activated_between _ Hac) as [[] ? ?]. by split; [split|..].
  - cbn. rewrite Ea3. by apply list_rep_printed.
  - cbn. by rewrite (ac_k _ Hac).
  - split; cbn; rewrite ?Evs, ?Evr; done.
  - cbn. by rewrite He3.
  - intros [] w4 [_ Hw]. pose proof (wk_stdout _ _ _ _ Hw) as Eo. cbn in Eo. unfold confirmation in Eo.
    rewrite Ea3 in Eo. cbn in Eo. rewrite He, <- !app_assoc in Eo. split_and!; [exact Eo|apply Hw| |apply Hw].
    by rewrite (wk_va _ _ _ _ Hw).
Qed.
End lost.

(** ** Standard input is given up *)
Section stalled.
Context {E : Type} {L : Libevent E} {LL : LibeventLaws E}.
Implicit Types w : world E client fptr.

(** Standard input is not watched, and nothing is outstanding whose
    acknowledgement would change that. *)
Record stalled w : Prop := {
  sl_good : good w;
  sl_mem : w_mem w = [];
  sl_left : s_left (w_s w) = 0;
  sl_none : outstanding (w_s w) = 0;
  sl_user : ev_armed (ev_view (w_ev w)) !! EvUser = None;
}.

(** What happens on a connection without data: T2 and T3 expire, and the
    frames of the tests arrive. *)
Inductive tested w : world E client fptr -> Prop :=
  | tested_t2 w' : t2_timer_run w = Done (tt, w') -> tested w w'
  | tested_t3 w' : t3_timer_run w = Done (tt, w') -> tested w w'
  | tested_frame fn e w' :
      fn = TESTACT \/ fn = TESTCON -> ev_view e = (ev_view (w_ev w)) <| ev_in := hdr_bytes (uframe_hdr fn) |> ->
      bufreadcb (w <| w_ev := e |>) = Done (tt, w') -> tested w w'.

Definition still_stalled w w' : Prop := stalled w' /\ w_app w' = w_app w.

Lemma t2_stalled w : stalled w -> wp t2_timer_run (fun _ w' => still_stalled w w') w.
Proof.
  intros [[Hl Hs Ha Hn] Hm Hle Ho Hu]. unfold t2_timer_run, iecsock_sframe_send, bump_xmit. sess_steps.
  split; [|done]. split; try done; [|cbn; by rewrite view_write]. split; [done| |done|done].
  pose proof (inv_w _ Hs). pose proof (inv_vr _ Hs). destruct Hs. split; try done. cbn. rewrite sdist_refl. lia.
Qed.

Lemma t3_stalled w : stalled w -> wp t3_timer_run (fun _ w' => still_stalled w w') w.
Proof.
  intros [[Hl Hs Ha Hn] Hm Hle Ho Hu]. unfold t3_timer_run, t1_timer_start, iecsock_uframe_send, bump_xmit. sess_steps.
  split; [|done]. split; try done.
  - split; [done| |done|done]. by destruct Hs.
  - cbn. rewrite view_write, view_add. cbn. by rewrite lookup_insert_ne.
Qed.

(** The handler of the tests touches neither the program nor the send side. *)
Definition same_send w w' : Prop :=
  w_app w' = w_app w /\ s_va (w_s w') = s_va (w_s w) /\ s_vs (w_s w') = s_vs (w_s w) /\
  ev_armed (ev_view (w_ev w')) !! EvUser = ev_armed (ev_view (w_ev w)) !! EvUser.

Lemma test_frame_recv fn b w :
  fn = TESTACT \/ fn = TESTCON -> uframe_func (bh b) = fn -> w_live w = true ->
  wp (iecsock_uframe_recv b) (fun _ w' => same_send w w') w.
Proof.
  intros Hfn Hf Hl. unfold iecsock_uframe_recv, iecsock_uframe_send, bump_xmit, t1_timer_stop, t3_timer_stop. sess_steps.
  rewrite Hf. destruct Hfn as [-> | ->]; sess_steps.
  - apply wp_when; intros _; sess_steps; split_and!; try done; cbn; rewrite ?view_del, view_write; cbn;
      by rewrite ?lookup_delete_ne.
  - destruct (negb _); sess_steps; split_and!; try done. cbn. rewrite view_del. cbn. by rewrite lookup_delete_ne.
Qed.

Lemma test_frame_ok fn :
  frame_ok (hdr_bytes (uframe_hdr fn)) /\ hdr_of_bytes (hdr_bytes (uframe_hdr fn)) = uframe_hdr fn.
Proof. destruct (uframe_hdr_read fn) as (Hh & _ & _ & Hlen & Hst). by apply short_frame_ok. Qed.

Lemma frame_stalled fn e w :
  fn = TESTACT \/ fn = TESTCON -> stalled w -> ev_view e = (ev_view (w_ev w)) <| ev_in := hdr_bytes (uframe_hdr fn) |> ->
  acceptable (w_s w) (uframe_hdr fn) = true ->
  wp bufreadcb (fun _ w' => still_stalled w w') (w <| w_ev := e |>).
Proof.
  intros Hfn [Hg Hm Hle Ho Hu] He Hacc. destruct (test_frame_ok fn) as [Hf Eh].
  destruct (uframe_hdr_read fn) as (_ & Hft & Hfun & _ & _).
  assert (good (w <| w_ev := e |>)) as Hge by by destruct Hg.
  apply (bufreadcb_one (hdr_bytes (uframe_hdr fn))); [by apply good_sound|done|done|cbn; by rewrite He|]. intros e1 z He1. cbn in He1.
  destruct (load_has_frame _ e1 _ (good_sess _ Hge) Hf) as [Hhf _]. pose proof (load_good _ e1 _ Hge Hf) as Hgl.
  eapply wp_mono; [apply wp_and; [by apply (frame_recv_wp _ (hdr_of_bytes (hdr_bytes (uframe_hdr fn))))|]|].
  { apply (frame_recv_start _ e1 _ (fun _ w' => same_send w w')); [by apply good_sound|done..|]. intros w1 Hg1 _ Es1 Ea1 Ev1.
    unfold frame_handler. rewrite Eh, Hft. cbn zeta iota. sess_step.
    eapply wp_mono; [by apply (test_frame_recv fn); [..|apply Hg1]|]. intros r w' (H1 & H2 & H3 & H4).
    unfold free_buf. sess_steps. unfold same_send. cbn -[ev_view]. rewrite H1, H2, H3, H4, Es1, Ea1, Ev1, He1, He.
    split_and!; try done. cbn. by rewrite lookup_insert_ne. }
  rewrite Eh. intros r w' [(-> & _ & _ & _ & Hg' & Hk & _) (H1 & H2 & H3 & H4)].
  change (acceptable _ _) with (acceptable (w_s w) (uframe_hdr fn)). rewrite Hacc.
  split_and!; [done|apply Hg'|by rewrite (keeps_in _ _ Hk); cbn; rewrite He1|]. split; [|done]. split.
  - by apply rx_reset_good.
  - cbn. by apply (keeps_mem _ _ Hk).
  - done.
  - unfold outstanding in *. cbn. congruence.
  - cbn. rewrite view_setwatermark. cbn. congruence.
Qed.

Lemma tested_stalled w w' : stalled w -> tested w w' -> still_stalled w w'.
Proof.
  intros Hst [w1 Hr|w1 Hr|fn e w1 Hfn He Hr].
  - exact (wp_run _ _ _ _ _ Hr (t2_stalled w Hst)).
  - exact (wp_run _ _ _ _ _ Hr (t3_stalled w Hst)).
  - destruct (acceptable (w_s w) (uframe_hdr fn)) eqn:Hacc.
    { exact (wp_run _ _ _ _ _ Hr (frame_stalled fn e w Hfn Hst He Hacc)). }
    destruct (test_frame_ok fn) as [Hf Eh], Hst as [[Hl Hs Ha Hn] Hm Hle _ _].
    rewrite (refused_frame_faults (hdr_bytes (uframe_hdr fn)) []) in Hr; [done|by split|done|done| |done|by rewrite Eh].
    cbn. by rewrite He, app_nil_r.
Qed.

Lemma rtc_tested_stalled w w' : stalled w -> rtc tested w w' -> still_stalled w w'.
Proof.
  intros Hst Hrtc. induction Hrtc as [w|w w1 w2 Hstep _ IH]; [by split|].
  destruct (tested_stalled _ _ Hst Hstep) as [Hst1 E1]. destruct (IH Hst1) as [Hst2 E2]. split; [done|congruence].
Qed.

(** A read that does not end a line, with the list's size at the limit. *)
Lemma part_of_line_wp c rest w :
  w_live w = true -> a_rbuf (w_app w) = [] -> a_stdin (w_app w) = c :: rest -> c <> [] -> no_nl c ->
  (length c < sizeof_rbuf)%nat -> a_curlistsize (w_app w) = limlistsize ->
  wp stdin_read (fun _ w' =>
    w' = w <| w_app := (w_app w) <| a_rbuf := c |> <| a_stdin := rest |> |> <| w_ev := event_del EvUser (w_ev w) |>) w.
Proof.
  intros Hl Hb Hin Hne Hnl Hlen Hcur. unfold stdin_read, geta. sess_steps. rewrite Hin.
  destruct (length (concat (c :: rest))) as [|fuel] eqn:Hfuel.
  { destruct c; [done|]. cbn in Hfuel. lia. }
  cbn [stdin_loop]. unfold read_stdin, geta, seta. sess_steps. rewrite Hin, Hb. sess_steps. cbn [length].
  rewrite Nat.sub_0_r, Nat.min_l by lia. replace (length c =? 0)%nat with false by by destruct c.
  sess_steps. cbn [w_app upd upd_w_app a_rbuf upd_a_rbuf upd_a_stdin app].
  rewrite take_ge, drop_ge by lia. cbn [length Nat.eqb].
  assert (forall n, do_lines (E:=E) n c = mret (Some c)) as Hdl.
  { intros n. destruct n; cbn [do_lines]; by rewrite split_nl_none. }
  rewrite Hdl. sess_steps. replace (length c =? sizeof_rbuf)%nat with false by (symmetry; apply Nat.eqb_neq; lia).
  cbn -[ev_view]. rewrite Hcur. cbn -[ev_view]. sess_steps. done.
Qed.

(** C39: Reading stalls.  The size of the waiting list is only ever counted up;
    once the limit has been reached and the list has been sent and
    acknowledged, a read that gets a part of a line, and so sends nothing, turns
    the watch on standard input off.  Nothing is outstanding, so no
    acknowledgement comes to turn it on again: whatever the timers and the tests
    of the connection do from then on, however often, the session lives and
    standard input is not read any more. *)
Theorem stdin_stalls c rest w :
  between w -> list_rep (w_app w) [] -> outstanding (w_s w) = 0 -> a_curlistsize (w_app w) = limlistsize ->
  a_rbuf (w_app w) = [] -> a_stdin (w_app w) = c :: rest -> c <> [] -> no_nl c -> (length c < sizeof_rbuf)%nat ->
  wp user_fires (fun _ w1 => a_rbuf (w_app w1) = c /\ a_stdin (w_app w1) = rest /\
    ev_out (ev_view (w_ev w1)) = ev_out (ev_view (w_ev w)) /\
    forall w2, rtc tested w1 w2 ->
      w_live w2 = true /\ w_app w2 = w_app w1 /\ outstanding (w_s w2) = 0 /\
      ev_armed (ev_view (w_ev w2)) !! EvUser = None) w.
Proof.
  intros [[Hl Hs Hm Ha Hq Hue] Hh Hle] Hr Ho Hcur Hb Hin Hne Hnl Hlen. unfold user_fires. sess_steps.
  eapply wp_mono; [by apply (part_of_line_wp c rest)|]. intros [] w1 ->. split_and!; [done|done| |].
  { cbn. by rewrite !view_del. }
  intros w2 Hrtc. match type of Hrtc with rtc _ ?x _ => set (w1 := x) in * end.
  assert (stalled w1) as Hst.
  { split; try done; [split; [done|done|by exists []; destruct Hr|intros []; cbn; set_solver]|].
    cbn. rewrite !view_del. cbn. apply lookup_delete_eq. }
  destruct (rtc_tested_stalled _ _ Hst Hrtc) as [[[Hl2 _ _ _] _ _ Ho2 Hu2] Ea]. by split_and!.
Qed.
End stalled.

(** ** Sample lives *)

(** A client that has just been started, with the message of [reading_client]. *)
Definition started : world evview client fptr := client_world <| w_app := reading_client |>.

Lemma session_opens_witness :
  wp (connect_writecb false 0) (fun _ w1 => ev_out (ev_view (w_ev w1)) = startact /\
    forall e, ev_view e = (ev_view (w_ev w1)) <| ev_in := startcon |> ->
      wp bufreadcb (fun _ w2 => activated w2 /\ w_app w2 = printed [OutMark ch_plus] (w_app started) /\
        wp user_fires (passed_on (L' := evview_libevent) (HS' := server_hook_spec) [asdu1; asdu2; asdu3] w2) w2)
        (w1 <| w_ev := e |>)) started.
Proof.
  destruct reading_client_fed as (_ & [H1 H2 H3] & H4 & H5).
  apply (session_opens 3 sample_addr [asdu1; asdu2; asdu3] started); [reflexivity..| |by split|exact H4|exact H5].
  split; [by apply empty_list_rep|reflexivity|reflexivity|reflexivity].
Defined.

Lemma connection_lost_witness :
  let w := sample_world queue2 [] client_init in
  (wp (buferrorcb 17) (fun _ w' =>
     w_app w' = printed [OutMark ch_minus] (w_app w) /\ closed_for (next_session w) w w') w /\
   wp (t1_timer_run 17) (fun _ w' =>
     w_app w' = printed [OutMark ch_minus] (w_app w) /\ closed_for (next_session w) w w') w) /\
  length (next_session w) = 1%nat.
Proof. intros w. split; [exact (connection_lost 17 w eq_refl eq_refl)|reflexivity]. Defined.

Lemma lost_message_confirmed_witness :
  let w := sample_world [] [] waiting_client in
  wp (buferrorcb 17) (fun _ w1 =>
    wp (connect_writecb false 0) (fun _ w2 => forall e2, ev_view e2 = (ev_view (w_ev w2)) <| ev_in := startcon |> ->
      wp bufreadcb (fun _ w3 => forall e3, ev_view e3 = (ev_view (w_ev w3)) <| ev_in := frame1 |> ->
        wp bufreadcb (fun _ w4 =>
          a_stdout (w_app w4) = a_stdout (w_app w) ++
            [OutMark ch_minus; OutMark ch_plus; OutMark ch_lt] ++ map OutData (payloads [frame1]) /\
          outstanding (w_s w4) = Z.of_nat (length waiting2) /\ s_va (w_s w4) = 0 /\
          waiting2.*2 `suffix_of` txq (w_s w4))
          (w3 <| w_ev := e3 |>)) (w2 <| w_ev := e2 |>)) (resumed w1)) w.
Proof.
  intros w. apply (lost_message_confirmed 17 waiting2 frame1 w); try reflexivity.
  - exact waiting_rep.
  - vm_compute. discriminate.
  - apply frame_okb_ok. reflexivity.
  - right. split; reflexivity.
Defined.

(** Text on standard input, in the given pieces. *)
Definition fed_world (pieces : list bytes) : world evview client fptr :=
  sample_world [] [] (client_init <| a_stdin := pieces |>).

Lemma arrived_between f (w : world evview client fptr) : between w -> between (arrived f w).
Proof. intros [[] ? ?]. by split; [split|..]. Qed.

(** Whatever [stdin_read] has made of it, the session is between two frames. *)
Lemma fed_between pieces ds f w :
  Forall (fun c => c <> []) pieces -> Forall asdu_ok ds -> concat pieces = enc_all ds ++ end_mark ->
  stdin_read (fed_world pieces) = Done (tt, w) ->
  inactive (w_s w) = false -> s_write_q (w_s w) = [] -> s_hooks (w_s w) = no_hooks -> s_left (w_s w) = 0 ->
  between (arrived f w) /\ exists l, list_rep (w_app (arrived f w)) l /\
    (length (txq (w_s w)) + length l <= length ds)%nat /\ (length l <= size (a_nodes (w_app w)))%nat.
Proof.
  intros Hch Hds Ht Hrun Ha Hq Hh Hle.
  assert (feeding 0 [] (fed_world pieces)) as Hf0.
  { split; [done|apply idle_inv|done|done| |by left|done]. exists [].
    split_and!; [by apply empty_list_rep|done|by left|done|done]. }
  assert (Client.reading (fed_world pieces)) as Hr0 by (split; cbn; [unfold no_nl; set_solver|unfold sizeof_rbuf; lia|done]).
  pose proof (wp_run _ _ _ _ _ Hrun (stdin_read_wp 0 [] ds end_mark _ Hf0 Hr0 Hds (or_intror eq_refl) Ht))
    as (ds1 & ds2 & -> & [Hl Hs Hm _ (l & Hr & _ & _ & Eq & _) _ Hu] & _).
  split; [by apply arrived_between; split; [split|..]|]. exists l. split_and!; [done| |].
  - cbn [app] in Eq. rewrite length_app, <- Eq, length_app, length_fmap. lia.
  - destruct Hr as [Hc Hn _]. by eapply chain_size.
Qed.

Definition ack_frame (n : Z) : bytes := hdr_bytes (sframe_hdr n).

(** A message of fourteen ASDUs has been read; the first twelve are sent. *)
Definition long_message : list bytes := replicate 14 asdu3.
Definition long_pieces : list bytes := [enc_all long_message ++ end_mark].
Definition long_read : world evview client fptr := arrived (ack_frame 12) (after stdin_read (fed_world long_pieces)).

Lemma replicate_ok n : Forall asdu_ok (replicate n asdu3).
Proof. apply Forall_replicate. by apply asdu_okb. Qed.

Lemma long_read_between :
  between long_read /\ exists l, list_rep (w_app long_read) l /\ (12 + length l <= 14)%nat.
Proof.
  destruct (fed_between long_pieces long_message (ack_frame 12) (after stdin_read (fed_world long_pieces)))
    as (Hb & l & Hr & Hlen & _);
    [by apply Forall_singleton|apply replicate_ok|vm_compute; reflexivity..|].
  split; [exact Hb|]. exists l. split; [exact Hr|].
  assert (length (txq (w_s (after stdin_read (fed_world long_pieces)))) = 12%nat) as E by (vm_compute; reflexivity).
  rewrite E in Hlen. exact Hlen.
Qed.

Lemma confirmed_unacknowledged_witness :
  exists l : list (nat * bytes), l <> [] /\
  wp bufreadcb (fun _ w1 =>
    let out := a_stdout (w_app long_read) ++ OutMark ch_lt :: map OutData (payloads [ack_frame 12]) in
    a_stdout (w_app w1) = out /\
    outstanding (w_s w1) = Z.of_nat (length l) /\ l.*2 `suffix_of` txq (w_s w1) /\
    wp (buferrorcb 17) (fun _ w2 => a_stdout (w_app w2) = out ++ [OutMark ch_minus] /\
      list_rep (w_app w2) [] /\ txq (w_s w2) = [] /\ w_bufs w2 = balance w1) w1) long_read.
Proof.
  destruct long_read_between as (Hb & l & Hr & Hlen). exists l. split.
  - intros ->. destruct Hr as [Hc _ _]. vm_compute in Hc. discriminate.
  - apply (confirmed_unacknowledged l (ack_frame 12) 17 long_read Hb Hr).
    + vm_compute. reflexivity.
    + replace (s_k (w_s long_read)) with 12 by (vm_compute; reflexivity). lia.
    + split; [apply frame_okb_ok; vm_compute; reflexivity|vm_compute; reflexivity|left; vm_compute; reflexivity].
    + vm_compute. reflexivity.
Defined.

(** Twenty-four ASDUs fill the window and the list; all are acknowledged, and
    then a part of the next line is there. *)
Definition limit_message : list bytes := replicate 25 asdu3.
Definition limit_pieces : list bytes :=
  [enc_all (replicate 24 asdu3); take 2 (enc asdu3); drop 2 (enc asdu3) ++ end_mark].
Definition limit_read : world evview client fptr := arrived (ack_frame 12) (after stdin_read (fed_world limit_pieces)).
Definition limit_sent : world evview client fptr := arrived (ack_frame 24) (after bufreadcb limit_read).
Definition limit_idle : world evview client fptr := arrived [] (after bufreadcb limit_sent).

Lemma acked_sample l n f (w w' : world evview client fptr) :
  between w -> list_rep (w_app w) l -> Z.of_nat (length l) <= s_k (w_s w) ->
  bufreadcb w = Done (tt, w') -> ev_in (ev_view (w_ev w)) = ack_frame n ->
  s_vs (w_s w) = n -> frame_okb (ack_frame n) = true -> ic_nr (hdr_of_bytes (ack_frame n)) = n ->
  type_of (ack_frame n) = FRAME_TYPE_S ->
  between (arrived f w') /\ list_rep (w_app (arrived f w')) [] /\ outstanding (w_s (arrived f w')) = Z.of_nat (length l).
Proof.
  intros Hb Hr Hlen Hrun Hin Hvs Hok Hnr Hty.
  destruct (wp_run _ _ _ _ _ Hrun (ack_frame_wakes l (ack_frame n) w Hb Hr Hlen
    (Build_acks_all _ _ (frame_okb_ok _ Hok) (eq_trans Hnr (eq_sym Hvs)) (or_introl Hty)) Hin)) as [Hb' []].
  split_and!; [by apply arrived_between|done|done].
Qed.

Lemma limit_idle_between : between limit_idle /\ list_rep (w_app limit_idle) [] /\ outstanding (w_s limit_idle) = 0.
Proof.
  destruct (fed_between limit_pieces limit_message (ack_frame 12) (after stdin_read (fed_world limit_pieces)))
    as (Hb & l & Hr & _ & Hlen);
    [repeat (apply Forall_cons; split; [vm_compute; discriminate|]); constructor|apply replicate_ok|vm_compute; reflexivity..|].
  assert (size (a_nodes (w_app (after stdin_read (fed_world limit_pieces)))) = 12%nat) as E by (vm_compute; reflexivity).
  rewrite E in Hlen. assert (s_k (w_s limit_read) = 12) as Ek by (vm_compute; reflexivity).
  destruct (acked_sample l 12 (ack_frame 24) limit_read (after bufreadcb limit_read)) as (Hb1 & Hr1 & _);
    [exact Hb|exact Hr|rewrite Ek; lia|vm_compute; reflexivity..|].
  apply (acked_sample [] 24 [] limit_sent (after bufreadcb limit_sent));
    [exact Hb1|exact Hr1|vm_compute; discriminate|vm_compute; reflexivity..].
Qed.

Lemma stdin_stalls_witness :
  ev_armed (ev_view (w_ev limit_idle)) !! EvUser = Some None /\
  wp user_fires (fun _ w1 => a_rbuf (w_app w1) = take 2 (enc asdu3) /\
    a_stdin (w_app w1) = [drop 2 (enc asdu3) ++ end_mark] /\
    ev_out (ev_view (w_ev w1)) = ev_out (ev_view (w_ev limit_idle)) /\
    forall w2, rtc tested w1 w2 ->
      w_live w2 = true /\ w_app w2 = w_app w1 /\ outstanding (w_s w2) = 0 /\
      ev_armed (ev_view (w_ev w2)) !! EvUser = None) limit_idle.
Proof.
  split; [vm_compute; reflexivity|]. destruct limit_idle_between as (Hb & Hr & Ho).
  apply (stdin_stalls (take 2 (enc asdu3)) [drop 2 (enc asdu3) ++ end_mark] limit_idle Hb Hr Ho);
    [vm_compute; reflexivity|vm_compute; reflexivity|vm_compute; reflexivity|vm_compute; discriminate| |vm_compute; lia].
  apply (bool_decide_unpack _). vm_compute. exact I.
Defined.

Lemma early_ack_unprepared_witness :
  let w := after (connect_writecb false 0) client_world in
  bufreadcb (w <| w_ev := (w_ev w) <| ev_in := ack_frame 0 |> |>) = Faulted Uninitialised.
Proof.
  intros w. destruct (connect_opens (E:=evview) 3 sample_addr client_world) as [Ho Ea]; [reflexivity..|].
  apply (early_ack_unprepared (ack_frame 0) w); [exact Ho|by apply empty_list_rep| |reflexivity].
  split; [apply frame_okb_ok; vm_compute; reflexivity|vm_compute; reflexivity|left; vm_compute; reflexivity].
Defined.
